(** * threat2yar: rule curation and regex synthesis

    A shallow embedding of [validate_yara.py], [generate_regex.py] and
    [common.py], with the properties of the routing pass and of the
    synthesis pass that the design document states about them.

    Conventions of the embedding.
    - A Python [str] is a [string]; a character is a code point below 256.
    - The complexity score is a Python number built from integers and the
      literals [0.5] and [1.5]; every value it takes is a dyadic rational
      that a double holds exactly, so it is computed in [Q].
    - The file system, the validator binary and the chat oracle are the
      outside world: the file system is a record of finite maps, the
      validator and the oracle are functions given to the model. *)

From Stdlib Require Import String Ascii List ZArith QArith Lia Bool.
From stdpp Require Import gmap strings pretty.
Import ListNotations.

Close Scope Q_scope.

(** ** Python string primitives *)

Module Py.

Definition ord (c : ascii) : nat := nat_of_ascii c.

Definition dquote : ascii := ascii_of_nat 34.
Definition newline : ascii := ascii_of_nat 10.
Definition backslash : ascii := ascii_of_nat 92.

(** [str.isspace], which is also the class [\s] of [re]:
    code points 9-13, 28-32, 133 and 160. *)
Definition isspace (c : ascii) : bool :=
  let n := ord c in
  ((9 <=? n) && (n <=? 13)) || ((28 <=? n) && (n <=? 32))
  || (n =? 133) || (n =? 160).

(** The class [\d]. *)
Definition isdigit (c : ascii) : bool :=
  let n := ord c in (48 <=? n) && (n <=? 57).

(** The class [[0-9A-Fa-f]]. *)
Definition ishex (c : ascii) : bool :=
  let n := ord c in
  ((48 <=? n) && (n <=? 57)) || ((65 <=? n) && (n <=? 70))
  || ((97 <=? n) && (n <=? 102)).

(** [c != '\n'], the class of [.] without DOTALL and of [[^\n]]. *)
Definition not_newline (c : ascii) : bool := negb (Ascii.eqb c newline).

Definition len (s : string) : nat := String.length s.

(** [s.startswith(p)] *)
Definition startswith (s p : string) : bool := String.prefix p s.

(** [sub in s] *)
Fixpoint contains (sub s : string) : bool :=
  String.prefix sub s
  || match s with
     | EmptyString => false
     | String _ s' => contains sub s'
     end.

(** [s[n:]] for [0 <= n] *)
Fixpoint drop (n : nat) (s : string) : string :=
  match n, s with
  | O, _ => s
  | S _, EmptyString => EmptyString
  | S k, String _ s' => drop k s'
  end.

(** [s[:n]] for [0 <= n] *)
Fixpoint take (n : nat) (s : string) : string :=
  match n, s with
  | O, _ => EmptyString
  | S _, EmptyString => EmptyString
  | S k, String c s' => String c (take k s')
  end.

(** [s[a:b]] for [0 <= a] and [0 <= b]; empty when [b <= a]. *)
Definition slice (s : string) (a b : Z) : string :=
  take (Z.to_nat b - Z.to_nat a) (drop (Z.to_nat a) s).

(** [s.endswith(p)] *)
Definition endswith (s p : string) : bool :=
  (len p <=? len s) && String.eqb (drop (len s - len p) s) p.

Fixpoint find_from (sub s : string) (i : Z) : Z :=
  if String.prefix sub s then i
  else match s with
       | EmptyString => (-1)%Z
       | String _ s' => find_from sub s' (i + 1)%Z
       end.

(** [s.find(sub)]: the lowest index, or -1. *)
Definition find (s sub : string) : Z := find_from sub s 0.

Fixpoint rfind_from (sub s : string) (i : Z) : Z :=
  match s with
  | EmptyString => if String.prefix sub EmptyString then i else (-1)%Z
  | String _ s' =>
      let r := rfind_from sub s' (i + 1)%Z in
      if (r =? -1)%Z then (if String.prefix sub s then i else (-1)%Z) else r
  end.

(** [s.rfind(sub)]: the highest index, or -1. *)
Definition rfind (s sub : string) : Z := rfind_from sub s 0.

Fixpoint lstrip (s : string) : string :=
  match s with
  | EmptyString => EmptyString
  | String c s' => if isspace c then lstrip s' else s
  end.

Fixpoint rstrip (s : string) : string :=
  match s with
  | EmptyString => EmptyString
  | String c s' =>
      let r := rstrip s' in
      if isspace c && String.eqb r EmptyString then EmptyString
      else String c r
  end.

(** [s.strip()] *)
Definition strip (s : string) : string := rstrip (lstrip s).

(** [sep.join(l)] *)
Fixpoint join (sep : string) (l : list string) : string :=
  match l with
  | [] => EmptyString
  | [x] => x
  | x :: rest => x +:+ sep +:+ join sep rest
  end.

(** Truth value of a [str] or of [None]. *)
Definition truthy (o : option string) : bool :=
  match o with
  | Some s => negb (String.eqb s EmptyString)
  | None => false
  end.

(** [any(c in s for c in l)] *)
Definition any_in (l : list string) (s : string) : bool :=
  existsb (fun c => contains c s) l.

End Py.

(** ** The regular expressions of the source

    Each pattern of the source is a matcher that tries the pattern at the
    head of a string.  None of the patterns can match the empty string, and
    in each of them a greedy or lazy repetition is followed by a character
    that the repeated class excludes, so the backtracking of [re] has one
    candidate per start position and the matchers are deterministic. *)

Module Re.
Import Py.

(** Longest prefix of characters in the class [p], and the rest. *)
Fixpoint span (p : ascii -> bool) (s : string) : string * string :=
  match s with
  | EmptyString => (EmptyString, EmptyString)
  | String c s' =>
      if p c then let (a, b) := span p s' in (String c a, b)
      else (EmptyString, s)
  end.

(** [re.findall]: leftmost matches, not overlapping.  [m] gives the
    reported group and the length of the whole match, which is positive. *)
Fixpoint scan {A} (m : string -> option (A * nat)) (s : string)
    (skip : nat) : list A :=
  match s with
  | EmptyString => []
  | String _ s' =>
      match skip with
      | S k => scan m s' k
      | O =>
          match m s with
          | Some (a, n) => a :: scan m s' (n - 1)
          | None => scan m s' 0
          end
      end
  end.

Definition findall {A} (m : string -> option (A * nat)) (s : string)
    : list A := scan m s 0.

(** [re.search]: the leftmost match, or [None]. *)
Fixpoint search {A} (m : string -> option A) (s : string) : option A :=
  match m s with
  | Some a => Some a
  | None =>
      match s with
      | EmptyString => None
      | String _ s' => search m s'
      end
  end.

(** [r'\$[^\s]+ = ([^\n]+)'] *)
Definition string_assignment (s : string) : option (string * nat) :=
  match s with
  | String c s1 =>
      if Ascii.eqb c "$" then
        let (name, s2) := span (fun c => negb (isspace c)) s1 in
        if (0 <? len name) && String.prefix " = " s2 then
          let (value, _) := span not_newline (drop 3 s2) in
          if 0 <? len value
          then Some (value, 1 + len name + 3 + len value)
          else None
        else None
      else None
  | EmptyString => None
  end.

(** The pattern of [re.search] for the condition: the literal
    [condition:], then [\s*], then the group [.*]; the result is the group. *)
Definition condition_clause (s : string) : option string :=
  if String.prefix "condition:" s then
    let (_, s1) := span isspace (drop 10 s) in
    let (g, _) := span not_newline s1 in
    Some g
  else None.

(** [re.match(r'{[0-9A-Fa-f\s]+}', s)] *)
Definition byte_array_pattern (s : string) : bool :=
  match s with
  | String c s1 =>
      Ascii.eqb c "{"
      && let (body, s2) := span (fun c => ishex c || isspace c) s1 in
         (0 <? len body) && String.prefix "}" s2
  | EmptyString => false
  end.

(** [re.match] of a double quote, [.*] and a double quote. *)
Definition human_readable_pattern (s : string) : bool :=
  match s with
  | String c s1 =>
      Ascii.eqb c dquote
      && let (line, _) := span not_newline s1 in
         contains (String dquote EmptyString) line
  | EmptyString => false
  end.

(** [re.search(r'cve_id = "CVE-\d+-XXXX"', s)], tried at the head of [s] *)
Definition cve_placeholder (s : string) : option unit :=
  let opening := "cve_id = " +:+ String dquote "CVE-" in
  if String.prefix opening s then
    let (digits, s1) := span isdigit (drop (len opening) s) in
    if (0 <? len digits) && String.prefix ("-XXXX" +:+ String dquote "") s1
    then Some tt else None
  else None.

(** [r'CVE-(\d{4})-\d+'], group 1 *)
Definition cve_token (s : string) : option string :=
  if String.prefix "CVE-" s then
    let s1 := drop 4 s in
    let year := take 4 s1 in
    let (digits, _) := span isdigit (drop 5 s1) in
    if (len year =? 4) && forallb isdigit (list_ascii_of_string year)
       && String.prefix "-" (drop 4 s1) && (0 <? len digits)
    then Some year else None
  else None.

(** The alternation of [is_regex_too_complex] for quantifiers: a star, a
    plus, a question mark, or an opening brace, one or more of [[\d,]] and
    a closing brace. *)
Definition quantifier_token (s : string) : option (unit * nat) :=
  match s with
  | String c s1 =>
      if Ascii.eqb c "*" || Ascii.eqb c "+" || Ascii.eqb c "?"
      then Some (tt, 1)
      else if Ascii.eqb c "{" then
        let (body, s2) := span (fun c => isdigit c || Ascii.eqb c ",") s1 in
        if (0 <? len body) && String.prefix "}" s2
        then Some (tt, 2 + len body) else None
      else None
  | EmptyString => None
  end.

(** A literal opening, a lazy [.*?] and a literal closing character: the
    shape of the five advanced constructs and of the character class. *)
Definition lazy_group (opening : string) (closing : ascii) (s : string)
    : option (unit * nat) :=
  if String.prefix opening s then
    let (body, s2) :=
      span (fun c => not_newline c && negb (Ascii.eqb c closing))
           (drop (len opening) s) in
    if String.prefix (String closing EmptyString) s2
    then Some (tt, len opening + len body + 1) else None
  else None.

(** A backslash and one character other than a newline. *)
Definition escaped_character (s : string) : option (unit * nat) :=
  match s with
  | String c (String d _) =>
      if Ascii.eqb c backslash && not_newline d then Some (tt, 2) else None
  | _ => None
  end.

(** The alternation bar. *)
Definition alternation (s : string) : option (unit * nat) :=
  match s with
  | String c _ => if Ascii.eqb c "|" then Some (tt, 1) else None
  | EmptyString => None
  end.

(** The code fence of [generate_regex_for_cluster], under DOTALL: three
    backquotes, an optional [regex], [\s*], the lazy group [.+?], [\s*] and
    three backquotes.  [fence_tail] is the part after the group;
    [lazy_body] takes the shortest non-empty group; [ws_backtrack] is the
    greedy [\s*] before the group, giving characters back one at a time. *)
Definition fence_tail (t : string) : bool :=
  let (_, r) := span isspace t in String.prefix "```" r.

Fixpoint lazy_body (p : string) : option string :=
  match p with
  | EmptyString => None
  | String c p' =>
      if fence_tail p' then Some (String c EmptyString)
      else option_map (String c) (lazy_body p')
  end.

Fixpoint ws_backtrack (a : string) : option string :=
  match a with
  | EmptyString => None
  | String c a' =>
      if isspace c then
        match ws_backtrack a' with
        | Some g => Some g
        | None => lazy_body a
        end
      else lazy_body a
  end.

Definition code_fence (s : string) : option string :=
  if String.prefix "```" s then
    let s0 := drop 3 s in
    if String.prefix "regex" s0 then
      match ws_backtrack (drop 5 s0) with
      | Some g => Some g
      | None => ws_backtrack s0
      end
    else ws_backtrack s0
  else None.

End Re.

(** ** [validate_yara.calculate_complexity] *)

Definition byte_array_weight : Q := 3.
Definition code_snippet_weight : Q := 1.
Definition file_path_weight : Q := 1 # 2.
Definition all_of_multiplier : Q := 3 # 2.

Definition qlen (s : string) : Q := inject_Z (Z.of_nat (Py.len s)).

(** The [for string in strings] loop, with [total_complexity] threaded. *)
Fixpoint complexity_loop (strings : list string) (total_complexity : Q)
    : Q :=
  match strings with
  | [] => total_complexity
  | s :: rest =>
      if Py.len s <? 5 then complexity_loop rest total_complexity
      else
        let weight :=
          if Re.byte_array_pattern s then byte_array_weight
          else if Re.human_readable_pattern s then code_snippet_weight
          else file_path_weight in
        complexity_loop rest (total_complexity + qlen s * weight)%Q
  end.

Definition extract_strings (rule_content : string) : list string :=
  Re.findall Re.string_assignment rule_content.

Definition extract_condition (rule_content : string) : option string :=
  option_map Py.strip (Re.search Re.condition_clause rule_content).

Definition calculate_complexity (rule_content : string) : Q :=
  let strings := extract_strings rule_content in
  match extract_condition rule_content with
  | None => 0%Q
  | Some condition =>
      let total_complexity := complexity_loop strings 0%Q in
      if Py.contains "all of" condition && (1 <? length strings)
      then (total_complexity * all_of_multiplier)%Q
      else total_complexity
  end.

(** ** [common.py] *)

Definition extract_yara_rule (response_text : string) : string :=
  let start_index := Py.find response_text "rule " in
  let end_index := Py.rfind response_text "}" in
  if negb (start_index =? -1)%Z && negb (end_index =? -1)%Z
  then Py.strip (Py.slice response_text start_index (end_index + 1)%Z)
  else Py.strip response_text.

Definition error_conditions : list string :=
  [ "No suitable response";
    "Shellcode bytes here"; "/* bytes of the shellcode */";
    "$someString"; "$string1"; "$data"; "CHANGE_ME";
    "{ ? ? ? ? }"; "{ DD DD DD DD }";
    "$hashValue"; "hash_here";
    "$ip"; "ip_address_here";
    "domain.com"; "url_here";
    "/regex_pattern/"; "$regex";
    "$filePath"; "filepath_here";
    "$filename"; "filename.exe";
    "your_IMPHASH"; "$imphash";
    "CVE-XXXX-XXXX"; "CVE-????-????";
    "$condition"; "condition_here" ].

Definition is_unacceptable_yara_rule_response (yara_rule : string) : bool :=
  Py.any_in error_conditions yara_rule.

Definition trash_strings : list string :=
  [ "interesting string"; "INSERT INTERESTING STRING"; "shellcode bytes" ].

Definition is_unacceptable_string (str : string) : bool :=
  Py.any_in trash_strings str.

(** ** [config.py] *)

Record config := {
  YARA_COMPLEXITY_THRESHOLD : Z;
  OUTPUT_NON_CVE_FOLDER : string;
  OUTPUT_WEAK_RULES_FOLDER : string;
  OUTPUT_BROKEN_RULES_FOLDER : string;
  OUTPUT_CVE_YEAR_PREFIX : string;
  COPY_MODE : bool;
  SILENT_MODE : bool;
  FIX_BAD_RULES : bool;
  YARA_AUTHOR_NAME : string;
  MIN_CLUSTER_SIZE : nat;
  SMALL_STRING_MAX_LEN : nat;
  MEDIUM_STRING_MAX_LEN : nat;
  MAX_REGEXES_PER_RULE : nat;
  MAX_REGEX_LENGTH : nat;
  MIN_REGEX_LENGTH : nat;
  MAX_NESTED_QUANTIFIERS : nat;
  MAX_ADVANCED_CONSTRUCTS : nat;
  MAX_ESCAPED_CHARACTERS : nat;
  MAX_CLASSES_ALTERNATION : nat
}.

(** The values of [config.py] when no environment variable is set. *)
Definition default_config : config := {|
  YARA_COMPLEXITY_THRESHOLD := 100;
  OUTPUT_NON_CVE_FOLDER := "non-cve";
  OUTPUT_WEAK_RULES_FOLDER := "weak-rules";
  OUTPUT_BROKEN_RULES_FOLDER := "broken";
  OUTPUT_CVE_YEAR_PREFIX := "year-";
  COPY_MODE := true;
  SILENT_MODE := true;
  FIX_BAD_RULES := true;
  YARA_AUTHOR_NAME := "Generated by OpenAI and threat2yar for OPSWAT, Inc.";
  MIN_CLUSTER_SIZE := 10;
  SMALL_STRING_MAX_LEN := 20;
  MEDIUM_STRING_MAX_LEN := 100;
  MAX_REGEXES_PER_RULE := 10;
  MAX_REGEX_LENGTH := 150;
  MIN_REGEX_LENGTH := 20;
  MAX_NESTED_QUANTIFIERS := 3;
  MAX_ADVANCED_CONSTRUCTS := 2;
  MAX_ESCAPED_CHARACTERS := 10;
  MAX_CLASSES_ALTERNATION := 20
|}.

(** ** The outside world

    A file of the corpus either decodes to text or makes [read] raise.
    [root] holds the files of [YARA_FOLDER] itself, [folders] holds the
    files of its sub-folders under (folder, name), [dirs] is the set of
    sub-folders that exist, and [temp] is the directory of [tempfile].
    A name of [YARA_FOLDER] is a file when [root] has it, and a
    sub-folder when [root] does not have it and [dirs] does.  Sub-folder
    names are plain names, so a path in a sub-folder never denotes a file
    of the root, and sub-folders hold files only: the entries of
    [folders] stand under names of [dirs] that are not files. *)

Inductive file :=
  | Text (content : string)
  | Undecodable.

Inductive path :=
  | InRoot (name : string)
  | InFolder (folder name : string)
  | InTemp (k : nat).

Record filesystem := {
  root : gmap string file;
  folders : gmap (string * string) file;
  dirs : gset string;
  temp : gmap nat file
}.

Definition fs_lookup (fs : filesystem) (p : path) : option file :=
  match p with
  | InRoot name => root fs !! name
  | InFolder folder name => folders fs !! (folder, name)
  | InTemp k => temp fs !! k
  end.

Definition fs_write (p : path) (f : file) (fs : filesystem) : filesystem :=
  match p with
  | InRoot name =>
      {| root := <[name := f]> (root fs); folders := folders fs;
         dirs := dirs fs; temp := temp fs |}
  | InFolder folder name =>
      {| root := root fs; folders := <[(folder, name) := f]> (folders fs);
         dirs := dirs fs; temp := temp fs |}
  | InTemp k =>
      {| root := root fs; folders := folders fs;
         dirs := dirs fs; temp := <[k := f]> (temp fs) |}
  end.

Definition fs_remove (p : path) (fs : filesystem) : filesystem :=
  match p with
  | InRoot name =>
      {| root := delete name (root fs); folders := folders fs;
         dirs := dirs fs; temp := temp fs |}
  | InFolder folder name =>
      {| root := root fs; folders := delete (folder, name) (folders fs);
         dirs := dirs fs; temp := temp fs |}
  | InTemp k =>
      {| root := root fs; folders := folders fs;
         dirs := dirs fs; temp := delete k (temp fs) |}
  end.

Definition fs_mkdir (folder : string) (fs : filesystem) : filesystem :=
  {| root := root fs; folders := folders fs;
     dirs := {[folder]} ∪ dirs fs; temp := temp fs |}.

(** What [openai_client.chat.completions.create] gives back. *)
Inductive chat_reply :=
  | Choices (content : string)
  | NoChoices
  | ChatError.

(** What a run leaves behind besides the file system: the files it read,
    the validator runs, the requests to the oracle, the routing decisions
    that [move_or_copy_file] prints, the clusters for which the synthesis
    pass announces a regex, the patterns it appends to the batch, the
    improvement requests it announces and the master rules it writes. *)
Inductive event :=
  | Read (p : path)
  | Validate (p : path) (returncode : Z)
  | Ask (prompt : string)
  | Route (name folder : string)
  | Synthesis (cluster : list string)
  | Accepted (regex : string)
  | Improve (seq : nat)
  | Emit (filename : string) (text : string).

Record state := {
  fs : filesystem;
  trace : list event;
  asked : nat
}.

Inductive exn :=
  | FileNotFoundError
  | IsADirectoryError
  | NotADirectoryError
  | UnicodeDecodeError
  | RecursionError
  | APIError.

Inductive result (A : Type) :=
  | Ok (a : A) (st : state)
  | Raised (e : exn) (st : state).
Arguments Ok {A} a st.
Arguments Raised {A} e st.

Definition M (A : Type) := state -> result A.

Definition ret {A} (a : A) : M A := fun st => Ok a st.

Definition raise {A} (e : exn) : M A := fun st => Raised e st.

Definition bind {A B} (m : M A) (k : A -> M B) : M B :=
  fun st =>
    match m st with
    | Ok a st' => k a st'
    | Raised e st' => Raised e st'
    end.

Notation "x <- m ;; k" := (bind m (fun x => k))
  (at level 100, m at next level, right associativity).
Notation "m ;;; k" := (bind m (fun _ => k))
  (at level 100, right associativity).

Definition final {A} (r : result A) : state :=
  match r with
  | Ok _ st => st
  | Raised _ st => st
  end.

Definition emit (e : event) : M unit :=
  fun st => Ok tt {| fs := fs st; trace := e :: trace st; asked := asked st |}.

Definition modify_fs (f : filesystem -> filesystem) : M unit :=
  fun st => Ok tt {| fs := f (fs st); trace := trace st; asked := asked st |}.

Definition get_fs : M filesystem := fun st => Ok (fs st) st.

(** [os.path.exists] of a name directly under [YARA_FOLDER]: a file or
    a sub-folder. *)
Definition exists_in_root (fs0 : filesystem) (name : string) : bool :=
  match root fs0 !! name with
  | Some _ => true
  | None => bool_decide (name ∈ dirs fs0)
  end.

(** [os.path.isdir] of a path: a name of [YARA_FOLDER] that is a
    sub-folder and not a file. *)
Definition is_directory (fs0 : filesystem) (p : path) : bool :=
  match p with
  | InRoot name =>
      match root fs0 !! name with
      | Some _ => false
      | None => bool_decide (name ∈ dirs fs0)
      end
  | _ => false
  end.

(** What stands in the way of a file at [p]: in a sub-folder, the name of
    the sub-folder must be there, and must not be a file. *)
Definition parent_error (fs0 : filesystem) (p : path) : option exn :=
  match p with
  | InFolder folder _ =>
      match root fs0 !! folder with
      | Some _ => Some NotADirectoryError
      | None =>
          if bool_decide (folder ∈ dirs fs0) then None
          else Some FileNotFoundError
      end
  | _ => None
  end.

(** What [open] raises at a path where no file is: [NotADirectoryError]
    under a name that is a file, [IsADirectoryError] at a sub-folder,
    [FileNotFoundError] otherwise. *)
Definition no_file (fs0 : filesystem) (p : path) : exn :=
  match parent_error fs0 p with
  | Some e => e
  | None => if is_directory fs0 p then IsADirectoryError
            else FileNotFoundError
  end.

(** [open(p, 'r').read()] *)
Definition read_text (p : path) : M string :=
  fs0 <- get_fs ;;
  match fs_lookup fs0 p with
  | Some (Text content) => emit (Read p) ;;; ret content
  | Some Undecodable => raise UnicodeDecodeError
  | None => raise (no_file fs0 p)
  end.

(** [shutil.copy] between two paths: the source is opened first, then
    the destination. *)
Definition copy_file (src dst : path) : M unit :=
  fs0 <- get_fs ;;
  match fs_lookup fs0 src with
  | Some f =>
      match parent_error fs0 dst with
      | Some e => raise e
      | None => modify_fs (fs_write dst f)
      end
  | None => raise (no_file fs0 src)
  end.

(** [os.rename] and [shutil.move] between two paths; the folder of the
    destination is looked up before the source. *)
Definition move_file (src dst : path) : M unit :=
  fs0 <- get_fs ;;
  match parent_error fs0 dst with
  | Some e => raise e
  | None =>
      match fs_lookup fs0 src with
      | Some f => modify_fs (fun x => fs_write dst f (fs_remove src x))
      | None => raise FileNotFoundError
      end
  end.

(** [os.remove] *)
Definition remove_file (p : path) : M unit :=
  fs0 <- get_fs ;;
  match fs_lookup fs0 p with
  | Some _ => modify_fs (fs_remove p)
  | None => raise FileNotFoundError
  end.

(** [tempfile.NamedTemporaryFile(delete=False)] followed by [write]: a
    file of the temporary directory under a name not in use. *)
Definition write_temp (content : string) : M path :=
  fs0 <- get_fs ;;
  let k := fresh (dom (temp fs0)) in
  modify_fs (fs_write (InTemp k) (Text content)) ;;; ret (InTemp k).

(** ** [validate_yara.py]: the routing pass *)

Definition nl : string := String Py.newline EmptyString.

Section Routing.

(** The YARA binary, seen through [subprocess.run]: what it finds at the
    path decides the return code and the text on stderr. *)
Variable yara : option file -> Z * string.

(** The chat oracle: its reply to the [n]-th request of the run. *)
Variable chat : nat -> string -> chat_reply.

Variable cfg : config.

(** [openai_client.chat.completions.create] *)
Definition ask (prompt : string) : M chat_reply :=
  fun st =>
    Ok (chat (asked st) prompt)
       {| fs := fs st; trace := Ask prompt :: trace st;
          asked := S (asked st) |}.

(** [subprocess.run([YARA_BINARY_PATH, file_path, '.'])] *)
Definition run_yara (file_path : path) : M (Z * string) :=
  fs0 <- get_fs ;;
  let r := yara (fs_lookup fs0 file_path) in
  emit (Validate file_path (fst r)) ;;; ret r.

Definition initialize_folder (folder : string) : M unit :=
  fs0 <- get_fs ;;
  if exists_in_root fs0 folder then ret tt
  else modify_fs (fs_mkdir folder).

Definition move_or_copy_file (file_name sub_folder : string)
    (copy_mode silent_mode : bool) : M unit :=
  emit (Route file_name sub_folder) ;;;
  if negb silent_mode then
    initialize_folder sub_folder ;;;
    if copy_mode
    then copy_file (InRoot file_name) (InFolder sub_folder file_name)
    else move_file (InRoot file_name) (InFolder sub_folder file_name)
  else ret tt.

Definition fix_prompt (rule_content syntax_error : string) : string :=
  "The following YARA rule has a syntax error:" +:+ nl +:+ rule_content
  +:+ nl +:+ nl
  +:+ "The syntax error is: " +:+ syntax_error
  +:+ ". Please fix the YARA rule. "
  +:+ "If there are references to the pe module or undefined identifiers, please remove them. "
  +:+ "If the rule has an incomplete CVE ID in the meta-data, please remove it. "
  +:+ "In your response, please do not include anything else except the final YARA rule.".

Definition fix_yara_rule (rule_content syntax_error : string)
    : M (option string) :=
  reply <- ask (fix_prompt rule_content syntax_error) ;;
  match reply with
  | Choices content => ret (Some (extract_yara_rule (Py.strip content)))
  | NoChoices => ret None
  | ChatError => ret None
  end.

(** The recursion of the source is bounded by the interpreter; [fuel] is
    that bound, and running out of it is [RecursionError]. *)
Fixpoint check_rule_syntax (fuel : nat) (file_path : path)
    (attempt_fix : bool) : M bool :=
  match fuel with
  | O => raise RecursionError
  | S fuel' =>
      result <- run_yara file_path ;;
      if (fst result =? 0)%Z then ret true
      else if attempt_fix then
        original_content <- read_text file_path ;;
        fixed_content <- fix_yara_rule original_content (snd result) ;;
        match fixed_content with
        | Some fixed =>
            if Py.truthy fixed_content then
              if is_unacceptable_yara_rule_response fixed then ret false
              else
                temp_file_path <- write_temp fixed ;;
                ok <- check_rule_syntax fuel' temp_file_path false ;;
                if ok then move_file temp_file_path file_path ;;; ret true
                else remove_file temp_file_path ;;; ret false
            else ret false
        | None => ret false
        end
      else ret false
  end.

Definition Qltb (a b : Q) : bool := negb (Qle_bool b a).

Definition weak_indicators : list string :=
  [ "pe.imphash"; "hash.sha256"; "cuckoo." ].

Definition cve_unknown_marker : string :=
  "cve_id = " +:+ String Py.dquote "N/A" +:+ String Py.dquote EmptyString.

(** The complexity that [process_files] compares with the threshold. *)
Definition complexity_of (content : string) : Q :=
  if (YARA_COMPLEXITY_THRESHOLD cfg =? 0)%Z then 0%Q
  else calculate_complexity content.

(** The body of the loop of [process_files] for one directory entry. *)
Definition process_file (fuel : nat) (copy_mode silent_mode : bool)
    (file_name : string) : M unit :=
  if Py.endswith file_name ".yar" then
    content <- read_text (InRoot file_name) ;;
    let complexity := complexity_of content in
    if Qltb 0 complexity
       && Qltb complexity (inject_Z (YARA_COMPLEXITY_THRESHOLD cfg))
    then move_or_copy_file file_name (OUTPUT_WEAK_RULES_FOLDER cfg)
           copy_mode silent_mode
    else if Py.any_in weak_indicators content
    then move_or_copy_file file_name (OUTPUT_WEAK_RULES_FOLDER cfg)
           copy_mode silent_mode
    else if Py.contains cve_unknown_marker content
            || bool_decide (is_Some (Re.search Re.cve_placeholder content))
    then move_or_copy_file file_name (OUTPUT_NON_CVE_FOLDER cfg)
           copy_mode silent_mode
    else
      valid <- check_rule_syntax fuel (InRoot file_name)
                 (FIX_BAD_RULES cfg) ;;
      if negb valid
      then move_or_copy_file file_name (OUTPUT_BROKEN_RULES_FOLDER cfg)
             copy_mode silent_mode
      else
        match Re.search Re.cve_token content with
        | Some year =>
            move_or_copy_file file_name
              (OUTPUT_CVE_YEAR_PREFIX cfg +:+ year) copy_mode silent_mode
        | None => ret tt
        end
  else ret tt.

(** [process_files] over the listing that [os.listdir(YARA_FOLDER)]
    returned; Python leaves the order of that listing open. *)
Fixpoint process_files (fuel : nat) (copy_mode silent_mode : bool)
    (listing : list string) : M unit :=
  match listing with
  | [] => ret tt
  | file_name :: rest =>
      process_file fuel copy_mode silent_mode file_name ;;;
      process_files fuel copy_mode silent_mode rest
  end.

End Routing.

(** Fuel that the interpreter always has: its recursion limit is 1000. *)
Definition py_fuel : nat := 1000.

(** ** [generate_regex.py]: the synthesis pass *)

Definition categorize_string_length (cfg : config) (s : string) : string :=
  if Py.len s <=? SMALL_STRING_MAX_LEN cfg then "short"
  else if Py.len s <=? MEDIUM_STRING_MAX_LEN cfg then "medium"
  else "long".

Definition count_matches (m : string -> option (unit * nat))
    (regex : string) : nat :=
  length (Re.findall m regex).

Definition advanced_constructs : list string :=
  [ "(?="; "(?!"; "(?<="; "(?<!"; "(?:" ].

Definition construct_count (regex construct : string) : nat :=
  count_matches (Re.lazy_group construct ")") regex.

Definition is_regex_too_complex (cfg : config) (regex : string) : bool :=
  if (MAX_REGEX_LENGTH cfg <? Py.len regex)
     || (Py.len regex <? MIN_REGEX_LENGTH cfg)
  then true
  else if MAX_NESTED_QUANTIFIERS cfg
          <? count_matches Re.quantifier_token regex
  then true
  else if existsb
            (fun construct =>
               MAX_ADVANCED_CONSTRUCTS cfg <? construct_count regex construct)
            advanced_constructs
  then true
  else if MAX_ESCAPED_CHARACTERS cfg
          <? count_matches Re.escaped_character regex
  then true
  else if MAX_CLASSES_ALTERNATION cfg
          <? count_matches (Re.lazy_group "[" "]") regex
             + count_matches Re.alternation regex
  then true
  else false.

(** A dict of clusters keeps its keys in insertion order. *)
Definition cluster_group := list (string * list string).

(** [group[key] = value]: in place for a key already there, at the end
    for a new one. *)
Fixpoint dict_set (key : string) (value : list string) (g : cluster_group)
    : cluster_group :=
  match g with
  | [] => [(key, value)]
  | (k, members) :: rest =>
      if String.eqb k key then (k, value) :: rest
      else (k, members) :: dict_set key value rest
  end.

(** The dict [clusters], with its three keys in their order. *)
Record cluster_map := {
  short_group : cluster_group;
  medium_group : cluster_group;
  long_group : cluster_group
}.

Definition get_group (c : cluster_map) (category : string) : cluster_group :=
  if String.eqb category "short" then short_group c
  else if String.eqb category "medium" then medium_group c
  else long_group c.

Definition set_group (c : cluster_map) (category : string)
    (g : cluster_group) : cluster_map :=
  if String.eqb category "short" then
    {| short_group := g; medium_group := medium_group c;
       long_group := long_group c |}
  else if String.eqb category "medium" then
    {| short_group := short_group c; medium_group := g;
       long_group := long_group c |}
  else
    {| short_group := short_group c; medium_group := medium_group c;
       long_group := g |}.

Definition empty_clusters : cluster_map :=
  {| short_group := []; medium_group := []; long_group := [] |}.

(** The local variables of [process_yara_files]. *)
Record synth := {
  clusters : cluster_map;
  regex_patterns : list string;
  master_rule_seq : nat
}.

Definition initial_synth : synth :=
  {| clusters := empty_clusters; regex_patterns := []; master_rule_seq := 1 |}.

(** The file name of a path; a temporary file of [tempfile] is named
    [tmp...] with the suffix asked for. *)
Definition basename (p : path) : string :=
  match p with
  | InRoot name => name
  | InFolder _ name => name
  | InTemp k => "tmp" +:+ pretty k +:+ ".yar"
  end.

Section Synthesis.

Variable chat : nat -> string -> chat_reply.

(** [calculate_similarity(a, b) >= STRING_SIMILARITY_THRESHOLD] *)
Variable similar : string -> string -> bool.

(** [datetime.datetime.now().strftime(...)] at the flush of a sequence
    number. *)
Variable now : nat -> string.

Variable cfg : config.

Definition regex_prompt (cluster : list string) : string :=
  "I need a regular expression that matches the following strings with high performance optimization: "
  +:+ Py.join ", " cluster
  +:+ ". The regex should be concise and optimized for performance and low false positive detection ratio, as it will be used in a security product."
  +:+ "However, if not possible to find a regex rule that covers all strings, it is okay to cover only the majority. "
  +:+ "Please only output the regex surrounded by the regex ``` code formatting. No explanation.".

Definition generate_regex_for_cluster (cluster : list string)
    : M (option string) :=
  reply <- ask chat (regex_prompt cluster) ;;
  match reply with
  | Choices content =>
      let response_content := Py.strip content in
      match Re.search Re.code_fence response_content with
      | Some g => ret (Some (Py.strip g))
      | None => ret None
      end
  | NoChoices => ret None
  | ChatError => ret None
  end.

(** The loop over the keys of a group: the first similar key takes the
    string. *)
Fixpoint add_to_first_similar (s : string) (g : cluster_group)
    : option cluster_group :=
  match g with
  | [] => None
  | (existing_string, members) :: rest =>
      if similar s existing_string
      then Some ((existing_string, members ++ [s]) :: rest)
      else option_map (cons (existing_string, members))
                      (add_to_first_similar s rest)
  end.

Definition add_string (s : string) (c : cluster_map) : cluster_map :=
  if is_unacceptable_string s then c
  else
    let length_category := categorize_string_length cfg s in
    let g := get_group c length_category in
    match add_to_first_similar s g with
    | Some g' => set_group c length_category g'
    | None => set_group c length_category (dict_set s [s] g)
    end.

Definition add_strings (strings : list string) (c : cluster_map)
    : cluster_map :=
  fold_left (fun acc s => add_string s acc) strings c.

Fixpoint regex_lines (i : nat) (regexes : list string) : string :=
  match regexes with
  | [] => EmptyString
  | regex :: rest =>
      "    $regex" +:+ pretty i +:+ " = /" +:+ regex +:+ "/" +:+ nl
      +:+ regex_lines (S i) rest
  end.

Definition master_rule_filename (timestamp : string) (seq : nat) : string :=
  "master_regex_rule_" +:+ timestamp +:+ "_" +:+ pretty seq +:+ ".yar".

Definition initial_rule_content (timestamp : string) (seq : nat)
    (regexes : list string) : string :=
  "rule " +:+ ("MasterRegexRule_" +:+ timestamp +:+ "_" +:+ pretty seq)
  +:+ " {" +:+ nl +:+ "strings:" +:+ nl
  +:+ regex_lines 0 regexes
  +:+ "condition:" +:+ nl +:+ "    any of them" +:+ nl +:+ "}".

Definition master_prompt (content : string) : string :=
  "User" +:+ nl
  +:+ "Please revise the rule and suggest an improved version. Ensure that meta-data fields, including the author name ("
  +:+ YARA_AUTHOR_NAME cfg +:+ "), "
  +:+ "date, and version 1.0, are included within the YARA rule. Set a description meta-data based on an educated guess of the threat that the specific regex patterns "
  +:+ "may be targeting. You can also use a better rule name, but keep the timestamp and sequence number. Do not use fullword and output only the YARA rule. No explanation."
  +:+ nl +:+ nl +:+ content.

(** The body of [if len(regex_patterns) >= MAX_REGEXES_PER_RULE]. *)
Definition flush_master_rule (batch : list string) (seq : nat)
    : M (list string * nat) :=
  let timestamp := now seq in
  let filename := master_rule_filename timestamp seq in
  emit (Improve seq) ;;;
  reply <- ask chat
             (master_prompt (initial_rule_content timestamp seq batch)) ;;
  match reply with
  | ChatError => raise APIError
  | Choices content =>
      let revised_rule := Py.strip content in
      modify_fs (fs_write (InRoot filename) (Text revised_rule)) ;;;
      emit (Emit filename revised_rule) ;;;
      ret ([], S seq)
  | NoChoices => ret ([], S seq)
  end.

(** The first [if] of the body of the loop over the clusters of one
    group, [if len(cluster) >= MIN_CLUSTER_SIZE]; it gives back the
    members left in the cluster and the batch. *)
Definition synthesize_cluster (cluster : list string) (batch : list string)
    : M (list string * list string) :=
  if MIN_CLUSTER_SIZE cfg <=? length cluster then
    emit (Synthesis cluster) ;;;
    regex <- generate_regex_for_cluster cluster ;;
    match regex with
    | Some rx =>
        if Py.truthy regex then
          b <- (if is_regex_too_complex cfg rx then ret batch
                else emit (Accepted rx) ;;; ret (batch ++ [rx])) ;;
          ret ([], b)
        else ret (cluster, batch)
    | None => ret (cluster, batch)
    end
  else ret (cluster, batch).

(** The body of the loop: the first [if], then the second one,
    [if len(regex_patterns) >= MAX_REGEXES_PER_RULE]; it gives back the
    members left in the cluster, the batch and the sequence number. *)
Definition check_cluster (cluster : list string) (batch : list string)
    (seq : nat) : M (list string * list string * nat) :=
  r <- synthesize_cluster cluster batch ;;
  let '(cluster', batch') := r in
  if MAX_REGEXES_PER_RULE cfg <=? length batch' then
    f <- flush_master_rule batch' seq ;;
    ret (cluster', fst f, snd f)
  else ret (cluster', batch', seq).

Fixpoint check_group (g : cluster_group) (batch : list string) (seq : nat)
    : M (cluster_group * list string * nat) :=
  match g with
  | [] => ret ([], batch, seq)
  | (cluster_key, cluster) :: rest =>
      r <- check_cluster cluster batch seq ;;
      let '(cluster', batch', seq') := r in
      r' <- check_group rest batch' seq' ;;
      let '(rest', batch'', seq'') := r' in
      ret ((cluster_key, cluster') :: rest', batch'', seq'')
  end.

(** The loop over [clusters.items()] run after each file. *)
Definition check_clusters (s : synth) : M synth :=
  r1 <- check_group (short_group (clusters s)) (regex_patterns s)
          (master_rule_seq s) ;;
  let '(g1, b1, q1) := r1 in
  r2 <- check_group (medium_group (clusters s)) b1 q1 ;;
  let '(g2, b2, q2) := r2 in
  r3 <- check_group (long_group (clusters s)) b2 q2 ;;
  let '(g3, b3, q3) := r3 in
  ret {| clusters := {| short_group := g1; medium_group := g2;
                        long_group := g3 |};
         regex_patterns := b3; master_rule_seq := q3 |}.

(** The body of the loops of [process_yara_files] for one file of the
    walk. *)
Definition process_yara_file (file_path : path) (s : synth) : M synth :=
  if Py.endswith (basename file_path) ".yar" then
    rule_content <- read_text file_path ;;
    let strings := extract_strings rule_content in
    check_clusters
      {| clusters := add_strings strings (clusters s);
         regex_patterns := regex_patterns s;
         master_rule_seq := master_rule_seq s |}
  else ret s.

Fixpoint process_walk (walk : list path) (s : synth) : M synth :=
  match walk with
  | [] => ret s
  | file_path :: rest =>
      s' <- process_yara_file file_path s ;;
      process_walk rest s'
  end.

(** [process_yara_files] over the files that [os.walk(YARA_FOLDER)]
    yields. *)
Definition process_yara_files (walk : list path) : M synth :=
  process_walk walk initial_synth.

End Synthesis.

(** * Properties *)

(** ** The complexity score *)

(** The weight of a string, in the words of the design: 3 for a byte
    array, 1 for quoted text, one half for anything else. *)
Definition weight_of (s : string) : Q :=
  if Re.byte_array_pattern s then 3%Q
  else if Re.human_readable_pattern s then 1%Q
  else (1 # 2)%Q.

(** The score as the design states it: the sum, over the strings of at
    least five characters, of length times weight; times 1.5 when the
    condition holds [all of] and there is more than one string; 0 without
    a condition. *)
Definition reference_score (strings : list string)
    (condition : option string) : Q :=
  match condition with
  | None => 0%Q
  | Some c =>
      let total :=
        fold_right Qplus 0%Q
          (map (fun s => (qlen s * weight_of s)%Q)
               (List.filter (fun s => 5 <=? Py.len s) strings)) in
      if Py.contains "all of" c && (1 <? length strings)
      then (total * (3 # 2))%Q else total
  end.

Lemma complexity_loop_sum (strings : list string) (acc : Q) :
  (complexity_loop strings acc ==
   acc + fold_right Qplus 0
           (map (fun s => qlen s * weight_of s)
                (List.filter (fun s => 5 <=? Py.len s) strings)))%Q.
Proof.
  revert acc. induction strings as [|s rest IH]; intros acc.
  - simpl. ring.
  - cbn [complexity_loop List.filter].
    destruct (Py.len s <? 5) eqn:Hshort.
    + apply Nat.ltb_lt in Hshort.
      assert (E : (5 <=? Py.len s) = false) by (apply Nat.leb_gt; lia).
      rewrite E. apply IH.
    + apply Nat.ltb_ge in Hshort.
      assert (E : (5 <=? Py.len s) = true) by (apply Nat.leb_le; lia).
      rewrite E, IH. cbn [map fold_right].
      unfold weight_of, byte_array_weight, code_snippet_weight,
        file_path_weight.
      destruct (Re.byte_array_pattern s), (Re.human_readable_pattern s);
        ring.
Qed.

Lemma calculate_complexity_refines (rule_content : string) :
  (calculate_complexity rule_content ==
   reference_score (extract_strings rule_content)
                   (extract_condition rule_content))%Q.
Proof.
  unfold calculate_complexity, reference_score.
  destruct (extract_condition rule_content) as [c|]; [|reflexivity].
  cbv zeta.
  destruct (Py.contains "all of" c && (1 <? length (extract_strings rule_content))).
  - rewrite complexity_loop_sum. unfold all_of_multiplier. ring.
  - rewrite complexity_loop_sum. ring.
Qed.

Definition dq : string := String Py.dquote EmptyString.

Definition rule_with_two_long_strings : string :=
  "rule r {" +:+ nl
  +:+ "  strings:" +:+ nl
  +:+ "    $a = { 4D 5A 90 00 03 00}" +:+ nl
  +:+ "    $b = " +:+ dq +:+ "hello" +:+ dq +:+ nl
  +:+ "  condition:" +:+ nl
  +:+ "    all of them" +:+ nl
  +:+ "}".

Definition rule_with_one_short_string : string :=
  "rule r {" +:+ nl
  +:+ "  strings:" +:+ nl
  +:+ "    $a = { 4D 5A 90 00 03 00}" +:+ nl
  +:+ "    $b = " +:+ dq +:+ "hi" +:+ dq +:+ nl
  +:+ "  condition:" +:+ nl
  +:+ "    all of them" +:+ nl
  +:+ "}".

(** C2, as stated, fails: a rule with one byte-array string of length 20,
    the condition [all of them] and two extracted strings scores 100.5
    when the second string has five characters or more. *)
Lemma score_of_two_long_strings_is_not_90 :
  extract_strings rule_with_two_long_strings
    = [ "{ 4D 5A 90 00 03 00}"; dq +:+ "hello" +:+ dq ]
  /\ Re.byte_array_pattern "{ 4D 5A 90 00 03 00}" = true
  /\ Py.len "{ 4D 5A 90 00 03 00}" = 20
  /\ extract_condition rule_with_two_long_strings = Some "all of them"
  /\ (calculate_complexity rule_with_two_long_strings == 201 # 2)%Q
  /\ ~ (calculate_complexity rule_with_two_long_strings == 90)%Q.
Proof.
  repeat split; try reflexivity.
  intros H. vm_compute in H. discriminate H.
Qed.

(** C2, amended: the score of [calculate_complexity] is the reference
    score of the extracted strings and condition; and a rule with two
    extracted strings, one a byte array of 20 characters and the other
    shorter than 5 characters, whose condition holds [all of], scores
    exactly 90. *)
Theorem calculate_complexity_reference (rule_content : string) :
  (calculate_complexity rule_content ==
   reference_score (extract_strings rule_content)
                   (extract_condition rule_content))%Q
  /\ (forall s1 s2 cond,
        extract_strings rule_content = [s1; s2]
        \/ extract_strings rule_content = [s2; s1] ->
        Re.byte_array_pattern s1 = true ->
        Py.len s1 = 20 ->
        Py.len s2 < 5 ->
        extract_condition rule_content = Some cond ->
        Py.contains "all of" cond = true ->
        (calculate_complexity rule_content == 90)%Q).
Proof.
  split; [apply calculate_complexity_refines|].
  intros s1 s2 cond Hs Hb Hl1 Hl2 Hc Hall.
  rewrite calculate_complexity_refines. rewrite Hc.
  unfold reference_score. rewrite Hall.
  assert (E2 : (5 <=? Py.len s2) = false) by (apply Nat.leb_gt; lia).
  assert (E1 : (5 <=? Py.len s1) = true) by (apply Nat.leb_le; lia).
  assert (Hlen : (1 <? length (extract_strings rule_content)) = true)
    by (destruct Hs as [-> | ->]; reflexivity).
  rewrite Hlen.
  destruct Hs as [-> | ->]; cbn [List.filter andb]; rewrite E1, E2;
    cbn [map fold_right]; unfold weight_of, qlen; rewrite Hb, Hl1;
    reflexivity.
Qed.

Lemma calculate_complexity_reference_witness :
  (calculate_complexity rule_with_one_short_string == 90)%Q.
Proof.
  apply (proj2 (calculate_complexity_reference rule_with_one_short_string)
           "{ 4D 5A 90 00 03 00}" (dq +:+ "hi" +:+ dq) "all of them");
    try reflexivity.
  - left. reflexivity.
  - vm_compute. lia.
Defined.

(** ** The validate-and-repair procedure, case by case *)

Definition advance (events : list event) (n : nat) (fs' : filesystem)
    (st : state) : state :=
  {| fs := fs'; trace := events ++ trace st; asked := n + asked st |}.

Definition validations (events : list event) : nat :=
  length (List.filter
            (fun e => match e with Validate _ _ => true | _ => false end)
            events).

Definition requests (events : list event) : nat :=
  length (List.filter
            (fun e => match e with Ask _ => true | _ => false end) events).

Definition routes (events : list event) : list (string * string) :=
  flat_map (fun e => match e with
                     | Route name folder => [(name, folder)]
                     | _ => []
                     end) events.

Definition reads (events : list event) : list path :=
  flat_map (fun e => match e with Read p => [p] | _ => [] end) events.

Lemma fs_remove_write_temp (fs0 : filesystem) (f : file) :
  fs_remove (InTemp (fresh (dom (temp fs0))))
    (fs_write (InTemp (fresh (dom (temp fs0)))) f fs0) = fs0.
Proof.
  destruct fs0 as [r fo d t]. unfold fs_remove, fs_write. simpl.
  f_equal. apply delete_insert_dom. apply is_fresh.
Qed.

Section RepairCases.

Variable yara : option file -> Z * string.
Variable chat : nat -> string -> chat_reply.

(** The fix that the oracle proposes for a rule, as [fix_yara_rule]
    returns it, and the fix that [check_rule_syntax] goes on with: a
    non-empty one that is not flagged. *)
Definition proposed_fix (n : nat) (content err : string) : option string :=
  match chat n (fix_prompt content err) with
  | Choices reply => Some (extract_yara_rule (Py.strip reply))
  | NoChoices => None
  | ChatError => None
  end.

Definition usable_fix (n : nat) (content err : string) : option string :=
  match proposed_fix n content err with
  | Some fixed =>
      if Py.truthy (Some fixed)
         && negb (is_unacceptable_yara_rule_response fixed)
      then Some fixed else None
  | None => None
  end.

(** The states of the procedure for a rule of the root: what it returns
    and the state it leaves. *)
Definition syntax_outcome (name content : string) (attempt_fix : bool)
    (st : state) : bool * state :=
  let p := InRoot name in
  let r := yara (Some (Text content)) in
  if (fst r =? 0)%Z then (true, advance [Validate p (fst r)] 0 (fs st) st)
  else if negb attempt_fix
  then (false, advance [Validate p (fst r)] 0 (fs st) st)
  else
    let asking :=
      [Ask (fix_prompt content (snd r)); Read p; Validate p (fst r)] in
    match usable_fix (asked st) content (snd r) with
    | None => (false, advance asking 1 (fs st) st)
    | Some fixed =>
        let t := InTemp (fresh (dom (temp (fs st)))) in
        let r2 := yara (Some (Text fixed)) in
        if (fst r2 =? 0)%Z
        then (true, advance (Validate t (fst r2) :: asking) 1
                      (fs_write p (Text fixed) (fs st)) st)
        else (false, advance (Validate t (fst r2) :: asking) 1 (fs st) st)
    end.

Lemma check_rule_syntax_no_fix (fuel : nat) (p : path) (st : state) :
  check_rule_syntax yara chat (S fuel) p false st
  = Ok (fst (yara (fs_lookup (fs st) p)) =? 0)%Z
       (advance [Validate p (fst (yara (fs_lookup (fs st) p)))] 0
                (fs st) st).
Proof.
  unfold check_rule_syntax, run_yara, bind, get_fs, emit, ret, advance.
  simpl. destruct (fst (yara (fs_lookup (fs st) p)) =? 0)%Z; reflexivity.
Qed.

Lemma check_rule_syntax_root (fuel : nat) (name content : string)
    (attempt_fix : bool) (st : state) :
  2 <= fuel ->
  root (fs st) !! name = Some (Text content) ->
  check_rule_syntax yara chat fuel (InRoot name) attempt_fix st
  = Ok (fst (syntax_outcome name content attempt_fix st))
       (snd (syntax_outcome name content attempt_fix st)).
Proof.
  intros Hfuel Hfile.
  destruct fuel as [|[|fuel]]; [lia | lia |].
  unfold syntax_outcome, usable_fix, proposed_fix.
  change (check_rule_syntax yara chat (S (S fuel)) (InRoot name) attempt_fix st)
    with ((result <- run_yara yara (InRoot name) ;;
      if (fst result =? 0)%Z then ret true
      else if attempt_fix then
        original_content <- read_text (InRoot name) ;;
        fixed_content <- fix_yara_rule chat original_content (snd result) ;;
        match fixed_content with
        | Some fixed =>
            if Py.truthy fixed_content then
              if is_unacceptable_yara_rule_response fixed then ret false
              else
                temp_file_path <- write_temp fixed ;;
                ok <- check_rule_syntax yara chat (S fuel) temp_file_path false ;;
                if ok then move_file temp_file_path (InRoot name) ;;; ret true
                else remove_file temp_file_path ;;; ret false
            else ret false
        | None => ret false
        end
      else ret false) st).
  unfold run_yara, bind at 1 2 3, get_fs at 1, emit at 1, ret at 1.
  cbn [fs fs_lookup]. rewrite Hfile.
  destruct (fst (yara (Some (Text content))) =? 0)%Z eqn:Hrc;
    [reflexivity|].
  destruct attempt_fix; [|reflexivity]. cbn [negb].
  unfold read_text, fix_yara_rule, ask, bind, get_fs, emit, ret.
  cbn [fs fs_lookup trace asked]. rewrite Hfile.
  cbn [fs fs_lookup trace asked].
  destruct (chat (asked st) (fix_prompt content (snd (yara (Some (Text content))))))
    as [reply| |]; try reflexivity.
  set (fixed := extract_yara_rule (Py.strip reply)).
  destruct (Py.truthy (Some fixed)) eqn:Htruthy; [|reflexivity].
  destruct (is_unacceptable_yara_rule_response fixed) eqn:Hbad;
    [reflexivity|].
  cbn [andb negb].
  unfold write_temp, bind, get_fs, modify_fs, ret. cbn [fs trace asked].
  rewrite check_rule_syntax_no_fix.
  cbn [fs advance fs_lookup fs_write temp trace asked].
  rewrite lookup_insert_eq.
  pose proof (fs_remove_write_temp (fs st) (Text fixed)) as E.
  cbn [fs_write] in E.
  destruct (fst (yara (Some (Text fixed))) =? 0)%Z eqn:Hrc2.
  - unfold move_file, bind, get_fs, modify_fs, ret, advance.
    cbn [fs fs_lookup temp parent_error]. rewrite lookup_insert_eq.
    cbn [fs trace asked fst snd]. rewrite E.
    cbn [fs_write app]. rewrite Nat.add_0_l. reflexivity.
  - unfold remove_file, bind, get_fs, modify_fs, ret, advance.
    cbn [fs fs_lookup temp]. rewrite lookup_insert_eq.
    cbn [fs trace asked fst snd]. rewrite E.
    cbn [app]. rewrite Nat.add_0_l. reflexivity.
Qed.

End RepairCases.

(** ** The routing of one file, in closed form *)

Section RoutingCases.

Variable yara : option file -> Z * string.
Variable chat : nat -> string -> chat_reply.
Variable cfg : config.

(** Whether [move_or_copy_file] finds a file of the root in the place
    of the sub-folder: nothing is created then, and the copy or the
    rename raises. *)
Definition blocked (folder : string) (silent_mode : bool)
    (fs0 : filesystem) : bool :=
  negb silent_mode && bool_decide (is_Some (root fs0 !! folder)).

(** The file system after [move_or_copy_file] on a file of the root. *)
Definition routed_fs (name folder : string) (copy_mode silent_mode : bool)
    (fs0 : filesystem) : filesystem :=
  if silent_mode then fs0
  else
    match root fs0 !! name with
    | None => fs0
    | Some f =>
        match root fs0 !! folder with
        | Some _ => fs0
        | None =>
            let fs1 :=
              if bool_decide (folder ∈ dirs fs0) then fs0
              else fs_mkdir folder fs0 in
            if copy_mode then fs_write (InFolder folder name) f fs1
            else fs_write (InFolder folder name) f
                   (fs_remove (InRoot name) fs1)
        end
    end.

Definition route_to (name : string) (destination : option string)
    (copy_mode silent_mode : bool) (st : state) : state :=
  match destination with
  | None => st
  | Some folder =>
      advance [Route name folder] 0
        (routed_fs name folder copy_mode silent_mode (fs st)) st
  end.

(** How [move_or_copy_file] ends on a file of the root. *)
Definition route_result (name : string) (destination : option string)
    (copy_mode silent_mode : bool) (st : state) : result unit :=
  match destination with
  | None => Ok tt st
  | Some folder =>
      if blocked folder silent_mode (fs st)
      then Raised NotADirectoryError
             (route_to name destination copy_mode silent_mode st)
      else Ok tt (route_to name destination copy_mode silent_mode st)
  end.

Lemma final_route_result (name : string) (destination : option string)
    (copy_mode silent_mode : bool) (st : state) :
  final (route_result name destination copy_mode silent_mode st)
  = route_to name destination copy_mode silent_mode st.
Proof.
  unfold route_result. destruct destination as [folder|]; [|reflexivity].
  destruct (blocked folder silent_mode (fs st)); reflexivity.
Qed.

(** The three tests that [process_files] makes before it validates. *)
Definition below_threshold (content : string) : bool :=
  Qltb 0 (complexity_of cfg content)
  && Qltb (complexity_of cfg content)
          (inject_Z (YARA_COMPLEXITY_THRESHOLD cfg)).

Definition has_weak_indicator (content : string) : bool :=
  Py.any_in weak_indicators content.

Definition lacks_cve (content : string) : bool :=
  Py.contains cve_unknown_marker content
  || bool_decide (is_Some (Re.search Re.cve_placeholder content)).

Definition early_destination (content : string) : option string :=
  if below_threshold content then Some (OUTPUT_WEAK_RULES_FOLDER cfg)
  else if has_weak_indicator content
  then Some (OUTPUT_WEAK_RULES_FOLDER cfg)
  else if lacks_cve content then Some (OUTPUT_NON_CVE_FOLDER cfg)
  else None.

Definition late_destination (content : string) (valid : bool)
    : option string :=
  if negb valid then Some (OUTPUT_BROKEN_RULES_FOLDER cfg)
  else
    match Re.search Re.cve_token content with
    | Some year => Some (OUTPUT_CVE_YEAR_PREFIX cfg +:+ year)
    | None => None
    end.

(** The state after the loop body of [process_files] on a readable rule. *)
Definition process_file_outcome (copy_mode silent_mode : bool)
    (name content : string) (st : state) : state :=
  let st1 := advance [Read (InRoot name)] 0 (fs st) st in
  match early_destination content with
  | Some folder => route_to name (Some folder) copy_mode silent_mode st1
  | None =>
      let o := syntax_outcome yara chat name content (FIX_BAD_RULES cfg) st1 in
      route_to name (late_destination content (fst o))
        copy_mode silent_mode (snd o)
  end.

(** The result of the loop body of [process_files] on a readable rule. *)
Definition process_file_result (copy_mode silent_mode : bool)
    (name content : string) (st : state) : result unit :=
  let st1 := advance [Read (InRoot name)] 0 (fs st) st in
  match early_destination content with
  | Some folder => route_result name (Some folder) copy_mode silent_mode st1
  | None =>
      let o := syntax_outcome yara chat name content (FIX_BAD_RULES cfg) st1 in
      route_result name (late_destination content (fst o))
        copy_mode silent_mode (snd o)
  end.

Lemma final_process_file_result (copy_mode silent_mode : bool)
    (name content : string) (st : state) :
  final (process_file_result copy_mode silent_mode name content st)
  = process_file_outcome copy_mode silent_mode name content st.
Proof.
  unfold process_file_result, process_file_outcome.
  destruct (early_destination content); apply final_route_result.
Qed.

Lemma move_or_copy_file_present (name folder : string)
    (copy_mode silent_mode : bool) (st : state) :
  is_Some (root (fs st) !! name) ->
  move_or_copy_file name folder copy_mode silent_mode st
  = route_result name (Some folder) copy_mode silent_mode st.
Proof.
  intros [f Hf].
  unfold move_or_copy_file, route_result, blocked, route_to, routed_fs,
    advance, bind, emit.
  cbn [fs trace asked]. rewrite Hf.
  destruct silent_mode; cbn [negb andb]; [reflexivity|].
  unfold initialize_folder, exists_in_root, bind, get_fs, ret, modify_fs.
  cbn [fs].
  destruct (root (fs st) !! folder) as [g|] eqn:Hg.
  - rewrite (bool_decide_eq_true_2 (is_Some (Some g))) by eauto.
    destruct copy_mode;
      unfold copy_file, move_file, parent_error, bind, get_fs, modify_fs,
        raise;
      cbn [fs fs_lookup]; rewrite ?Hf, Hg; reflexivity.
  - rewrite (bool_decide_eq_false_2 (is_Some (@None file)))
      by apply is_Some_None.
    destruct (bool_decide (folder ∈ dirs (fs st))) eqn:Hin.
    + destruct copy_mode;
        unfold copy_file, move_file, parent_error, bind, get_fs, modify_fs;
        cbn [fs fs_lookup]; rewrite ?Hf, Hg, Hin; reflexivity.
    + destruct copy_mode;
        unfold copy_file, move_file, parent_error, bind, get_fs, modify_fs;
        cbn [fs fs_lookup fs_mkdir root dirs]; rewrite ?Hf, Hg;
        rewrite bool_decide_eq_true_2 by set_solver; reflexivity.
Qed.

Lemma syntax_outcome_keeps_file (name content : string) (attempt_fix : bool)
    (st : state) :
  root (fs st) !! name = Some (Text content) ->
  is_Some (root (fs (snd (syntax_outcome yara chat name content
                            attempt_fix st))) !! name).
Proof.
  intros Hf. unfold syntax_outcome.
  repeat match goal with
         | |- context [if ?b then _ else _] => destruct b
         | |- context [match ?o with Some _ => _ | None => _ end] =>
             destruct o
         end;
    cbn [snd advance fs fs_write root]; rewrite ?lookup_insert_eq; eauto.
Qed.

Lemma process_file_text (fuel : nat) (copy_mode silent_mode : bool)
    (name content : string) (st : state) :
  2 <= fuel ->
  Py.endswith name ".yar" = true ->
  root (fs st) !! name = Some (Text content) ->
  process_file yara chat cfg fuel copy_mode silent_mode name st
  = process_file_result copy_mode silent_mode name content st.
Proof.
  intros Hfuel Hyar Hf.
  unfold process_file, process_file_result. rewrite Hyar.
  unfold bind at 1, read_text, bind at 1, get_fs at 1.
  cbn [fs_lookup]. rewrite Hf.
  unfold bind at 1, emit at 1, ret at 1.
  change {| fs := fs st; trace := Read (InRoot name) :: trace st;
            asked := asked st |}
    with (advance [Read (InRoot name)] 0 (fs st) st).
  set (st1 := advance [Read (InRoot name)] 0 (fs st) st).
  assert (H1 : root (fs st1) !! name = Some (Text content)) by exact Hf.
  unfold early_destination, below_threshold, has_weak_indicator, lacks_cve.
  destruct (Qltb 0 (complexity_of cfg content)
            && Qltb (complexity_of cfg content)
                 (inject_Z (YARA_COMPLEXITY_THRESHOLD cfg))).
  { apply move_or_copy_file_present. eauto. }
  destruct (Py.any_in weak_indicators content).
  { apply move_or_copy_file_present. eauto. }
  destruct (Py.contains cve_unknown_marker content
            || bool_decide (is_Some (Re.search Re.cve_placeholder content))).
  { apply move_or_copy_file_present. eauto. }
  unfold bind at 1.
  rewrite (check_rule_syntax_root yara chat fuel name content _ st1 Hfuel H1).
  pose proof (syntax_outcome_keeps_file name content (FIX_BAD_RULES cfg)
                st1 H1) as Hkeep.
  unfold late_destination.
  destruct (fst (syntax_outcome yara chat name content (FIX_BAD_RULES cfg) st1));
    cbn [negb].
  - destruct (Re.search Re.cve_token content) as [year|].
    + apply move_or_copy_file_present. exact Hkeep.
    + reflexivity.
  - apply move_or_copy_file_present. exact Hkeep.
Qed.

Lemma process_file_final (fuel : nat) (copy_mode silent_mode : bool)
    (name content : string) (st : state) :
  2 <= fuel ->
  Py.endswith name ".yar" = true ->
  root (fs st) !! name = Some (Text content) ->
  final (process_file yara chat cfg fuel copy_mode silent_mode name st)
  = process_file_outcome copy_mode silent_mode name content st.
Proof.
  intros Hfuel Hyar Hf.
  rewrite (process_file_text fuel copy_mode silent_mode name content st
             Hfuel Hyar Hf).
  apply final_process_file_result.
Qed.

Lemma process_file_other (fuel : nat) (copy_mode silent_mode : bool)
    (name : string) (st : state) :
  Py.endswith name ".yar" = false ->
  process_file yara chat cfg fuel copy_mode silent_mode name st = Ok tt st.
Proof. intros H. unfold process_file. rewrite H. reflexivity. Qed.

Lemma process_file_unreadable (fuel : nat) (copy_mode silent_mode : bool)
    (name : string) (st : state) :
  Py.endswith name ".yar" = true ->
  root (fs st) !! name = Some Undecodable ->
  process_file yara chat cfg fuel copy_mode silent_mode name st
  = Raised UnicodeDecodeError st.
Proof.
  intros H Hf. unfold process_file. rewrite H.
  unfold bind, read_text, bind, get_fs. cbn [fs_lookup]. rewrite Hf.
  reflexivity.
Qed.

Lemma process_file_missing (fuel : nat) (copy_mode silent_mode : bool)
    (name : string) (st : state) :
  Py.endswith name ".yar" = true ->
  root (fs st) !! name = None ->
  process_file yara chat cfg fuel copy_mode silent_mode name st
  = Raised (if bool_decide (name ∈ dirs (fs st))
            then IsADirectoryError else FileNotFoundError) st.
Proof.
  intros H Hf. unfold process_file. rewrite H.
  unfold bind, read_text, bind, get_fs, no_file, is_directory.
  cbn [fs_lookup]. rewrite Hf. reflexivity.
Qed.

End RoutingCases.

(** ** C1: the classifier *)

Lemma Qltb_lt (a b : Q) : Qltb a b = true <-> (a < b)%Q.
Proof.
  unfold Qltb. rewrite negb_true_iff. split.
  - intros H. apply Qnot_le_lt. intros Hle.
    apply Qle_bool_iff in Hle. congruence.
  - intros H. destruct (Qle_bool b a) eqn:E; [|reflexivity].
    apply Qle_bool_iff in E. exfalso. exact (Qlt_not_le _ _ H E).
Qed.

Lemma Qltb_between_false (s t : Q) :
  (s == t)%Q \/ (s == 0)%Q -> Qltb 0 s && Qltb s t = false.
Proof.
  intros H. apply andb_false_iff.
  destruct (Qltb 0 s) eqn:E0; [|left; reflexivity]. right.
  destruct (Qltb s t) eqn:E1; [|reflexivity]. exfalso.
  apply Qltb_lt in E0, E1. destruct H as [H|H].
  - rewrite H in E1. exact (Qlt_irrefl _ E1).
  - rewrite H in E0. exact (Qlt_irrefl _ E0).
Qed.

Lemma below_threshold_score (cfg : config) (content : string) :
  below_threshold cfg content
  = Qltb 0 (calculate_complexity content)
    && Qltb (calculate_complexity content)
            (inject_Z (YARA_COMPLEXITY_THRESHOLD cfg)).
Proof.
  unfold below_threshold, complexity_of.
  destruct (YARA_COMPLEXITY_THRESHOLD cfg =? 0)%Z eqn:E; [|reflexivity].
  apply Z.eqb_eq in E. rewrite E.
  symmetry. apply andb_false_iff.
  destruct (Qltb 0 (calculate_complexity content)) eqn:E0;
    [|left; reflexivity].
  right. destruct (Qltb (calculate_complexity content) (inject_Z 0)) eqn:E1;
    [|reflexivity].
  exfalso. apply Qltb_lt in E0, E1.
  exact (Qlt_irrefl _ (Qlt_trans _ _ _ E0 E1)).
Qed.

(** The outcomes of the design. *)
Inductive destination :=
  | Weak
  | NonCve
  | Broken
  | YearBucket (year : string)
  | Unmoved.

Fixpoint first_match {A} (rules : list (bool * A)) (otherwise : A) : A :=
  match rules with
  | [] => otherwise
  | (c, a) :: rest => if c then a else first_match rest otherwise
  end.

(** The ordered policy, in the words of the design: the score is the
    complexity score itself and [T] the threshold. *)
Definition ordered_policy (T : Z) (content : string) (valid : bool)
    : destination :=
  let score := calculate_complexity content in
  let token := Re.search Re.cve_token content in
  first_match
    [ (Qltb 0 score && Qltb score (inject_Z T), Weak);
      (Py.any_in weak_indicators content, Weak);
      (Py.contains cve_unknown_marker content
       || bool_decide (is_Some (Re.search Re.cve_placeholder content)),
       NonCve);
      (negb valid, Broken);
      (bool_decide (is_Some token), YearBucket (default EmptyString token)) ]
    Unmoved.

Definition folder_of (cfg : config) (d : destination) : option string :=
  match d with
  | Weak => Some (OUTPUT_WEAK_RULES_FOLDER cfg)
  | NonCve => Some (OUTPUT_NON_CVE_FOLDER cfg)
  | Broken => Some (OUTPUT_BROKEN_RULES_FOLDER cfg)
  | YearBucket year => Some (OUTPUT_CVE_YEAR_PREFIX cfg +:+ year)
  | Unmoved => None
  end.

Lemma syntax_outcome_shape (yara : option file -> Z * string)
    (chat : nat -> string -> chat_reply) (name content : string)
    (attempt_fix : bool) (st : state) :
  exists events fs',
    snd (syntax_outcome yara chat name content attempt_fix st)
    = advance events (requests events) fs' st
    /\ routes events = []
    /\ (forall p, In p (reads events) -> p = InRoot name)
    /\ requests events <= 1
    /\ (fs' = fs st
        \/ exists fixed,
             fs' = fs_write (InRoot name) (Text fixed) (fs st)
             /\ fst (syntax_outcome yara chat name content attempt_fix st)
                = true).
Proof.
  unfold syntax_outcome.
  set (r := yara (Some (Text content))).
  destruct (fst r =? 0)%Z.
  { exists [Validate (InRoot name) (fst r)], (fs st).
    split; [reflexivity|]. cbn. intuition. }
  destruct attempt_fix; cbn [negb].
  2: { exists [Validate (InRoot name) (fst r)], (fs st).
       split; [reflexivity|]. cbn. intuition. }
  set (asking := [Ask (fix_prompt content (snd r)); Read (InRoot name);
                  Validate (InRoot name) (fst r)]).
  destruct (usable_fix chat (asked st) content (snd r)) as [fixed|].
  2: { exists asking, (fs st).
       split; [reflexivity|]. cbn. intuition. }
  set (t := InTemp (fresh (dom (temp (fs st))))).
  destruct (fst (yara (Some (Text fixed))) =? 0)%Z.
  - exists (Validate t (fst (yara (Some (Text fixed)))) :: asking),
      (fs_write (InRoot name) (Text fixed) (fs st)).
    split; [reflexivity|]. cbn.
    repeat split; try lia; [intuition | right; eauto].
  - exists (Validate t (fst (yara (Some (Text fixed)))) :: asking), (fs st).
    split; [reflexivity|]. cbn. intuition.
Qed.

Lemma blocked_write (folder name : string) (silent_mode : bool)
    (f g : file) (fs0 : filesystem) :
  root fs0 !! name = Some f ->
  blocked folder silent_mode (fs_write (InRoot name) g fs0)
  = blocked folder silent_mode fs0.
Proof.
  intros Hf. unfold blocked. f_equal. cbn [fs_write root].
  destruct (decide (folder = name)) as [->|Hne].
  - rewrite lookup_insert_eq, Hf.
    rewrite !bool_decide_eq_true_2 by eauto. reflexivity.
  - rewrite lookup_insert_ne by congruence. reflexivity.
Qed.

(** C1: on a readable rule file of the listing, [process_files] prints
    exactly the routing decision of the ordered policy, first match first:
    weak below the threshold, weak on a weak indicator, non-CVE on an
    unknown or placeholder CVE, broken when validation and repair fail,
    the year bucket on a CVE token; nothing is printed and the file stays
    in the root when none applies.  A score equal to the threshold, or
    equal to 0, does not satisfy the first test.  The decision is printed
    whatever comes of it: the loop body returns, except when the mode is
    not silent and the name of the chosen sub-folder is a file of the
    root, where the copy or the rename raises. *)
Theorem process_file_follows_policy
    (yara : option file -> Z * string) (chat : nat -> string -> chat_reply)
    (cfg : config) (fuel : nat) (copy_mode silent_mode : bool)
    (name content : string) (st : state) :
  2 <= fuel ->
  Py.endswith name ".yar" = true ->
  root (fs st) !! name = Some (Text content) ->
  let valid :=
    fst (syntax_outcome yara chat name content (FIX_BAD_RULES cfg)
           (advance [Read (InRoot name)] 0 (fs st) st)) in
  let d := ordered_policy (YARA_COMPLEXITY_THRESHOLD cfg) content valid in
  let run := process_file yara chat cfg fuel copy_mode silent_mode name st in
  exists events,
    trace (final run) = events ++ trace st
    /\ routes events
       = match folder_of cfg d with
         | Some folder => [(name, folder)]
         | None => []
         end
    /\ (d = Unmoved ->
        run = Ok tt (final run)
        /\ is_Some (root (fs (final run)) !! name)
        /\ folders (fs (final run)) = folders (fs st)
        /\ dirs (fs (final run)) = dirs (fs st))
    /\ (forall folder, folder_of cfg d = Some folder ->
        run = if blocked folder silent_mode (fs st)
              then Raised NotADirectoryError (final run)
              else Ok tt (final run))
    /\ ((calculate_complexity content
         == inject_Z (YARA_COMPLEXITY_THRESHOLD cfg))%Q
        \/ (calculate_complexity content == 0)%Q ->
        Qltb 0 (calculate_complexity content)
        && Qltb (calculate_complexity content)
                (inject_Z (YARA_COMPLEXITY_THRESHOLD cfg)) = false).
Proof.
  intros Hfuel Hyar Hf valid d run. unfold run.
  rewrite (process_file_text yara chat cfg fuel copy_mode silent_mode
             name content st Hfuel Hyar Hf).
  unfold process_file_result, early_destination.
  rewrite below_threshold_score.
  unfold has_weak_indicator, lacks_cve.
  subst d. unfold ordered_policy. cbn [first_match].
  set (st1 := advance [Read (InRoot name)] 0 (fs st) st) in *.
  assert (Hearly : forall F,
            route_result name (Some F) copy_mode silent_mode st1
            = if blocked F silent_mode (fs st)
              then Raised NotADirectoryError
                     (route_to name (Some F) copy_mode silent_mode st1)
              else Ok tt (route_to name (Some F) copy_mode silent_mode st1)).
  { intros F. reflexivity. }
  destruct (Qltb 0 (calculate_complexity content)
            && Qltb (calculate_complexity content)
                 (inject_Z (YARA_COMPLEXITY_THRESHOLD cfg))) eqn:E1.
  { exists [Route name (OUTPUT_WEAK_RULES_FOLDER cfg); Read (InRoot name)].
    rewrite final_route_result.
    split; [reflexivity|]. split; [reflexivity|]. split; [discriminate|].
    split; [intros folder [= <-]; apply Hearly|]. intros H.
    rewrite (Qltb_between_false _ _ H) in E1. discriminate. }
  destruct (Py.any_in weak_indicators content).
  { exists [Route name (OUTPUT_WEAK_RULES_FOLDER cfg); Read (InRoot name)].
    rewrite final_route_result.
    split; [reflexivity|]. split; [reflexivity|]. split; [discriminate|].
    split; [intros folder [= <-]; apply Hearly | reflexivity]. }
  destruct (Py.contains cve_unknown_marker content
            || bool_decide (is_Some (Re.search Re.cve_placeholder content))).
  { exists [Route name (OUTPUT_NON_CVE_FOLDER cfg); Read (InRoot name)].
    rewrite final_route_result.
    split; [reflexivity|]. split; [reflexivity|]. split; [discriminate|].
    split; [intros folder [= <-]; apply Hearly | reflexivity]. }
  destruct (syntax_outcome_shape yara chat name content (FIX_BAD_RULES cfg)
              st1) as (evs & fs' & Hsnd & Hroutes & _ & _ & Hfs).
  pose proof (syntax_outcome_keeps_file yara chat name content
                (FIX_BAD_RULES cfg) st1 Hf) as Hkeep.
  fold valid. unfold late_destination. rewrite Hsnd in *.
  set (st2 := advance evs (requests evs) fs' st1) in *.
  assert (Hlate : forall F,
            route_result name (Some F) copy_mode silent_mode st2
            = if blocked F silent_mode (fs st)
              then Raised NotADirectoryError
                     (route_to name (Some F) copy_mode silent_mode st2)
              else Ok tt (route_to name (Some F) copy_mode silent_mode st2)).
  { intros F. unfold route_result.
    assert (Hb : blocked F silent_mode (fs st2)
                 = blocked F silent_mode (fs st)).
    { unfold st2. cbn [advance fs].
      destruct Hfs as [-> | (fixed & -> & _)]; [reflexivity|].
      apply (blocked_write F name silent_mode (Text content)). exact Hf. }
    rewrite Hb. reflexivity. }
  destruct valid; cbn [negb].
  - destruct (Re.search Re.cve_token content) as [year|] eqn:Etok.
    + exists (Route name (OUTPUT_CVE_YEAR_PREFIX cfg +:+ year)
                :: evs ++ [Read (InRoot name)]).
      rewrite final_route_result.
      split; [cbn; rewrite <- app_assoc; reflexivity|].
      rewrite bool_decide_true by eauto.
      split. { cbn. unfold routes in *. rewrite flat_map_app, Hroutes.
               reflexivity. }
      split; [discriminate|].
      split; [intros folder [= <-]; apply Hlate | reflexivity].
    + exists (evs ++ [Read (InRoot name)]).
      rewrite bool_decide_false by (intros [? ?]; discriminate).
      cbn [route_result final].
      split; [cbn; rewrite <- app_assoc; reflexivity|].
      split. { unfold routes in *. rewrite flat_map_app, Hroutes.
               reflexivity. }
      split; [|split; [discriminate | reflexivity]]. intros _.
      split; [reflexivity|]. split; [exact Hkeep|].
      unfold st2. cbn [advance fs].
      destruct Hfs as [-> | (fixed & -> & _)]; split; reflexivity.
  - exists (Route name (OUTPUT_BROKEN_RULES_FOLDER cfg)
              :: evs ++ [Read (InRoot name)]).
    rewrite final_route_result.
    split; [cbn; rewrite <- app_assoc; reflexivity|].
    split. { cbn. unfold routes in *. rewrite flat_map_app, Hroutes.
             reflexivity. }
    split; [discriminate|].
    split; [intros folder [= <-]; apply Hlate | reflexivity].
Qed.

(** ** Sample worlds, for the instances below *)

Module Sample.

(** A validator that accepts a text exactly when it holds [condition:]. *)
Definition yara (f : option file) : Z * string :=
  match f with
  | Some (Text content) =>
      if Py.contains "condition:" content then (0%Z, EmptyString)
      else (1%Z, "error: syntax error, unexpected end of file")
  | Some Undecodable => (1%Z, "error: invalid rule file")
  | None => (1%Z, "error: could not open file")
  end.

(** An oracle that always answers with the same valid rule, one that
    always answers with the same invalid text, one that has no choice to
    offer, and one that cannot be reached. *)
Definition chat_fixing (n : nat) (prompt : string) : chat_reply :=
  Choices "rule fixed { condition: true }".

Definition chat_useless (n : nat) (prompt : string) : chat_reply :=
  Choices "rule still_broken { strings: }".

Definition chat_silent (n : nat) (prompt : string) : chat_reply :=
  NoChoices.

Definition chat_down (n : nat) (prompt : string) : chat_reply :=
  ChatError.

Definition fs_of (files : list (string * file)) : filesystem :=
  {| root := list_to_map files; folders := ∅; dirs := ∅; temp := ∅ |}.

Definition start (files : list (string * file)) : state :=
  {| fs := fs_of files; trace := []; asked := 0 |}.

Definition broken_rule : string := "rule broken { strings: }".

Definition weak_rule : string :=
  "rule weak { condition: pe.imphash() == 1 }".

Definition cve_rule : string :=
  "rule cve { meta: ref = CVE-2021-44228 condition: true }".

Definition loud (cfg : config) : config :=
  {| YARA_COMPLEXITY_THRESHOLD := YARA_COMPLEXITY_THRESHOLD cfg;
     OUTPUT_NON_CVE_FOLDER := OUTPUT_NON_CVE_FOLDER cfg;
     OUTPUT_WEAK_RULES_FOLDER := OUTPUT_WEAK_RULES_FOLDER cfg;
     OUTPUT_BROKEN_RULES_FOLDER := OUTPUT_BROKEN_RULES_FOLDER cfg;
     OUTPUT_CVE_YEAR_PREFIX := OUTPUT_CVE_YEAR_PREFIX cfg;
     COPY_MODE := COPY_MODE cfg;
     SILENT_MODE := false;
     FIX_BAD_RULES := FIX_BAD_RULES cfg;
     YARA_AUTHOR_NAME := YARA_AUTHOR_NAME cfg;
     MIN_CLUSTER_SIZE := MIN_CLUSTER_SIZE cfg;
     SMALL_STRING_MAX_LEN := SMALL_STRING_MAX_LEN cfg;
     MEDIUM_STRING_MAX_LEN := MEDIUM_STRING_MAX_LEN cfg;
     MAX_REGEXES_PER_RULE := MAX_REGEXES_PER_RULE cfg;
     MAX_REGEX_LENGTH := MAX_REGEX_LENGTH cfg;
     MIN_REGEX_LENGTH := MIN_REGEX_LENGTH cfg;
     MAX_NESTED_QUANTIFIERS := MAX_NESTED_QUANTIFIERS cfg;
     MAX_ADVANCED_CONSTRUCTS := MAX_ADVANCED_CONSTRUCTS cfg;
     MAX_ESCAPED_CHARACTERS := MAX_ESCAPED_CHARACTERS cfg;
     MAX_CLASSES_ALTERNATION := MAX_CLASSES_ALTERNATION cfg |}.

End Sample.

Lemma process_file_follows_policy_witness :
  exists events,
    trace (final (process_file Sample.yara Sample.chat_fixing default_config
                    py_fuel true true "a.yar"
                    (Sample.start
                       [("a.yar", Text rule_with_one_short_string)])))
    = events ++ []
    /\ routes events = [("a.yar", "weak-rules")].
Proof.
  destruct (process_file_follows_policy Sample.yara Sample.chat_fixing
              default_config py_fuel true true "a.yar"
              rule_with_one_short_string
              (Sample.start [("a.yar", Text rule_with_one_short_string)]))
    as (events & Htrace & Hroutes & _).
  - unfold py_fuel. lia.
  - reflexivity.
  - reflexivity.
  - exists events. split; [exact Htrace|].
    rewrite Hroutes. vm_compute. reflexivity.
Defined.

(** ** C4: the repair bound *)

(** C4: on a rule of the root, the validate-and-repair procedure returns
    with two frames of recursion at most; it asks the oracle at most once
    and runs the validator at most twice; with repair disabled it never
    asks; a flagged fix ends in failure after one validator run and leaves
    the files alone; the file changes only when the second validation
    succeeded, and then to the fixed text; an invalid rule is reported
    valid only after such a successful repair. *)
Theorem check_rule_syntax_repairs_once
    (yara : option file -> Z * string) (chat : nat -> string -> chat_reply)
    (fuel : nat) (name content : string) (attempt_fix : bool) (st : state) :
  2 <= fuel ->
  root (fs st) !! name = Some (Text content) ->
  let r := yara (Some (Text content)) in
  exists ok st' events,
    check_rule_syntax yara chat fuel (InRoot name) attempt_fix st = Ok ok st'
    /\ check_rule_syntax yara chat 2 (InRoot name) attempt_fix st = Ok ok st'
    /\ trace st' = events ++ trace st
    /\ asked st' = requests events + asked st
    /\ requests events <= 1
    /\ validations events <= 2
    /\ (attempt_fix = false ->
        requests events = 0 /\ validations events = 1
        /\ ok = (fst r =? 0)%Z /\ fs st' = fs st)
    /\ (forall fixed,
          fst r <> 0%Z -> attempt_fix = true ->
          proposed_fix chat (asked st) content (snd r) = Some fixed ->
          is_unacceptable_yara_rule_response fixed = true ->
          ok = false /\ validations events = 1 /\ fs st' = fs st)
    /\ (fs st' = fs st
        \/ exists fixed,
             usable_fix chat (asked st) content (snd r) = Some fixed
             /\ fst (yara (Some (Text fixed))) = 0%Z
             /\ validations events = 2
             /\ ok = true
             /\ fs st' = fs_write (InRoot name) (Text fixed) (fs st))
    /\ (fst r <> 0%Z -> ok = true ->
        exists fixed,
          usable_fix chat (asked st) content (snd r) = Some fixed
          /\ fst (yara (Some (Text fixed))) = 0%Z).
Proof.
  intros Hfuel Hf r.
  rewrite (check_rule_syntax_root yara chat fuel name content attempt_fix st
             Hfuel Hf).
  rewrite (check_rule_syntax_root yara chat 2 name content attempt_fix st
             (le_n 2) Hf).
  unfold syntax_outcome. fold r.
  destruct (fst r =? 0)%Z eqn:Hrc.
  { apply Z.eqb_eq in Hrc.
    exists true, (advance [Validate (InRoot name) (fst r)] 0 (fs st) st),
      [Validate (InRoot name) (fst r)].
    cbn -[is_unacceptable_yara_rule_response proposed_fix usable_fix]. repeat split; try lia; try tauto; try congruence. }
  apply Z.eqb_neq in Hrc.
  destruct attempt_fix; cbn [negb].
  2: { exists false, (advance [Validate (InRoot name) (fst r)] 0 (fs st) st),
         [Validate (InRoot name) (fst r)].
       cbn -[is_unacceptable_yara_rule_response proposed_fix usable_fix]. repeat split; try lia; try tauto; try congruence;
         try (intros _; symmetry; apply Z.eqb_neq; exact Hrc). }
  set (asking := [Ask (fix_prompt content (snd r)); Read (InRoot name);
                  Validate (InRoot name) (fst r)]).
  destruct (usable_fix chat (asked st) content (snd r)) as [fixed|] eqn:Hfix.
  2: { exists false, (advance asking 1 (fs st) st), asking.
       cbn -[is_unacceptable_yara_rule_response proposed_fix usable_fix]. repeat split; try lia; try tauto; try congruence. }
  set (t := InTemp (fresh (dom (temp (fs st))))).
  assert (Hacc : forall fixed',
             proposed_fix chat (asked st) content (snd r) = Some fixed' ->
             is_unacceptable_yara_rule_response fixed' = true -> False).
  { intros fixed' Hp Hbad. unfold usable_fix in Hfix. rewrite Hp in Hfix.
    rewrite Hbad, andb_false_r in Hfix. discriminate. }
  destruct (fst (yara (Some (Text fixed))) =? 0)%Z eqn:Hrc2.
  - apply Z.eqb_eq in Hrc2.
    exists true,
      (advance (Validate t (fst (yara (Some (Text fixed)))) :: asking) 1
         (fs_write (InRoot name) (Text fixed) (fs st)) st),
      (Validate t (fst (yara (Some (Text fixed)))) :: asking).
    cbn -[is_unacceptable_yara_rule_response proposed_fix usable_fix]. repeat split; try lia; try congruence;
      try (intros fixed' _ _ Hp Hbad; destruct (Hacc fixed' Hp Hbad));
      try (exfalso; eapply Hacc; eassumption);
      try (right; exists fixed; repeat split; auto; fail);
      try (intros _ _; exists fixed; split; auto).
  - exists false,
      (advance (Validate t (fst (yara (Some (Text fixed)))) :: asking) 1
         (fs st) st),
      (Validate t (fst (yara (Some (Text fixed)))) :: asking).
    cbn -[is_unacceptable_yara_rule_response proposed_fix usable_fix]. repeat split; try lia; try tauto; try congruence;
      try (intros fixed' _ _ Hp Hbad; destruct (Hacc fixed' Hp Hbad));
      try (exfalso; eapply Hacc; eassumption).
Qed.

Lemma check_rule_syntax_repairs_once_witness :
  exists ok st' events,
    check_rule_syntax Sample.yara Sample.chat_fixing 2 (InRoot "a.yar") true
      (Sample.start [("a.yar", Text Sample.broken_rule)])
    = Ok ok st'
    /\ trace st' = events ++ []
    /\ requests events <= 1
    /\ validations events <= 2.
Proof.
  destruct (check_rule_syntax_repairs_once Sample.yara Sample.chat_fixing 2
              "a.yar" Sample.broken_rule true
              (Sample.start [("a.yar", Text Sample.broken_rule)]))
    as (ok & st' & events & Hrun & _ & Htrace & _ & Hreq & Hval & _).
  - lia.
  - reflexivity.
  - exists ok, st', events. repeat split; assumption.
Defined.

(** ** C9: the complexity gate *)

(** *** What the gate counts, character by character *)

Definition is_quantifier_mark (c : ascii) : bool :=
  Ascii.eqb c "*" || Ascii.eqb c "+" || Ascii.eqb c "?".

(** Whether [s] goes on with digits and commas, at least one of them
    unless [seen], and then a closing brace. *)
Fixpoint closes_brace (seen : bool) (s : string) : bool :=
  match s with
  | EmptyString => false
  | String c s' =>
      if Py.isdigit c || Ascii.eqb c "," then closes_brace true s'
      else seen && Ascii.eqb c "}"
  end.

(** The characters [*], [+] and [?] of a text, wherever they stand, and
    the opening braces that digits and commas and a closing brace
    follow. *)
Fixpoint quantifier_marks (s : string) : nat :=
  match s with
  | EmptyString => 0
  | String c s' =>
      (if is_quantifier_mark c then 1
       else if Ascii.eqb c "{" && closes_brace false s' then 1 else 0)
      + quantifier_marks s'
  end.

(** The pairs of a backslash and the character after it, a newline
    excepted, read from left to right: the second character of a pair
    starts no pair. *)
Fixpoint escaped_pairs (s : string) : nat :=
  match s with
  | EmptyString => 0
  | String c s' =>
      match s' with
      | EmptyString => 0
      | String d rest =>
          if Ascii.eqb c Py.backslash && Py.not_newline d
          then S (escaped_pairs rest)
          else escaped_pairs s'
      end
  end.

Fixpoint alternation_bars (s : string) : nat :=
  match s with
  | EmptyString => 0
  | String c s' => (if Ascii.eqb c "|" then 1 else 0) + alternation_bars s'
  end.

(** The spans of a construct, read from left to right: a span opens
    where the text [opening] stands and closes at the first [closing]
    character after it on the same line; the end of the line or of the
    text before that cancels it; no span opens inside another. *)
Fixpoint construct_spans (opening : string) (closing : ascii)
    (inside : bool) (s : string) : nat :=
  match s with
  | EmptyString => 0
  | String c s' =>
      if inside then
        if Ascii.eqb c closing
        then S (construct_spans opening closing false s')
        else if Ascii.eqb c Py.newline
        then construct_spans opening closing false s'
        else construct_spans opening closing true s'
      else construct_spans opening closing (String.prefix opening s) s'
  end.

(** The quantifier tokens of the syntax of regular expressions: as
    [quantifier_marks], but the question mark that follows an opening
    parenthesis introduces a group extension and is no quantifier. *)
Fixpoint syntax_quantifiers (after_paren : bool) (s : string) : nat :=
  match s with
  | EmptyString => 0
  | String c s' =>
      (if Ascii.eqb c "?" && after_paren then 0
       else if is_quantifier_mark c then 1
       else if Ascii.eqb c "{" && closes_brace false s' then 1 else 0)
      + syntax_quantifiers (Ascii.eqb c "(") s'
  end.

Lemma scan_skip {A} (m : string -> option (A * nat)) (k : nat) :
  forall s, Re.scan m s k = Re.scan m (Py.drop k s) 0.
Proof.
  induction k as [|k IH]; intros s; [reflexivity|].
  destruct s as [|c s']; [reflexivity|]. cbn [Re.scan Py.drop]. apply IH.
Qed.

Lemma count_matches_cons (m : string -> option (unit * nat)) (c : ascii)
    (s : string) :
  count_matches m (String c s)
  = match m (String c s) with
    | Some (_, n) => S (count_matches m (Py.drop (n - 1) s))
    | None => count_matches m s
    end.
Proof.
  unfold count_matches, Re.findall. cbn [Re.scan].
  destruct (m (String c s)) as [[u n]|]; [|reflexivity].
  cbn [length]. rewrite scan_skip. reflexivity.
Qed.

Lemma drop_len_le (k : nat) (s : string) : Py.len (Py.drop k s) <= Py.len s.
Proof.
  revert s. induction k as [|k IH]; intros s; [reflexivity|].
  destruct s as [|c s']; [reflexivity|]. cbn [Py.drop]. 
  specialize (IH s'). unfold Py.len in *. cbn [String.length]. lia.
Qed.

Lemma drop_plus (a b : nat) (s : string) :
  Py.drop (a + b) s = Py.drop b (Py.drop a s).
Proof.
  revert s. induction a as [|a IH]; intros s; [reflexivity|].
  destruct s as [|c s']; [destruct b; reflexivity|]. cbn. apply IH.
Qed.

Lemma prefix_one (a c : ascii) (r : string) :
  String.prefix (String a EmptyString) (String c r) = Ascii.eqb c a.
Proof.
  cbn. destruct (ascii_dec a c) as [->|Hne].
  - rewrite Ascii.eqb_refl. destruct r; reflexivity.
  - symmetry. apply Ascii.eqb_neq. congruence.
Qed.

Lemma prefix_cons (o : ascii) (tail : string) (c : ascii) (s : string) :
  String.prefix (String o tail) (String c s)
  = Ascii.eqb c o && String.prefix tail s.
Proof.
  cbn. destruct (ascii_dec o c) as [->|Hne].
  - rewrite Ascii.eqb_refl. reflexivity.
  - assert (Ascii.eqb c o = false) as -> by (apply Ascii.eqb_neq; congruence).
    reflexivity.
Qed.

(** **** Quantifiers *)

Definition brace_body (c : ascii) : bool := Py.isdigit c || Ascii.eqb c ",".

Lemma brace_body_plain (c : ascii) :
  brace_body c = true ->
  is_quantifier_mark c = false /\ Ascii.eqb c "{" = false.
Proof.
  destruct c as [[] [] [] [] [] [] [] []]; vm_compute; intuition congruence.
Qed.

Lemma closes_brace_span (seen : bool) (s : string) :
  closes_brace seen s
  = (let (body, s2) := Re.span brace_body s in
     (seen || (0 <? Py.len body)) && String.prefix "}" s2).
Proof.
  revert seen. induction s as [|c s IH]; intros seen.
  - cbn. destruct seen; reflexivity.
  - cbn [closes_brace Re.span]. fold (brace_body c).
    destruct (brace_body c) eqn:Hc.
    + rewrite IH. destruct (Re.span brace_body s) as [body s2].
      cbn. rewrite orb_true_r. reflexivity.
    + rewrite prefix_one. cbn. rewrite orb_false_r. reflexivity.
Qed.

Lemma quantifier_marks_skip (s : string) :
  String.prefix "}" (snd (Re.span brace_body s)) = true ->
  quantifier_marks (Py.drop (Py.len (fst (Re.span brace_body s)) + 1) s)
  = quantifier_marks s.
Proof.
  induction s as [|c s IH]; [discriminate|].
  cbn [Re.span]. destruct (brace_body c) eqn:Hc.
  - destruct (Re.span brace_body s) as [body s2] eqn:Hspan.
    cbn [fst snd] in *. intros H. cbn [Py.len String.length Nat.add Py.drop].
    unfold Py.len in IH. rewrite (IH H). cbn [quantifier_marks].
    destruct (brace_body_plain c Hc) as [-> ->]. reflexivity.
  - cbn [fst snd Py.len String.length Nat.add Py.drop].
    rewrite prefix_one. intros H. apply Ascii.eqb_eq in H. subst c.
    reflexivity.
Qed.

Lemma quantifier_token_counts (regex : string) :
  count_matches Re.quantifier_token regex = quantifier_marks regex.
Proof.
  remember (Py.len regex) as n eqn:Hn.
  assert (Hle : Py.len regex <= n) by lia. clear Hn.
  revert regex Hle. induction n as [|n IH]; intros regex Hle.
  { destruct regex; [reflexivity | cbn in Hle; lia]. }
  destruct regex as [|c s]; [reflexivity|].
  assert (Hs : Py.len s <= n) by (cbn in Hle; unfold Py.len; lia).
  rewrite count_matches_cons. cbn [quantifier_marks Re.quantifier_token].
  fold (is_quantifier_mark c).
  destruct (is_quantifier_mark c).
  { cbn [Nat.sub Py.drop]. rewrite (IH s Hs). reflexivity. }
  destruct (Ascii.eqb c "{"); cbn [andb].
  2: { apply (IH s Hs). }
  rewrite closes_brace_span. fold brace_body.
  pose proof (quantifier_marks_skip s) as Hskip.
  destruct (Re.span brace_body s) as [body s2]. cbn [fst snd orb] in *.
  destruct ((0 <? Py.len body) && String.prefix "}" s2) eqn:Hc.
  - apply andb_prop in Hc. destruct Hc as [_ Hclose].
    replace (2 + Py.len body - 1) with (Py.len body + 1) by lia.
    rewrite IH by (pose proof (drop_len_le (Py.len body + 1) s); lia).
    rewrite (Hskip Hclose). reflexivity.
  - apply (IH s Hs).
Qed.

(** **** Escapes and bars *)

Lemma escaped_character_counts (regex : string) :
  count_matches Re.escaped_character regex = escaped_pairs regex.
Proof.
  remember (Py.len regex) as n eqn:Hn.
  assert (Hle : Py.len regex <= n) by lia. clear Hn.
  revert regex Hle. induction n as [|n IH]; intros regex Hle.
  { destruct regex; [reflexivity | cbn in Hle; lia]. }
  destruct regex as [|c s]; [reflexivity|].
  assert (Hs : Py.len s <= n) by (cbn in Hle; unfold Py.len; lia).
  rewrite count_matches_cons. cbn [escaped_pairs Re.escaped_character].
  destruct s as [|d rest].
  { reflexivity. }
  destruct (Ascii.eqb c Py.backslash && Py.not_newline d).
  - cbn [Nat.sub Py.drop]. rewrite IH; [reflexivity|].
    cbn in Hs. unfold Py.len. lia.
  - apply (IH _ Hs).
Qed.

Lemma alternation_counts (regex : string) :
  count_matches Re.alternation regex = alternation_bars regex.
Proof.
  induction regex as [|c s IH]; [reflexivity|].
  rewrite count_matches_cons. cbn [alternation_bars Re.alternation].
  destruct (Ascii.eqb c "|"); cbn [Nat.sub Py.drop]; rewrite IH; reflexivity.
Qed.

(** **** Constructs *)

Section Spans.
Variable opening : string.
Variable closing : ascii.

Definition span_body (c : ascii) : bool :=
  Py.not_newline c && negb (Ascii.eqb c closing).

Hypothesis opening_plain :
  forallb span_body (list_ascii_of_string opening) = true.
Hypothesis opening_not_empty : opening <> EmptyString.
Hypothesis closing_not_newline : Py.not_newline closing = true.

Lemma span_body_inside (c : ascii) (s : string) :
  span_body c = true ->
  construct_spans opening closing true (String c s)
  = construct_spans opening closing true s.
Proof.
  unfold span_body, Py.not_newline. intros H.
  apply andb_prop in H. destruct H as [H1 H2].
  apply negb_true_iff in H1, H2. cbn [construct_spans].
  rewrite H1, H2. reflexivity.
Qed.

Lemma inside_prefix (tail : string) :
  forallb span_body (list_ascii_of_string tail) = true ->
  forall s, String.prefix tail s = true ->
    construct_spans opening closing true s
    = construct_spans opening closing true (Py.drop (Py.len tail) s)
    /\ snd (Re.span span_body s)
       = snd (Re.span span_body (Py.drop (Py.len tail) s)).
Proof.
  induction tail as [|o tail IH]; intros Hall s Hp; [auto|].
  cbn [list_ascii_of_string forallb] in Hall.
  apply andb_prop in Hall. destruct Hall as [Ho Hall].
  destruct s as [|c s]; [discriminate|].
  rewrite prefix_cons in Hp. apply andb_prop in Hp. destruct Hp as [Hc Hp].
  apply Ascii.eqb_eq in Hc. subst c.
  cbn [Py.len String.length Py.drop].
  destruct (IH Hall s Hp) as [H1 H2]. split.
  - rewrite span_body_inside by exact Ho. exact H1.
  - cbn [Re.span]. rewrite Ho.
    destruct (Re.span span_body s) as [a b]. exact H2.
Qed.

Lemma inside_span (s : string) :
  construct_spans opening closing true s
  = construct_spans opening closing true (snd (Re.span span_body s))
  /\ Py.drop (Py.len (fst (Re.span span_body s))) s
     = snd (Re.span span_body s).
Proof.
  induction s as [|c s [IH1 IH2]]; [auto|].
  cbn [Re.span]. destruct (span_body c) eqn:Hc.
  - destruct (Re.span span_body s) as [a b]. cbn [fst snd] in *.
    rewrite span_body_inside by exact Hc. auto.
  - auto.
Qed.

Lemma opening_shape :
  exists o tail,
    opening = String o tail
    /\ forallb span_body (list_ascii_of_string tail) = true.
Proof.
  pose proof opening_plain as H. pose proof opening_not_empty as Hne.
  destruct opening as [|o tail]; [contradiction|].
  exists o, tail. split; [reflexivity|].
  cbn [list_ascii_of_string forallb] in H. apply andb_prop in H. tauto.
Qed.

Lemma opening_head_not_newline (s : string) :
  String.prefix opening (String Py.newline s) = false.
Proof.
  pose proof opening_plain as H. pose proof opening_not_empty as Hne.
  destruct opening as [|o tail]; [contradiction|].
  cbn [list_ascii_of_string forallb] in H.
  apply andb_prop in H. destruct H as [Ho _].
  rewrite prefix_cons.
  destruct (Ascii.eqb Py.newline o) eqn:E; [|reflexivity].
  apply Ascii.eqb_eq in E. subst o. discriminate Ho.
Qed.

(** An opening with no closing character after it on its line opens
    nothing, and what follows is read as if it had not been there. *)
Lemma cancelled_span (s : string) :
  String.prefix (String closing EmptyString) (snd (Re.span span_body s))
  = false ->
  construct_spans opening closing false s
  = construct_spans opening closing true s.
Proof.
  induction s as [|c s IH]; [reflexivity|].
  cbn [Re.span]. destruct (span_body c) eqn:Hc.
  - destruct (Re.span span_body s) as [a b]. cbn [snd] in *. intros H.
    rewrite span_body_inside by exact Hc.
    cbn [construct_spans].
    destruct (String.prefix opening (String c s)); [reflexivity|].
    apply IH. exact H.
  - cbn [snd]. rewrite prefix_one. intros Hne.
    assert (c = Py.newline) as ->.
    { unfold span_body in Hc. rewrite Hne in Hc. cbn in Hc.
      rewrite andb_true_r in Hc. unfold Py.not_newline in Hc.
      apply negb_false_iff, Ascii.eqb_eq in Hc. exact Hc. }
    cbn [construct_spans]. rewrite opening_head_not_newline.
    rewrite Hne, Ascii.eqb_refl. reflexivity.
Qed.

Lemma lazy_group_unfold (s : string) :
  Re.lazy_group opening closing s
  = if String.prefix opening s then
      let (body, s2) := Re.span span_body (Py.drop (Py.len opening) s) in
      if String.prefix (String closing EmptyString) s2
      then Some (tt, Py.len opening + Py.len body + 1) else None
    else None.
Proof. reflexivity. Qed.

Lemma lazy_group_counts (regex : string) :
  count_matches (Re.lazy_group opening closing) regex
  = construct_spans opening closing false regex.
Proof.
  remember (Py.len regex) as n eqn:Hn.
  assert (Hle : Py.len regex <= n) by lia. clear Hn.
  revert regex Hle. induction n as [|n IH]; intros regex Hle.
  { destruct regex; [reflexivity | cbn in Hle; lia]. }
  destruct regex as [|c s]; [reflexivity|].
  assert (Hs : Py.len s <= n) by (cbn in Hle; unfold Py.len; lia).
  rewrite count_matches_cons, lazy_group_unfold. cbn [construct_spans].
  destruct (String.prefix opening (String c s)) eqn:Hp.
  2: { apply (IH s Hs). }
  destruct opening_shape as (o & tail & Hopening & Hall).
  assert (Hp' := Hp). rewrite Hopening, prefix_cons in Hp'.
  apply andb_prop in Hp'. destruct Hp' as [_ Htail].
  destruct (inside_prefix tail Hall s Htail) as [Hin Hsnd].
  assert (Hdrop : Py.drop (Py.len opening) (String c s)
                  = Py.drop (Py.len tail) s).
  { rewrite Hopening. reflexivity. }
  rewrite Hdrop.
  destruct (inside_span (Py.drop (Py.len tail) s)) as [Hin2 Hrest].
  pose proof (cancelled_span s) as Hcancel. rewrite Hsnd in Hcancel.
  destruct (Re.span span_body (Py.drop (Py.len tail) s)) as [body s2].
  cbn [fst snd] in *.
  destruct (String.prefix (String closing EmptyString) s2) eqn:Hclose.
  - destruct s2 as [|d r2]; [discriminate|].
    rewrite prefix_one in Hclose. 
    replace (Py.len opening + Py.len body + 1 - 1)
      with (Py.len tail + (Py.len body + 1))
      by (rewrite Hopening; unfold Py.len; cbn [String.length]; lia).
    rewrite drop_plus, (drop_plus (Py.len body) 1), Hrest.
    cbn [Py.drop].
    rewrite IH.
    2: { pose proof (drop_len_le (Py.len tail + Py.len body) s) as H.
         rewrite drop_plus, Hrest in H. unfold Py.len in *.
         cbn [String.length] in H. lia. }
    rewrite Hin, Hin2. cbn [construct_spans]. rewrite Hclose. reflexivity.
  - rewrite (IH s Hs). apply Hcancel. reflexivity.
Qed.

End Spans.

Lemma construct_count_spans (regex construct : string) :
  In construct advanced_constructs ->
  construct_count regex construct
  = construct_spans construct ")" false regex.
Proof.
  intros Hin. unfold construct_count.
  cbn [advanced_constructs In] in Hin.
  destruct Hin as [<-|[<-|[<-|[<-|[<-|[]]]]]];
    apply lazy_group_counts; solve [reflexivity | discriminate].
Qed.

Lemma character_class_spans (regex : string) :
  count_matches (Re.lazy_group "[" "]") regex
  = construct_spans "[" "]" false regex.
Proof. apply lazy_group_counts; solve [reflexivity | discriminate]. Qed.

Lemma syntax_quantifiers_le (after_paren : bool) (s : string) :
  syntax_quantifiers after_paren s <= quantifier_marks s.
Proof.
  revert after_paren. induction s as [|c s IH]; intros after_paren.
  - reflexivity.
  - cbn [syntax_quantifiers quantifier_marks].
    specialize (IH (Ascii.eqb c "(")).
    destruct (Ascii.eqb c "?" && after_paren);
      destruct (is_quantifier_mark c);
      destruct (Ascii.eqb c "{" && closes_brace false s); lia.
Qed.

Lemma gate_cases (cfg : config) (regex : string) :
  is_regex_too_complex cfg regex = true <->
  (Py.len regex < MIN_REGEX_LENGTH cfg
   \/ MAX_REGEX_LENGTH cfg < Py.len regex)
  \/ MAX_NESTED_QUANTIFIERS cfg < count_matches Re.quantifier_token regex
  \/ (exists construct,
        In construct advanced_constructs
        /\ MAX_ADVANCED_CONSTRUCTS cfg < construct_count regex construct)
  \/ MAX_ESCAPED_CHARACTERS cfg < count_matches Re.escaped_character regex
  \/ MAX_CLASSES_ALTERNATION cfg
     < count_matches (Re.lazy_group "[" "]") regex
       + count_matches Re.alternation regex.
Proof.
  unfold is_regex_too_complex.
  destruct (MAX_REGEX_LENGTH cfg <? Py.len regex) eqn:E1;
  destruct (Py.len regex <? MIN_REGEX_LENGTH cfg) eqn:E2;
  cbn [orb];
  try (apply Nat.ltb_lt in E1); try (apply Nat.ltb_lt in E2);
  try (split; [intros _; lia | reflexivity]).
  apply Nat.ltb_ge in E1, E2.
  destruct (MAX_NESTED_QUANTIFIERS cfg
            <? count_matches Re.quantifier_token regex) eqn:E3.
  { apply Nat.ltb_lt in E3. split; [tauto | reflexivity]. }
  apply Nat.ltb_ge in E3.
  destruct (existsb
              (fun construct =>
                 MAX_ADVANCED_CONSTRUCTS cfg
                 <? construct_count regex construct)
              advanced_constructs) eqn:E4.
  { apply existsb_exists in E4. destruct E4 as (c & Hin & Hc).
    apply Nat.ltb_lt in Hc. split; [|reflexivity].
    intros _. right. right. left. exists c. split; assumption. }
  assert (H4 : ~ exists construct,
                 In construct advanced_constructs
                 /\ MAX_ADVANCED_CONSTRUCTS cfg
                    < construct_count regex construct).
  { intros (c & Hin & Hc).
    assert (existsb
              (fun construct =>
                 MAX_ADVANCED_CONSTRUCTS cfg
                 <? construct_count regex construct)
              advanced_constructs = true) as Hex.
    { apply existsb_exists. exists c. split; [exact Hin|].
      apply Nat.ltb_lt. exact Hc. }
    congruence. }
  destruct (MAX_ESCAPED_CHARACTERS cfg
            <? count_matches Re.escaped_character regex) eqn:E5.
  { apply Nat.ltb_lt in E5. split; [tauto | reflexivity]. }
  apply Nat.ltb_ge in E5.
  destruct (MAX_CLASSES_ALTERNATION cfg
            <? count_matches (Re.lazy_group "[" "]") regex
               + count_matches Re.alternation regex) eqn:E6.
  { apply Nat.ltb_lt in E6. split; [tauto | reflexivity]. }
  apply Nat.ltb_ge in E6.
  split; [discriminate|].
  intros [[H|H]|[H|[H|[H|H]]]]; try lia. destruct (H4 H).
Qed.

Definition two_groups : string := "(?:ab)+(?:cd)+eeeeeeee".

(** C9, as stated, fails: a candidate of 22 characters with two
    quantifiers and two non-capturing groups, no escape, no class and no
    bar meets none of the five conditions, the maximum of quantifiers
    being 3 and that of each construct 2; the gate rejects it, because it
    counts the question mark of each group opener as a quantifier and so
    finds four. *)
Lemma group_openers_count_as_quantifiers :
  is_regex_too_complex default_config two_groups = true
  /\ MIN_REGEX_LENGTH default_config <= Py.len two_groups
     <= MAX_REGEX_LENGTH default_config
  /\ syntax_quantifiers false two_groups = 2
  /\ 2 <= MAX_NESTED_QUANTIFIERS default_config
  /\ count_matches Re.quantifier_token two_groups = 4
  /\ Forall (fun construct =>
               construct_count two_groups construct
               <= MAX_ADVANCED_CONSTRUCTS default_config)
            advanced_constructs
  /\ count_matches Re.escaped_character two_groups = 0
  /\ count_matches (Re.lazy_group "[" "]") two_groups
     + count_matches Re.alternation two_groups = 0.
Proof.
  split; [vm_compute; reflexivity|].
  split; [vm_compute; lia|].
  split; [vm_compute; reflexivity|].
  split; [vm_compute; lia|].
  split; [vm_compute; reflexivity|].
  split; [repeat constructor; vm_compute; lia|].
  split; vm_compute; reflexivity.
Qed.

(** C9, amended: the gate rejects a candidate exactly when its length is
    outside [MIN_REGEX_LENGTH, MAX_REGEX_LENGTH], or one of four counts
    of its text exceeds its bound.  The counts are of characters, not of
    syntax: the characters [*], [+] and [?] wherever they stand, a group
    opener or an escape included, with the brace groups of digits and
    commas; for each of the five advanced constructs, the spans from its
    opener to the first closing parenthesis on the same line; the pairs
    of a backslash and a character other than a newline, read from left
    to right; the spans from an opening bracket to the first closing
    bracket on the same line, plus the bars.  The count of quantifier
    characters is never below the number of quantifiers of the syntax.
    A candidate one character short of the minimum is rejected; one of
    exactly the minimum length, in a range that is not empty, is rejected
    only for one of the four counts. *)
Theorem is_regex_too_complex_iff (cfg : config) (regex : string) :
  let others :=
    MAX_NESTED_QUANTIFIERS cfg < quantifier_marks regex
    \/ (exists construct,
          In construct advanced_constructs
          /\ MAX_ADVANCED_CONSTRUCTS cfg
             < construct_spans construct ")" false regex)
    \/ MAX_ESCAPED_CHARACTERS cfg < escaped_pairs regex
    \/ MAX_CLASSES_ALTERNATION cfg
       < construct_spans "[" "]" false regex + alternation_bars regex in
  (is_regex_too_complex cfg regex = true <->
   (Py.len regex < MIN_REGEX_LENGTH cfg
    \/ MAX_REGEX_LENGTH cfg < Py.len regex)
   \/ others)
  /\ (Py.len regex + 1 = MIN_REGEX_LENGTH cfg ->
      is_regex_too_complex cfg regex = true)
  /\ (Py.len regex = MIN_REGEX_LENGTH cfg ->
      MIN_REGEX_LENGTH cfg <= MAX_REGEX_LENGTH cfg ->
      (is_regex_too_complex cfg regex = true <-> others))
  /\ syntax_quantifiers false regex <= quantifier_marks regex.
Proof.
  intros others.
  assert (Hmain :
    is_regex_too_complex cfg regex = true <->
    (Py.len regex < MIN_REGEX_LENGTH cfg
     \/ MAX_REGEX_LENGTH cfg < Py.len regex) \/ others).
  { rewrite gate_cases. unfold others.
    rewrite quantifier_token_counts, escaped_character_counts,
      alternation_counts, character_class_spans.
    assert (Hc : (exists construct,
                    In construct advanced_constructs
                    /\ MAX_ADVANCED_CONSTRUCTS cfg
                       < construct_count regex construct)
                 <-> (exists construct,
                        In construct advanced_constructs
                        /\ MAX_ADVANCED_CONSTRUCTS cfg
                           < construct_spans construct ")" false regex)).
    { split; intros (c & Hin & H); exists c; (split; [exact Hin|]);
        [rewrite <- (construct_count_spans regex c Hin)
        | rewrite (construct_count_spans regex c Hin)]; exact H. }
    rewrite Hc. reflexivity. }
  split; [exact Hmain|]. split; [|split].
  - intros H. apply Hmain. left. left. lia.
  - intros Hlen Hrange. rewrite Hmain. split; [|tauto].
    intros [[H|H]|H]; [lia | lia | exact H].
  - apply syntax_quantifiers_le.
Qed.

Definition twenty_letters : string := "abcdefghijklmnopqrst".

Lemma is_regex_too_complex_iff_witness :
  is_regex_too_complex default_config "abcdefghijklmnopqrs" = true
  /\ is_regex_too_complex default_config twenty_letters = false
  /\ is_regex_too_complex default_config two_groups = true.
Proof.
  split; [|split].
  - apply (proj1 (proj2 (is_regex_too_complex_iff default_config
                           "abcdefghijklmnopqrs"))).
    reflexivity.
  - destruct (is_regex_too_complex default_config twenty_letters) eqn:E;
      [|reflexivity].
    apply (proj1 (proj2 (proj2 (is_regex_too_complex_iff default_config
                                  twenty_letters)))) in E.
    + exfalso. cbv zeta in E.
      destruct E as [H|[(c & Hin & Hc)|[H|H]]].
      * vm_compute in H. lia.
      * cbn [advanced_constructs In] in Hin.
        destruct Hin as [<-|[<-|[<-|[<-|[<-|[]]]]]];
          vm_compute in Hc; lia.
      * vm_compute in H. lia.
      * vm_compute in H. lia.
    + reflexivity.
    + vm_compute. lia.
  - apply (proj1 (is_regex_too_complex_iff default_config two_groups)).
    right. left. vm_compute. lia.
Defined.

(** ** What a routing pass touches *)

Lemma requests_app (a b : list event) :
  requests (a ++ b) = requests a + requests b.
Proof. unfold requests. rewrite List.filter_app, length_app. reflexivity. Qed.

Lemma routes_app (a b : list event) : routes (a ++ b) = routes a ++ routes b.
Proof. unfold routes. apply flat_map_app. Qed.

Lemma reads_app (a b : list event) : reads (a ++ b) = reads a ++ reads b.
Proof. unfold reads. apply flat_map_app. Qed.

(** The frame of a pass over a listing: [run] is what the pass returned,
    [events] what it added to the trace, newest first.  In move mode a
    routed rule is gone from the root, except the one at which the pass
    stopped because the name of its sub-folder is a file of the root. *)
Record pass_frame (copy_mode silent_mode : bool) (listing : list string)
    (st : state) (run : result unit) (events : list event) : Prop := {
  pf_trace : trace (final run) = events ++ trace st;
  pf_asked : asked (final run) = requests events + asked st;
  pf_reads : forall p, In p (reads events) ->
    exists n, In n listing /\ Py.endswith n ".yar" = true /\ p = InRoot n;
  pf_routes : forall n d, In (n, d) (routes events) ->
    In n listing /\ Py.endswith n ".yar" = true;
  pf_root_other : forall n,
    ~ (In n listing /\ Py.endswith n ".yar" = true) ->
    root (fs (final run)) !! n = root (fs st) !! n;
  pf_root_shrinks : forall n,
    is_Some (root (fs (final run)) !! n) -> is_Some (root (fs st) !! n);
  pf_moved : copy_mode = false -> silent_mode = false ->
    forall n d, In (n, d) (routes events) ->
    root (fs (final run)) !! n = None
    \/ (run = Raised NotADirectoryError (final run)
        /\ is_Some (root (fs (final run)) !! d)
        /\ exists older, routes events = (n, d) :: older);
  pf_kept : copy_mode = true \/ silent_mode = true ->
    forall n, is_Some (root (fs st) !! n) ->
    is_Some (root (fs (final run)) !! n);
  pf_folders : forall d n,
    silent_mode = true \/ ~ In (n, d) (routes events) ->
    folders (fs (final run)) !! (d, n) = folders (fs st) !! (d, n);
  pf_temp : temp (fs (final run)) = temp (fs st);
  pf_dirs : silent_mode = true -> dirs (fs (final run)) = dirs (fs st);
  pf_present : forall n,
    In (InRoot n) (reads events) \/ (exists d, In (n, d) (routes events)) ->
    is_Some (root (fs st) !! n)
}.

Lemma pass_frame_stay cm sm listing st (run : result unit) :
  final run = st -> pass_frame cm sm listing st run [].
Proof.
  intros H. subst st. split; try reflexivity; try tauto; cbn; try tauto.
  intros n [[]|[d []]].
Qed.

Lemma pass_frame_refl cm sm listing st :
  pass_frame cm sm listing st (Ok tt st) [].
Proof. apply pass_frame_stay. reflexivity. Qed.

Lemma pass_frame_trans cm sm l1 l2 st st1 run e1 e2 :
  pass_frame cm sm l1 st (Ok tt st1) e1 ->
  pass_frame cm sm l2 st1 run e2 ->
  pass_frame cm sm (l1 ++ l2) st run (e2 ++ e1).
Proof.
  intros F1 F2.
  pose proof (pf_trace _ _ _ _ _ _ F1) as T1.
  pose proof (pf_asked _ _ _ _ _ _ F1) as A1.
  pose proof (pf_root_other _ _ _ _ _ _ F1) as O1.
  pose proof (pf_root_shrinks _ _ _ _ _ _ F1) as S1.
  pose proof (pf_moved _ _ _ _ _ _ F1) as M1.
  pose proof (pf_kept _ _ _ _ _ _ F1) as K1.
  pose proof (pf_folders _ _ _ _ _ _ F1) as D1.
  pose proof (pf_temp _ _ _ _ _ _ F1) as P1.
  pose proof (pf_dirs _ _ _ _ _ _ F1) as R1.
  pose proof (pf_present _ _ _ _ _ _ F1) as Q1.
  cbn [final] in T1, A1, O1, S1, M1, K1, D1, P1, R1.
  split.
  - rewrite (pf_trace _ _ _ _ _ _ F2), T1. apply app_assoc.
  - rewrite (pf_asked _ _ _ _ _ _ F2), A1, requests_app. lia.
  - intros p. rewrite reads_app, in_app_iff. intros [H|H].
    + destruct (pf_reads _ _ _ _ _ _ F2 p H) as (n & Hn & Hy & ->).
      exists n. rewrite in_app_iff. auto.
    + destruct (pf_reads _ _ _ _ _ _ F1 p H) as (n & Hn & Hy & ->).
      exists n. rewrite in_app_iff. auto.
  - intros n d. rewrite routes_app, !in_app_iff. intros [H|H].
    + destruct (pf_routes _ _ _ _ _ _ F2 n d H). auto.
    + destruct (pf_routes _ _ _ _ _ _ F1 n d H). auto.
  - intros n Hn. rewrite in_app_iff in Hn.
    rewrite (pf_root_other _ _ _ _ _ _ F2 n) by tauto.
    apply O1. tauto.
  - intros n H. apply S1.
    apply (pf_root_shrinks _ _ _ _ _ _ F2). exact H.
  - intros Hc Hs n d. rewrite routes_app, in_app_iff. intros [H|H].
    + destruct (pf_moved _ _ _ _ _ _ F2 Hc Hs n d H)
        as [Hnone | (Hr & Hd & older & Ho)]; [left; exact Hnone|].
      right. split; [exact Hr|]. split; [exact Hd|].
      exists (older ++ routes e1). rewrite Ho. reflexivity.
    + left. destruct (M1 Hc Hs n d H) as [Hnone | (Hr & _)];
        [|discriminate].
      destruct (root (fs (final run)) !! n) eqn:E; [|reflexivity].
      assert (is_Some (root (fs st1) !! n)) as [x Hx]
        by (apply (pf_root_shrinks _ _ _ _ _ _ F2); eauto).
      congruence.
  - intros Hm n H. apply (pf_kept _ _ _ _ _ _ F2 Hm).
    apply (K1 Hm). exact H.
  - intros d n H. rewrite routes_app, in_app_iff in H.
    rewrite (pf_folders _ _ _ _ _ _ F2 d n) by tauto.
    apply D1. tauto.
  - rewrite (pf_temp _ _ _ _ _ _ F2). exact P1.
  - intros Hs. rewrite (pf_dirs _ _ _ _ _ _ F2 Hs). apply (R1 Hs).
  - intros n. rewrite reads_app, in_app_iff. intros [[H|H]|[d H]].
    + apply S1. apply (pf_present _ _ _ _ _ _ F2). auto.
    + apply Q1. auto.
    + rewrite routes_app, in_app_iff in H. destruct H as [H|H].
      * apply S1. apply (pf_present _ _ _ _ _ _ F2). eauto.
      * apply Q1. eauto.
Qed.

Lemma pass_frame_listing cm sm l1 l2 st run events :
  (forall n, In n l1 -> In n l2) ->
  pass_frame cm sm l1 st run events -> pass_frame cm sm l2 st run events.
Proof.
  intros Hsub F. destruct F. split; auto.
  - intros p Hp. destruct (pf_reads0 p Hp) as (n & Hn & Hy & ->). eauto.
  - intros n d H. destruct (pf_routes0 n d H). auto.
  - intros n Hn. apply pf_root_other0. intros [H1 H2]. apply Hn. auto.
Qed.

Lemma route_result_frame cm sm name dest (st : state) :
  Py.endswith name ".yar" = true ->
  is_Some (root (fs st) !! name) ->
  pass_frame cm sm [name] st (route_result name dest cm sm st)
    (match dest with Some d => [Route name d] | None => [] end).
Proof.
  intros Hyar [f Hf]. destruct dest as [d|]; [|apply pass_frame_refl].
  split; rewrite ?final_route_result.
  all: unfold route_to, routed_fs; rewrite ?Hf;
    cbn [advance trace asked fs].
  - reflexivity.
  - reflexivity.
  - cbn. tauto.
  - cbn. intros n d' [H|[]]. inversion H; subst. auto.
  - intros n Hn. assert (n <> name) as Hne.
    { intros ->. apply Hn. split; [left; reflexivity | exact Hyar]. }
    destruct sm; [reflexivity|].
    destruct (root (fs st) !! d); [reflexivity|].
    destruct cm, (bool_decide (d ∈ dirs (fs st)));
      cbn [fs_write fs_mkdir fs_remove root];
      rewrite ?lookup_delete_ne by congruence; reflexivity.
  - intros n. destruct sm; [tauto|].
    destruct (root (fs st) !! d); [tauto|].
    destruct cm, (bool_decide (d ∈ dirs (fs st)));
      cbn [fs_write fs_mkdir fs_remove root];
      try tauto; rewrite lookup_delete; case_decide; try tauto;
      intros [? ?]; discriminate.
  - intros -> -> n d' [H|[]]. inversion H; subst n d'.
    unfold route_result, blocked, route_to, routed_fs. rewrite Hf.
    cbn [negb andb advance fs final].
    destruct (root (fs st) !! d) as [g|] eqn:Hg.
    + right. rewrite bool_decide_eq_true_2 by eauto.
      split; [reflexivity|]. split; [eauto|].
      exists []. reflexivity.
    + left. destruct (bool_decide (d ∈ dirs (fs st)));
        cbn [fs_write fs_mkdir fs_remove root]; apply lookup_delete_eq.
  - intros Hm n Hn. destruct sm; [exact Hn|].
    destruct Hm as [-> | Hm]; [|discriminate].
    destruct (root (fs st) !! d); [exact Hn|].
    destruct (bool_decide (d ∈ dirs (fs st)));
      cbn [fs_write fs_mkdir fs_remove root]; exact Hn.
  - intros d' n H. destruct sm; [reflexivity|].
    destruct H as [H|H]; [discriminate|].
    assert ((d, name) <> (d', n)) as Hne.
    { intros E. inversion E; subst. apply H. left. reflexivity. }
    destruct (root (fs st) !! d); [reflexivity|].
    destruct cm, (bool_decide (d ∈ dirs (fs st)));
      cbn [fs_write fs_mkdir fs_remove folders];
      rewrite lookup_insert_ne by exact Hne; reflexivity.
  - destruct sm; [reflexivity|].
    destruct (root (fs st) !! d); [reflexivity|].
    destruct cm, (bool_decide (d ∈ dirs (fs st))); reflexivity.
  - intros ->. reflexivity.
  - cbn. intros n [[]|[d' [H|[]]]]. inversion H; subst. eauto.
Qed.

Section Frames.
Variable yara : option file -> Z * string.
Variable chat : nat -> string -> chat_reply.
Variable cfg : config.

Lemma process_file_result_shape cm sm name content (st : state) :
  root (fs st) !! name = Some (Text content) ->
  exists events fs_mid dest,
    process_file_result yara chat cfg cm sm name content st
    = route_result name dest cm sm
        (advance events (requests events) fs_mid st)
    /\ routes events = []
    /\ (forall p, In p (reads events) -> p = InRoot name)
    /\ (fs_mid = fs st
        \/ exists fixed, fs_mid = fs_write (InRoot name) (Text fixed) (fs st)).
Proof.
  intros Hf. unfold process_file_result.
  destruct (early_destination cfg content) as [folder|].
  - exists [Read (InRoot name)], (fs st), (Some folder).
    split; [reflexivity|]. cbn. intuition.
  - destruct (syntax_outcome_shape yara chat name content (FIX_BAD_RULES cfg)
                (advance [Read (InRoot name)] 0 (fs st) st))
      as (evs & fs' & Hsnd & Hroutes & Hreads & _ & Hfs).
    exists (evs ++ [Read (InRoot name)]), fs', (late_destination cfg content
      (fst (syntax_outcome yara chat name content (FIX_BAD_RULES cfg)
              (advance [Read (InRoot name)] 0 (fs st) st)))).
    split.
    { rewrite Hsnd. f_equal. unfold advance. cbn [trace asked fs].
      rewrite requests_app, <- app_assoc. cbn. f_equal. lia. }
    split. { rewrite routes_app, Hroutes. reflexivity. }
    split. { intros p. rewrite reads_app, in_app_iff. cbn.
             intros [H|[H|[]]]; auto. }
    cbn [advance fs] in Hfs.
    destruct Hfs as [-> | (fixed & -> & _)]; eauto.
Qed.

Lemma process_file_outcome_shape cm sm name content (st : state) :
  root (fs st) !! name = Some (Text content) ->
  exists events fs_mid dest,
    process_file_outcome yara chat cfg cm sm name content st
    = route_to name dest cm sm (advance events (requests events) fs_mid st)
    /\ routes events = []
    /\ (forall p, In p (reads events) -> p = InRoot name)
    /\ (fs_mid = fs st
        \/ exists fixed, fs_mid = fs_write (InRoot name) (Text fixed) (fs st)).
Proof.
  intros Hf.
  destruct (process_file_result_shape cm sm name content st Hf)
    as (events & fs_mid & dest & Hr & H).
  exists events, fs_mid, dest. split; [|exact H].
  rewrite <- final_process_file_result, Hr. apply final_route_result.
Qed.

Lemma process_file_frame (fuel : nat) cm sm name (st : state) :
  2 <= fuel ->
  exists events,
    pass_frame cm sm [name] st
      (process_file yara chat cfg fuel cm sm name st) events.
Proof.
  intros Hfuel.
  destruct (Py.endswith name ".yar") eqn:Hyar.
  2: { rewrite process_file_other by exact Hyar.
       exists []. apply pass_frame_refl. }
  destruct (root (fs st) !! name) as [[content|]|] eqn:Hf.
  2: { rewrite process_file_unreadable by assumption.
       exists []. apply pass_frame_stay. reflexivity. }
  2: { rewrite process_file_missing by assumption.
       exists []. apply pass_frame_stay. reflexivity. }
  rewrite (process_file_text yara chat cfg fuel cm sm name content st
             Hfuel Hyar Hf).
  destruct (process_file_result_shape cm sm name content st Hf)
    as (events & fs_mid & dest & -> & Hroutes & Hreads & Hfs).
  set (mid := advance events (requests events) fs_mid st).
  assert (Hmid : pass_frame cm sm [name] st (Ok tt mid) events).
  { split; cbn [final mid advance trace asked fs]; try reflexivity.
    - intros p Hp. exists name. rewrite (Hreads p Hp).
      split; [left; reflexivity | auto].
    - rewrite Hroutes. intros n d [].
    - intros n Hn. assert (n <> name) as Hne.
      { intros ->. apply Hn. split; [left; reflexivity | exact Hyar]. }
      destruct Hfs as [-> | (fixed & ->)]; [reflexivity|].
      cbn [fs_write root]. apply lookup_insert_ne. congruence.
    - intros n. destruct Hfs as [-> | (fixed & ->)]; [tauto|].
      cbn [fs_write root]. rewrite lookup_insert. case_decide; [|tauto].
      subst. intros _. rewrite Hf. eauto.
    - rewrite Hroutes. intros _ _ n d [].
    - intros _ n Hn. destruct Hfs as [-> | (fixed & ->)]; [exact Hn|].
      cbn [fs_write root]. rewrite lookup_insert. case_decide; eauto.
    - intros d n _. destruct Hfs as [-> | (fixed & ->)]; reflexivity.
    - destruct Hfs as [-> | (fixed & ->)]; reflexivity.
    - intros _. destruct Hfs as [-> | (fixed & ->)]; reflexivity.
    - rewrite Hroutes. intros n [H|[d []]].
      apply Hreads in H. inversion H; subst. rewrite Hf. eauto. }
  assert (Hkeep : is_Some (root (fs mid) !! name)).
  { subst mid. cbn [advance fs].
    destruct Hfs as [-> | (fixed & ->)]; [rewrite Hf; eauto|].
    cbn [fs_write root]. rewrite lookup_insert_eq. eauto. }
  eexists.
  apply (pass_frame_listing cm sm ([name] ++ [name])).
  { intros n. rewrite in_app_iff. tauto. }
  eapply pass_frame_trans; [exact Hmid|].
  apply route_result_frame; assumption.
Qed.

Lemma process_files_frame (fuel : nat) cm sm listing (st : state) :
  2 <= fuel ->
  exists events,
    pass_frame cm sm listing st
      (process_files yara chat cfg fuel cm sm listing st) events.
Proof.
  intros Hfuel. revert st.
  induction listing as [|name rest IH]; intros st.
  - exists []. apply pass_frame_refl.
  - cbn [process_files]. unfold bind.
    destruct (process_file_frame fuel cm sm name st Hfuel) as (e1 & F1).
    destruct (process_file yara chat cfg fuel cm sm name st) as [[] st1|e st1].
    + destruct (IH st1) as (e2 & F2).
      exists (e2 ++ e1).
      change (name :: rest) with ([name] ++ rest).
      eapply pass_frame_trans; eassumption.
    + exists e1. apply (pass_frame_listing cm sm [name]); [|exact F1].
      intros n [->|[]]. left. reflexivity.
Qed.

End Frames.

(** ** C10: what the routing pass reads and changes *)

Definition corpus_with_old_copy : state :=
  {| fs := {| root := {["a.yar" := Text Sample.weak_rule]};
              folders := {[("weak-rules", "a.yar") := Text "rule old {}"]};
              dirs := {["weak-rules"]};
              temp := ∅ |};
     trace := []; asked := 0 |}.

(** C10, as stated, fails: a file inside a bucket directory is overwritten
    when a rule of the same name is routed to that bucket. *)
Lemma routing_overwrites_bucket_file :
  exists st',
    process_files Sample.yara Sample.chat_fixing default_config py_fuel
      true false ["a.yar"] corpus_with_old_copy = Ok tt st'
    /\ folders (fs corpus_with_old_copy) !! ("weak-rules", "a.yar")
       = Some (Text "rule old {}")
    /\ folders (fs st') !! ("weak-rules", "a.yar")
       = Some (Text Sample.weak_rule)
    /\ folders (fs st') !! ("weak-rules", "a.yar")
       <> folders (fs corpus_with_old_copy) !! ("weak-rules", "a.yar").
Proof.
  eexists. split; [vm_compute; reflexivity|].
  split; [reflexivity|]. split; [reflexivity|].
  vm_compute. discriminate.
Qed.

(** C10, amended: the routing pass reads and routes only entries of the
    listing of the root whose name ends in [.yar]; an entry of the root
    with another name is left as it is; a file in a sub-folder is never
    read, and it is left as it is unless the pass routes a rule of the
    same name to that sub-folder, or always in silent mode; the directory
    of temporary files ends as it started. *)
Theorem process_files_touches_only_listed_rules
    (yara : option file -> Z * string) (chat : nat -> string -> chat_reply)
    (cfg : config) (fuel : nat) (copy_mode silent_mode : bool)
    (listing : list string) (st : state) :
  2 <= fuel ->
  let st' :=
    final (process_files yara chat cfg fuel copy_mode silent_mode
             listing st) in
  exists events,
    trace st' = events ++ trace st
    /\ (forall p, In p (reads events) ->
        exists n,
          In n listing /\ Py.endswith n ".yar" = true /\ p = InRoot n)
    /\ (forall n d, In (n, d) (routes events) ->
        In n listing /\ Py.endswith n ".yar" = true)
    /\ (forall n, Py.endswith n ".yar" = false ->
        root (fs st') !! n = root (fs st) !! n)
    /\ (forall n, ~ In n listing ->
        root (fs st') !! n = root (fs st) !! n)
    /\ (forall d n, ~ In (n, d) (routes events) ->
        folders (fs st') !! (d, n) = folders (fs st) !! (d, n))
    /\ (silent_mode = true -> folders (fs st') = folders (fs st))
    /\ temp (fs st') = temp (fs st).
Proof.
  intros Hfuel st'.
  destruct (process_files_frame yara chat cfg fuel copy_mode silent_mode
              listing st Hfuel) as (events & F).
  exists events. destruct F. subst st'.
  split; [assumption|]. split; [assumption|]. split; [assumption|].
  split. { intros m Hm. apply pf_root_other0. intros [_ H]. congruence. }
  split. { intros m Hm. apply pf_root_other0. tauto. }
  split. { intros d m Hm. apply pf_folders0. auto. }
  split; [|assumption].
  intros Hs. apply map_eq. intros [d m]. apply pf_folders0. auto.
Qed.

Lemma process_files_touches_only_listed_rules_witness :
  exists events,
    trace (final (process_files Sample.yara Sample.chat_fixing
                    default_config py_fuel true false ["a.yar"]
                    corpus_with_old_copy))
    = events ++ []
    /\ temp (fs (final (process_files Sample.yara Sample.chat_fixing
                          default_config py_fuel true false ["a.yar"]
                          corpus_with_old_copy))) = ∅.
Proof.
  destruct (process_files_touches_only_listed_rules Sample.yara
              Sample.chat_fixing default_config py_fuel true false
              ["a.yar"] corpus_with_old_copy)
    as (events & Htrace & _ & _ & _ & _ & _ & _ & Htemp).
  - unfold py_fuel. lia.
  - exists events. split; [exact Htrace | exact Htemp].
Defined.

(** ** C3: silent mode *)

(** C3 fails on the code: in silent mode, with repair enabled, a rule
    that fails validation and that the oracle repairs is overwritten in
    place. *)
Theorem silent_pass_rewrites_repaired_rule :
  let st := Sample.start [("a.yar", Text Sample.broken_rule)] in
  exists st',
    process_files Sample.yara Sample.chat_fixing default_config py_fuel
      (COPY_MODE default_config) (SILENT_MODE default_config) ["a.yar"] st
    = Ok tt st'
    /\ SILENT_MODE default_config = true
    /\ root (fs st) !! "a.yar" = Some (Text Sample.broken_rule)
    /\ root (fs st') !! "a.yar"
       = Some (Text "rule fixed { condition: true }")
    /\ fs st' <> fs st.
Proof.
  eexists. split; [vm_compute; reflexivity|].
  split; [reflexivity|]. split; [reflexivity|]. split; [reflexivity|].
  intros H. apply (f_equal (fun x => root x !! "a.yar")) in H.
  vm_compute in H. discriminate.
Qed.

(** ** The synthesis pass, step by step *)

(** The pattern that [generate_regex_for_cluster] reads off a reply. *)
Definition regex_of_reply (r : chat_reply) : option string :=
  match r with
  | Choices content =>
      match Re.search Re.code_fence (Py.strip content) with
      | Some g => Some (Py.strip g)
      | None => None
      end
  | NoChoices => None
  | ChatError => None
  end.

Definition syntheses (events : list event) : list (list string) :=
  flat_map (fun e => match e with Synthesis c => [c] | _ => [] end) events.

Definition accepted (events : list event) : list string :=
  flat_map (fun e => match e with Accepted r => [r] | _ => [] end) events.

Definition improvements (events : list event) : list nat :=
  flat_map (fun e => match e with Improve q => [q] | _ => [] end) events.

Definition emitted (events : list event) : list (string * string) :=
  flat_map (fun e => match e with Emit f t => [(f, t)] | _ => [] end) events.

(** An oracle that answers every request with a reply that holds a
    non-empty pattern. *)
Definition always_answers (chat : nat -> string -> chat_reply) : Prop :=
  forall n prompt, Py.truthy (regex_of_reply (chat n prompt)) = true.

(** What the loop over the clusters may do to one cluster. *)
Definition cluster_kept_or_reset (cfg : config)
    (before after : string * list string) : Prop :=
  fst after = fst before
  /\ (snd after = snd before
      \/ (snd after = [] /\ MIN_CLUSTER_SIZE cfg <= length (snd before))).

Definition reached (cfg : config) (g : cluster_group) : list (list string) :=
  List.filter (fun m => MIN_CLUSTER_SIZE cfg <=? length m) (map snd g).

(** A master rule written at the flush of sequence number [q]: its name
    and its text, which is the stripped content of a reply. *)
Definition emit_of (chat : nat -> string -> chat_reply)
    (now : nat -> string) (q : nat) (written : string * string) : Prop :=
  fst written = master_rule_filename (now q) q
  /\ exists content n prompt,
       chat n prompt = Choices content /\ snd written = Py.strip content.

(** The frame of a stretch of the synthesis pass: [events] is what it
    added to the trace, newest first. *)
Record synth_frame (chat : nat -> string -> chat_reply)
    (now : nat -> string) (cfg : config)
    (batch : list string) (seq : nat) (st : state)
    (batch' : list string) (seq' : nat) (st' : state)
    (events : list event) : Prop := {
  sf_trace : trace st' = events ++ trace st;
  sf_seq : seq <= seq';
  sf_improvements : improvements events = rev (List.seq seq (seq' - seq));
  sf_batch : length batch < MAX_REGEXES_PER_RULE cfg ->
    length (accepted events) + length batch
    = MAX_REGEXES_PER_RULE cfg * length (improvements events)
      + length batch'
    /\ length batch' < MAX_REGEXES_PER_RULE cfg;
  sf_emitted : exists qs,
    sublist qs (improvements events)
    /\ Forall2 (emit_of chat now) qs (emitted events);
  sf_written :
    (forall q1 q2, master_rule_filename (now q1) q1
                   = master_rule_filename (now q2) q2 -> q1 = q2) ->
    forall f t, In (f, t) (emitted events) ->
      root (fs st') !! f = Some (Text t);
  sf_root : forall n, (forall t, ~ In (n, t) (emitted events)) ->
    root (fs st') !! n = root (fs st) !! n;
  sf_folders : folders (fs st') = folders (fs st);
  sf_dirs : dirs (fs st') = dirs (fs st);
  sf_temp : temp (fs st') = temp (fs st);
  sf_routes : routes events = [];
  sf_validations : validations events = 0
}.

Lemma syntheses_app a b : syntheses (a ++ b) = syntheses a ++ syntheses b.
Proof. apply flat_map_app. Qed.
Lemma accepted_app a b : accepted (a ++ b) = accepted a ++ accepted b.
Proof. apply flat_map_app. Qed.
Lemma improvements_app a b :
  improvements (a ++ b) = improvements a ++ improvements b.
Proof. apply flat_map_app. Qed.
Lemma emitted_app a b : emitted (a ++ b) = emitted a ++ emitted b.
Proof. apply flat_map_app. Qed.
Lemma validations_app a b :
  validations (a ++ b) = validations a + validations b.
Proof. unfold validations. rewrite List.filter_app, length_app. reflexivity. Qed.

Section SynthesisFacts.

Variable chat : nat -> string -> chat_reply.
Variable similar : string -> string -> bool.
Variable now : nat -> string.
Variable cfg : config.

Lemma synth_frame_refl batch seq st :
  synth_frame chat now cfg batch seq st batch seq st [].
Proof.
  split; cbn; try reflexivity; try tauto; try lia.
  - rewrite Nat.sub_diag. reflexivity.
  - exists []. split; constructor.
Qed.

Lemma synth_frame_names b0 q0 st0 b1 q1 st1 e :
  synth_frame chat now cfg b0 q0 st0 b1 q1 st1 e ->
  forall w, In w (emitted e) ->
    exists q, q0 <= q < q1 /\ emit_of chat now q w.
Proof.
  intros F w Hw.
  destruct (sf_emitted _ _ _ _ _ _ _ _ _ _ F) as (qs & Hsub & Hall).
  assert (exists q, In q qs /\ emit_of chat now q w) as (q & Hq & He).
  { clear Hsub. induction Hall as [|q x qs xs Hx Hall IH]; [destruct Hw|].
    destruct Hw as [<-|Hw].
    - exists q. split; [left; reflexivity | exact Hx].
    - destruct (IH Hw) as (q' & ? & ?). exists q'. split; [right|]; auto. }
  exists q. split; [|exact He].
  apply list_elem_of_In in Hq.
  pose proof (elem_of_sublist _ _ _ Hq Hsub) as Hin.
  apply list_elem_of_In in Hin.
  rewrite (sf_improvements _ _ _ _ _ _ _ _ _ _ F) in Hin.
  apply in_rev, in_seq in Hin. lia.
Qed.

Lemma synth_frame_trans b0 q0 st0 b1 q1 st1 b2 q2 st2 e1 e2 :
  synth_frame chat now cfg b0 q0 st0 b1 q1 st1 e1 ->
  synth_frame chat now cfg b1 q1 st1 b2 q2 st2 e2 ->
  synth_frame chat now cfg b0 q0 st0 b2 q2 st2 (e2 ++ e1).
Proof.
  intros F1 F2.
  pose proof (sf_seq _ _ _ _ _ _ _ _ _ _ F1) as S1.
  pose proof (sf_seq _ _ _ _ _ _ _ _ _ _ F2) as S2.
  pose proof (sf_improvements _ _ _ _ _ _ _ _ _ _ F1) as I1.
  pose proof (sf_improvements _ _ _ _ _ _ _ _ _ _ F2) as I2.
  split.
  - rewrite (sf_trace _ _ _ _ _ _ _ _ _ _ F2), (sf_trace _ _ _ _ _ _ _ _ _ _ F1).
    apply app_assoc.
  - lia.
  - rewrite improvements_app, I1, I2, <- rev_app_distr.
    replace (q2 - q0) with ((q1 - q0) + (q2 - q1)) by lia.
    rewrite seq_app. replace (q0 + (q1 - q0)) with q1 by lia. reflexivity.
  - intros Hb.
    destruct (sf_batch _ _ _ _ _ _ _ _ _ _ F1 Hb) as [E1 L1].
    destruct (sf_batch _ _ _ _ _ _ _ _ _ _ F2 L1) as [E2 L2].
    rewrite accepted_app, improvements_app, !length_app. split; [lia|exact L2].
  - destruct (sf_emitted _ _ _ _ _ _ _ _ _ _ F1) as (qs1 & Hs1 & Ha1).
    destruct (sf_emitted _ _ _ _ _ _ _ _ _ _ F2) as (qs2 & Hs2 & Ha2).
    exists (qs2 ++ qs1). rewrite improvements_app, emitted_app.
    split; [apply sublist_app; assumption | apply Forall2_app; assumption].
  - intros Hinj f t. rewrite emitted_app, in_app_iff. intros [H|H].
    + apply (sf_written _ _ _ _ _ _ _ _ _ _ F2 Hinj f t H).
    + rewrite (sf_root _ _ _ _ _ _ _ _ _ _ F2).
      * apply (sf_written _ _ _ _ _ _ _ _ _ _ F1 Hinj f t H).
      * intros t2 H2.
        destruct (synth_frame_names _ _ _ _ _ _ _ F1 _ H)
          as (qa & Hqa & Hfa & _).
        destruct (synth_frame_names _ _ _ _ _ _ _ F2 _ H2)
          as (qb & Hqb & Hfb & _).
        cbn [fst] in Hfa, Hfb.
        rewrite Hfa in Hfb. apply Hinj in Hfb. lia.
  - intros n Hn.
    rewrite (sf_root _ _ _ _ _ _ _ _ _ _ F2).
    + apply (sf_root _ _ _ _ _ _ _ _ _ _ F1). intros t H.
      apply (Hn t). rewrite emitted_app, in_app_iff. auto.
    + intros t H. apply (Hn t). rewrite emitted_app, in_app_iff. auto.
  - rewrite (sf_folders _ _ _ _ _ _ _ _ _ _ F2).
    apply (sf_folders _ _ _ _ _ _ _ _ _ _ F1).
  - rewrite (sf_dirs _ _ _ _ _ _ _ _ _ _ F2).
    apply (sf_dirs _ _ _ _ _ _ _ _ _ _ F1).
  - rewrite (sf_temp _ _ _ _ _ _ _ _ _ _ F2).
    apply (sf_temp _ _ _ _ _ _ _ _ _ _ F1).
  - rewrite routes_app, (sf_routes _ _ _ _ _ _ _ _ _ _ F1),
      (sf_routes _ _ _ _ _ _ _ _ _ _ F2). reflexivity.
  - rewrite validations_app, (sf_validations _ _ _ _ _ _ _ _ _ _ F1),
      (sf_validations _ _ _ _ _ _ _ _ _ _ F2). reflexivity.
Qed.

Lemma generate_regex_for_cluster_run (cluster : list string) (st : state) :
  generate_regex_for_cluster chat cluster st
  = Ok (regex_of_reply (chat (asked st) (regex_prompt cluster)))
       (advance [Ask (regex_prompt cluster)] 1 (fs st) st).
Proof.
  unfold generate_regex_for_cluster, bind, ask, regex_of_reply.
  destruct (chat (asked st) (regex_prompt cluster)) as [content| |];
    try reflexivity.
  destruct (Re.search Re.code_fence (Py.strip content)); reflexivity.
Qed.

(** The flush, case by case on the reply of the oracle. *)
Lemma flush_master_rule_run (batch : list string) (seq : nat) (st : state) :
  let filename := master_rule_filename (now seq) seq in
  let prompt :=
    master_prompt cfg (initial_rule_content (now seq) seq batch) in
  flush_master_rule chat now cfg batch seq st
  = match chat (asked st) prompt with
    | Choices content =>
        Ok ([], S seq)
           (advance [Emit filename (Py.strip content); Ask prompt;
                     Improve seq] 1
              (fs_write (InRoot filename) (Text (Py.strip content)) (fs st))
              st)
    | NoChoices =>
        Ok ([], S seq) (advance [Ask prompt; Improve seq] 1 (fs st) st)
    | ChatError =>
        Raised APIError (advance [Ask prompt; Improve seq] 1 (fs st) st)
    end.
Proof.
  cbv zeta.
  unfold flush_master_rule, bind, emit, ask, modify_fs, ret, raise, advance.
  cbn [fs trace asked].
  destruct (chat (asked st) _) as [content| |]; reflexivity.
Qed.

Lemma synthesize_cluster_run (cluster batch : list string) (st : state) :
  exists events cluster1 batch1,
    synthesize_cluster chat cfg cluster batch st
    = Ok (cluster1, batch1) (advance events (requests events) (fs st) st)
    /\ syntheses events
       = (if MIN_CLUSTER_SIZE cfg <=? length cluster then [cluster] else [])
    /\ length (accepted events) + length batch = length batch1
    /\ length (accepted events) <= 1
    /\ improvements events = [] /\ emitted events = []
    /\ routes events = [] /\ validations events = 0
    /\ reads events = []
    /\ (cluster1 = cluster
        \/ (cluster1 = [] /\ MIN_CLUSTER_SIZE cfg <= length cluster))
    /\ (always_answers chat -> MIN_CLUSTER_SIZE cfg <= length cluster ->
        cluster1 = []).
Proof.
  unfold synthesize_cluster.
  destruct (MIN_CLUSTER_SIZE cfg <=? length cluster) eqn:Hmin.
  2: { apply Nat.leb_gt in Hmin.
       exists [], cluster, batch. cbn. repeat split; auto; try lia.
       destruct st; reflexivity. }
  apply Nat.leb_le in Hmin.
  unfold bind at 1, emit at 1. unfold bind at 1.
  rewrite generate_regex_for_cluster_run. cbn [advance fs trace asked].
  pose proof (fun H : always_answers chat =>
                H (asked st) (regex_prompt cluster)) as Hanswer.
  destruct (regex_of_reply (chat (asked st) (regex_prompt cluster)))
    as [rx|] eqn:Hregex.
  2: { exists [Ask (regex_prompt cluster); Synthesis cluster], cluster, batch.
       cbn. repeat split; auto.
       intros Ha _. specialize (Hanswer Ha). discriminate. }
  destruct (Py.truthy (Some rx)) eqn:Htruthy.
  2: { exists [Ask (regex_prompt cluster); Synthesis cluster], cluster, batch.
       cbn. repeat split; auto.
       intros Ha _. specialize (Hanswer Ha). congruence. }
  unfold bind at 1.
  destruct (is_regex_too_complex cfg rx).
  - exists [Ask (regex_prompt cluster); Synthesis cluster], [], batch.
    cbn. repeat split; auto.
  - exists [Accepted rx; Ask (regex_prompt cluster); Synthesis cluster],
      [], (batch ++ [rx]).
    cbn. repeat split; auto. rewrite length_app. cbn. lia.
Qed.

Lemma check_cluster_frame (cluster batch : list string) (seq : nat)
    (st : state) cluster' batch' seq' st' :
  0 < MAX_REGEXES_PER_RULE cfg ->
  check_cluster chat now cfg cluster batch seq st
  = Ok (cluster', batch', seq') st' ->
  exists events,
    synth_frame chat now cfg batch seq st batch' seq' st' events
    /\ syntheses events
       = (if MIN_CLUSTER_SIZE cfg <=? length cluster then [cluster] else [])
    /\ reads events = []
    /\ (cluster' = cluster
        \/ (cluster' = [] /\ MIN_CLUSTER_SIZE cfg <= length cluster))
    /\ (always_answers chat -> MIN_CLUSTER_SIZE cfg <= length cluster ->
        cluster' = []).
Proof.
  intros Hmax Hrun. unfold check_cluster, bind at 1 in Hrun.
  destruct (synthesize_cluster_run cluster batch st)
    as (e1 & cluster1 & batch1 & Hs & Hsyn & Hacc & Hone & Himp & Hemit
        & Hroutes & Hval & Hreads & Hcl & Hans).
  rewrite Hs in Hrun.
  set (st1 := advance e1 (requests e1) (fs st) st) in *.
  destruct (MAX_REGEXES_PER_RULE cfg <=? length batch1) eqn:Hfull.
  - apply Nat.leb_le in Hfull. unfold bind at 1 in Hrun.
    rewrite flush_master_rule_run in Hrun.
    set (prompt := master_prompt cfg
                     (initial_rule_content (now seq) seq batch1)) in *.
    destruct (chat (asked st1) prompt) as [content| |] eqn:Hreply;
      cbn in Hrun; inversion Hrun; subst cluster' batch' seq' st'; clear Hrun.
    + exists ([Emit (master_rule_filename (now seq) seq) (Py.strip content);
               Ask prompt; Improve seq] ++ e1).
      split; [|rewrite syntheses_app, reads_app, Hreads; cbn; auto].
      split; cbn [advance trace asked fs st1];
        rewrite ?improvements_app, ?emitted_app, ?accepted_app, ?routes_app,
          ?validations_app, ?Himp, ?Hemit, ?Hroutes, ?Hval; cbn;
        try reflexivity; try lia.
      * replace (S seq - seq) with 1 by lia. reflexivity.
      * exists [seq]. split; [reflexivity|].
        constructor; [|constructor]. split; [reflexivity|].
        exists content. eexists _, _. split; [exact Hreply | reflexivity].
      * intros _ f t [H|[]]. inversion H; subst. apply lookup_insert_eq.
      * intros n Hn. apply lookup_insert_ne. intros <-.
        apply (Hn (Py.strip content)). left. reflexivity.
    + exists ([Ask prompt; Improve seq] ++ e1).
      split; [|rewrite syntheses_app, reads_app, Hreads; cbn; auto].
      split; cbn [advance trace asked fs st1];
        rewrite ?improvements_app, ?emitted_app, ?accepted_app, ?routes_app,
          ?validations_app, ?Himp, ?Hemit, ?Hroutes, ?Hval; cbn;
        try reflexivity; try lia; try tauto.
      * replace (S seq - seq) with 1 by lia. reflexivity.
      * exists []. split; [apply sublist_nil_l | constructor].
  - apply Nat.leb_gt in Hfull.
    cbn in Hrun. inversion Hrun; subst cluster' batch' seq' st'; clear Hrun.
    exists e1. split; [|auto].
    split; cbn [advance trace asked fs st1];
      rewrite ?Himp, ?Hemit, ?Hroutes, ?Hval; cbn;
      try reflexivity; try lia; try tauto.
    + rewrite Nat.sub_diag. reflexivity.
    + exists []. split; constructor.
Qed.

Definition groups (c : cluster_map) : cluster_group :=
  short_group c ++ medium_group c ++ long_group c.

Definition answered_reset (before after : string * list string) : Prop :=
  MIN_CLUSTER_SIZE cfg <= length (snd before) -> snd after = [].

Lemma check_group_frame (g : cluster_group) (batch : list string)
    (seq : nat) (st : state) g' batch' seq' st' :
  0 < MAX_REGEXES_PER_RULE cfg ->
  check_group chat now cfg g batch seq st = Ok (g', batch', seq') st' ->
  exists events,
    synth_frame chat now cfg batch seq st batch' seq' st' events
    /\ syntheses events = rev (reached cfg g)
    /\ reads events = []
    /\ Forall2 (cluster_kept_or_reset cfg) g g'
    /\ (always_answers chat -> Forall2 answered_reset g g').
Proof.
  intros Hmax. revert batch seq st g' batch' seq' st'.
  induction g as [|[key cluster] rest IH];
    intros batch seq st g' batch' seq' st' Hrun.
  - cbn in Hrun. inversion Hrun; subst.
    exists []. split; [apply synth_frame_refl|]. cbn. auto.
  - cbn [check_group] in Hrun. unfold bind at 1 in Hrun.
    destruct (check_cluster chat now cfg cluster batch seq st)
      as [[[cluster1 batch1] seq1] st1|] eqn:Hc; [|discriminate].
    unfold bind at 1 in Hrun.
    destruct (check_group chat now cfg rest batch1 seq1 st1)
      as [[[rest2 batch2] seq2] st2|] eqn:Hg; [|discriminate].
    cbn in Hrun. inversion Hrun; subst g' batch' seq' st'; clear Hrun.
    destruct (check_cluster_frame _ _ _ _ _ _ _ _ Hmax Hc)
      as (e1 & F1 & Hsyn1 & Hreads1 & Hcl1 & Hans1).
    destruct (IH _ _ _ _ _ _ _ Hg)
      as (e2 & F2 & Hsyn2 & Hreads2 & Hcl2 & Hans2).
    exists (e2 ++ e1).
    split; [eapply synth_frame_trans; eassumption|].
    split.
    { rewrite syntheses_app, Hsyn1, Hsyn2. unfold reached.
      cbn [map List.filter snd].
      destruct (MIN_CLUSTER_SIZE cfg <=? length cluster);
        cbn [rev]; [reflexivity | apply app_nil_r]. }
    split.
    { rewrite reads_app, Hreads2, Hreads1. reflexivity. }
    split.
    { constructor; [|exact Hcl2]. split; [reflexivity|exact Hcl1]. }
    intros Ha. constructor; [|exact (Hans2 Ha)].
    intros Hmin. exact (Hans1 Ha Hmin).
Qed.

Lemma check_clusters_frame (s : synth) (st : state) s' st' :
  0 < MAX_REGEXES_PER_RULE cfg ->
  check_clusters chat now cfg s st = Ok s' st' ->
  exists events,
    synth_frame chat now cfg (regex_patterns s) (master_rule_seq s) st
      (regex_patterns s') (master_rule_seq s') st' events
    /\ syntheses events = rev (reached cfg (groups (clusters s)))
    /\ reads events = []
    /\ Forall2 (cluster_kept_or_reset cfg)
         (short_group (clusters s)) (short_group (clusters s'))
    /\ Forall2 (cluster_kept_or_reset cfg)
         (medium_group (clusters s)) (medium_group (clusters s'))
    /\ Forall2 (cluster_kept_or_reset cfg)
         (long_group (clusters s)) (long_group (clusters s'))
    /\ (always_answers chat ->
        Forall2 answered_reset (groups (clusters s)) (groups (clusters s'))).
Proof.
  intros Hmax Hrun. unfold check_clusters in Hrun.
  unfold bind at 1 in Hrun.
  destruct (check_group chat now cfg (short_group (clusters s)) _ _ st)
    as [[[g1 b1] q1] st1|] eqn:H1; [|discriminate].
  unfold bind at 1 in Hrun.
  destruct (check_group chat now cfg (medium_group (clusters s)) b1 q1 st1)
    as [[[g2 b2] q2] st2|] eqn:H2; [|discriminate].
  unfold bind at 1 in Hrun.
  destruct (check_group chat now cfg (long_group (clusters s)) b2 q2 st2)
    as [[[g3 b3] q3] st3|] eqn:H3; [|discriminate].
  cbn in Hrun. inversion Hrun; subst s' st'; clear Hrun.
  destruct (check_group_frame _ _ _ _ _ _ _ _ Hmax H1)
    as (e1 & F1 & S1 & R1 & K1 & A1).
  destruct (check_group_frame _ _ _ _ _ _ _ _ Hmax H2)
    as (e2 & F2 & S2 & R2 & K2 & A2).
  destruct (check_group_frame _ _ _ _ _ _ _ _ Hmax H3)
    as (e3 & F3 & S3 & R3 & K3 & A3).
  exists (e3 ++ e2 ++ e1). cbn [clusters regex_patterns master_rule_seq
                               short_group medium_group long_group].
  split.
  { eapply synth_frame_trans; [|exact F3].
    eapply synth_frame_trans; eassumption. }
  split.
  { rewrite !syntheses_app, S1, S2, S3. unfold reached, groups.
    rewrite !map_app, !List.filter_app, !rev_app_distr, <- app_assoc.
    reflexivity. }
  split. { rewrite !reads_app, R1, R2, R3. reflexivity. }
  split; [exact K1|]. split; [exact K2|]. split; [exact K3|].
  intros Ha. unfold groups. cbn [short_group medium_group long_group].
  apply Forall2_app; [exact (A1 Ha)|].
  apply Forall2_app; [exact (A2 Ha) | exact (A3 Ha)].
Qed.

(** The clusters as the check after a file finds them. *)
Definition clusters_after_adding (content : string) (s : synth)
    : cluster_map :=
  add_strings similar cfg (extract_strings content) (clusters s).

Lemma process_yara_file_frame (p : path) (s : synth) (st : state) s' st' :
  0 < MAX_REGEXES_PER_RULE cfg ->
  process_yara_file chat similar now cfg p s st = Ok s' st' ->
  exists events,
    synth_frame chat now cfg (regex_patterns s) (master_rule_seq s) st
      (regex_patterns s') (master_rule_seq s') st' events
    /\ reads events
       = (if Py.endswith (basename p) ".yar" then [p] else [])
    /\ (Py.endswith (basename p) ".yar" = false ->
        s' = s /\ st' = st)
    /\ (Py.endswith (basename p) ".yar" = true ->
        exists content,
          fs_lookup (fs st) p = Some (Text content)
          /\ syntheses events
             = rev (reached cfg (groups (clusters_after_adding content s)))
          /\ Forall2 (cluster_kept_or_reset cfg)
               (short_group (clusters_after_adding content s))
               (short_group (clusters s'))
          /\ Forall2 (cluster_kept_or_reset cfg)
               (medium_group (clusters_after_adding content s))
               (medium_group (clusters s'))
          /\ Forall2 (cluster_kept_or_reset cfg)
               (long_group (clusters_after_adding content s))
               (long_group (clusters s'))
          /\ (always_answers chat ->
              Forall2 answered_reset
                (groups (clusters_after_adding content s))
                (groups (clusters s')))).
Proof.
  intros Hmax Hrun. unfold process_yara_file in Hrun.
  destruct (Py.endswith (basename p) ".yar") eqn:Hyar.
  2: { inversion Hrun; subst. exists [].
       split; [apply synth_frame_refl|]. split; [reflexivity|].
       split; [auto|discriminate]. }
  unfold bind at 1, read_text, bind at 1, get_fs at 1 in Hrun.
  destruct (fs_lookup (fs st) p) as [[content|]|] eqn:Hf;
    try discriminate.
  unfold bind at 1, emit at 1, ret at 1 in Hrun.
  apply check_clusters_frame in Hrun; [|exact Hmax].
  destruct Hrun as (e & F & S & R & K1 & K2 & K3 & A).
  cbn [clusters regex_patterns master_rule_seq] in *.
  exists (e ++ [Read p]).
  split.
  { eapply synth_frame_trans; [|exact F].
    split; cbn; try reflexivity; try tauto; try lia.
    - rewrite Nat.sub_diag. reflexivity.
    - exists []. split; constructor. }
  split. { rewrite reads_app, R. reflexivity. }
  split; [discriminate|]. intros _. exists content.
  split; [reflexivity|].
  split. { rewrite syntheses_app, S. cbn. apply app_nil_r. }
  auto.
Qed.

Definition walked (walk : list path) : list path :=
  List.filter (fun p => Py.endswith (basename p) ".yar") walk.

Lemma process_walk_frame (walk : list path) (s : synth) (st : state) s' st' :
  0 < MAX_REGEXES_PER_RULE cfg ->
  process_walk chat similar now cfg walk s st = Ok s' st' ->
  exists events,
    synth_frame chat now cfg (regex_patterns s) (master_rule_seq s) st
      (regex_patterns s') (master_rule_seq s') st' events
    /\ reads events = rev (walked walk).
Proof.
  intros Hmax. revert s st s' st'.
  induction walk as [|p rest IH]; intros s st s' st' Hrun.
  - inversion Hrun; subst. exists []. split; [apply synth_frame_refl|].
    reflexivity.
  - cbn [process_walk] in Hrun. unfold bind at 1 in Hrun.
    destruct (process_yara_file chat similar now cfg p s st)
      as [s1 st1|] eqn:Hp; [|discriminate].
    destruct (process_yara_file_frame _ _ _ _ _ Hmax Hp)
      as (e1 & F1 & R1 & _).
    destruct (IH _ _ _ _ Hrun) as (e2 & F2 & R2).
    exists (e2 ++ e1).
    split; [eapply synth_frame_trans; eassumption|].
    rewrite reads_app, R1, R2. unfold walked. cbn [List.filter].
    destruct (Py.endswith (basename p) ".yar"); cbn [rev];
      [reflexivity | apply app_nil_r].
Qed.

End SynthesisFacts.

(** ** The names of master rules *)

Lemma append_cons (c : ascii) (a b : string) :
  String c a +:+ b = String c (a +:+ b).
Proof. reflexivity. Qed.

Lemma length_append (a b : string) :
  String.length (a +:+ b) = String.length a + String.length b.
Proof.
  induction a as [|c a IH]; [reflexivity|].
  rewrite append_cons. cbn [String.length]. rewrite IH. reflexivity.
Qed.

Lemma append_inv_length (a b x y : string) :
  String.length a = String.length b ->
  a +:+ x = b +:+ y -> a = b /\ x = y.
Proof.
  revert b. induction a as [|c a IH]; intros [|d b] Hlen H;
    try discriminate.
  - split; [reflexivity | exact H].
  - rewrite !append_cons in H. injection H as -> H.
    injection Hlen as Hlen. destruct (IH b Hlen H) as [-> ->]. auto.
Qed.

Lemma append_inv_tail (a b t : string) : a +:+ t = b +:+ t -> a = b.
Proof.
  intros H. apply (append_inv_length a b t t); [|exact H].
  apply (f_equal String.length) in H. rewrite !length_append in H. lia.
Qed.

Lemma master_rule_filename_inj (now : nat -> string) :
  (forall q, String.length (now q) = 15) ->
  forall q1 q2,
    master_rule_filename (now q1) q1 = master_rule_filename (now q2) q2 ->
    q1 = q2.
Proof.
  intros Hlen q1 q2 H. unfold master_rule_filename in H.
  apply String.app_inj in H.
  apply append_inv_length in H; [|rewrite !Hlen; reflexivity].
  destruct H as [_ H]. apply String.app_inj in H.
  apply append_inv_tail in H. exact (pretty_nat_inj _ _ H).
Qed.


(** ** Sample corpora for the synthesis pass *)

Module Corpus.

(** Modelled on the documentation of [Levenshtein.ratio]: twice the
    length of a longest common subsequence over the sum of the lengths,
    compared with the threshold 0.7 of [config.py]. *)
Fixpoint lcs_row (c : ascii) (b : list ascii) (prev : list nat)
    (diag left : nat) : list nat :=
  match b, prev with
  | bj :: b', up :: prev' =>
      let v := if Ascii.eqb c bj then S diag else Nat.max up left in
      v :: lcs_row c b' prev' up v
  | _, _ => []
  end.

Definition lcs (a b : string) : nat :=
  let bl := list_ascii_of_string b in
  List.last
    (fold_left (fun row c => lcs_row c bl row 0 0)
       (list_ascii_of_string a) (repeat 0 (length bl))) 0.

Definition similar (a b : string) : bool :=
  7 * (Py.len a + Py.len b) <=? 10 * (2 * lcs a b).

Definition now (seq : nat) : string := "20240101_120000".

Definition assignment (value : string) : string :=
  "    $s = " +:+ value +:+ nl.

Definition rule_of (values : list string) : string :=
  "rule r {" +:+ nl +:+ "  strings:" +:+ nl
  +:+ String.concat EmptyString (map assignment values)
  +:+ "  condition:" +:+ nl +:+ "    any of them" +:+ nl +:+ "}".

(** A quoted indicator of 30 characters. *)
Definition indicator (c : ascii) : string :=
  dq +:+ string_of_list_ascii (repeat c 28) +:+ dq.

Definition fenced_regex : string :=
  "```regex" +:+ nl +:+ "^[A-Z]{28}indicator$" +:+ nl +:+ "```".

(** An oracle that always answers with the same fenced pattern. *)
Definition chat_regex (n : nat) (prompt : string) : chat_reply :=
  Choices fenced_regex.

(** Oracles that give that pattern for a cluster and, for a master rule,
    have no choice to offer or cannot be reached. *)
Definition chat_without_master (n : nat) (prompt : string) : chat_reply :=
  if String.prefix "I need a regular expression" prompt
  then Choices fenced_regex else NoChoices.

(** An oracle that gives a master rule with blanks around it. *)
Definition padded_master : string := "  rule master { condition: true }  ".

Definition chat_padded_master (n : nat) (prompt : string) : chat_reply :=
  if String.prefix "I need a regular expression" prompt
  then Choices fenced_regex else Choices padded_master.

Definition chat_failing_master (n : nat) (prompt : string) : chat_reply :=
  if String.prefix "I need a regular expression" prompt
  then Choices fenced_regex else ChatError.

(** Twelve rule files with the same indicator. *)
Definition twelve : list (string * file) :=
  map (fun i => ("r" +:+ pretty i +:+ ".yar",
                 Text (rule_of [indicator "A"])))
      (seq 1 12).

Definition walk_of (files : list (string * file)) : list path :=
  map (fun x => InRoot (fst x)) files.

(** One rule file with ten indicators, ten times each. *)
Definition hundred : list string :=
  flat_map (fun c => repeat (indicator c) 10)
           (list_ascii_of_string "ABCDEFGHIJ").

Definition big : list (string * file) :=
  [("big.yar", Text (rule_of hundred))].

Definition ten : list (string * file) :=
  [("r.yar", Text (rule_of (repeat (indicator "A") 10)))].

End Corpus.

Lemma trace_events_agree (st st' : state) (e1 e2 : list event) :
  trace st' = e1 ++ trace st -> trace st' = e2 ++ trace st -> e1 = e2.
Proof. intros H1 H2. rewrite H1 in H2. exact (app_inv_tail _ _ _ H2). Qed.

(** ** C7: clusters that reach the minimum size *)

(** The scenario of the design: twelve files with the same indicator.
    Nothing is synthesized over the first nine; the tenth triggers one
    synthesis with the ten members; the cluster then starts again. *)
Example twelve_files_trigger_at_the_tenth :
  let run n :=
    process_yara_files Corpus.chat_regex Corpus.similar Corpus.now
      default_config (firstn n (Corpus.walk_of Corpus.twelve))
      (Sample.start Corpus.twelve) in
  syntheses (trace (final (run 9))) = []
  /\ syntheses (trace (final (run 10)))
     = [repeat (Corpus.indicator "A") 10]
  /\ syntheses (trace (final (run 12)))
     = [repeat (Corpus.indicator "A") 10]
  /\ (exists s st, run 12 = Ok s st
      /\ medium_group (clusters s)
         = [(Corpus.indicator "A", repeat (Corpus.indicator "A") 2)]).
Proof.
  cbv zeta. split; [vm_compute; reflexivity|].
  split; [vm_compute; reflexivity|]. split; [vm_compute; reflexivity|].
  eexists _, _. split; vm_compute; reflexivity.
Qed.

(** C7, as stated, fails: when the oracle gives no pattern, a cluster
    that reached the minimum size triggers a synthesis and is not reset;
    it still holds its ten members at the end of the step. *)
Lemma cluster_survives_failed_synthesis :
  exists s' st',
    process_yara_file Sample.chat_down Corpus.similar Corpus.now
      default_config (InRoot "r.yar") initial_synth
      (Sample.start Corpus.ten) = Ok s' st'
    /\ syntheses (trace st') = [repeat (Corpus.indicator "A") 10]
    /\ medium_group (clusters s')
       = [(Corpus.indicator "A", repeat (Corpus.indicator "A") 10)]
    /\ MIN_CLUSTER_SIZE default_config
       <= length (repeat (Corpus.indicator "A") 10).
Proof.
  eexists _, _. split; [vm_compute; reflexivity|].
  split; [vm_compute; reflexivity|]. split; [vm_compute; reflexivity|].
  vm_compute. lia.
Qed.

Lemma kept_or_reset_below (cfg : config) (chat : nat -> string -> chat_reply)
    (g g' : cluster_group) :
  0 < MIN_CLUSTER_SIZE cfg ->
  Forall2 (cluster_kept_or_reset cfg) g g' ->
  Forall2 (answered_reset cfg) g g' ->
  Forall (fun c => length (snd c) < MIN_CLUSTER_SIZE cfg) g'.
Proof.
  intros Hmin K A. induction K as [|b a g g' [_ Hk] K IH]; [constructor|].
  inversion A as [|? ? ? ? Ha A']; subst.
  constructor; [|exact (IH A')].
  unfold answered_reset in Ha.
  destruct (le_lt_dec (MIN_CLUSTER_SIZE cfg) (length (snd b))) as [Hge|Hlt].
  - rewrite (Ha Hge). cbn. exact Hmin.
  - destruct Hk as [-> | [-> _]]; [exact Hlt | cbn; exact Hmin].
Qed.

(** The members left in a cluster that reached the minimum size, when
    its request is the [k]-th of the run: none when the reply of the
    oracle gives a pattern that is not empty, all of them otherwise. *)
Definition cluster_outcome (chat : nat -> string -> chat_reply) (k : nat)
    (cluster : list string) : list string :=
  if Py.truthy (regex_of_reply (chat k (regex_prompt cluster)))
  then [] else cluster.

(** One cluster through the check after a file, where [events] is what
    the step added to the trace, [k0] the number of requests made before
    the step and [earlier] the clusters that the loop met before this
    one.  Below the minimum size the cluster is left as it is.  At the
    minimum size or above, the step announced the cluster and asked for
    its pattern, after as many announcements as clusters of that size
    came earlier, and the reply to that request decides. *)
Definition cluster_follows_reply (chat : nat -> string -> chat_reply)
    (cfg : config) (k0 : nat) (events : list event) (earlier : cluster_group)
    (before after : string * list string) : Prop :=
  fst after = fst before
  /\ (length (snd before) < MIN_CLUSTER_SIZE cfg -> snd after = snd before)
  /\ (MIN_CLUSTER_SIZE cfg <= length (snd before) ->
      exists newer older,
        events = newer ++ Ask (regex_prompt (snd before))
                            :: Synthesis (snd before) :: older
        /\ syntheses older = rev (reached cfg earlier)
        /\ snd after
           = cluster_outcome chat (k0 + requests older) (snd before)).

(** The clusters of a group, in their order. *)
Fixpoint group_follows_replies (chat : nat -> string -> chat_reply)
    (cfg : config) (k0 : nat) (events : list event)
    (earlier g g' : cluster_group) : Prop :=
  match g, g' with
  | [], [] => True
  | before :: rest, after :: rest' =>
      cluster_follows_reply chat cfg k0 events earlier before after
      /\ group_follows_replies chat cfg k0 events (earlier ++ [before])
           rest rest'
  | _, _ => False
  end.

Section ClusterReplies.

Variable chat : nat -> string -> chat_reply.
Variable similar : string -> string -> bool.
Variable now : nat -> string.
Variable cfg : config.

Lemma synthesize_cluster_reply (cluster batch : list string) (st : state) :
  exists newer batch1,
    requests newer = 0 /\ syntheses newer = []
    /\ synthesize_cluster chat cfg cluster batch st
       = if MIN_CLUSTER_SIZE cfg <=? length cluster
         then Ok (cluster_outcome chat (asked st) cluster, batch1)
                (advance (newer ++ [Ask (regex_prompt cluster);
                                    Synthesis cluster]) 1 (fs st) st)
         else Ok (cluster, batch) st.
Proof.
  unfold synthesize_cluster, cluster_outcome.
  destruct (MIN_CLUSTER_SIZE cfg <=? length cluster).
  2: { exists [], batch. auto. }
  unfold bind at 1, emit at 1. unfold bind at 1.
  rewrite generate_regex_for_cluster_run. cbn [advance fs trace asked].
  destruct (regex_of_reply (chat (asked st) (regex_prompt cluster)))
    as [rx|] eqn:Hregex.
  2: { exists [], batch. cbn. auto. }
  destruct (Py.truthy (Some rx)) eqn:Htruthy.
  2: { exists [], batch. cbn. auto. }
  unfold bind at 1.
  destruct (is_regex_too_complex cfg rx).
  - exists [], batch. cbn. auto.
  - exists [Accepted rx], (batch ++ [rx]). cbn. auto.
Qed.

Lemma check_cluster_reply (cluster batch : list string) (seq : nat)
    (st : state) cluster' batch' seq' st' :
  check_cluster chat now cfg cluster batch seq st
  = Ok (cluster', batch', seq') st' ->
  exists ev,
    trace st' = ev ++ trace st
    /\ asked st' = requests ev + asked st
    /\ syntheses ev
       = (if MIN_CLUSTER_SIZE cfg <=? length cluster then [cluster] else [])
    /\ (if MIN_CLUSTER_SIZE cfg <=? length cluster
        then cluster' = cluster_outcome chat (asked st) cluster
             /\ exists newer,
                  ev = newer ++ [Ask (regex_prompt cluster);
                                 Synthesis cluster]
        else cluster' = cluster).
Proof.
  intros Hrun. unfold check_cluster, bind at 1 in Hrun.
  destruct (synthesize_cluster_reply cluster batch st)
    as (newer & batch1 & Hreq & Hsyn & Hs).
  rewrite Hs in Hrun. clear Hs.
  destruct (MIN_CLUSTER_SIZE cfg <=? length cluster) eqn:Hmin.
  - set (e1 := newer ++ [Ask (regex_prompt cluster); Synthesis cluster])
      in *.
    assert (Hreq1 : requests e1 = 1).
    { unfold e1. rewrite requests_app, Hreq. reflexivity. }
    assert (Hsyn1 : syntheses e1 = [cluster]).
    { unfold e1. rewrite syntheses_app, Hsyn. reflexivity. }
    set (st1 := advance e1 1 (fs st) st) in *.
    destruct (MAX_REGEXES_PER_RULE cfg <=? length batch1).
    + unfold bind at 1 in Hrun. rewrite flush_master_rule_run in Hrun.
      set (prompt := master_prompt cfg
                       (initial_rule_content (now seq) seq batch1)) in *.
      destruct (chat (asked st1) prompt) as [content| |];
        cbn in Hrun; inversion Hrun; subst cluster' batch' seq' st';
        clear Hrun.
      * exists ([Emit (master_rule_filename (now seq) seq) (Py.strip content);
                 Ask prompt; Improve seq] ++ e1).
        split; [cbn; reflexivity|].
        split; [rewrite requests_app, Hreq1; cbn; lia|].
        split; [rewrite syntheses_app, Hsyn1; reflexivity|].
        split; [reflexivity|].
        exists ([Emit (master_rule_filename (now seq) seq) (Py.strip content);
                 Ask prompt; Improve seq] ++ newer).
        unfold e1. rewrite <- app_assoc. reflexivity.
      * exists ([Ask prompt; Improve seq] ++ e1).
        split; [cbn; reflexivity|].
        split; [rewrite requests_app, Hreq1; cbn; lia|].
        split; [rewrite syntheses_app, Hsyn1; reflexivity|].
        split; [reflexivity|].
        exists ([Ask prompt; Improve seq] ++ newer).
        unfold e1. rewrite <- app_assoc. reflexivity.
    + cbn in Hrun. inversion Hrun; subst cluster' batch' seq' st'; clear Hrun.
      exists e1. split; [reflexivity|].
      split; [rewrite Hreq1; reflexivity|].
      split; [exact Hsyn1|]. split; [reflexivity|].
      exists newer. reflexivity.
  - destruct (MAX_REGEXES_PER_RULE cfg <=? length batch).
    + unfold bind at 1 in Hrun. rewrite flush_master_rule_run in Hrun.
      set (prompt := master_prompt cfg
                       (initial_rule_content (now seq) seq batch)) in *.
      destruct (chat (asked st) prompt) as [content| |];
        cbn in Hrun; inversion Hrun; subst cluster' batch' seq' st';
        clear Hrun.
      * exists [Emit (master_rule_filename (now seq) seq) (Py.strip content);
                Ask prompt; Improve seq].
        split; [reflexivity|]. split; [reflexivity|].
        split; reflexivity.
      * exists [Ask prompt; Improve seq].
        split; [reflexivity|]. split; [reflexivity|].
        split; reflexivity.
    + cbn in Hrun. inversion Hrun; subst cluster' batch' seq' st'; clear Hrun.
      exists []. split; [reflexivity|]. split; [reflexivity|].
      split; reflexivity.
Qed.

Lemma reached_snoc (earlier : cluster_group) (key : string)
    (cluster : list string) :
  rev (reached cfg (earlier ++ [(key, cluster)]))
  = (if MIN_CLUSTER_SIZE cfg <=? length cluster then [cluster] else [])
    ++ rev (reached cfg earlier).
Proof.
  unfold reached. rewrite map_app, List.filter_app, rev_app_distr.
  cbn [map List.filter snd].
  destruct (MIN_CLUSTER_SIZE cfg <=? length cluster); reflexivity.
Qed.

Lemma check_group_replies (g : cluster_group) :
  forall (batch : list string) (seq : nat) (st : state) g' batch' seq' st',
    check_group chat now cfg g batch seq st = Ok (g', batch', seq') st' ->
    exists ev,
      trace st' = ev ++ trace st
      /\ asked st' = requests ev + asked st
      /\ syntheses ev = rev (reached cfg g)
      /\ forall k0 later done earlier,
           asked st = k0 + requests done ->
           syntheses done = rev (reached cfg earlier) ->
           group_follows_replies chat cfg k0 (later ++ ev ++ done)
             earlier g g'.
Proof.
  induction g as [|[key cluster] rest IH];
    intros batch seq st g' batch' seq' st' Hrun.
  - cbn in Hrun. inversion Hrun; subst.
    exists []. split; [reflexivity|]. split; [reflexivity|].
    split; [reflexivity|]. intros; exact I.
  - cbn [check_group] in Hrun. unfold bind at 1 in Hrun.
    destruct (check_cluster chat now cfg cluster batch seq st)
      as [[[cluster1 batch1] seq1] st1|] eqn:Hc; [|discriminate].
    unfold bind at 1 in Hrun.
    destruct (check_group chat now cfg rest batch1 seq1 st1)
      as [[[rest2 batch2] seq2] st2|] eqn:Hg; [|discriminate].
    cbn in Hrun. inversion Hrun; subst g' batch' seq' st'; clear Hrun.
    destruct (check_cluster_reply _ _ _ _ _ _ _ _ Hc)
      as (e1 & T1 & A1 & S1 & R1).
    destruct (IH _ _ _ _ _ _ _ Hg) as (e2 & T2 & A2 & S2 & R2).
    exists (e2 ++ e1).
    split; [rewrite T2, T1; apply app_assoc|].
    split; [rewrite A2, A1, requests_app; lia|].
    split.
    { rewrite syntheses_app, S1, S2. unfold reached.
      cbn [map List.filter snd].
      destruct (MIN_CLUSTER_SIZE cfg <=? length cluster);
        cbn [rev]; [reflexivity | apply app_nil_r]. }
    intros k0 later done earlier Hk Hdone.
    cbn [group_follows_replies]. split.
    + split; [reflexivity|]. cbn [snd].
      destruct (MIN_CLUSTER_SIZE cfg <=? length cluster) eqn:Hmin.
      * apply Nat.leb_le in Hmin.
        destruct R1 as (-> & newer & ->).
        split; [lia|]. intros _.
        exists (later ++ e2 ++ newer), done.
        split; [rewrite <- !app_assoc; reflexivity|].
        split; [exact Hdone|]. rewrite Hk. reflexivity.
      * apply Nat.leb_gt in Hmin. subst cluster1.
        split; [reflexivity | lia].
    + replace (later ++ (e2 ++ e1) ++ done)
        with (later ++ e2 ++ (e1 ++ done))
        by (rewrite <- !app_assoc; reflexivity).
      apply R2.
      * rewrite A1, requests_app, Hk. lia.
      * rewrite syntheses_app, S1, Hdone. symmetry. apply reached_snoc.
Qed.

Lemma rev_reached_app (a b : cluster_group) :
  rev (reached cfg (a ++ b)) = rev (reached cfg b) ++ rev (reached cfg a).
Proof.
  unfold reached. rewrite map_app, List.filter_app. apply rev_app_distr.
Qed.

Lemma process_yara_file_replies (p : path) (s : synth) (st : state) s' st' :
  Py.endswith (basename p) ".yar" = true ->
  process_yara_file chat similar now cfg p s st = Ok s' st' ->
  exists content events,
    fs_lookup (fs st) p = Some (Text content)
    /\ trace st' = events ++ trace st
    /\ group_follows_replies chat cfg (asked st) events []
         (short_group (clusters_after_adding similar cfg content s))
         (short_group (clusters s'))
    /\ group_follows_replies chat cfg (asked st) events
         (short_group (clusters_after_adding similar cfg content s))
         (medium_group (clusters_after_adding similar cfg content s))
         (medium_group (clusters s'))
    /\ group_follows_replies chat cfg (asked st) events
         (short_group (clusters_after_adding similar cfg content s)
          ++ medium_group (clusters_after_adding similar cfg content s))
         (long_group (clusters_after_adding similar cfg content s))
         (long_group (clusters s')).
Proof.
  intros Hyar Hrun. unfold process_yara_file in Hrun. rewrite Hyar in Hrun.
  unfold bind at 1, read_text, bind at 1, get_fs at 1 in Hrun.
  destruct (fs_lookup (fs st) p) as [[content|]|] eqn:Hf;
    try discriminate.
  unfold bind at 1, emit at 1, ret at 1 in Hrun.
  exists content. unfold clusters_after_adding.
  set (c := add_strings similar cfg (extract_strings content) (clusters s))
    in *.
  set (st0 := {| fs := fs st; trace := Read p :: trace st;
                 asked := asked st |}) in *.
  unfold check_clusters in Hrun.
  cbn [clusters regex_patterns master_rule_seq] in Hrun.
  unfold bind at 1 in Hrun.
  destruct (check_group chat now cfg (short_group c) _ _ st0)
    as [[[g1 b1] q1] st1|] eqn:H1; [|discriminate].
  unfold bind at 1 in Hrun.
  destruct (check_group chat now cfg (medium_group c) b1 q1 st1)
    as [[[g2 b2] q2] st2|] eqn:H2; [|discriminate].
  unfold bind at 1 in Hrun.
  destruct (check_group chat now cfg (long_group c) b2 q2 st2)
    as [[[g3 b3] q3] st3|] eqn:H3; [|discriminate].
  cbn in Hrun. inversion Hrun; subst s' st'; clear Hrun.
  destruct (check_group_replies _ _ _ _ _ _ _ _ H1)
    as (e1 & T1 & A1 & S1 & R1).
  destruct (check_group_replies _ _ _ _ _ _ _ _ H2)
    as (e2 & T2 & A2 & S2 & R2).
  destruct (check_group_replies _ _ _ _ _ _ _ _ H3)
    as (e3 & T3 & A3 & S3 & R3).
  exists (e3 ++ e2 ++ e1 ++ [Read p]).
  cbn [clusters short_group medium_group long_group].
  split; [reflexivity|].
  split.
  { rewrite T3, T2, T1. cbn [st0 trace]. rewrite <- !app_assoc.
    reflexivity. }
  split.
  { replace (e3 ++ e2 ++ e1 ++ [Read p])
      with ((e3 ++ e2) ++ e1 ++ [Read p])
      by (rewrite <- !app_assoc; reflexivity).
    apply R1; [cbn; lia | reflexivity]. }
  split.
  { replace (e3 ++ e2 ++ e1 ++ [Read p])
      with (e3 ++ e2 ++ (e1 ++ [Read p])) by reflexivity.
    apply R2.
    - rewrite A1, requests_app. cbn. lia.
    - rewrite syntheses_app, S1. cbn. apply app_nil_r. }
  replace (e3 ++ e2 ++ e1 ++ [Read p])
    with ([] ++ e3 ++ (e2 ++ e1 ++ [Read p])) by reflexivity.
  apply R3.
  - rewrite A2, A1, !requests_app. cbn. lia.
  - rewrite !syntheses_app, S2, S1. cbn. rewrite app_nil_r.
    symmetry. apply rev_reached_app.
Qed.

End ClusterReplies.

(** C7, amended: when the step for a rule file completes, every cluster
    that had reached MIN_CLUSTER_SIZE after the strings of the file were
    added has triggered exactly one synthesis, in this step and in the
    order of the clusters; each cluster keeps its key and its place.  A
    cluster below the size is left as it is.  A cluster at the size or
    above is announced, its pattern is requested next, and the reply of
    the oracle to that very request decides: the members are reset to
    empty when the reply gives a pattern that is not empty, and are all
    kept otherwise.  When the oracle answers every request with a
    pattern, every such cluster is reset, and no cluster holds
    MIN_CLUSTER_SIZE members or more at the end of the step. *)
Theorem process_yara_file_resets_clusters
    (chat : nat -> string -> chat_reply) (similar : string -> string -> bool)
    (now : nat -> string) (cfg : config) (p : path) (s : synth) (st : state)
    (s' : synth) (st' : state) :
  0 < MAX_REGEXES_PER_RULE cfg ->
  Py.endswith (basename p) ".yar" = true ->
  process_yara_file chat similar now cfg p s st = Ok s' st' ->
  exists content events,
    fs_lookup (fs st) p = Some (Text content)
    /\ trace st' = events ++ trace st
    /\ rev (syntheses events)
       = reached cfg
           (groups (clusters_after_adding similar cfg content s))
    /\ group_follows_replies chat cfg (asked st) events []
         (short_group (clusters_after_adding similar cfg content s))
         (short_group (clusters s'))
    /\ group_follows_replies chat cfg (asked st) events
         (short_group (clusters_after_adding similar cfg content s))
         (medium_group (clusters_after_adding similar cfg content s))
         (medium_group (clusters s'))
    /\ group_follows_replies chat cfg (asked st) events
         (short_group (clusters_after_adding similar cfg content s)
          ++ medium_group (clusters_after_adding similar cfg content s))
         (long_group (clusters_after_adding similar cfg content s))
         (long_group (clusters s'))
    /\ Forall2 (cluster_kept_or_reset cfg)
         (short_group (clusters_after_adding similar cfg content s))
         (short_group (clusters s'))
    /\ Forall2 (cluster_kept_or_reset cfg)
         (medium_group (clusters_after_adding similar cfg content s))
         (medium_group (clusters s'))
    /\ Forall2 (cluster_kept_or_reset cfg)
         (long_group (clusters_after_adding similar cfg content s))
         (long_group (clusters s'))
    /\ (always_answers chat -> 0 < MIN_CLUSTER_SIZE cfg ->
        Forall (fun c => length (snd c) < MIN_CLUSTER_SIZE cfg)
               (groups (clusters s'))).
Proof.
  intros Hmax Hyar Hrun.
  destruct (process_yara_file_frame chat similar now cfg p s st s' st'
              Hmax Hrun) as (events & F & _ & _ & Hfile).
  destruct (Hfile Hyar) as (content & Hf & Hsyn & K1 & K2 & K3 & A).
  destruct (process_yara_file_replies chat similar now cfg p s st s' st'
              Hyar Hrun) as (content' & events' & Hf' & Ht' & G1 & G2 & G3).
  assert (content' = content) as -> by congruence.
  assert (events' = events) as ->.
  { eapply trace_events_agree;
      [exact Ht' | exact (sf_trace _ _ _ _ _ _ _ _ _ _ F)]. }
  exists content, events.
  split; [exact Hf|]. split; [exact Ht'|].
  split; [rewrite Hsyn; apply rev_involutive|].
  split; [exact G1|]. split; [exact G2|]. split; [exact G3|].
  split; [exact K1|]. split; [exact K2|]. split; [exact K3|].
  intros Ha Hmin.
  apply (kept_or_reset_below cfg chat
           (groups (clusters_after_adding similar cfg content s))).
  - exact Hmin.
  - unfold groups. apply Forall2_app; [exact K1|].
    apply Forall2_app; [exact K2 | exact K3].
  - exact (A Ha).
Qed.

Definition value_of {A} (r : result A) (otherwise : A) : A :=
  match r with
  | Ok a _ => a
  | Raised _ _ => otherwise
  end.

Definition ten_strings_run : result synth :=
  process_yara_file Corpus.chat_regex Corpus.similar Corpus.now
    default_config (InRoot "r.yar") initial_synth (Sample.start Corpus.ten).

Lemma process_yara_file_resets_clusters_witness :
  exists content events,
    fs_lookup (Sample.fs_of Corpus.ten) (InRoot "r.yar")
    = Some (Text content)
    /\ rev (syntheses events)
       = reached default_config
           (groups (clusters_after_adding Corpus.similar default_config
                      content initial_synth))
    /\ group_follows_replies Corpus.chat_regex default_config 0 events
         (short_group (clusters_after_adding Corpus.similar default_config
                         content initial_synth))
         (medium_group (clusters_after_adding Corpus.similar default_config
                          content initial_synth))
         (medium_group (clusters (value_of ten_strings_run initial_synth))).
Proof.
  destruct (process_yara_file_resets_clusters Corpus.chat_regex
              Corpus.similar Corpus.now default_config (InRoot "r.yar")
              initial_synth (Sample.start Corpus.ten)
              (value_of ten_strings_run initial_synth)
              (final ten_strings_run))
    as (content & events & Hf & _ & Hsyn & _ & Hmedium & _).
  - vm_compute. lia.
  - reflexivity.
  - vm_compute. reflexivity.
  - exists content, events. split; [exact Hf|].
    split; [exact Hsyn | exact Hmedium].
Defined.

(** ** C8: the batch of accepted patterns *)

Definition big_run (chat : nat -> string -> chat_reply) : result synth :=
  process_yara_files chat Corpus.similar Corpus.now default_config
    (Corpus.walk_of Corpus.big) (Sample.start Corpus.big).

(** C8, as stated, fails: the batch reaches its capacity, the improvement
    is requested, and the reply holds no choice; no master rule is
    written, yet the batch is emptied and the sequence number goes up.
    And a reply with blanks around the rule is not written as it came:
    the blanks are stripped. *)
Lemma full_batch_lost_without_choice :
  (exists s' st',
     big_run Corpus.chat_without_master = Ok s' st'
     /\ length (accepted (trace st')) = MAX_REGEXES_PER_RULE default_config
     /\ improvements (trace st') = [1]
     /\ emitted (trace st') = []
     /\ root (fs st') = root (fs (Sample.start Corpus.big))
     /\ regex_patterns s' = []
     /\ master_rule_seq s' = 2)
  /\ (exists s' st',
        big_run Corpus.chat_padded_master = Ok s' st'
        /\ emitted (trace st')
           = [("master_regex_rule_20240101_120000_1.yar",
               "rule master { condition: true }")]
        /\ "rule master { condition: true }" <> Corpus.padded_master).
Proof.
  split.
  - eexists _, _. split; [vm_compute; reflexivity|].
    repeat split; vm_compute; reflexivity.
  - eexists _, _. split; [vm_compute; reflexivity|].
    split; [vm_compute; reflexivity|]. discriminate.
Qed.

Lemma NoDup_rev_seq (start len : nat) : NoDup (rev (seq start len)).
Proof.
  apply NoDup_ListNoDup, List.NoDup_rev, NoDup_ListNoDup, NoDup_seq.
Qed.

(** C8, amended: over a pass that completes, with a positive capacity, an
    improvement is requested once for every MAX_REGEXES_PER_RULE accepted
    patterns, with the sequence numbers 1, 2, ... in order; what is left
    in the batch at the end is below the capacity and is not flushed; a
    pass that accepts fewer patterns than the capacity requests and writes
    nothing.  A flush whose reply holds a choice writes the content of the
    reply, stripped, to the file named after the timestamp and the
    sequence number; a flush whose reply holds no choice writes nothing;
    both empty the batch and add one to the sequence number.  With
    timestamps of 15 characters the written names are pairwise distinct
    and each written file ends the pass with the text written to it. *)
Theorem process_yara_files_flushes_full_batches
    (chat : nat -> string -> chat_reply) (similar : string -> string -> bool)
    (now : nat -> string) (cfg : config) (walk : list path) (st : state)
    (s' : synth) (st' : state) :
  0 < MAX_REGEXES_PER_RULE cfg ->
  (forall q, String.length (now q) = 15) ->
  process_yara_files chat similar now cfg walk st = Ok s' st' ->
  exists events,
    trace st' = events ++ trace st
    /\ length (accepted events)
       = MAX_REGEXES_PER_RULE cfg * length (improvements events)
         + length (regex_patterns s')
    /\ length (regex_patterns s') < MAX_REGEXES_PER_RULE cfg
    /\ rev (improvements events) = seq 1 (length (improvements events))
    /\ master_rule_seq s' = 1 + length (improvements events)
    /\ (length (accepted events) < MAX_REGEXES_PER_RULE cfg ->
        improvements events = [] /\ emitted events = []
        /\ root (fs st') = root (fs st))
    /\ (exists qs,
          sublist qs (improvements events)
          /\ Forall2 (emit_of chat now) qs (emitted events))
    /\ NoDup (map fst (emitted events))
    /\ (forall f t, In (f, t) (emitted events) ->
        root (fs st') !! f = Some (Text t))
    /\ (forall batch q st0,
          flush_master_rule chat now cfg batch q st0
          = match chat (asked st0)
                    (master_prompt cfg
                       (initial_rule_content (now q) q batch)) with
            | Choices content =>
                Ok ([], S q)
                   (advance
                      [Emit (master_rule_filename (now q) q)
                         (Py.strip content);
                       Ask (master_prompt cfg
                              (initial_rule_content (now q) q batch));
                       Improve q] 1
                      (fs_write (InRoot (master_rule_filename (now q) q))
                         (Text (Py.strip content)) (fs st0)) st0)
            | NoChoices =>
                Ok ([], S q)
                   (advance
                      [Ask (master_prompt cfg
                              (initial_rule_content (now q) q batch));
                       Improve q] 1 (fs st0) st0)
            | ChatError =>
                Raised APIError
                  (advance
                     [Ask (master_prompt cfg
                             (initial_rule_content (now q) q batch));
                      Improve q] 1 (fs st0) st0)
            end).
Proof.
  intros Hmax Hlen Hrun. unfold process_yara_files in Hrun.
  destruct (process_walk_frame chat similar now cfg walk initial_synth st
              s' st' Hmax Hrun) as (events & F & _).
  cbn [initial_synth regex_patterns master_rule_seq] in F.
  pose proof (sf_seq _ _ _ _ _ _ _ _ _ _ F) as Hseq.
  pose proof (sf_improvements _ _ _ _ _ _ _ _ _ _ F) as Himp.
  destruct (sf_batch _ _ _ _ _ _ _ _ _ _ F) as [Hcount Hleft];
    [cbn; exact Hmax|].
  cbn [length] in Hcount. rewrite Nat.add_0_r in Hcount.
  assert (Hn : length (improvements events) = master_rule_seq s' - 1).
  { rewrite Himp, length_rev, length_seq. reflexivity. }
  pose proof (master_rule_filename_inj now Hlen) as Hinj.
  destruct (sf_emitted _ _ _ _ _ _ _ _ _ _ F) as (qs & Hsub & Hall).
  exists events.
  split; [exact (sf_trace _ _ _ _ _ _ _ _ _ _ F)|].
  split; [exact Hcount|]. split; [exact Hleft|].
  split. { rewrite Himp, rev_involutive, length_rev, length_seq.
           reflexivity. }
  split; [lia|].
  split.
  { intros Hfew.
    assert (length (improvements events) = 0) as Hzero by nia.
    assert (improvements events = []) as Hnil
      by (destruct (improvements events); [reflexivity | discriminate]).
    assert (emitted events = []) as Hnone.
    { rewrite Hnil in Hsub. apply sublist_nil_r in Hsub. subst qs.
      inversion Hall. reflexivity. }
    split; [exact Hnil|]. split; [exact Hnone|].
    apply map_eq. intros n. apply (sf_root _ _ _ _ _ _ _ _ _ _ F).
    rewrite Hnone. intros t []. }
  split; [exists qs; split; assumption|].
  split.
  { assert (NoDup qs) as Hnd.
    { apply (sublist_NoDup qs (improvements events)); [|exact Hsub].
      rewrite Himp. apply NoDup_rev_seq. }
    clear Hsub. revert Hnd.
    induction Hall as [|q w qs ws [Hw _] Hall IH]; intros Hnd;
      [constructor|].
    apply NoDup_cons in Hnd. destruct Hnd as [Hq Hnd].
    cbn [map]. apply NoDup_cons. split; [|exact (IH Hnd)].
    intros Hin. apply Hq. apply list_elem_of_In in Hin.
    apply in_map_iff in Hin. destruct Hin as (w' & Hw' & Hin).
    clear IH Hnd Hq.
    induction Hall as [|q' x qs ws [Hx _] Hall IH]; [destruct Hin|].
    destruct Hin as [<-|Hin].
    - rewrite Hw, Hx in Hw'. apply Hinj in Hw'. subst. left; reflexivity.
    - right. exact (IH Hin). }
  split; [exact (sf_written _ _ _ _ _ _ _ _ _ _ F Hinj)|].
  intros batch q st0. apply flush_master_rule_run.
Qed.

Definition big_chat_run : result synth := big_run Corpus.chat_regex.

Lemma process_yara_files_flushes_full_batches_witness :
  exists events,
    trace (final big_chat_run) = events ++ []
    /\ length (regex_patterns (value_of big_chat_run initial_synth))
       < MAX_REGEXES_PER_RULE default_config
    /\ NoDup (map fst (emitted events)).
Proof.
  destruct (process_yara_files_flushes_full_batches Corpus.chat_regex
              Corpus.similar Corpus.now default_config
              (Corpus.walk_of Corpus.big) (Sample.start Corpus.big)
              (value_of big_chat_run initial_synth) (final big_chat_run))
    as (events & Htrace & _ & Hleft & _ & _ & _ & _ & Hnames & _).
  - vm_compute. lia.
  - intros q. reflexivity.
  - vm_compute. reflexivity.
  - exists events. split; [exact Htrace|]. split; [exact Hleft|exact Hnames].
Defined.

(** ** C6: errors in a pass *)

Definition corpus_with_bad_file : list (string * file) :=
  [("a.yar", Undecodable); ("b.yar", Text Sample.weak_rule)].

(** C6 fails on the code: a file that does not decode makes the routing
    pass and the synthesis pass raise, and the files after it are not
    read; a failure of the oracle on the request for a master rule makes
    the synthesis pass raise. *)
Theorem file_and_oracle_errors_abort_the_pass :
  let st := Sample.start corpus_with_bad_file in
  process_files Sample.yara Sample.chat_fixing default_config py_fuel
    true true ["a.yar"; "b.yar"] st
  = Raised UnicodeDecodeError st
  /\ process_yara_files Corpus.chat_regex Corpus.similar Corpus.now
       default_config [InRoot "a.yar"; InRoot "b.yar"] st
     = Raised UnicodeDecodeError st
  /\ trace st = []
  /\ exists st',
       big_run Corpus.chat_failing_master = Raised APIError st'
       /\ length (accepted (trace st'))
          = MAX_REGEXES_PER_RULE default_config
       /\ emitted (trace st') = [].
Proof.
  cbv zeta. split; [vm_compute; reflexivity|].
  split; [vm_compute; reflexivity|]. split; [reflexivity|].
  eexists. split; [vm_compute; reflexivity|].
  split; vm_compute; reflexivity.
Qed.

(** ** C5: running a pass again *)

Definition rerun (st : state) : state :=
  {| fs := fs st; trace := []; asked := 0 |}.

(** C5, as stated, fails: in copy mode a rule that was routed stays in
    the root, and a second pass reads it and routes it again. *)
Lemma copy_mode_routes_again :
  let st0 := Sample.start [("a.yar", Text Sample.weak_rule)] in
  exists st1 st2,
    process_files Sample.yara Sample.chat_fixing default_config py_fuel
      true false ["a.yar"] st0 = Ok tt st1
    /\ routes (trace st1) = [("a.yar", "weak-rules")]
    /\ root (fs st1) !! "a.yar" = Some (Text Sample.weak_rule)
    /\ process_files Sample.yara Sample.chat_fixing default_config py_fuel
         true false ["a.yar"] (rerun st1) = Ok tt st2
    /\ reads (trace st2) = [InRoot "a.yar"]
    /\ routes (trace st2) = [("a.yar", "weak-rules")].
Proof.
  cbv zeta. eexists _, _.
  split; [vm_compute; reflexivity|]. split; [vm_compute; reflexivity|].
  split; [vm_compute; reflexivity|]. split; [vm_compute; reflexivity|].
  split; vm_compute; reflexivity.
Qed.

(** C5, amended: when files are moved (copy mode off, silent mode off), a
    rule that a routing pass routed is gone from the root; the one
    exception is the rule at which the pass stopped, when the name of its
    sub-folder is a file of the root and the rename raised.  A rule that
    is gone from the root is neither read nor routed by a later pass,
    whatever the listing, the mode and the oracle of that pass.  In copy
    mode and in silent mode every rule stays in the root, so a later pass
    finds it again.  The synthesis pass keeps nothing between runs: a run
    that completes has read every file of the walk whose name ends in
    [.yar]; it routes nothing, leaves the sub-folders as they are, and
    changes the root only where it writes a master rule. *)
Theorem rerun_skips_only_moved_rules
    (yara : option file -> Z * string) (chat : nat -> string -> chat_reply)
    (cfg : config) (fuel : nat) (copy_mode silent_mode : bool)
    (listing : list string) (st : state) :
  2 <= fuel ->
  let run1 :=
    process_files yara chat cfg fuel copy_mode silent_mode listing st in
  let st1 := final run1 in
  exists events,
    trace st1 = events ++ trace st
    /\ (copy_mode = false -> silent_mode = false ->
        forall n d, In (n, d) (routes events) ->
          root (fs st1) !! n = None
          \/ (run1 = Raised NotADirectoryError st1
              /\ is_Some (root (fs st1) !! d)
              /\ exists older, routes events = (n, d) :: older))
    /\ (forall n, root (fs st1) !! n = None ->
        forall yara2 chat2 cfg2 fuel2 copy2 silent2 listing2,
          2 <= fuel2 ->
          exists events2,
            trace (final (process_files yara2 chat2 cfg2 fuel2 copy2
                            silent2 listing2 st1))
            = events2 ++ trace st1
            /\ ~ In (InRoot n) (reads events2)
            /\ forall d2, ~ In (n, d2) (routes events2))
    /\ (copy_mode = true \/ silent_mode = true ->
        forall n, is_Some (root (fs st) !! n) ->
                  is_Some (root (fs st1) !! n))
    /\ (forall chat3 similar now walk s2 st2,
          0 < MAX_REGEXES_PER_RULE cfg ->
          process_yara_files chat3 similar now cfg walk st1 = Ok s2 st2 ->
          exists events3,
            trace st2 = events3 ++ trace st1
            /\ reads events3 = rev (walked walk)
            /\ routes events3 = []
            /\ folders (fs st2) = folders (fs st1)
            /\ (forall n, (forall t, ~ In (n, t) (emitted events3)) ->
                root (fs st2) !! n = root (fs st1) !! n)).
Proof.
  intros Hfuel run1 st1.
  destruct (process_files_frame yara chat cfg fuel copy_mode silent_mode
              listing st Hfuel) as (events & F).
  fold run1 in F. exists events.
  split; [exact (pf_trace _ _ _ _ _ _ F)|].
  split; [exact (pf_moved _ _ _ _ _ _ F)|].
  split.
  { intros n Hgone yara2 chat2 cfg2 fuel2 copy2 silent2 listing2 Hfuel2.
    destruct (process_files_frame yara2 chat2 cfg2 fuel2 copy2 silent2
                listing2 st1 Hfuel2) as (events2 & F2).
    exists events2. split; [exact (pf_trace _ _ _ _ _ _ F2)|].
    assert (Hnot : ~ is_Some (root (fs st1) !! n)).
    { rewrite Hgone. apply is_Some_None. }
    split.
    - intros Hr. apply Hnot. apply (pf_present _ _ _ _ _ _ F2). auto.
    - intros d2 Hr. apply Hnot. apply (pf_present _ _ _ _ _ _ F2). eauto. }
  split; [exact (pf_kept _ _ _ _ _ _ F)|].
  intros chat3 similar now walk s2 st2 Hmax Hrun.
  unfold process_yara_files in Hrun.
  destruct (process_walk_frame chat3 similar now cfg walk initial_synth st1
              s2 st2 Hmax Hrun) as (events3 & F3 & Hreads).
  exists events3.
  split; [exact (sf_trace _ _ _ _ _ _ _ _ _ _ F3)|].
  split; [exact Hreads|].
  split; [exact (sf_routes _ _ _ _ _ _ _ _ _ _ F3)|].
  split; [exact (sf_folders _ _ _ _ _ _ _ _ _ _ F3)|].
  exact (sf_root _ _ _ _ _ _ _ _ _ _ F3).
Qed.

Definition moved_once : state :=
  final (process_files Sample.yara Sample.chat_fixing default_config py_fuel
           false false ["a.yar"]
           (Sample.start [("a.yar", Text Sample.weak_rule)])).

Lemma rerun_skips_only_moved_rules_witness :
  root (fs moved_once) !! "a.yar" = None
  /\ dirs (fs moved_once) = {["weak-rules"]}
  /\ exists events2,
       trace (final (process_files Sample.yara Sample.chat_fixing
                       default_config py_fuel false false
                       ["weak-rules"; "a.yar"] moved_once))
       = events2 ++ trace moved_once
       /\ ~ In (InRoot "a.yar") (reads events2)
       /\ forall d2, ~ In ("a.yar", d2) (routes events2).
Proof.
  destruct (rerun_skips_only_moved_rules Sample.yara Sample.chat_fixing
              default_config py_fuel false false ["a.yar"]
              (Sample.start [("a.yar", Text Sample.weak_rule)]))
    as (events & Htrace & Hmoved & Hlater & _).
  - unfold py_fuel. lia.
  - assert (E : events = trace moved_once).
    { unfold moved_once. rewrite Htrace. symmetry. apply app_nil_r. }
    assert (Hgone : root (fs moved_once) !! "a.yar" = None).
    { destruct (Hmoved eq_refl eq_refl "a.yar" "weak-rules")
        as [H | (H & _)].
      - rewrite E. vm_compute. left. reflexivity.
      - exact H.
      - vm_compute in H. discriminate. }
    split; [exact Hgone|]. split; [vm_compute; reflexivity|].
    apply (Hlater "a.yar" Hgone Sample.yara Sample.chat_fixing
             default_config py_fuel false false ["weak-rules"; "a.yar"]).
    unfold py_fuel. lia.
Defined.

(** * Further properties *)

(** ** The complexity score is a count of quarters *)

Lemma weighted_sum_halves (strings : list string) :
  exists n : nat,
    (fold_right Qplus 0
       (map (fun s => qlen s * weight_of s)
            (List.filter (fun s => 5 <=? Py.len s) strings))
     == Z.of_nat n # 2)%Q
    /\ n <= 6 * list_sum (map Py.len strings).
Proof.
  induction strings as [|s rest (n & IH & Hn)].
  - exists 0. split; [reflexivity | cbn; lia].
  - cbn [List.filter map].
    change (list_sum (Py.len s :: map Py.len rest))
      with (Py.len s + list_sum (map Py.len rest)).
    destruct (5 <=? Py.len s).
    + cbn [map fold_right]. unfold weight_of, qlen.
      destruct (Re.byte_array_pattern s);
        [|destruct (Re.human_readable_pattern s)].
      * exists (6 * Py.len s + n). split; [|lia]. rewrite IH.
        unfold Qeq, Qplus, Qmult, inject_Z. cbn. lia.
      * exists (2 * Py.len s + n). split; [|lia]. rewrite IH.
        unfold Qeq, Qplus, Qmult, inject_Z. cbn. lia.
      * exists (Py.len s + n). split; [|lia]. rewrite IH.
        unfold Qeq, Qplus, Qmult, inject_Z. cbn. lia.
    + exists n. split; [exact IH | lia].
Qed.

(** X1: the score is never negative; it is a whole number of quarters, which
    a double holds exactly; it is at most 4.5 times the total length of
    the extracted strings; and it is 0 when every extracted string is
    shorter than five characters. *)
Theorem calculate_complexity_quarters (rule_content : string) :
  exists n : nat,
    (calculate_complexity rule_content == Z.of_nat n # 4)%Q
    /\ (0 <= calculate_complexity rule_content)%Q
    /\ n <= 18 * list_sum (map Py.len (extract_strings rule_content))
    /\ (Forall (fun s => Py.len s < 5) (extract_strings rule_content) ->
        n = 0).
Proof.
  assert (Hzero : Forall (fun s => Py.len s < 5)
                    (extract_strings rule_content) ->
                  List.filter (fun s => 5 <=? Py.len s)
                    (extract_strings rule_content) = []).
  { induction 1 as [|s l Hs _ IH]; [reflexivity|].
    cbn [List.filter]. replace (5 <=? Py.len s) with false; [exact IH|].
    symmetry. apply Nat.leb_gt. exact Hs. }
  pose proof (calculate_complexity_refines rule_content) as Href.
  unfold reference_score in Href.
  destruct (extract_condition rule_content) as [c|].
  2: { exists 0. rewrite Href. repeat split; try reflexivity; try lia.
       unfold Qle. cbn. lia. }
  cbv zeta in Href.
  destruct (weighted_sum_halves (extract_strings rule_content))
    as (n & Hsum & Hn).
  destruct (Py.contains "all of" c
            && (1 <? length (extract_strings rule_content))).
  - exists (3 * n). rewrite Href, Hsum.
    split; [unfold Qeq, Qmult; cbn; lia|].
    split; [unfold Qle, Qmult; cbn; lia|]. split; [lia|].
    intros Hall. rewrite (Hzero Hall) in Hsum. cbn in Hsum.
    unfold Qeq in Hsum. cbn in Hsum. lia.
  - exists (2 * n). rewrite Href, Hsum.
    split; [unfold Qeq; cbn; lia|].
    split; [unfold Qle; cbn; lia|]. split; [lia|].
    intros Hall. rewrite (Hzero Hall) in Hsum. cbn in Hsum.
    unfold Qeq in Hsum. cbn in Hsum. lia.
Qed.

(** ** Substrings *)

Lemma prefix_spec (p s : string) :
  String.prefix p s = true <-> exists b, s = p +:+ b.
Proof.
  revert s. induction p as [|c p IH]; intros s.
  - split; [intros _; exists s; reflexivity | intros _; destruct s; reflexivity].
  - destruct s as [|d s].
    + split; [discriminate | intros [b Hb]; discriminate].
    + cbn [String.prefix]. destruct (ascii_dec c d) as [->|Hne].
      * rewrite IH. split; intros [b Hb]; exists b.
        -- rewrite append_cons. f_equal. exact Hb.
        -- rewrite append_cons in Hb. injection Hb as Hb. exact Hb.
      * split; [discriminate|]. intros [b Hb]. rewrite append_cons in Hb.
        injection Hb as Hc _. congruence.
Qed.

Lemma contains_unfold (sub s : string) :
  Py.contains sub s
  = String.prefix sub s
    || match s with
       | EmptyString => false
       | String _ s' => Py.contains sub s'
       end.
Proof. destruct s; reflexivity. Qed.

Lemma contains_spec (sub s : string) :
  Py.contains sub s = true <-> exists a b, s = a +:+ sub +:+ b.
Proof.
  split.
  - induction s as [|c s IH]; rewrite contains_unfold; intros H;
      apply orb_true_iff in H; destruct H as [H|H]; try discriminate.
    + apply prefix_spec in H. destruct H as [b ->]. exists EmptyString, b.
      reflexivity.
    + apply prefix_spec in H. destruct H as [b ->]. exists EmptyString, b.
      reflexivity.
    + destruct (IH H) as (a & b & ->). exists (String c a), b. reflexivity.
  - intros (a & b & ->). induction a as [|c a IH]; rewrite contains_unfold.
    + apply orb_true_iff. left. apply prefix_spec. exists b. reflexivity.
    + apply orb_true_iff. right. rewrite append_cons. exact IH.
Qed.

Lemma append_assoc (a b c : string) : (a +:+ b) +:+ c = a +:+ (b +:+ c).
Proof.
  induction a as [|x a IH]; [reflexivity|].
  rewrite !append_cons, IH. reflexivity.
Qed.

Lemma any_in_spec (markers : list string) (s : string) :
  Py.any_in markers s = true <->
  exists m a b, In m markers /\ s = a +:+ m +:+ b.
Proof.
  unfold Py.any_in. rewrite existsb_exists. split.
  - intros (m & Hin & Hc). apply contains_spec in Hc.
    destruct Hc as (a & b & ->). exists m, a, b. auto.
  - intros (m & a & b & Hin & ->). exists m. split; [exact Hin|].
    apply contains_spec. exists a, b. reflexivity.
Qed.

(** ** The denylists of [common.py] *)

(** X2: a text is flagged exactly when it holds one of the markers as a
    substring; so a flagged text stays flagged whatever is put before and
    after it.  The same holds of the trash strings of the clusterer. *)
Theorem unacceptable_iff_marker_inside (text : string) :
  (is_unacceptable_yara_rule_response text = true <->
   exists marker before after,
     In marker error_conditions /\ text = before +:+ marker +:+ after)
  /\ (is_unacceptable_string text = true <->
      exists marker before after,
        In marker trash_strings /\ text = before +:+ marker +:+ after)
  /\ (forall before after,
        (is_unacceptable_yara_rule_response text = true ->
         is_unacceptable_yara_rule_response (before +:+ text +:+ after)
         = true)
        /\ (is_unacceptable_string text = true ->
            is_unacceptable_string (before +:+ text +:+ after) = true)).
Proof.
  assert (Hpad : forall markers before after,
             Py.any_in markers text = true ->
             Py.any_in markers (before +:+ text +:+ after) = true).
  { intros markers before after H. apply any_in_spec in H.
    destruct H as (m & a & b & Hin & ->). apply any_in_spec.
    exists m, (before +:+ a), (b +:+ after). split; [exact Hin|].
    rewrite !append_assoc. reflexivity. }
  split; [apply any_in_spec|]. split; [apply any_in_spec|].
  intros before after. split; apply Hpad.
Qed.

(** ** [find], [rfind], slices and [strip] *)

Lemma find_from_found (sub s : string) (i : Z) :
  (0 <= i)%Z -> Py.find_from sub s i <> (-1)%Z ->
  exists k : nat,
    Py.find_from sub s i = (i + Z.of_nat k)%Z
    /\ k <= Py.len s
    /\ String.prefix sub (Py.drop k s) = true
    /\ forall k', k' < k -> String.prefix sub (Py.drop k' s) = false.
Proof.
  revert i. induction s as [|c s IH]; intros i Hi H.
  - cbn [Py.find_from] in *.
    destruct (String.prefix sub EmptyString) eqn:E; [|congruence].
    exists 0. repeat split; [lia | cbn; lia | exact E | intros; lia].
  - cbn [Py.find_from] in *.
    destruct (String.prefix sub (String c s)) eqn:E.
    + exists 0. repeat split; [lia | cbn; lia | exact E | intros; lia].
    + destruct (IH (i + 1)%Z) as (k & Hk & Hlen & Hp & Hmin); [lia|exact H|].
      exists (S k). repeat split.
      * rewrite Hk. lia.
      * cbn. unfold Py.len in Hlen. lia.
      * exact Hp.
      * intros [|k'] Hk'; [exact E|]. apply Hmin. lia.
Qed.

Lemma find_from_absent (sub s : string) (i : Z) :
  (0 <= i)%Z -> Py.find_from sub s i = (-1)%Z ->
  Py.contains sub s = false.
Proof.
  revert i. induction s as [|c s IH]; intros i Hi H;
    rewrite contains_unfold; cbn [Py.find_from] in H.
  - destruct (String.prefix sub EmptyString); [lia | reflexivity].
  - destruct (String.prefix sub (String c s)); [lia|].
    cbn [orb]. apply (IH (i + 1)%Z); [lia | exact H].
Qed.

Lemma rfind_from_absent (sub s : string) (i : Z) :
  (0 <= i)%Z -> Py.rfind_from sub s i = (-1)%Z ->
  forall k, k <= Py.len s -> String.prefix sub (Py.drop k s) = false.
Proof.
  revert i. induction s as [|c s IH]; intros i Hi H k Hk;
    cbn [Py.rfind_from] in H.
  - destruct (String.prefix sub EmptyString) eqn:E; [lia|].
    destruct k; exact E.
  - destruct (Py.rfind_from sub s (i + 1) =? -1)%Z eqn:Er.
    + apply Z.eqb_eq in Er.
      destruct (String.prefix sub (String c s)) eqn:E; [lia|].
      destruct k as [|k]; [exact E|]. cbn [Py.drop].
      apply (IH (i + 1)%Z); [lia | exact Er | cbn in Hk; unfold Py.len; lia].
    + apply Z.eqb_neq in Er. congruence.
Qed.

Lemma rfind_from_found (sub s : string) (i : Z) :
  (0 <= i)%Z -> Py.rfind_from sub s i <> (-1)%Z ->
  exists k : nat,
    Py.rfind_from sub s i = (i + Z.of_nat k)%Z
    /\ k <= Py.len s
    /\ String.prefix sub (Py.drop k s) = true
    /\ forall k', k < k' -> k' <= Py.len s ->
         String.prefix sub (Py.drop k' s) = false.
Proof.
  revert i. induction s as [|c s IH]; intros i Hi H.
  - cbn [Py.rfind_from] in *.
    destruct (String.prefix sub EmptyString) eqn:E; [|congruence].
    exists 0. repeat split; [lia | cbn; lia | exact E |].
    intros k' Hk' Hlen. cbn in Hlen. lia.
  - cbn [Py.rfind_from] in *.
    destruct (Py.rfind_from sub s (i + 1) =? -1)%Z eqn:Er.
    + apply Z.eqb_eq in Er.
      destruct (String.prefix sub (String c s)) eqn:E; [|congruence].
      exists 0. repeat split; [lia | cbn; lia | exact E |].
      intros [|k'] Hk' Hlen; [lia|]. cbn [Py.drop].
      apply (rfind_from_absent sub s (i + 1)%Z); [lia | exact Er |].
      cbn in Hlen. unfold Py.len. lia.
    + apply Z.eqb_neq in Er.
      destruct (IH (i + 1)%Z) as (k & Hk & Hlen & Hp & Hmax); [lia|exact Er|].
      exists (S k). repeat split.
      * rewrite Hk. lia.
      * cbn. unfold Py.len in Hlen. lia.
      * exact Hp.
      * intros [|k'] Hk' Hl; [lia|]. apply Hmax; [lia|].
        cbn in Hl. unfold Py.len. lia.
Qed.

Lemma take_drop (n : nat) (s : string) : Py.take n s +:+ Py.drop n s = s.
Proof.
  revert s. induction n as [|n IH]; intros [|c s]; try reflexivity.
  cbn [Py.take Py.drop]. rewrite append_cons, IH. reflexivity.
Qed.

Lemma drop_add (a b : nat) (s : string) :
  Py.drop (a + b) s = Py.drop b (Py.drop a s).
Proof.
  revert s. induction a as [|a IH]; intros s; [reflexivity|].
  destruct s as [|c s]; [destruct b; reflexivity|]. apply IH.
Qed.

Lemma take_succ (n : nat) (s : string) (c : ascii) (r : string) :
  Py.drop n s = String c r ->
  Py.take (S n) s = Py.take n s +:+ String c EmptyString.
Proof.
  revert s. induction n as [|n IH]; intros [|d s] H; try discriminate.
  - cbn in H. injection H as -> ->. reflexivity.
  - cbn [Py.take Py.drop] in *. rewrite append_cons, <- (IH s H).
    reflexivity.
Qed.

Lemma append_last_not_empty (x : string) (c : ascii) :
  String.eqb (x +:+ String c EmptyString) EmptyString = false.
Proof. destruct x; reflexivity. Qed.

Lemma rstrip_keeps (x : string) (c : ascii) :
  Py.isspace c = false ->
  Py.rstrip (x +:+ String c EmptyString) = x +:+ String c EmptyString.
Proof.
  intros Hc. induction x as [|d x IH].
  - change (EmptyString +:+ String c EmptyString) with (String c EmptyString).
    cbn [Py.rstrip]. rewrite Hc. reflexivity.
  - rewrite append_cons. cbn [Py.rstrip]. rewrite IH.
    rewrite append_last_not_empty, andb_false_r. reflexivity.
Qed.

Lemma strip_keeps (c d : ascii) (x : string) :
  Py.isspace c = false -> Py.isspace d = false ->
  Py.strip (String c (x +:+ String d EmptyString))
  = String c (x +:+ String d EmptyString).
Proof.
  intros Hc Hd. unfold Py.strip. cbn [Py.lstrip]. rewrite Hc.
  change (String c (x +:+ String d EmptyString))
    with (String c x +:+ String d EmptyString).
  apply rstrip_keeps. exact Hd.
Qed.

Lemma no_prefix_no_contains (sub s : string) :
  (forall k, k <= Py.len s -> String.prefix sub (Py.drop k s) = false) ->
  Py.contains sub s = false.
Proof.
  induction s as [|c s IH]; intros H; rewrite contains_unfold.
  - pose proof (H 0 (Nat.le_0_l _)) as H0. cbn [Py.drop] in H0.
    rewrite H0. reflexivity.
  - pose proof (H 0 (Nat.le_0_l _)) as H0. cbn [Py.drop] in H0.
    rewrite H0. cbn [orb]. apply IH.
    intros k Hk. apply (H (S k)). cbn. unfold Py.len in Hk. lia.
Qed.

Lemma drop_length (n : nat) (s : string) :
  Py.len (Py.drop n s) = Py.len s - n.
Proof.
  revert s. induction n as [|n IH]; intros [|c s]; try reflexivity.
  cbn [Py.drop]. unfold Py.len in *. cbn [String.length]. apply IH.
Qed.

Lemma prefix_drop_contains (sub s : string) (k : nat) :
  String.prefix sub (Py.drop k s) = true -> Py.contains sub s = true.
Proof.
  revert s. induction k as [|k IH]; intros s H; rewrite contains_unfold.
  - cbn [Py.drop] in H. rewrite H. reflexivity.
  - destruct s as [|c s].
    + cbn [Py.drop] in H. rewrite H. reflexivity.
    + cbn [Py.drop] in H. rewrite (IH s H). apply orb_true_r.
Qed.

Lemma take_length (n : nat) (s : string) :
  n <= Py.len s -> Py.len (Py.take n s) = n.
Proof.
  revert s. induction n as [|n IH]; intros [|c s] H; try reflexivity.
  - cbn in H. lia.
  - cbn [Py.take]. unfold Py.len in *. cbn [String.length] in *.
    rewrite IH; lia.
Qed.

Lemma drop_nonempty_lt (n : nat) (s : string) (c : ascii) (r : string) :
  Py.drop n s = String c r -> n < Py.len s.
Proof.
  intros H. pose proof (drop_length n s) as Hl. rewrite H in Hl.
  unfold Py.len in *. cbn [String.length] in Hl. lia.
Qed.

(** ** [common.extract_yara_rule] *)

(** X3: the rule that [extract_yara_rule] cuts out of a reply runs from the
    first [rule ] to the last closing brace, and nothing is stripped from
    it.  A reply whose last closing brace comes before its first [rule ]
    gives the empty string.  A reply without [rule ] or without a closing
    brace is returned whole, stripped. *)
Theorem extract_yara_rule_span (response_text : string) :
  let i := Py.find response_text "rule " in
  let j := Py.rfind response_text "}" in
  (Py.contains "rule " response_text = false
   \/ Py.contains "}" response_text = false ->
   extract_yara_rule response_text = Py.strip response_text)
  /\ (i <> (-1)%Z -> j <> (-1)%Z -> (j < i)%Z ->
      extract_yara_rule response_text = EmptyString)
  /\ (i <> (-1)%Z -> j <> (-1)%Z -> (i <= j)%Z ->
      exists before middle after,
        response_text
        = before +:+ ("rule " +:+ middle +:+ "}") +:+ after
        /\ extract_yara_rule response_text = "rule " +:+ middle +:+ "}"
        /\ Z.of_nat (Py.len before) = i
        /\ (forall k, k < Py.len before ->
            String.prefix "rule " (Py.drop k response_text) = false)
        /\ Py.contains "}" after = false).
Proof.
  intros i j. unfold extract_yara_rule. fold i j.
  split.
  { intros H.
    assert (i = (-1)%Z \/ j = (-1)%Z) as Hij.
    { destruct H as [H|H]; [left | right].
      - destruct (Z.eq_dec i (-1)%Z) as [E|E]; [exact E|].
        destruct (find_from_found "rule " response_text 0 (Z.le_refl 0) E)
          as (k & _ & _ & Hp & _).
        rewrite (prefix_drop_contains _ _ _ Hp) in H. discriminate.
      - destruct (Z.eq_dec j (-1)%Z) as [E|E]; [exact E|].
        destruct (rfind_from_found "}" response_text 0 (Z.le_refl 0) E)
          as (k & _ & _ & Hp & _).
        rewrite (prefix_drop_contains _ _ _ Hp) in H. discriminate. }
    destruct Hij as [-> | ->]; cbn [Z.eqb negb andb];
      rewrite ?andb_false_r; reflexivity. }
  assert (Hfound : i <> (-1)%Z -> j <> (-1)%Z ->
            (negb (i =? -1)%Z && negb (j =? -1)%Z) = true).
  { intros Hi Hj. apply Z.eqb_neq in Hi, Hj. rewrite Hi, Hj. reflexivity. }
  split.
  { intros Hi Hj Hlt. rewrite (Hfound Hi Hj). unfold Py.slice.
    destruct (find_from_found "rule " response_text 0 (Z.le_refl 0) Hi)
      as (k & Hk & _).
    destruct (rfind_from_found "}" response_text 0 (Z.le_refl 0) Hj)
      as (m & Hm & _).
    fold (Py.find response_text "rule ") in Hk. fold i in Hk.
    fold (Py.rfind response_text "}") in Hm. fold j in Hm.
    replace (Z.to_nat (j + 1) - Z.to_nat i) with 0 by lia.
    reflexivity. }
  intros Hi Hj Hle. rewrite (Hfound Hi Hj). unfold Py.slice.
  destruct (find_from_found "rule " response_text 0 (Z.le_refl 0) Hi)
    as (k & Hk & _ & Hpk & Hfirst).
  destruct (rfind_from_found "}" response_text 0 (Z.le_refl 0) Hj)
    as (m & Hm & _ & Hpm & Hlast).
  fold (Py.find response_text "rule ") in Hk. fold i in Hk.
  fold (Py.rfind response_text "}") in Hm. fold j in Hm.
  apply prefix_spec in Hpk, Hpm.
  destruct Hpk as [rest Hrest]. destruct Hpm as [rest' Hrest'].
  replace (Z.to_nat i) with k by lia.
  replace (Z.to_nat (j + 1) - k) with (S (m - k)) by lia.
  assert (Hkm : k <= m) by lia.
  assert (Hdm : Py.drop (m - k) (Py.drop k response_text)
                = String "}" rest').
  { rewrite <- drop_add. replace (k + (m - k)) with m by lia.
    exact Hrest'. }
  assert (Hfar : 5 <= m - k).
  { rewrite Hrest in Hdm.
    destruct (m - k) as [|[|[|[|[|d]]]]]; try discriminate Hdm. lia. }
  rewrite (take_succ _ _ _ _ Hdm).
  set (middle := Py.take (m - k - 5) rest).
  assert (Htake : Py.take (m - k) (Py.drop k response_text)
                  = "rule " +:+ middle).
  { rewrite Hrest. replace (m - k) with (5 + (m - k - 5)) by lia.
    reflexivity. }
  rewrite Htake.
  assert (Hshape : ("rule " +:+ middle) +:+ String "}" EmptyString
                   = "rule " +:+ middle +:+ "}").
  { apply append_assoc. }
  rewrite Hshape.
  exists (Py.take k response_text), middle,
    (Py.drop (S m) response_text).
  split.
  { rewrite <- Hshape, <- Htake, <- (take_succ _ _ _ _ Hdm).
    replace (S m) with (k + S (m - k)) by lia.
    rewrite drop_add, take_drop, take_drop. reflexivity. }
  split.
  { change ("rule " +:+ middle +:+ "}")
      with (String "r" ("ule " +:+ middle +:+ "}")).
    rewrite <- (append_assoc "ule " middle "}").
    apply strip_keeps; reflexivity. }
  split.
  { rewrite take_length; [lia|].
    pose proof (drop_nonempty_lt k response_text "r" _ Hrest). lia. }
  split.
  { intros k' Hk'. apply Hfirst.
    rewrite take_length in Hk'; [exact Hk'|].
    pose proof (drop_nonempty_lt k response_text "r" _ Hrest). lia. }
  apply no_prefix_no_contains. intros d Hd.
  rewrite <- drop_add. rewrite drop_length in Hd.
  apply Hlast; [lia|].
  pose proof (drop_nonempty_lt m response_text _ _ Hrest'). lia.
Qed.

Lemma extract_yara_rule_span_witness :
  exists before middle after,
    "Sure! rule a { condition: true } Hope it helps."
    = before +:+ ("rule " +:+ middle +:+ "}") +:+ after
    /\ extract_yara_rule "Sure! rule a { condition: true } Hope it helps."
       = "rule " +:+ middle +:+ "}".
Proof.
  destruct (proj2 (proj2 (extract_yara_rule_span
                            "Sure! rule a { condition: true } Hope it helps.")))
    as (before & middle & after & Htext & Hrule & _).
  - vm_compute. discriminate.
  - vm_compute. discriminate.
  - vm_compute. discriminate.
  - exists before, middle, after. split; [exact Htext | exact Hrule].
Defined.


(** ** The code fence of [generate_regex_for_cluster] *)

Definition first_solid (r : string) : bool :=
  match r with
  | EmptyString => false
  | String c _ => negb (Py.isspace c)
  end.

Fixpoint last_solid (r : string) : bool :=
  match r with
  | EmptyString => false
  | String c EmptyString => negb (Py.isspace c)
  | String _ r' => last_solid r'
  end.

Definition fenced (tag pattern : string) : string :=
  "```" +:+ tag +:+ nl +:+ pattern +:+ nl +:+ "```".

Lemma last_solid_append (a b : string) :
  b <> EmptyString -> last_solid (a +:+ b) = last_solid b.
Proof.
  intros Hb. induction a as [|c a IH]; [reflexivity|].
  rewrite append_cons. cbn [last_solid].
  destruct (a +:+ b) eqn:E; [|exact IH].
  destruct a;
    [change (EmptyString +:+ b) with b in E; congruence
    | rewrite append_cons in E; discriminate E].
Qed.

Lemma rstrip_solid (r : string) : last_solid r = true -> Py.rstrip r = r.
Proof.
  induction r as [|c r IH]; [discriminate|]. intros H.
  cbn [Py.rstrip]. destruct r as [|d r].
  - cbn [last_solid] in H. apply negb_true_iff in H.
    cbn [Py.rstrip]. rewrite H. reflexivity.
  - cbn [last_solid] in H. rewrite (IH H). cbn [String.eqb].
    rewrite andb_false_r. reflexivity.
Qed.

Lemma strip_solid (r : string) :
  first_solid r = true -> last_solid r = true -> Py.strip r = r.
Proof.
  intros Hf Hl. unfold Py.strip. destruct r as [|c r]; [discriminate|].
  cbn [first_solid] in Hf. apply negb_true_iff in Hf.
  cbn [Py.lstrip]. rewrite Hf. apply rstrip_solid. exact Hl.
Qed.

Lemma contains_cons_false (sub : string) (c : ascii) (s : string) :
  Py.contains sub (String c s) = false ->
  String.prefix sub (String c s) = false /\ Py.contains sub s = false.
Proof.
  rewrite contains_unfold. intros H. apply orb_false_iff in H. exact H.
Qed.

Lemma fence_tail_space (c : ascii) (t : string) :
  Py.isspace c = true -> Re.fence_tail (String c t) = Re.fence_tail t.
Proof.
  intros Hc. unfold Re.fence_tail. cbn [Re.span]. rewrite Hc.
  destruct (Re.span Py.isspace t). reflexivity.
Qed.

Lemma fence_tail_solid (r tail : string) :
  last_solid r = true -> Py.contains "`" r = false ->
  Re.fence_tail (r +:+ tail) = false.
Proof.
  induction r as [|c r IH]; [discriminate|]. intros Hl Hq.
  apply contains_cons_false in Hq. destruct Hq as [Hp Hq].
  rewrite append_cons. destruct (Py.isspace c) eqn:Hc.
  - rewrite fence_tail_space by exact Hc. apply IH; [|exact Hq].
    destruct r; [cbn [last_solid] in Hl; rewrite Hc in Hl; discriminate|].
    exact Hl.
  - unfold Re.fence_tail. cbn [Re.span]. rewrite Hc.
    cbn [String.prefix] in *.
    destruct (ascii_dec "`" c);
      [destruct r; cbn in Hp; discriminate Hp | reflexivity].
Qed.

Lemma lazy_body_solid (r : string) :
  last_solid r = true -> Py.contains "`" r = false ->
  Re.lazy_body (r +:+ nl +:+ "```") = Some r.
Proof.
  induction r as [|c r IH]; [discriminate|]. intros Hl Hq.
  apply contains_cons_false in Hq. destruct Hq as [_ Hq].
  rewrite append_cons. cbn [Re.lazy_body].
  destruct r as [|d r].
  - reflexivity.
  - cbn [last_solid] in Hl.
    rewrite (fence_tail_solid (String d r) _ Hl Hq).
    rewrite (IH Hl Hq). reflexivity.
Qed.

Lemma search_head {A} (m : string -> option A) (s : string) (a : A) :
  m s = Some a -> Re.search m s = Some a.
Proof. intros H. destruct s; cbn [Re.search]; rewrite H; reflexivity. Qed.

Lemma fenced_reply (pattern : string) :
  first_solid pattern = true ->
  last_solid pattern = true ->
  Py.contains "`" pattern = false ->
  regex_of_reply (Choices (fenced "regex" pattern)) = Some pattern
  /\ regex_of_reply (Choices (fenced EmptyString pattern)) = Some pattern.
Proof.
  intros Hf Hl Hq.
  assert (Hbody : Re.ws_backtrack (nl +:+ pattern +:+ nl +:+ "```")
                  = Some pattern).
  { change (nl +:+ pattern +:+ nl +:+ "```")
      with (String Py.newline (pattern +:+ nl +:+ "```")).
    cbn [Re.ws_backtrack].
    change (Py.isspace Py.newline) with true. cbv iota.
    destruct pattern as [|c r]; [discriminate|].
    rewrite append_cons. cbn [Re.ws_backtrack].
    cbn [first_solid] in Hf. apply negb_true_iff in Hf. rewrite Hf.
    rewrite <- append_cons. rewrite (lazy_body_solid _ Hl Hq).
    reflexivity. }
  assert (Hstrip : forall tag,
             first_solid ("```" +:+ tag) = true ->
             Py.strip (fenced tag pattern) = fenced tag pattern).
  { intros tag _. apply strip_solid; [reflexivity|].
    unfold fenced.
    rewrite <- !append_assoc. rewrite last_solid_append; [reflexivity|].
    discriminate. }
  split.
  { unfold regex_of_reply. rewrite Hstrip by reflexivity.
    rewrite (search_head _ _ pattern).
    - rewrite (strip_solid _ Hf Hl). reflexivity.
    - unfold fenced, Re.code_fence.
      change (String.prefix "```" ("```" +:+ "regex" +:+ nl +:+ pattern
                                     +:+ nl +:+ "```")) with true.
      cbv iota.
      change (Py.drop 3 ("```" +:+ "regex" +:+ nl +:+ pattern
                           +:+ nl +:+ "```"))
        with ("regex" +:+ nl +:+ pattern +:+ nl +:+ "```").
      change (String.prefix "regex" ("regex" +:+ nl +:+ pattern
                                       +:+ nl +:+ "```")) with true.
      cbv iota.
      change (Py.drop 5 ("regex" +:+ nl +:+ pattern +:+ nl +:+ "```"))
        with (nl +:+ pattern +:+ nl +:+ "```").
      rewrite Hbody. reflexivity. }
  unfold regex_of_reply. rewrite Hstrip by reflexivity.
  rewrite (search_head _ _ pattern).
  - rewrite (strip_solid _ Hf Hl). reflexivity.
  - unfold fenced, Re.code_fence.
    change (String.prefix "```" ("```" +:+ EmptyString +:+ nl +:+ pattern
                                   +:+ nl +:+ "```")) with true.
    cbv iota.
    change (Py.drop 3 ("```" +:+ EmptyString +:+ nl +:+ pattern
                         +:+ nl +:+ "```"))
      with (nl +:+ pattern +:+ nl +:+ "```").
    change (String.prefix "regex" (nl +:+ pattern +:+ nl +:+ "```"))
      with false.
    cbv iota. exact Hbody.
Qed.

(** X4: [generate_regex_for_cluster] never raises: it makes one request and
    changes no file.  A reply that is a fenced pattern, with or without
    the [regex] tag, gives back the pattern, when the pattern neither
    begins nor ends with white space and holds no backquote.  A reply
    without choices, and a failure of the oracle, give [None]. *)
Theorem generate_regex_for_cluster_reads_fence
    (chat : nat -> string -> chat_reply) (cluster : list string)
    (st : state) (pattern : string) :
  first_solid pattern = true ->
  last_solid pattern = true ->
  Py.contains "`" pattern = false ->
  let reply := chat (asked st) (regex_prompt cluster) in
  let st' := advance [Ask (regex_prompt cluster)] 1 (fs st) st in
  (reply = Choices (fenced "regex" pattern)
   \/ reply = Choices (fenced EmptyString pattern) ->
   generate_regex_for_cluster chat cluster st = Ok (Some pattern) st')
  /\ (reply = NoChoices \/ reply = ChatError ->
      generate_regex_for_cluster chat cluster st = Ok None st')
  /\ exists regex, generate_regex_for_cluster chat cluster st = Ok regex st'.
Proof.
  intros Hf Hl Hq reply st'.
  destruct (fenced_reply pattern Hf Hl Hq) as [H1 H2].
  rewrite generate_regex_for_cluster_run. fold reply st'.
  split; [|split].
  - intros [-> | ->]; [rewrite H1 | rewrite H2]; reflexivity.
  - intros [-> | ->]; reflexivity.
  - eexists. reflexivity.
Qed.

Lemma generate_regex_for_cluster_reads_fence_witness :
  generate_regex_for_cluster Corpus.chat_regex ["a"; "b"] (Sample.start [])
  = Ok (Some "^[A-Z]{28}indicator$")
       (advance [Ask (regex_prompt ["a"; "b"])] 1 (Sample.fs_of [])
          (Sample.start [])).
Proof.
  apply (proj1 (generate_regex_for_cluster_reads_fence Corpus.chat_regex
                  ["a"; "b"] (Sample.start []) "^[A-Z]{28}indicator$"
                  eq_refl eq_refl eq_refl)).
  left. reflexivity.
Defined.

(** ** What a repair may write *)

Lemma usable_fix_vetted (chat : nat -> string -> chat_reply) (n : nat)
    (content err fixed : string) :
  usable_fix chat n content err = Some fixed ->
  fixed <> EmptyString
  /\ is_unacceptable_yara_rule_response fixed = false
  /\ exists reply,
       chat n (fix_prompt content err) = Choices reply
       /\ fixed = extract_yara_rule (Py.strip reply).
Proof.
  unfold usable_fix, proposed_fix.
  destruct (chat n (fix_prompt content err)) as [reply| |];
    try discriminate.
  destruct (Py.truthy (Some (extract_yara_rule (Py.strip reply)))) eqn:Ht;
    [|discriminate].
  destruct (is_unacceptable_yara_rule_response
              (extract_yara_rule (Py.strip reply))) eqn:Hu; [discriminate|].
  cbn [andb negb]. intros H. injection H as <-.
  split.
  { intros E. rewrite E in Ht. discriminate Ht. }
  split; [exact Hu|]. exists reply. auto.
Qed.

(** X5: on a rule of the root, [check_rule_syntax] returns [True] without a
    request and without touching a file when the validator accepts the
    rule.  Otherwise the rule keeps its text, or it gets the text cut out
    of the reply of the oracle, and then that text is not empty, holds no
    marker of an unacceptable response, and was accepted by the validator;
    no other file of the root, no sub-folder and no temporary file is
    changed. *)
Theorem check_rule_syntax_writes_only_vetted_fix
    (yara : option file -> Z * string) (chat : nat -> string -> chat_reply)
    (fuel : nat) (name content : string) (attempt_fix : bool) (st : state) :
  2 <= fuel ->
  root (fs st) !! name = Some (Text content) ->
  exists ok st',
    check_rule_syntax yara chat fuel (InRoot name) attempt_fix st = Ok ok st'
    /\ (fst (yara (Some (Text content))) = 0%Z ->
        ok = true
        /\ st' = advance [Validate (InRoot name) 0] 0 (fs st) st)
    /\ (fs st' = fs st
        \/ exists fixed reply,
             fs st' = fs_write (InRoot name) (Text fixed) (fs st)
             /\ ok = true
             /\ attempt_fix = true
             /\ fixed <> EmptyString
             /\ is_unacceptable_yara_rule_response fixed = false
             /\ fst (yara (Some (Text fixed))) = 0%Z
             /\ chat (asked st)
                  (fix_prompt content (snd (yara (Some (Text content)))))
                = Choices reply
             /\ fixed = extract_yara_rule (Py.strip reply)).
Proof.
  intros Hfuel Hf.
  rewrite (check_rule_syntax_root yara chat fuel name content attempt_fix st
             Hfuel Hf).
  eexists _, _. split; [reflexivity|].
  unfold syntax_outcome.
  set (r := yara (Some (Text content))).
  destruct (fst r =? 0)%Z eqn:Hrc.
  { apply Z.eqb_eq in Hrc. cbn [fst snd]. split; [|left; reflexivity].
    intros _. rewrite Hrc. auto. }
  apply Z.eqb_neq in Hrc.
  split; [intros H; congruence|].
  destruct attempt_fix; cbn [negb fst snd]; [|left; reflexivity].
  destruct (usable_fix chat (asked st) content (snd r)) as [fixed|] eqn:Hfix;
    [|left; reflexivity].
  destruct (usable_fix_vetted _ _ _ _ _ Hfix) as (Hne & Hok & reply & Hr & E).
  destruct (fst (yara (Some (Text fixed))) =? 0)%Z eqn:Hrc2;
    cbn [fst snd advance fs]; [|left; reflexivity].
  apply Z.eqb_eq in Hrc2. right. exists fixed, reply.
  repeat split; auto.
Qed.

Lemma check_rule_syntax_writes_only_vetted_fix_witness :
  exists ok st',
    check_rule_syntax Sample.yara Sample.chat_fixing 2 (InRoot "a.yar") true
      (Sample.start [("a.yar", Text Sample.broken_rule)])
    = Ok ok st'
    /\ (fs st' = Sample.fs_of [("a.yar", Text Sample.broken_rule)]
        \/ exists fixed,
             fs st' = fs_write (InRoot "a.yar") (Text fixed)
                        (Sample.fs_of [("a.yar", Text Sample.broken_rule)])
             /\ is_unacceptable_yara_rule_response fixed = false
             /\ fst (Sample.yara (Some (Text fixed))) = 0%Z).
Proof.
  destruct (check_rule_syntax_writes_only_vetted_fix Sample.yara
              Sample.chat_fixing 2 "a.yar" Sample.broken_rule true
              (Sample.start [("a.yar", Text Sample.broken_rule)]))
    as (ok & st' & Hrun & _ & Hfs).
  - lia.
  - reflexivity.
  - exists ok, st'. split; [exact Hrun|].
    destruct Hfs as [Hfs|(fixed & reply & Hfs & _ & _ & _ & Hscreen & Hvalid
                          & _)].
    + left. exact Hfs.
    + right. exists fixed. split; [exact Hfs|].
      split; [exact Hscreen | exact Hvalid].
Defined.


(** ** What a routing pass keeps, creates and costs *)

Definition rule_names (listing : list string) : list string :=
  List.filter (fun n => Py.endswith n ".yar") listing.

(** What a pass keeps and costs: [run] is what the pass returned.  A
    routed rule is in the sub-folder printed for it, except the one at
    which the pass stopped because the name of that sub-folder is a file
    of the root: that rule is still in the root. *)
Record pass_effects (cfg : config) (silent_mode : bool)
    (listing : list string) (st : state) (run : result unit)
    (events : list event) : Prop := {
  pe_trace : trace (final run) = events ++ trace st;
  pe_dirs : dirs (fs st) ⊆ dirs (fs (final run));
  pe_folders : forall k,
    is_Some (folders (fs st) !! k) ->
    is_Some (folders (fs (final run)) !! k);
  pe_conserved : forall n,
    is_Some (root (fs st) !! n) ->
    is_Some (root (fs (final run)) !! n)
    \/ exists d, is_Some (folders (fs (final run)) !! (d, n));
  pe_routed : silent_mode = false ->
    forall n d, In (n, d) (routes events) ->
      (d ∈ dirs (fs (final run))
       /\ is_Some (folders (fs (final run)) !! (d, n)))
      \/ (run = Raised NotADirectoryError (final run)
          /\ is_Some (root (fs (final run)) !! d)
          /\ is_Some (root (fs (final run)) !! n)
          /\ exists older, routes events = (n, d) :: older);
  pe_requests : requests events <= length (rule_names listing);
  pe_validations : validations events <= 2 * length (rule_names listing);
  pe_routes : length (routes events) <= length (rule_names listing);
  pe_no_fix : FIX_BAD_RULES cfg = false ->
    requests events = 0
    /\ validations events <= length (rule_names listing);
  pe_read_only : silent_mode = true -> FIX_BAD_RULES cfg = false ->
    fs (final run) = fs st
}.

Lemma pass_effects_stay cfg sm listing st (run : result unit) :
  final run = st -> pass_effects cfg sm listing st run [].
Proof.
  intros H. subst st.
  split; cbn; try reflexivity; try tauto; try lia.
Qed.

Lemma pass_effects_refl cfg sm listing st :
  pass_effects cfg sm listing st (Ok tt st) [].
Proof. apply pass_effects_stay. reflexivity. Qed.

Lemma rule_names_app (a b : list string) :
  rule_names (a ++ b) = rule_names a ++ rule_names b.
Proof. apply List.filter_app. Qed.

Lemma pass_effects_trans cfg sm l1 l2 st st1 run e1 e2 :
  pass_effects cfg sm l1 st (Ok tt st1) e1 ->
  pass_effects cfg sm l2 st1 run e2 ->
  pass_effects cfg sm (l1 ++ l2) st run (e2 ++ e1).
Proof.
  intros F1 F2.
  pose proof (pe_trace _ _ _ _ _ _ F1) as T1.
  pose proof (pe_dirs _ _ _ _ _ _ F1) as D1.
  pose proof (pe_folders _ _ _ _ _ _ F1) as K1.
  pose proof (pe_conserved _ _ _ _ _ _ F1) as C1.
  pose proof (pe_routed _ _ _ _ _ _ F1) as R1.
  pose proof (pe_read_only _ _ _ _ _ _ F1) as O1.
  cbn [final] in T1, D1, K1, C1, R1, O1.
  pose proof (pe_requests _ _ _ _ _ _ F1).
  pose proof (pe_requests _ _ _ _ _ _ F2).
  pose proof (pe_validations _ _ _ _ _ _ F1).
  pose proof (pe_validations _ _ _ _ _ _ F2).
  pose proof (pe_routes _ _ _ _ _ _ F1).
  pose proof (pe_routes _ _ _ _ _ _ F2).
  pose proof (pe_dirs _ _ _ _ _ _ F2) as D2.
  split.
  - rewrite (pe_trace _ _ _ _ _ _ F2), T1. apply app_assoc.
  - intros x Hx. apply D2. apply D1. exact Hx.
  - intros k Hk. apply (pe_folders _ _ _ _ _ _ F2).
    apply K1. exact Hk.
  - intros n Hn. destruct (C1 n Hn) as [H'|[d H']].
    + apply (pe_conserved _ _ _ _ _ _ F2). exact H'.
    + right. exists d. apply (pe_folders _ _ _ _ _ _ F2). exact H'.
  - intros Hs n d Hin. rewrite routes_app in Hin.
    apply in_app_iff in Hin. destruct Hin as [H'|H'].
    + destruct (pe_routed _ _ _ _ _ _ F2 Hs n d H')
        as [Hp | (Hr & Hd & Hn & older & Ho)]; [left; exact Hp|].
      right. split; [exact Hr|]. split; [exact Hd|]. split; [exact Hn|].
      exists (older ++ routes e1). rewrite routes_app, Ho. reflexivity.
    + left. destruct (R1 Hs n d H') as [[Hd Hf] | (Hr & _)];
        [|discriminate].
      split.
      * apply D2. exact Hd.
      * apply (pe_folders _ _ _ _ _ _ F2). exact Hf.
  - rewrite rule_names_app, length_app, requests_app. lia.
  - rewrite rule_names_app, length_app, validations_app. lia.
  - rewrite rule_names_app, routes_app, !length_app. lia.
  - intros Hfix. rewrite rule_names_app, length_app, requests_app,
      validations_app.
    destruct (pe_no_fix _ _ _ _ _ _ F1 Hfix), (pe_no_fix _ _ _ _ _ _ F2 Hfix).
    lia.
  - intros Hs Hfix. rewrite (pe_read_only _ _ _ _ _ _ F2 Hs Hfix).
    apply (O1 Hs Hfix).
Qed.

Lemma pass_effects_skip cfg sm name rest st run events :
  pass_effects cfg sm [name] st run events ->
  pass_effects cfg sm (name :: rest) st run events.
Proof.
  intros F.
  assert (Hlen : length (rule_names [name])
                 <= length (rule_names (name :: rest))).
  { change (name :: rest) with ([name] ++ rest).
    rewrite rule_names_app, length_app. lia. }
  pose proof (pe_requests _ _ _ _ _ _ F).
  pose proof (pe_validations _ _ _ _ _ _ F).
  pose proof (pe_routes _ _ _ _ _ _ F).
  split; try lia.
  - exact (pe_trace _ _ _ _ _ _ F).
  - exact (pe_dirs _ _ _ _ _ _ F).
  - exact (pe_folders _ _ _ _ _ _ F).
  - exact (pe_conserved _ _ _ _ _ _ F).
  - exact (pe_routed _ _ _ _ _ _ F).
  - intros Hfix. destruct (pe_no_fix _ _ _ _ _ _ F Hfix). lia.
  - exact (pe_read_only _ _ _ _ _ _ F).
Qed.

Section Effects.
Variable yara : option file -> Z * string.
Variable chat : nat -> string -> chat_reply.
Variable cfg : config.

Lemma syntax_outcome_cost (name content : string) (st : state) :
  exists events fs',
    snd (syntax_outcome yara chat name content (FIX_BAD_RULES cfg) st)
    = advance events (requests events) fs' st
    /\ routes events = []
    /\ requests events <= 1
    /\ 1 <= validations events <= 2
    /\ (FIX_BAD_RULES cfg = false ->
        requests events = 0 /\ validations events = 1 /\ fs' = fs st)
    /\ (fs' = fs st
        \/ exists fixed, fs' = fs_write (InRoot name) (Text fixed) (fs st)).
Proof.
  unfold syntax_outcome.
  set (r := yara (Some (Text content))).
  destruct (fst r =? 0)%Z.
  { exists [Validate (InRoot name) (fst r)], (fs st).
    split; [reflexivity|]. cbn. repeat split; auto. }
  destruct (FIX_BAD_RULES cfg); cbn [negb].
  2: { exists [Validate (InRoot name) (fst r)], (fs st).
       split; [reflexivity|]. cbn. repeat split; auto. }
  set (asking := [Ask (fix_prompt content (snd r)); Read (InRoot name);
                  Validate (InRoot name) (fst r)]).
  destruct (usable_fix chat (asked st) content (snd r)) as [fixed|].
  2: { exists asking, (fs st). split; [reflexivity|]. cbn.
       repeat split; auto; discriminate. }
  set (t := InTemp (fresh (dom (temp (fs st))))).
  destruct (fst (yara (Some (Text fixed))) =? 0)%Z.
  - exists (Validate t (fst (yara (Some (Text fixed)))) :: asking),
      (fs_write (InRoot name) (Text fixed) (fs st)).
    split; [reflexivity|]. cbn.
    repeat split; auto; try discriminate. right. eauto.
  - exists (Validate t (fst (yara (Some (Text fixed)))) :: asking), (fs st).
    split; [reflexivity|]. cbn. repeat split; auto; discriminate.
Qed.

Lemma route_result_effects sm cm name dest (st : state) :
  Py.endswith name ".yar" = true ->
  is_Some (root (fs st) !! name) ->
  exists events,
    trace (route_to name dest cm sm st) = events ++ trace st
    /\ asked (route_to name dest cm sm st) = asked st
    /\ requests events = 0 /\ validations events = 0
    /\ length (routes events) <= 1
    /\ dirs (fs st) ⊆ dirs (fs (route_to name dest cm sm st))
    /\ (forall k, is_Some (folders (fs st) !! k) ->
        is_Some (folders (fs (route_to name dest cm sm st)) !! k))
    /\ (forall n, is_Some (root (fs st) !! n) ->
        is_Some (root (fs (route_to name dest cm sm st)) !! n)
        \/ exists d,
             is_Some (folders (fs (route_to name dest cm sm st)) !! (d, n)))
    /\ (sm = false -> forall n d, In (n, d) (routes events) ->
        (d ∈ dirs (fs (route_to name dest cm sm st))
         /\ is_Some (folders (fs (route_to name dest cm sm st)) !! (d, n)))
        \/ (route_result name dest cm sm st
            = Raised NotADirectoryError (route_to name dest cm sm st)
            /\ is_Some (root (fs (route_to name dest cm sm st)) !! d)
            /\ is_Some (root (fs (route_to name dest cm sm st)) !! n)
            /\ exists older, routes events = (n, d) :: older))
    /\ (sm = true -> fs (route_to name dest cm sm st) = fs st).
Proof.
  intros Hyar [f Hf]. destruct dest as [d|].
  2: { exists []. cbn. repeat split; auto; try lia; try tauto. }
  exists [Route name d]. unfold route_result, blocked, route_to, routed_fs.
  rewrite Hf. cbn [advance trace asked fs].
  split; [reflexivity|]. split; [reflexivity|].
  split; [reflexivity|]. split; [reflexivity|]. split; [cbn; lia|].
  destruct sm.
  { repeat split; auto; try discriminate. }
  cbn [negb andb].
  destruct (root (fs st) !! d) as [g|] eqn:Hg.
  { rewrite bool_decide_eq_true_2 by eauto.
    split; [reflexivity|]. split; [auto|]. split; [auto|].
    split; [|discriminate].
    intros _ n d' [H|[]]. inversion H; subst n d'. right.
    split; [reflexivity|]. split; [rewrite Hg; eauto|].
    split; [rewrite Hf; eauto|]. exists []. reflexivity. }
  destruct cm, (decide (d ∈ dirs (fs st))) as [Hd|Hd];
    rewrite ?(bool_decide_eq_true_2 _ Hd), ?(bool_decide_eq_false_2 _ Hd);
    cbn [fs_write fs_mkdir fs_remove root folders dirs].
  all: split; [intros x Hx; rewrite ?elem_of_union; auto|].
  all: split; [intros k Hk; rewrite lookup_insert; case_decide; eauto|].
  all: split;
    [intros n Hn;
     destruct (decide (n = name)) as [->|Hne];
     [right; exists d; rewrite lookup_insert_eq; eauto
     | left; rewrite ?lookup_delete_ne by congruence; exact Hn]|].
  all: split; [|discriminate].
  all: intros _ n d' [H|[]]; inversion H; subst; left;
    split; [rewrite ?elem_of_union, ?elem_of_singleton; auto
           | rewrite lookup_insert_eq; eauto].
Qed.

Lemma process_file_effects (fuel : nat) cm sm name (st : state) :
  2 <= fuel ->
  exists events,
    pass_effects cfg sm [name] st
      (process_file yara chat cfg fuel cm sm name st) events.
Proof.
  intros Hfuel.
  destruct (Py.endswith name ".yar") eqn:Hyar.
  2: { rewrite process_file_other by exact Hyar.
       exists []. apply pass_effects_refl. }
  destruct (root (fs st) !! name) as [[content|]|] eqn:Hf.
  2: { rewrite process_file_unreadable by assumption.
       exists []. apply pass_effects_stay. reflexivity. }
  2: { rewrite process_file_missing by assumption.
       exists []. apply pass_effects_stay. reflexivity. }
  rewrite (process_file_text yara chat cfg fuel cm sm name content st
             Hfuel Hyar Hf).
  unfold process_file_result.
  assert (Hnames : length (rule_names [name]) = 1).
  { unfold rule_names. cbn [List.filter]. rewrite Hyar. reflexivity. }
  set (st1 := advance [Read (InRoot name)] 0 (fs st) st).
  assert (H1 : is_Some (root (fs st1) !! name)) by (cbn; rewrite Hf; eauto).
  destruct (early_destination cfg content) as [folder|].
  - destruct (route_result_effects sm cm name (Some folder) st1 Hyar H1)
      as (e & Ht & Ha & Hq & Hv & Hr & Hd & Hfo & Hco & Hro & Hsi).
    exists (e ++ [Read (InRoot name)]).
    split; rewrite ?final_route_result;
      rewrite ?Hnames, ?requests_app, ?validations_app, ?routes_app,
             ?Hq, ?Hv; cbn [requests validations routes flat_map
                                List.filter length app]; auto; try lia.
    + rewrite Ht. unfold st1. cbn [advance trace]. rewrite <- app_assoc.
      reflexivity.
    + intros Hs n d Hin. rewrite app_nil_r in *. apply (Hro Hs n d Hin).
    + rewrite app_nil_r. exact Hr.
  - destruct (syntax_outcome_cost name content st1)
      as (evs & fs' & Hsnd & Hroutes & Hreq & Hval & Hnofix & Hfs).
    rewrite Hsnd.
    set (mid := advance evs (requests evs) fs' st1).
    assert (Hmid : is_Some (root (fs mid) !! name)).
    { cbn [mid advance fs]. destruct Hfs as [-> | (fixed & ->)];
        [exact H1|]. cbn [fs_write root]. rewrite lookup_insert_eq. eauto. }
    destruct (route_result_effects sm cm name
                (late_destination cfg content
                   (fst (syntax_outcome yara chat name content
                           (FIX_BAD_RULES cfg) st1))) mid Hyar Hmid)
      as (e & Ht & Ha & Hq & Hv & Hr & Hd & Hfo & Hco & Hro & Hsi).
    assert (Hroot_mid : forall n, is_Some (root (fs st) !! n) ->
                                  is_Some (root (fs mid) !! n)).
    { intros n Hn. cbn [mid advance fs].
      destruct Hfs as [-> | (fixed & ->)]; [exact Hn|].
      cbn [fs_write root]. rewrite lookup_insert. case_decide; eauto. }
    assert (Hfolders_mid : folders (fs mid) = folders (fs st)).
    { cbn [mid advance fs]. destruct Hfs as [-> | (fixed & ->)]; reflexivity. }
    assert (Hdirs_mid : dirs (fs mid) = dirs (fs st)).
    { cbn [mid advance fs]. destruct Hfs as [-> | (fixed & ->)]; reflexivity. }
    exists (e ++ evs ++ [Read (InRoot name)]).
    split; rewrite ?final_route_result;
      rewrite ?Hnames, ?requests_app, ?validations_app, ?routes_app,
             ?Hq, ?Hv, ?Hroutes;
      cbn [requests validations routes flat_map List.filter length app];
      try lia.
    + rewrite Ht. unfold mid, st1. cbn [advance trace].
      rewrite <- !app_assoc. reflexivity.
    + rewrite <- Hdirs_mid. exact Hd.
    + intros k Hk. apply Hfo. rewrite Hfolders_mid. exact Hk.
    + intros n Hn. apply Hco. apply Hroot_mid. exact Hn.
    + intros Hs n d Hin. rewrite app_nil_r in *.
      apply (Hro Hs n d Hin).
    + rewrite app_nil_r. exact Hr.
    + intros Hfix. destruct (Hnofix Hfix) as (? & ? & ?). lia.
    + intros Hs Hfix. rewrite (Hsi Hs).
      destruct (Hnofix Hfix) as (_ & _ & ->). reflexivity.
Qed.

Lemma process_files_effects (fuel : nat) cm sm listing (st : state) :
  2 <= fuel ->
  exists events,
    pass_effects cfg sm listing st
      (process_files yara chat cfg fuel cm sm listing st) events.
Proof.
  intros Hfuel. revert st.
  induction listing as [|name rest IH]; intros st.
  - exists []. apply pass_effects_refl.
  - cbn [process_files]. unfold bind.
    destruct (process_file_effects fuel cm sm name st Hfuel) as (e1 & F1).
    destruct (process_file yara chat cfg fuel cm sm name st) as [[] st1|e st1].
    + destruct (IH st1) as (e2 & F2).
      exists (e2 ++ e1).
      change (name :: rest) with ([name] ++ rest).
      eapply pass_effects_trans; eassumption.
    + exists e1. apply pass_effects_skip. exact F1.
Qed.

End Effects.

(** ** No rule is lost *)

(** X6: whatever the modes, and whether or not the pass is cut short:
    every file of the root is afterwards still in the root or in a
    sub-folder under its own name, and no file of a sub-folder and no
    sub-folder disappears.  Unless the mode is silent, every rule that
    the pass routed is in the sub-folder printed for it, which exists;
    the one exception is the rule at which the pass stopped, when the
    name printed for it is a file of the root: the pass made no
    sub-folder of that name and raised, and the rule is still in the
    root.  A routed rule whose sub-folder name was not a file of the root
    when the pass started is always placed. *)
Theorem process_files_loses_no_rule
    (yara : option file -> Z * string) (chat : nat -> string -> chat_reply)
    (cfg : config) (fuel : nat) (copy_mode silent_mode : bool)
    (listing : list string) (st : state) :
  2 <= fuel ->
  let run :=
    process_files yara chat cfg fuel copy_mode silent_mode listing st in
  let st' := final run in
  exists events,
    trace st' = events ++ trace st
    /\ (forall n, is_Some (root (fs st) !! n) ->
        is_Some (root (fs st') !! n)
        \/ exists d, is_Some (folders (fs st') !! (d, n)))
    /\ (forall k, is_Some (folders (fs st) !! k) ->
        is_Some (folders (fs st') !! k))
    /\ dirs (fs st) ⊆ dirs (fs st')
    /\ (silent_mode = false ->
        forall n d, In (n, d) (routes events) ->
          (d ∈ dirs (fs st') /\ is_Some (folders (fs st') !! (d, n)))
          \/ (run = Raised NotADirectoryError st'
              /\ is_Some (root (fs st') !! d)
              /\ is_Some (root (fs st') !! n)
              /\ exists older, routes events = (n, d) :: older))
    /\ (silent_mode = false ->
        forall n d, In (n, d) (routes events) ->
          root (fs st) !! d = None ->
          d ∈ dirs (fs st') /\ is_Some (folders (fs st') !! (d, n))).
Proof.
  intros Hfuel run st'.
  destruct (process_files_effects yara chat cfg fuel copy_mode silent_mode
              listing st Hfuel) as (events & F).
  destruct (process_files_frame yara chat cfg fuel copy_mode silent_mode
              listing st Hfuel) as (events' & F').
  fold run in F, F'.
  exists events.
  split; [exact (pe_trace _ _ _ _ _ _ F)|].
  split; [exact (pe_conserved _ _ _ _ _ _ F)|].
  split; [exact (pe_folders _ _ _ _ _ _ F)|].
  split; [exact (pe_dirs _ _ _ _ _ _ F)|].
  split; [exact (pe_routed _ _ _ _ _ _ F)|].
  intros Hs n d Hin Hd.
  destruct (pe_routed _ _ _ _ _ _ F Hs n d Hin) as [Hp | (_ & Hfile & _)];
    [exact Hp|].
  apply (pf_root_shrinks _ _ _ _ _ _ F') in Hfile.
  rewrite Hd in Hfile. destruct (is_Some_None Hfile).
Qed.

Definition moved_run : state :=
  final (process_files Sample.yara Sample.chat_fixing default_config py_fuel
           false false ["a.yar"]
           (Sample.start [("a.yar", Text Sample.weak_rule)])).

Lemma process_files_loses_no_rule_witness :
  is_Some (root (fs moved_run) !! "a.yar")
  \/ exists d, is_Some (folders (fs moved_run) !! (d, "a.yar")).
Proof.
  destruct (process_files_loses_no_rule Sample.yara Sample.chat_fixing
              default_config py_fuel false false ["a.yar"]
              (Sample.start [("a.yar", Text Sample.weak_rule)]))
    as (events & _ & Hkeep & _).
  - unfold py_fuel. lia.
  - apply Hkeep. vm_compute. eauto.
Defined.

(** ** The cost of a routing pass *)

(** X7: a routing pass asks the oracle at most once and runs the validator at
    most twice per listed rule, and prints at most one decision per listed
    rule; the request counter moves by the number of requests.  With
    repair disabled it asks nothing and validates each rule at most
    once. *)
Theorem process_files_cost
    (yara : option file -> Z * string) (chat : nat -> string -> chat_reply)
    (cfg : config) (fuel : nat) (copy_mode silent_mode : bool)
    (listing : list string) (st : state) :
  2 <= fuel ->
  let st' :=
    final (process_files yara chat cfg fuel copy_mode silent_mode
             listing st) in
  exists events,
    trace st' = events ++ trace st
    /\ asked st' = requests events + asked st
    /\ requests events <= length (rule_names listing)
    /\ validations events <= 2 * length (rule_names listing)
    /\ length (routes events) <= length (rule_names listing)
    /\ (FIX_BAD_RULES cfg = false ->
        asked st' = asked st
        /\ validations events <= length (rule_names listing)).
Proof.
  intros Hfuel st'.
  destruct (process_files_effects yara chat cfg fuel copy_mode silent_mode
              listing st Hfuel) as (events & F).
  destruct (process_files_frame yara chat cfg fuel copy_mode silent_mode
              listing st Hfuel) as (events' & F').
  subst st'.
  assert (events' = events) as ->.
  { eapply trace_events_agree;
      [exact (pf_trace _ _ _ _ _ _ F') | exact (pe_trace _ _ _ _ _ _ F)]. }
  exists events.
  split; [exact (pe_trace _ _ _ _ _ _ F)|].
  split; [exact (pf_asked _ _ _ _ _ _ F')|].
  split; [exact (pe_requests _ _ _ _ _ _ F)|].
  split; [exact (pe_validations _ _ _ _ _ _ F)|].
  split; [exact (pe_routes _ _ _ _ _ _ F)|].
  intros Hfix. destruct (pe_no_fix _ _ _ _ _ _ F Hfix) as [Hz Hv].
  split; [|exact Hv]. rewrite (pf_asked _ _ _ _ _ _ F'), Hz. reflexivity.
Qed.

Lemma process_files_cost_witness :
  exists events,
    trace moved_run = events ++ [] /\ requests events <= 1.
Proof.
  destruct (process_files_cost Sample.yara Sample.chat_fixing
              default_config py_fuel false false ["a.yar"]
              (Sample.start [("a.yar", Text Sample.weak_rule)]))
    as (events & Htrace & _ & Hreq & _).
  - unfold py_fuel. lia.
  - exists events. split; [exact Htrace | exact Hreq].
Defined.

(** ** Silent mode *)

(** X8: in silent mode the routing pass creates no sub-folder, changes no file
    of a sub-folder and leaves the temporary directory as it was, and the
    root keeps exactly its entries; with repair disabled as well, the
    file system after the pass is the file system before it. *)
Theorem silent_pass_without_repair_is_read_only
    (yara : option file -> Z * string) (chat : nat -> string -> chat_reply)
    (cfg : config) (fuel : nat) (copy_mode : bool)
    (listing : list string) (st : state) :
  2 <= fuel ->
  let st' :=
    final (process_files yara chat cfg fuel copy_mode true listing st) in
  folders (fs st') = folders (fs st)
  /\ dirs (fs st') = dirs (fs st)
  /\ temp (fs st') = temp (fs st)
  /\ (forall n, is_Some (root (fs st') !! n) <-> is_Some (root (fs st) !! n))
  /\ (FIX_BAD_RULES cfg = false -> fs st' = fs st).
Proof.
  intros Hfuel st'.
  destruct (process_files_effects yara chat cfg fuel copy_mode true
              listing st Hfuel) as (events & F).
  destruct (process_files_frame yara chat cfg fuel copy_mode true
              listing st Hfuel) as (events' & F').
  subst st'.
  split. { apply map_eq. intros [d n]. apply (pf_folders _ _ _ _ _ _ F').
           left. reflexivity. }
  split; [exact (pf_dirs _ _ _ _ _ _ F' eq_refl)|].
  split; [exact (pf_temp _ _ _ _ _ _ F')|].
  split.
  { intros n. split; [apply (pf_root_shrinks _ _ _ _ _ _ F')|].
    apply (pf_kept _ _ _ _ _ _ F'). right. reflexivity. }
  exact (pe_read_only _ _ _ _ _ _ F eq_refl).
Qed.

Definition quiet (cfg : config) : config :=
  {| YARA_COMPLEXITY_THRESHOLD := YARA_COMPLEXITY_THRESHOLD cfg;
     OUTPUT_NON_CVE_FOLDER := OUTPUT_NON_CVE_FOLDER cfg;
     OUTPUT_WEAK_RULES_FOLDER := OUTPUT_WEAK_RULES_FOLDER cfg;
     OUTPUT_BROKEN_RULES_FOLDER := OUTPUT_BROKEN_RULES_FOLDER cfg;
     OUTPUT_CVE_YEAR_PREFIX := OUTPUT_CVE_YEAR_PREFIX cfg;
     COPY_MODE := COPY_MODE cfg;
     SILENT_MODE := SILENT_MODE cfg;
     FIX_BAD_RULES := false;
     YARA_AUTHOR_NAME := YARA_AUTHOR_NAME cfg;
     MIN_CLUSTER_SIZE := MIN_CLUSTER_SIZE cfg;
     SMALL_STRING_MAX_LEN := SMALL_STRING_MAX_LEN cfg;
     MEDIUM_STRING_MAX_LEN := MEDIUM_STRING_MAX_LEN cfg;
     MAX_REGEXES_PER_RULE := MAX_REGEXES_PER_RULE cfg;
     MAX_REGEX_LENGTH := MAX_REGEX_LENGTH cfg;
     MIN_REGEX_LENGTH := MIN_REGEX_LENGTH cfg;
     MAX_NESTED_QUANTIFIERS := MAX_NESTED_QUANTIFIERS cfg;
     MAX_ADVANCED_CONSTRUCTS := MAX_ADVANCED_CONSTRUCTS cfg;
     MAX_ESCAPED_CHARACTERS := MAX_ESCAPED_CHARACTERS cfg;
     MAX_CLASSES_ALTERNATION := MAX_CLASSES_ALTERNATION cfg |}.

Lemma silent_pass_without_repair_is_read_only_witness :
  fs (final (process_files Sample.yara Sample.chat_fixing
               (quiet default_config) py_fuel true true ["a.yar"]
               (Sample.start [("a.yar", Text Sample.broken_rule)])))
  = Sample.fs_of [("a.yar", Text Sample.broken_rule)].
Proof.
  apply (silent_pass_without_repair_is_read_only Sample.yara
           Sample.chat_fixing (quiet default_config) py_fuel true ["a.yar"]
           (Sample.start [("a.yar", Text Sample.broken_rule)])).
  - unfold py_fuel. lia.
  - reflexivity.
Defined.

(** ** When a routing pass completes *)

(** The names of the sub-folders that a routing pass may print. *)
Definition is_bucket (cfg : config) (d : string) : Prop :=
  d = OUTPUT_WEAK_RULES_FOLDER cfg
  \/ d = OUTPUT_NON_CVE_FOLDER cfg
  \/ d = OUTPUT_BROKEN_RULES_FOLDER cfg
  \/ exists year, d = OUTPUT_CVE_YEAR_PREFIX cfg +:+ year.

Section Completion.
Variable yara : option file -> Z * string.
Variable chat : nat -> string -> chat_reply.
Variable cfg : config.

Lemma early_destination_bucket (content d : string) :
  early_destination cfg content = Some d -> is_bucket cfg d.
Proof.
  unfold early_destination, is_bucket.
  destruct (below_threshold cfg content); [intros [= <-]; auto|].
  destruct (has_weak_indicator content); [intros [= <-]; auto|].
  destruct (lacks_cve content); [intros [= <-]; auto | discriminate].
Qed.

Lemma late_destination_bucket (content : string) (valid : bool) (d : string) :
  late_destination cfg content valid = Some d -> is_bucket cfg d.
Proof.
  unfold late_destination, is_bucket.
  destruct (negb valid); [intros [= <-]; auto|].
  destruct (Re.search Re.cve_token content) as [year|];
    [intros [= <-]; eauto 6 | discriminate].
Qed.

Lemma route_result_raises name d cm sm (st : state) :
  match route_result name (Some d) cm sm st with
  | Ok _ _ => sm = true \/ root (fs st) !! d = None
  | Raised e st' =>
      e = NotADirectoryError /\ sm = false
      /\ is_Some (root (fs st) !! d)
      /\ fs st' = fs st
      /\ trace st' = Route name d :: trace st
  end.
Proof.
  unfold route_result, blocked.
  destruct sm; cbn [negb andb]; [auto|].
  destruct (root (fs st) !! d) as [g|] eqn:Hg.
  - rewrite bool_decide_eq_true_2 by eauto.
    split; [reflexivity|]. split; [reflexivity|]. split; [eauto|].
    unfold route_to, routed_fs. cbn [advance fs trace].
    split; [|reflexivity].
    destruct (root (fs st) !! name); [rewrite Hg|]; reflexivity.
  - rewrite bool_decide_eq_false_2 by apply is_Some_None. auto.
Qed.

Lemma process_file_result_raises cm sm name content (st : state) :
  root (fs st) !! name = Some (Text content) ->
  match process_file_result yara chat cfg cm sm name content st with
  | Ok _ _ => True
  | Raised e st' =>
      e = NotADirectoryError /\ sm = false
      /\ exists d older,
           is_bucket cfg d
           /\ is_Some (root (fs st) !! d)
           /\ is_Some (root (fs st') !! d)
           /\ is_Some (root (fs st') !! name)
           /\ routes (trace st') = (name, d) :: older
  end.
Proof.
  intros Hf. unfold process_file_result.
  set (st1 := advance [Read (InRoot name)] 0 (fs st) st).
  destruct (early_destination cfg content) as [d|] eqn:Eearly.
  - pose proof (route_result_raises name d cm sm st1) as Hr.
    destruct (route_result name (Some d) cm sm st1) as [u st'|e st'];
      [exact I|].
    destruct Hr as (-> & -> & Hd & Hfs & Htr).
    split; [reflexivity|]. split; [reflexivity|].
    exists d, (routes (trace st1)).
    split; [exact (early_destination_bucket content d Eearly)|].
    split; [exact Hd|]. rewrite Hfs.
    split; [exact Hd|]. split; [cbn; rewrite Hf; eauto|].
    rewrite Htr. reflexivity.
  - pose proof (syntax_outcome_keeps_file yara chat name content
                  (FIX_BAD_RULES cfg) st1 Hf) as Hkeep.
    destruct (syntax_outcome_shape yara chat name content (FIX_BAD_RULES cfg)
                st1) as (evs & fs' & Hsnd & _ & _ & _ & Hfs).
    set (o := syntax_outcome yara chat name content (FIX_BAD_RULES cfg) st1)
      in *.
    destruct (late_destination cfg content (fst o)) as [d|] eqn:Elate;
      [|exact I].
    pose proof (route_result_raises name d cm sm (snd o)) as Hr.
    destruct (route_result name (Some d) cm sm (snd o)) as [u st'|e st'];
      [exact I|].
    destruct Hr as (-> & -> & Hd & Hfs' & Htr).
    split; [reflexivity|]. split; [reflexivity|].
    exists d, (routes (trace (snd o))).
    split; [exact (late_destination_bucket content (fst o) d Elate)|].
    assert (Hd0 : is_Some (root (fs st) !! d)).
    { rewrite Hsnd in Hd. cbn [advance fs] in Hd.
      destruct Hfs as [-> | (fixed & -> & _)]; [exact Hd|].
      cbn [fs_write root] in Hd. rewrite lookup_insert in Hd.
      destruct (decide (name = d)) as [<-|Hne];
        [rewrite Hf; eauto | exact Hd]. }
    split; [exact Hd0|]. rewrite Hfs'.
    split; [exact Hd|]. split; [exact Hkeep|].
    rewrite Htr. reflexivity.
Qed.

Lemma process_file_raises (fuel : nat) cm sm name (st : state) :
  2 <= fuel ->
  match process_file yara chat cfg fuel cm sm name st with
  | Ok _ _ => Py.endswith name ".yar" = true ->
              exists content, root (fs st) !! name = Some (Text content)
  | Raised e st' =>
      Py.endswith name ".yar" = true
      /\ ((e = UnicodeDecodeError
           /\ root (fs st') !! name = Some Undecodable)
          \/ (e = FileNotFoundError
              /\ root (fs st') !! name = None /\ name ∉ dirs (fs st'))
          \/ (e = IsADirectoryError
              /\ root (fs st') !! name = None /\ name ∈ dirs (fs st'))
          \/ (e = NotADirectoryError /\ sm = false
              /\ exists d older,
                   is_bucket cfg d
                   /\ is_Some (root (fs st) !! d)
                   /\ is_Some (root (fs st') !! d)
                   /\ is_Some (root (fs st') !! name)
                   /\ routes (trace st') = (name, d) :: older))
  end.
Proof.
  intros Hfuel.
  destruct (Py.endswith name ".yar") eqn:Hyar.
  2: { rewrite process_file_other by exact Hyar. discriminate. }
  destruct (root (fs st) !! name) as [[content|]|] eqn:Hf.
  - rewrite (process_file_text yara chat cfg fuel cm sm name content st
               Hfuel Hyar Hf).
    pose proof (process_file_result_raises cm sm name content st Hf) as Hr.
    destruct (process_file_result yara chat cfg cm sm name content st)
      as [u st'|e st']; [eauto|].
    split; [reflexivity|]. right. right. right. exact Hr.
  - rewrite process_file_unreadable by assumption. auto.
  - rewrite process_file_missing by assumption.
    split; [reflexivity|]. right.
    destruct (decide (name ∈ dirs (fs st))) as [Hd|Hd].
    + rewrite bool_decide_eq_true_2 by exact Hd. right. left. auto.
    + rewrite bool_decide_eq_false_2 by exact Hd. left. auto.
Qed.

Lemma process_file_completes (fuel : nat) cm sm name content (st : state) :
  2 <= fuel ->
  Py.endswith name ".yar" = true ->
  root (fs st) !! name = Some (Text content) ->
  sm = true \/ (forall d, is_bucket cfg d -> root (fs st) !! d = None) ->
  exists st1, process_file yara chat cfg fuel cm sm name st = Ok tt st1.
Proof.
  intros Hfuel Hyar Hf Hfree.
  rewrite (process_file_text yara chat cfg fuel cm sm name content st
             Hfuel Hyar Hf).
  pose proof (process_file_result_raises cm sm name content st Hf) as Hr.
  destruct (process_file_result yara chat cfg cm sm name content st)
    as [[] st'|e st']; [eauto|].
  exfalso. destruct Hr as (_ & Hs & d & older & Hb & Hd & _).
  destruct Hfree as [Hsm | Hfree]; [congruence|].
  rewrite (Hfree d Hb) in Hd. exact (is_Some_None Hd).
Qed.

End Completion.

(** A rule that goes to the weak bucket, in a root where a file has the
    name of that bucket: the decision is printed, no folder is made, and
    the copy or the rename raises. *)
Definition bucket_name_taken : state :=
  Sample.start [("a.yar", Text Sample.weak_rule);
                ("weak-rules", Text "not a folder")].

Example routing_stops_at_a_file_named_as_the_bucket :
  forall copy_mode,
    process_files Sample.yara Sample.chat_fixing default_config py_fuel
      copy_mode false ["a.yar"] bucket_name_taken
    = Raised NotADirectoryError
        {| fs := fs bucket_name_taken;
           trace := [Route "a.yar" "weak-rules"; Read (InRoot "a.yar")];
           asked := 0 |}.
Proof. intros []; vm_compute; reflexivity. Qed.

(** A sub-folder whose name ends in [.yar] is listed and opened as a
    rule. *)
Definition folder_named_as_a_rule : state :=
  {| fs := {| root := ∅; folders := ∅; dirs := {["sub.yar"]}; temp := ∅ |};
     trace := []; asked := 0 |}.

Example routing_stops_at_a_listed_folder :
  process_files Sample.yara Sample.chat_fixing default_config py_fuel
    true true ["sub.yar"] folder_named_as_a_rule
  = Raised IsADirectoryError folder_named_as_a_rule.
Proof. vm_compute. reflexivity. Qed.

(** X9: the routing pass raises only at a listed rule, in one of four
    ways: the rule does not decode; it is missing when its turn comes;
    the listed name is a sub-folder; or, when the mode is not silent, the
    name of the sub-folder printed for the rule is a file of the root, in
    which case the decision is the last one printed and the rule is still
    in the root.  A failure of the oracle never leaves the pass.  Over a
    listing without repetition whose rules are all readable the pass
    completes, provided the mode is silent or no name that the pass may
    print for a sub-folder is a file of the root. *)
Theorem process_files_raises_only_on_unreadable_rules
    (yara : option file -> Z * string) (chat : nat -> string -> chat_reply)
    (cfg : config) (fuel : nat) (copy_mode silent_mode : bool)
    (listing : list string) (st : state) :
  2 <= fuel ->
  (forall e st',
     process_files yara chat cfg fuel copy_mode silent_mode listing st
     = Raised e st' ->
     exists name,
       In name listing /\ Py.endswith name ".yar" = true
       /\ ((e = UnicodeDecodeError
            /\ root (fs st') !! name = Some Undecodable)
           \/ (e = FileNotFoundError
               /\ root (fs st') !! name = None /\ name ∉ dirs (fs st'))
           \/ (e = IsADirectoryError
               /\ root (fs st') !! name = None /\ name ∈ dirs (fs st'))
           \/ (e = NotADirectoryError /\ silent_mode = false
               /\ exists d older,
                    is_bucket cfg d
                    /\ is_Some (root (fs st) !! d)
                    /\ is_Some (root (fs st') !! d)
                    /\ is_Some (root (fs st') !! name)
                    /\ routes (trace st') = (name, d) :: older)))
  /\ (List.NoDup listing ->
      (forall name, In name listing -> Py.endswith name ".yar" = true ->
                    exists content, root (fs st) !! name = Some (Text content)) ->
      silent_mode = true
      \/ (forall d, is_bucket cfg d -> root (fs st) !! d = None) ->
      exists st',
        process_files yara chat cfg fuel copy_mode silent_mode listing st
        = Ok tt st').
Proof.
  intros Hfuel. split.
  - revert st. induction listing as [|name rest IH]; intros st e st' Hrun.
    + discriminate Hrun.
    + cbn [process_files] in Hrun. unfold bind in Hrun.
      pose proof (process_file_raises yara chat cfg fuel copy_mode
                    silent_mode name st Hfuel) as Hone.
      destruct (process_file_frame yara chat cfg fuel copy_mode
                  silent_mode name st Hfuel) as (e1 & F1).
      destruct (process_file yara chat cfg fuel copy_mode silent_mode
                  name st) as [[] st1|e1' st1].
      * destruct (IH st1 e st' Hrun) as (n & Hn & Hy & H').
        exists n. split; [right; exact Hn|]. split; [exact Hy|].
        destruct H' as [H'|[H'|[H'|H']]]; auto.
        right. right. right.
        destruct H' as (He & Hs & d & older & Hb & Hd & Hrest).
        split; [exact He|]. split; [exact Hs|].
        exists d, older. split; [exact Hb|]. split; [|exact Hrest].
        apply (pf_root_shrinks _ _ _ _ _ _ F1). exact Hd.
      * injection Hrun as <- <-. destruct Hone as (Hyar & Hcase).
        exists name. split; [left; reflexivity|]. auto.
  - revert st. induction listing as [|name rest IH];
      intros st Hnd Hall Hfree.
    + eexists. reflexivity.
    + cbn [process_files]. unfold bind.
      destruct (process_file_frame yara chat cfg fuel copy_mode
                  silent_mode name st Hfuel) as (e1 & F1).
      destruct (Py.endswith name ".yar") eqn:Hyar.
      * destruct (Hall name (or_introl eq_refl) Hyar) as [content Hc].
        destruct (process_file_completes yara chat cfg fuel copy_mode
                    silent_mode name content st Hfuel Hyar Hc Hfree)
          as [st1 Hrun].
        rewrite Hrun in *. cbn [final] in F1.
        apply IH; [inversion Hnd; assumption| |].
        -- intros m Hm Hy.
           destruct (Hall m (or_intror Hm) Hy) as [c Hm'].
           exists c. rewrite <- Hm'.
           apply (pf_root_other _ _ _ _ _ _ F1). intros [[<-|[]] _].
           inversion Hnd. contradiction.
        -- destruct Hfree as [Hs | Hfree]; [left; exact Hs|]. right.
           intros d Hb. specialize (Hfree d Hb).
           destruct (root (fs st1) !! d) eqn:E; [|reflexivity].
           assert (is_Some (root (fs st) !! d)) as Hsome
             by (apply (pf_root_shrinks _ _ _ _ _ _ F1); cbn [final]; eauto).
           rewrite Hfree in Hsome. destruct (is_Some_None Hsome).
      * rewrite process_file_other in * by exact Hyar.
        apply IH; [inversion Hnd; assumption| |exact Hfree].
        intros m Hm Hy. apply Hall; [right; exact Hm | exact Hy].
Qed.

Lemma process_files_raises_only_on_unreadable_rules_witness :
  exists st',
    process_files Sample.yara Sample.chat_down default_config py_fuel
      false false ["a.yar"; "b.yar"]
      (Sample.start [("a.yar", Text Sample.broken_rule);
                     ("b.yar", Text Sample.weak_rule)])
    = Ok tt st'.
Proof.
  apply (proj2 (process_files_raises_only_on_unreadable_rules Sample.yara
                  Sample.chat_down default_config py_fuel false false
                  ["a.yar"; "b.yar"]
                  (Sample.start [("a.yar", Text Sample.broken_rule);
                                 ("b.yar", Text Sample.weak_rule)])
                  ltac:(unfold py_fuel; lia))).
  - repeat constructor; cbn; intuition discriminate.
  - intros name [<-|[<-|[]]] _; eexists; reflexivity.
  - right. intros d [->|[->|[->|[year ->]]]]; reflexivity.
Defined.

(** ** What the synthesis pass asks and writes *)

Definition prompts (events : list event) : list string :=
  flat_map (fun e => match e with Ask p => [p] | _ => [] end) events.

Lemma prompts_app a b : prompts (a ++ b) = prompts a ++ prompts b.
Proof. apply flat_map_app. Qed.

Lemma requests_prompts (events : list event) :
  requests events = length (prompts events).
Proof.
  unfold requests, prompts.
  induction events as [|e rest IH]; [reflexivity|].
  destruct e; cbn; try exact IH. rewrite IH. reflexivity.
Qed.

(** A text file stays a text file. *)
Definition texts_kept (fs0 fs1 : filesystem) : Prop :=
  forall p c, fs_lookup fs0 p = Some (Text c) ->
    exists c', fs_lookup fs1 p = Some (Text c').

Lemma texts_kept_refl fs0 : texts_kept fs0 fs0.
Proof. intros p c H. eauto. Qed.

Lemma texts_kept_trans fs0 fs1 fs2 :
  texts_kept fs0 fs1 -> texts_kept fs1 fs2 -> texts_kept fs0 fs2.
Proof.
  intros H1 H2 p c H. destruct (H1 p c H) as [c' H']. exact (H2 p c' H').
Qed.

Lemma texts_kept_write fs0 name text :
  texts_kept fs0 (fs_write (InRoot name) (Text text) fs0).
Proof.
  intros [n|d n|k] c H; cbn in *; eauto.
  destruct (decide (name = n)) as [->|Hne].
  - rewrite lookup_insert_eq. eauto.
  - rewrite lookup_insert_ne by exact Hne. eauto.
Qed.

Section SynthesisAudit.

Variable chat : nat -> string -> chat_reply.
Variable similar : string -> string -> bool.
Variable now : nat -> string.
Variable cfg : config.

(** A string that the clustering may put under [key] in the group of
    [category]. *)
Definition member_of (category key m : string) : Prop :=
  is_unacceptable_string m = false
  /\ categorize_string_length cfg m = category
  /\ (m = key \/ similar m key = true).

Definition like_strings (cluster : list string) : Prop :=
  exists category key, Forall (member_of category key) cluster.

(** A pattern that may enter a batch. *)
Definition passed_gate (regex : string) : Prop :=
  regex <> EmptyString /\ is_regex_too_complex cfg regex = false.

(** The two requests of the synthesis pass. *)
Definition prompt_ok (prompt : string) : Prop :=
  (exists cluster,
     prompt = regex_prompt cluster
     /\ MIN_CLUSTER_SIZE cfg <= length cluster
     /\ like_strings cluster)
  \/ (exists q batch,
        prompt = master_prompt cfg (initial_rule_content (now q) q batch)
        /\ length batch = MAX_REGEXES_PER_RULE cfg
        /\ Forall passed_gate batch).

(** What a stretch of the synthesis pass did, whether it came to its end
    or was cut short. *)
Record synth_audit (st st' : state) (events : list event) : Prop := {
  sa_trace : trace st' = events ++ trace st;
  sa_asked : asked st' = requests events + asked st;
  sa_requests :
    requests events = length (syntheses events) + length (improvements events);
  sa_prompts : Forall prompt_ok (prompts events);
  sa_syntheses :
    Forall (fun c => MIN_CLUSTER_SIZE cfg <= length c /\ like_strings c)
           (syntheses events);
  sa_accepted : Forall passed_gate (accepted events);
  sa_emitted : length (emitted events) <= length (improvements events);
  sa_texts : texts_kept (fs st) (fs st');
  sa_root : forall n, (forall t, ~ In (n, t) (emitted events)) ->
    root (fs st') !! n = root (fs st) !! n;
  sa_folders : folders (fs st') = folders (fs st);
  sa_dirs : dirs (fs st') = dirs (fs st);
  sa_temp : temp (fs st') = temp (fs st);
  sa_routes : routes events = [];
  sa_validations : validations events = 0
}.

Lemma synth_audit_refl st : synth_audit st st [].
Proof.
  split; cbn; try reflexivity; try constructor; try tauto.
  apply texts_kept_refl.
Qed.

Lemma synth_audit_trans st0 st1 st2 e1 e2 :
  synth_audit st0 st1 e1 -> synth_audit st1 st2 e2 ->
  synth_audit st0 st2 (e2 ++ e1).
Proof.
  intros F1 F2. split.
  - rewrite (sa_trace _ _ _ F2), (sa_trace _ _ _ F1). apply app_assoc.
  - rewrite (sa_asked _ _ _ F2), (sa_asked _ _ _ F1), requests_app. lia.
  - rewrite requests_app, syntheses_app, improvements_app, !length_app,
      (sa_requests _ _ _ F1), (sa_requests _ _ _ F2). lia.
  - rewrite prompts_app. apply Forall_app.
    split; [exact (sa_prompts _ _ _ F2) | exact (sa_prompts _ _ _ F1)].
  - rewrite syntheses_app. apply Forall_app.
    split; [exact (sa_syntheses _ _ _ F2) | exact (sa_syntheses _ _ _ F1)].
  - rewrite accepted_app. apply Forall_app.
    split; [exact (sa_accepted _ _ _ F2) | exact (sa_accepted _ _ _ F1)].
  - rewrite emitted_app, improvements_app, !length_app.
    pose proof (sa_emitted _ _ _ F1). pose proof (sa_emitted _ _ _ F2). lia.
  - eapply texts_kept_trans;
      [exact (sa_texts _ _ _ F1) | exact (sa_texts _ _ _ F2)].
  - intros n Hn. rewrite (sa_root _ _ _ F2).
    + apply (sa_root _ _ _ F1). intros t H.
      apply (Hn t). rewrite emitted_app, in_app_iff. auto.
    + intros t H. apply (Hn t). rewrite emitted_app, in_app_iff. auto.
  - rewrite (sa_folders _ _ _ F2). apply (sa_folders _ _ _ F1).
  - rewrite (sa_dirs _ _ _ F2). apply (sa_dirs _ _ _ F1).
  - rewrite (sa_temp _ _ _ F2). apply (sa_temp _ _ _ F1).
  - rewrite routes_app, (sa_routes _ _ _ F1), (sa_routes _ _ _ F2).
    reflexivity.
  - rewrite validations_app, (sa_validations _ _ _ F1),
      (sa_validations _ _ _ F2). reflexivity.
Qed.

Lemma truthy_not_empty (rx : string) :
  Py.truthy (Some rx) = true -> rx <> EmptyString.
Proof. intros H ->. discriminate H. Qed.

(** The first [if] of the loop body. *)
Lemma synthesize_cluster_audit (cluster batch : list string) (st : state) :
  (MIN_CLUSTER_SIZE cfg <= length cluster -> like_strings cluster) ->
  exists events cluster1,
    synthesize_cluster chat cfg cluster batch st
    = Ok (cluster1, batch ++ rev (accepted events))
         (advance events (requests events) (fs st) st)
    /\ (cluster1 = cluster \/ cluster1 = [])
    /\ synth_audit st (advance events (requests events) (fs st) st) events
    /\ length (accepted events) <= 1
    /\ improvements events = [].
Proof.
  intros Hsound. unfold synthesize_cluster.
  destruct (MIN_CLUSTER_SIZE cfg <=? length cluster) eqn:Hmin.
  2: { exists [], cluster. rewrite app_nil_r.
       split; [destruct st; reflexivity|]. split; [auto|].
       split; [|cbn; auto].
       replace (advance [] (requests []) (fs st) st) with st
         by (destruct st; reflexivity).
       apply synth_audit_refl. }
  apply Nat.leb_le in Hmin. specialize (Hsound Hmin).
  unfold bind at 1, emit at 1. unfold bind at 1.
  rewrite generate_regex_for_cluster_run. cbn [advance fs trace asked].
  assert (Hbase : forall rest : list event,
            (forall e, In e rest -> exists rx, e = Accepted rx
                                               /\ passed_gate rx) ->
            synth_audit st
              (advance (rest ++ [Ask (regex_prompt cluster);
                                 Synthesis cluster])
                 (requests (rest ++ [Ask (regex_prompt cluster);
                                     Synthesis cluster])) (fs st) st)
              (rest ++ [Ask (regex_prompt cluster); Synthesis cluster])).
  { intros rest Hrest.
    assert (Hreq : requests rest = 0 /\ syntheses rest = []
                   /\ improvements rest = [] /\ emitted rest = []
                   /\ routes rest = [] /\ validations rest = 0
                   /\ prompts rest = []
                   /\ Forall passed_gate (accepted rest)).
    { induction rest as [|e rest IH]; [cbn; auto 10|].
      destruct (Hrest e (or_introl eq_refl)) as (rx & -> & Hrx).
      destruct IH as (? & ? & ? & ? & ? & ? & ? & ?).
      { intros e He. apply Hrest. right. exact He. }
      cbn. repeat split; auto. }
    destruct Hreq as (R1 & R2 & R3 & R4 & R5 & R6 & R7 & R8).
    split; cbn [advance trace asked fs];
      rewrite ?requests_app, ?syntheses_app, ?improvements_app,
        ?emitted_app, ?routes_app, ?validations_app, ?prompts_app,
        ?accepted_app, ?R1, ?R2, ?R3, ?R4, ?R5, ?R6, ?R7; cbn;
      try reflexivity; try tauto; try lia.
    - constructor; [|constructor]. left. exists cluster. auto.
    - constructor; [|constructor]. auto.
    - rewrite app_nil_r. exact R8.
    - apply texts_kept_refl. }
  destruct (regex_of_reply (chat (asked st) (regex_prompt cluster)))
    as [rx|] eqn:Hregex.
  2: { exists [Ask (regex_prompt cluster); Synthesis cluster], cluster.
       rewrite app_nil_r. split; [reflexivity|]. split; [auto|].
       split; [|cbn; auto]. apply (Hbase []). intros e []. }
  destruct (Py.truthy (Some rx)) eqn:Htruthy.
  2: { exists [Ask (regex_prompt cluster); Synthesis cluster], cluster.
       rewrite app_nil_r. split; [reflexivity|]. split; [auto|].
       split; [|cbn; auto]. apply (Hbase []). intros e []. }
  unfold bind at 1.
  destruct (is_regex_too_complex cfg rx) eqn:Hgate.
  - exists [Ask (regex_prompt cluster); Synthesis cluster], [].
    rewrite app_nil_r. split; [reflexivity|]. split; [auto|].
    split; [|cbn; auto]. apply (Hbase []). intros e [].
  - exists [Accepted rx; Ask (regex_prompt cluster); Synthesis cluster], [].
    split; [reflexivity|]. split; [auto|].
    split; [|cbn; auto]. apply (Hbase [Accepted rx]).
    intros e [<-|[]]. exists rx. split; [reflexivity|].
    split; [apply truthy_not_empty; exact Htruthy | exact Hgate].
Qed.

(** What a flush leaves when the oracle fails. *)
Definition oracle_failed (e : exn) : Prop :=
  e = APIError
  /\ exists n content, chat n (master_prompt cfg content) = ChatError.

(** The loop body: the synthesis, then the flush of a full batch. *)
Lemma check_cluster_audit (cluster batch : list string) (seq : nat)
    (st : state) :
  (MIN_CLUSTER_SIZE cfg <= length cluster -> like_strings cluster) ->
  Forall passed_gate batch ->
  length batch < MAX_REGEXES_PER_RULE cfg ->
  exists events,
    synth_audit st
      (final (check_cluster chat now cfg cluster batch seq st)) events
    /\ match check_cluster chat now cfg cluster batch seq st with
       | Ok (cluster', batch', seq') _ =>
           (cluster' = cluster \/ cluster' = [])
           /\ Forall passed_gate batch'
           /\ length batch' < MAX_REGEXES_PER_RULE cfg
       | Raised e _ => oracle_failed e
       end.
Proof.
  intros Hsound Hbatch Hlen. unfold check_cluster, bind.
  destruct (synthesize_cluster_audit cluster batch st Hsound)
    as (e1 & cluster1 & Hs & Hcl & F1 & Hone & Himp).
  rewrite Hs.
  set (st1 := advance e1 (requests e1) (fs st) st) in *.
  set (batch1 := batch ++ rev (accepted e1)).
  assert (Hb1 : Forall passed_gate batch1).
  { apply Forall_app. split; [exact Hbatch|].
    apply List.Forall_rev. exact (sa_accepted _ _ _ F1). }
  assert (Hl1 : length batch1 <= MAX_REGEXES_PER_RULE cfg).
  { unfold batch1. rewrite length_app, length_rev. lia. }
  destruct (MAX_REGEXES_PER_RULE cfg <=? length batch1) eqn:Hfull.
  - apply Nat.leb_le in Hfull.
    rewrite flush_master_rule_run.
    set (prompt := master_prompt cfg
                     (initial_rule_content (now seq) seq batch1)).
    assert (Hprompt : prompt_ok prompt).
    { right. exists seq, batch1. split; [reflexivity|]. split; [lia|].
      exact Hb1. }
    destruct (chat (asked st1) prompt) as [content| |] eqn:Hreply;
      cbn [final fst snd ret].
    + exists ([Emit (master_rule_filename (now seq) seq) (Py.strip content);
               Ask prompt; Improve seq] ++ e1).
      split; [|split; [exact Hcl|]; split; [constructor | cbn; lia]].
      apply (synth_audit_trans _ _ _ _ _ F1).
      split; cbn [advance trace asked fs]; cbn; try reflexivity;
        try lia.
      * constructor; [exact Hprompt | constructor].
      * constructor.
      * constructor.
      * apply texts_kept_write.
      * intros n Hn. apply lookup_insert_ne. intros <-.
        apply (Hn (Py.strip content)). left. reflexivity.
    + exists ([Ask prompt; Improve seq] ++ e1).
      split; [|split; [exact Hcl|]; split; [constructor | cbn; lia]].
      apply (synth_audit_trans _ _ _ _ _ F1).
      split; cbn [advance trace asked fs]; cbn; try reflexivity;
        try lia; try tauto.
      * constructor; [exact Hprompt | constructor].
      * constructor.
      * constructor.
      * apply texts_kept_refl.
    + exists ([Ask prompt; Improve seq] ++ e1).
      split; [|unfold oracle_failed; split; [reflexivity|];
               exists (asked st1); eexists; exact Hreply].
      apply (synth_audit_trans _ _ _ _ _ F1).
      split; cbn [advance trace asked fs]; cbn; try reflexivity;
        try lia; try tauto.
      * constructor; [exact Hprompt | constructor].
      * constructor.
      * constructor.
      * apply texts_kept_refl.
  - apply Nat.leb_gt in Hfull. cbn [final ret].
    exists e1. split; [exact F1|]. split; [exact Hcl|].
    split; [exact Hb1 | exact Hfull].
Qed.

(** What the check after a file may do to a group. *)
Definition kept_or_emptied (before after : string * list string) : Prop :=
  fst after = fst before /\ (snd after = snd before \/ snd after = []).

Definition reached_are_like (g : cluster_group) : Prop :=
  Forall (fun kv => like_strings (snd kv)) g.

Lemma check_group_audit (g : cluster_group) (batch : list string)
    (seq : nat) (st : state) :
  reached_are_like g ->
  Forall passed_gate batch ->
  length batch < MAX_REGEXES_PER_RULE cfg ->
  exists events,
    synth_audit st (final (check_group chat now cfg g batch seq st)) events
    /\ match check_group chat now cfg g batch seq st with
       | Ok (g', batch', seq') _ =>
           Forall2 kept_or_emptied g g'
           /\ Forall passed_gate batch'
           /\ length batch' < MAX_REGEXES_PER_RULE cfg
       | Raised e _ => oracle_failed e
       end.
Proof.
  revert batch seq st.
  induction g as [|[key cluster] rest IH]; intros batch seq st Hg Hb Hl.
  - exists []. cbn. split; [apply synth_audit_refl|]. auto.
  - cbn [check_group]. unfold bind.
    inversion Hg as [|? ? Hc Hrest]; subst.
    destruct (check_cluster_audit cluster batch seq st (fun _ => Hc) Hb Hl)
      as (e1 & F1 & P1).
    destruct (check_cluster chat now cfg cluster batch seq st)
      as [[[cluster1 batch1] seq1] st1|e st1]; cbn [final] in F1.
    2: { exists e1. split; [exact F1 | exact P1]. }
    destruct P1 as (Hcl & Hb1 & Hl1).
    destruct (IH batch1 seq1 st1 Hrest Hb1 Hl1) as (e2 & F2 & P2).
    destruct (check_group chat now cfg rest batch1 seq1 st1)
      as [[[rest2 batch2] seq2] st2|e st2]; cbn [final] in F2.
    2: { exists (e2 ++ e1).
         split; [exact (synth_audit_trans _ _ _ _ _ F1 F2) | exact P2]. }
    destruct P2 as (Hk & Hb2 & Hl2). cbn [final ret].
    exists (e2 ++ e1).
    split; [exact (synth_audit_trans _ _ _ _ _ F1 F2)|].
    split; [|split; assumption].
    constructor; [|exact Hk]. split; [reflexivity|]. exact Hcl.
Qed.

(** The clusters of a group of [category], as the clustering builds
    them: under distinct keys, each with strings of that category that
    are the key or similar to it, none of them denylisted. *)
Definition group_sound (category : string) (g : cluster_group) : Prop :=
  NoDup (map fst g)
  /\ Forall (fun kv => member_of category (fst kv) (fst kv)
                       /\ Forall (member_of category (fst kv)) (snd kv)) g.

Definition clusters_sound (c : cluster_map) : Prop :=
  group_sound "short" (short_group c)
  /\ group_sound "medium" (medium_group c)
  /\ group_sound "long" (long_group c).

Lemma group_sound_like category g :
  group_sound category g -> reached_are_like g.
Proof.
  intros [_ H]. unfold reached_are_like.
  induction H as [|kv g [_ Hkv] _ IH]; constructor; [|exact IH].
  exists category, (fst kv). exact Hkv.
Qed.

Lemma kept_or_emptied_keys g g' :
  Forall2 kept_or_emptied g g' -> map fst g' = map fst g.
Proof.
  induction 1 as [|a b g g' [Hk _] _ IH]; [reflexivity|].
  cbn. rewrite Hk, IH. reflexivity.
Qed.

Lemma kept_or_emptied_sound category g g' :
  Forall2 kept_or_emptied g g' ->
  group_sound category g -> group_sound category g'.
Proof.
  intros Hk [Hnd Hall]. split.
  - rewrite (kept_or_emptied_keys _ _ Hk). exact Hnd.
  - clear Hnd. induction Hk as [|a b g g' [Hkey Hm] _ IH];
      [constructor|].
    apply Forall_cons in Hall. destruct Hall as [[Ha1 Ha2] Hrest].
    constructor; [|exact (IH Hrest)].
    rewrite Hkey. split; [exact Ha1|].
    destruct Hm as [-> | ->]; [exact Ha2 | constructor].
Qed.

Lemma check_clusters_audit (s : synth) (st : state) :
  clusters_sound (clusters s) ->
  Forall passed_gate (regex_patterns s) ->
  length (regex_patterns s) < MAX_REGEXES_PER_RULE cfg ->
  exists events,
    synth_audit st (final (check_clusters chat now cfg s st)) events
    /\ match check_clusters chat now cfg s st with
       | Ok s' _ =>
           clusters_sound (clusters s')
           /\ Forall passed_gate (regex_patterns s')
           /\ length (regex_patterns s') < MAX_REGEXES_PER_RULE cfg
       | Raised e _ => oracle_failed e
       end.
Proof.
  intros (G1 & G2 & G3) Hb Hl. unfold check_clusters, bind.
  destruct (check_group_audit (short_group (clusters s)) _
              (master_rule_seq s) st (group_sound_like _ _ G1) Hb Hl)
    as (e1 & F1 & P1).
  destruct (check_group chat now cfg (short_group (clusters s)) _ _ st)
    as [[[g1 b1] q1] st1|e st1]; cbn [final] in F1.
  2: { exists e1. split; [exact F1 | exact P1]. }
  destruct P1 as (K1 & Hb1 & Hl1).
  destruct (check_group_audit (medium_group (clusters s)) b1 q1 st1
              (group_sound_like _ _ G2) Hb1 Hl1) as (e2 & F2 & P2).
  destruct (check_group chat now cfg (medium_group (clusters s)) b1 q1 st1)
    as [[[g2 b2] q2] st2|e st2]; cbn [final] in F2.
  2: { exists (e2 ++ e1).
       split; [exact (synth_audit_trans _ _ _ _ _ F1 F2) | exact P2]. }
  destruct P2 as (K2 & Hb2 & Hl2).
  destruct (check_group_audit (long_group (clusters s)) b2 q2 st2
              (group_sound_like _ _ G3) Hb2 Hl2) as (e3 & F3 & P3).
  destruct (check_group chat now cfg (long_group (clusters s)) b2 q2 st2)
    as [[[g3 b3] q3] st3|e st3]; cbn [final] in F3.
  2: { exists (e3 ++ e2 ++ e1). split; [|exact P3].
       exact (synth_audit_trans _ _ _ _ _
                (synth_audit_trans _ _ _ _ _ F1 F2) F3). }
  destruct P3 as (K3 & Hb3 & Hl3). cbn [final ret].
  exists (e3 ++ e2 ++ e1). split.
  { exact (synth_audit_trans _ _ _ _ _
             (synth_audit_trans _ _ _ _ _ F1 F2) F3). }
  cbn [clusters regex_patterns short_group medium_group long_group].
  split; [|split; assumption].
  split; [|split]; eapply kept_or_emptied_sound; eassumption.
Qed.

(** *** The clustering *)

Lemma add_to_first_similar_sound category s g g' :
  is_unacceptable_string s = false ->
  categorize_string_length cfg s = category ->
  add_to_first_similar similar s g = Some g' ->
  group_sound category g -> group_sound category g'.
Proof.
  intros Hs Hc. revert g'.
  induction g as [|[key members] rest IH]; intros g' Hadd [Hnd Hall];
    [discriminate|].
  cbn [add_to_first_similar] in Hadd.
  apply Forall_cons in Hall. destruct Hall as [[Hk Hm] Hrest].
  cbn [map fst] in Hnd. apply NoDup_cons in Hnd. destruct Hnd as [Hnew Hnd].
  destruct (similar s key) eqn:Hsim.
  - injection Hadd as <-. split.
    + cbn [map fst]. apply NoDup_cons. auto.
    + constructor; [|exact Hrest]. cbn [fst snd] in *.
      split; [exact Hk|]. apply Forall_app. split; [exact Hm|].
      constructor; [|constructor]. split; [exact Hs|]. split; [exact Hc|].
      right. exact Hsim.
  - destruct (add_to_first_similar similar s rest) as [rest'|] eqn:Hr;
      [|discriminate].
    injection Hadd as <-.
    destruct (IH rest' eq_refl (conj Hnd Hrest)) as [Hnd' Hall'].
    assert (Hkeys : forall g1 g2,
              add_to_first_similar similar s g1 = Some g2 ->
              map fst g2 = map fst g1).
    { clear. induction g1 as [|[k m] g1 IHg]; intros g2 H; [discriminate|].
      cbn [add_to_first_similar] in H. destruct (similar s k).
      - injection H as <-. reflexivity.
      - destruct (add_to_first_similar similar s g1) as [g|]; [|discriminate].
        injection H as <-. cbn. rewrite (IHg g eq_refl). reflexivity. }
    split.
    + cbn [map fst]. apply NoDup_cons. rewrite (Hkeys _ _ Hr). auto.
    + constructor; [|exact Hall']. auto.
Qed.

Lemma dict_set_keys key value g x :
  x ∈ map fst (dict_set key value g) -> x = key \/ x ∈ map fst g.
Proof.
  induction g as [|[k m] rest IH]; cbn [dict_set].
  - cbn. intros H. apply list_elem_of_In in H. destruct H as [<-|[]]. auto.
  - destruct (String.eqb k key); cbn [map fst]; [auto|].
    rewrite !elem_of_cons. intros [->|H]; [auto|].
    destruct (IH H); auto.
Qed.

Lemma dict_set_sound category s g :
  is_unacceptable_string s = false ->
  categorize_string_length cfg s = category ->
  group_sound category g -> group_sound category (dict_set s [s] g).
Proof.
  intros Hs Hc.
  assert (Hself : member_of category s s).
  { split; [exact Hs|]. split; [exact Hc|]. left. reflexivity. }
  induction g as [|[k m] rest IH]; intros [Hnd Hall]; cbn [dict_set].
  - split; [cbn; apply NoDup_cons; split; [set_solver | constructor]|].
    constructor; [|constructor]. cbn. split; [exact Hself|].
    constructor; [exact Hself | constructor].
  - apply Forall_cons in Hall. destruct Hall as [[Hk Hm] Hrest].
    cbn [map fst] in Hnd. apply NoDup_cons in Hnd.
    destruct Hnd as [Hnew Hnd].
    destruct (String.eqb k s) eqn:Heq.
    + apply String.eqb_eq in Heq. subst k. split.
      * cbn [map fst]. apply NoDup_cons. auto.
      * constructor; [|exact Hrest]. cbn. split; [exact Hself|].
        constructor; [exact Hself | constructor].
    + apply String.eqb_neq in Heq.
      destruct (IH (conj Hnd Hrest)) as [Hnd' Hall']. split.
      * cbn [map fst]. apply NoDup_cons. split; [|exact Hnd'].
        intros Hin. apply dict_set_keys in Hin. destruct Hin; auto.
      * constructor; [|exact Hall']. auto.
Qed.

Lemma add_string_sound (s : string) (c : cluster_map) :
  clusters_sound c -> clusters_sound (add_string similar cfg s c).
Proof.
  intros (G1 & G2 & G3). unfold add_string.
  destruct (is_unacceptable_string s) eqn:Hs;
    [exact (conj G1 (conj G2 G3))|].
  assert (Hstep : forall category g,
            categorize_string_length cfg s = category ->
            group_sound category g ->
            group_sound category
              match add_to_first_similar similar s g with
              | Some g' => g'
              | None => dict_set s [s] g
              end).
  { intros category g Hc Hg.
    destruct (add_to_first_similar similar s g) as [g'|] eqn:Hadd.
    - exact (add_to_first_similar_sound _ _ _ _ Hs Hc Hadd Hg).
    - exact (dict_set_sound _ _ _ Hs Hc Hg). }
  cbv zeta.
  assert (Hcat : categorize_string_length cfg s = "short"
                 \/ categorize_string_length cfg s = "medium"
                 \/ categorize_string_length cfg s = "long").
  { unfold categorize_string_length.
    destruct (_ <=? _); [auto|]. destruct (_ <=? _); auto. }
  destruct Hcat as [Hc|[Hc|Hc]]; rewrite Hc.
  - specialize (Hstep "short" (short_group c) Hc G1).
    change (get_group c "short") with (short_group c).
    destruct (add_to_first_similar similar s (short_group c));
      unfold clusters_sound, set_group; cbn;
      (split; [|split]; assumption).
  - specialize (Hstep "medium" (medium_group c) Hc G2).
    change (get_group c "medium") with (medium_group c).
    destruct (add_to_first_similar similar s (medium_group c));
      unfold clusters_sound, set_group; cbn;
      (split; [|split]; assumption).
  - specialize (Hstep "long" (long_group c) Hc G3).
    change (get_group c "long") with (long_group c).
    destruct (add_to_first_similar similar s (long_group c));
      unfold clusters_sound, set_group; cbn;
      (split; [|split]; assumption).
Qed.

Lemma add_strings_sound (strings : list string) (c : cluster_map) :
  clusters_sound c -> clusters_sound (add_strings similar cfg strings c).
Proof.
  unfold add_strings. revert c.
  induction strings as [|s rest IH]; intros c Hc; [exact Hc|].
  cbn [fold_left]. apply IH, add_string_sound, Hc.
Qed.

Lemma empty_clusters_sound : clusters_sound empty_clusters.
Proof. repeat split; constructor. Qed.

(** *** One file, then the walk *)

Definition synth_inv (s : synth) : Prop :=
  clusters_sound (clusters s)
  /\ Forall passed_gate (regex_patterns s)
  /\ length (regex_patterns s) < MAX_REGEXES_PER_RULE cfg.

(** A rule of the walk that cannot be read where the pass stopped: it
    does not decode, or no file is there and [e] is what [open] raises
    then, [FileNotFoundError] or one of its kin. *)
Definition unreadable_at (walk : list path) (e : exn) (st' : state) : Prop :=
  exists p,
    In p walk /\ Py.endswith (basename p) ".yar" = true
    /\ ((e = UnicodeDecodeError /\ fs_lookup (fs st') p = Some Undecodable)
        \/ (e = no_file (fs st') p /\ fs_lookup (fs st') p = None)).

Lemma process_yara_file_audit (p : path) (s : synth) (st : state) :
  synth_inv s ->
  exists events,
    synth_audit st
      (final (process_yara_file chat similar now cfg p s st)) events
    /\ match process_yara_file chat similar now cfg p s st with
       | Ok s' _ => synth_inv s'
       | Raised e st' => oracle_failed e \/ unreadable_at [p] e st'
       end.
Proof.
  intros (Hc & Hb & Hl). unfold process_yara_file.
  destruct (Py.endswith (basename p) ".yar") eqn:Hyar.
  2: { exists []. split; [apply synth_audit_refl|].
       exact (conj Hc (conj Hb Hl)). }
  unfold bind, read_text, bind, get_fs.
  destruct (fs_lookup (fs st) p) as [[content|]|] eqn:Hf.
  - unfold emit, ret.
    set (st1 := {| fs := fs st; trace := Read p :: trace st;
                   asked := asked st |}).
    set (s1 := {| clusters := add_strings similar cfg
                                (extract_strings content) (clusters s);
                  regex_patterns := regex_patterns s;
                  master_rule_seq := master_rule_seq s |}).
    destruct (check_clusters_audit s1 st1) as (e & F & P).
    { apply add_strings_sound. exact Hc. }
    { exact Hb. }
    { exact Hl. }
    exists (e ++ [Read p]). split.
    + apply (synth_audit_trans st st1 _ [Read p] e); [|exact F].
      split; cbn; try reflexivity; try constructor; try tauto.
      apply texts_kept_refl.
    + destruct (check_clusters chat now cfg s1 st1); [exact P | left; exact P].
  - exists []. split; [apply synth_audit_refl|]. right.
    exists p. split; [left; reflexivity|]. split; [exact Hyar|].
    left. split; [reflexivity | exact Hf].
  - exists []. split; [apply synth_audit_refl|]. right.
    exists p. split; [left; reflexivity|]. split; [exact Hyar|].
    right. split; [reflexivity | exact Hf].
Qed.

Lemma process_walk_audit (walk : list path) (s : synth) (st : state) :
  synth_inv s ->
  exists events,
    synth_audit st (final (process_walk chat similar now cfg walk s st))
      events
    /\ match process_walk chat similar now cfg walk s st with
       | Ok s' _ => synth_inv s'
       | Raised e st' => oracle_failed e \/ unreadable_at walk e st'
       end.
Proof.
  revert s st. induction walk as [|p rest IH]; intros s st Hinv.
  - exists []. split; [apply synth_audit_refl | exact Hinv].
  - cbn [process_walk]. unfold bind.
    destruct (process_yara_file_audit p s st Hinv) as (e1 & F1 & P1).
    destruct (process_yara_file chat similar now cfg p s st)
      as [s1 st1|e st1]; cbn [final] in F1.
    2: { exists e1. split; [exact F1|]. destruct P1 as [H|H]; [left; exact H|].
         right. destruct H as (q & [<-|[]] & H). exists p.
         split; [left; reflexivity | exact H]. }
    destruct (IH s1 st1 P1) as (e2 & F2 & P2).
    exists (e2 ++ e1). split; [exact (synth_audit_trans _ _ _ _ _ F1 F2)|].
    destruct (process_walk chat similar now cfg rest s1 st1); [exact P2|].
    destruct P2 as [H|H]; [left; exact H|]. right.
    destruct H as (q & Hq & H). exists q. split; [right; exact Hq | exact H].
Qed.

End SynthesisAudit.

Lemma initial_synth_inv (similar : string -> string -> bool) (cfg : config) :
  0 < MAX_REGEXES_PER_RULE cfg -> synth_inv similar cfg initial_synth.
Proof.
  intros Hmax. split; [apply empty_clusters_sound|].
  split; [constructor | exact Hmax].
Qed.

(** *** The strings of a cluster *)

(** X10: every cluster for which the synthesis pass asks for a pattern, in a
    run that completes or not, has reached the minimum size and holds
    only strings of one length category, none of them with a denylisted
    marker, each of them the first string of the cluster or similar to
    it; and the clusters that are left when the pass completes are of
    that kind as well, under distinct keys. *)
Theorem process_yara_files_clusters_like_strings
    (chat : nat -> string -> chat_reply) (similar : string -> string -> bool)
    (now : nat -> string) (cfg : config) (walk : list path) (st : state) :
  0 < MAX_REGEXES_PER_RULE cfg ->
  exists events,
    trace (final (process_yara_files chat similar now cfg walk st))
    = events ++ trace st
    /\ Forall (fun cluster =>
                 MIN_CLUSTER_SIZE cfg <= length cluster
                 /\ exists category key,
                      Forall (member_of similar cfg category key) cluster)
              (syntheses events)
    /\ forall s' st',
         process_yara_files chat similar now cfg walk st = Ok s' st' ->
         clusters_sound similar cfg (clusters s').
Proof.
  intros Hmax. unfold process_yara_files.
  destruct (process_walk_audit chat similar now cfg walk initial_synth st
              (initial_synth_inv similar cfg Hmax)) as (events & F & P).
  exists events.
  split; [exact (sa_trace _ _ _ _ _ _ F)|].
  split; [exact (sa_syntheses _ _ _ _ _ _ F)|].
  intros s' st' Hrun. rewrite Hrun in P. exact (proj1 P).
Qed.

Lemma process_yara_files_clusters_like_strings_witness :
  exists events,
    trace (final (process_yara_files Corpus.chat_regex Corpus.similar
                    Corpus.now default_config (Corpus.walk_of Corpus.ten)
                    (Sample.start Corpus.ten)))
    = events ++ []
    /\ Forall (fun cluster =>
                 10 <= length cluster
                 /\ exists category key,
                      Forall (member_of Corpus.similar default_config
                                category key) cluster)
              (syntheses events).
Proof.
  destruct (process_yara_files_clusters_like_strings Corpus.chat_regex
              Corpus.similar Corpus.now default_config
              (Corpus.walk_of Corpus.ten) (Sample.start Corpus.ten))
    as (events & Htrace & Hsyn & _).
  - vm_compute. lia.
  - exists events. split; [exact Htrace | exact Hsyn].
Defined.

(** *** What the oracle is asked *)

(** X11: every request of the synthesis pass is one of two: for a pattern,
    over a cluster of like strings that has reached the minimum size; or
    for a master rule, over exactly [MAX_REGEXES_PER_RULE] patterns, each
    of them non-empty and let through by [is_regex_too_complex].  Only
    such patterns are ever appended to the batch, and the batch that is
    left when the pass completes is shorter than that. *)
Theorem process_yara_files_asks_only_vetted_batches
    (chat : nat -> string -> chat_reply) (similar : string -> string -> bool)
    (now : nat -> string) (cfg : config) (walk : list path) (st : state) :
  0 < MAX_REGEXES_PER_RULE cfg ->
  exists events,
    trace (final (process_yara_files chat similar now cfg walk st))
    = events ++ trace st
    /\ Forall (prompt_ok similar now cfg) (prompts events)
    /\ Forall (passed_gate cfg) (accepted events)
    /\ forall s' st',
         process_yara_files chat similar now cfg walk st = Ok s' st' ->
         Forall (passed_gate cfg) (regex_patterns s')
         /\ length (regex_patterns s') < MAX_REGEXES_PER_RULE cfg.
Proof.
  intros Hmax. unfold process_yara_files.
  destruct (process_walk_audit chat similar now cfg walk initial_synth st
              (initial_synth_inv similar cfg Hmax)) as (events & F & P).
  exists events.
  split; [exact (sa_trace _ _ _ _ _ _ F)|].
  split; [exact (sa_prompts _ _ _ _ _ _ F)|].
  split; [exact (sa_accepted _ _ _ _ _ _ F)|].
  intros s' st' Hrun. rewrite Hrun in P. exact (proj2 P).
Qed.

Lemma process_yara_files_asks_only_vetted_batches_witness :
  exists events,
    trace (final (process_yara_files Corpus.chat_regex Corpus.similar
                    Corpus.now default_config (Corpus.walk_of Corpus.big)
                    (Sample.start Corpus.big)))
    = events ++ []
    /\ Forall (prompt_ok Corpus.similar Corpus.now default_config)
              (prompts events).
Proof.
  destruct (process_yara_files_asks_only_vetted_batches Corpus.chat_regex
              Corpus.similar Corpus.now default_config
              (Corpus.walk_of Corpus.big) (Sample.start Corpus.big))
    as (events & Htrace & Hprompts & _).
  - vm_compute. lia.
  - exists events. split; [exact Htrace | exact Hprompts].
Defined.

(** *** The cost and the reach of a synthesis pass *)

(** X12: the synthesis pass asks the oracle once for each cluster it announces
    and once for each master rule it announces, and nothing else; it
    writes at most one file per announced master rule; it never runs the
    validator, not even on what it writes, and routes nothing.  Outside
    the master rules it writes, the file system is as it was: the
    sub-folders, the temporary directory and every other file of the
    root. *)
Theorem process_yara_files_cost_and_reach
    (chat : nat -> string -> chat_reply) (similar : string -> string -> bool)
    (now : nat -> string) (cfg : config) (walk : list path) (st : state) :
  0 < MAX_REGEXES_PER_RULE cfg ->
  let st' := final (process_yara_files chat similar now cfg walk st) in
  exists events,
    trace st' = events ++ trace st
    /\ asked st' = requests events + asked st
    /\ requests events
       = length (syntheses events) + length (improvements events)
    /\ length (emitted events) <= length (improvements events)
    /\ validations events = 0
    /\ routes events = []
    /\ folders (fs st') = folders (fs st)
    /\ dirs (fs st') = dirs (fs st)
    /\ temp (fs st') = temp (fs st)
    /\ (forall n, (forall t, ~ In (n, t) (emitted events)) ->
        root (fs st') !! n = root (fs st) !! n)
    /\ (forall p c, fs_lookup (fs st) p = Some (Text c) ->
        exists c', fs_lookup (fs st') p = Some (Text c')).
Proof.
  intros Hmax st'. unfold process_yara_files in st'.
  destruct (process_walk_audit chat similar now cfg walk initial_synth st
              (initial_synth_inv similar cfg Hmax)) as (events & F & _).
  fold st' in F. exists events.
  split; [exact (sa_trace _ _ _ _ _ _ F)|].
  split; [exact (sa_asked _ _ _ _ _ _ F)|].
  split; [exact (sa_requests _ _ _ _ _ _ F)|].
  split; [exact (sa_emitted _ _ _ _ _ _ F)|].
  split; [exact (sa_validations _ _ _ _ _ _ F)|].
  split; [exact (sa_routes _ _ _ _ _ _ F)|].
  split; [exact (sa_folders _ _ _ _ _ _ F)|].
  split; [exact (sa_dirs _ _ _ _ _ _ F)|].
  split; [exact (sa_temp _ _ _ _ _ _ F)|].
  split; [exact (sa_root _ _ _ _ _ _ F) | exact (sa_texts _ _ _ _ _ _ F)].
Qed.

Lemma process_yara_files_cost_and_reach_witness :
  exists events,
    trace (final (process_yara_files Corpus.chat_regex Corpus.similar
                    Corpus.now default_config (Corpus.walk_of Corpus.big)
                    (Sample.start Corpus.big)))
    = events ++ []
    /\ requests events
       = length (syntheses events) + length (improvements events)
    /\ validations events = 0.
Proof.
  destruct (process_yara_files_cost_and_reach Corpus.chat_regex
              Corpus.similar Corpus.now default_config
              (Corpus.walk_of Corpus.big) (Sample.start Corpus.big))
    as (events & Htrace & _ & Hreq & _ & Hval & _).
  - vm_compute. lia.
  - exists events. split; [exact Htrace|]. split; [exact Hreq | exact Hval].
Defined.

(** *** When a synthesis pass completes *)

(** X13: the synthesis pass raises in two cases only: the oracle fails on a
    request for a master rule, or a rule of the walk does not decode or
    is not there to be opened when its turn comes.  A failure of the oracle on a request
    for a pattern never leaves the pass.  So the pass completes when the
    rules of the walk are readable at the start and the oracle does not
    fail on master rules. *)
Theorem process_yara_files_raises_only_on_master_or_unreadable
    (chat : nat -> string -> chat_reply) (similar : string -> string -> bool)
    (now : nat -> string) (cfg : config) (walk : list path) (st : state) :
  0 < MAX_REGEXES_PER_RULE cfg ->
  (forall e st',
     process_yara_files chat similar now cfg walk st = Raised e st' ->
     oracle_failed chat cfg e \/ unreadable_at walk e st')
  /\ ((forall n content, chat n (master_prompt cfg content) <> ChatError) ->
      (forall p, In p walk -> Py.endswith (basename p) ".yar" = true ->
                 exists c, fs_lookup (fs st) p = Some (Text c)) ->
      exists s' st',
        process_yara_files chat similar now cfg walk st = Ok s' st').
Proof.
  intros Hmax. unfold process_yara_files.
  destruct (process_walk_audit chat similar now cfg walk initial_synth st
              (initial_synth_inv similar cfg Hmax)) as (events & F & P).
  split.
  - intros e st' Hrun. rewrite Hrun in P. exact P.
  - intros Hchat Hread.
    destruct (process_walk chat similar now cfg walk initial_synth st)
      as [s' st'|e st']; [eauto|].
    exfalso. cbn [final] in F.
    destruct P as [[_ (n & content & H)]|(p & Hp & Hyar & Hcase)].
    + exact (Hchat n content H).
    + destruct (Hread p Hp Hyar) as [c Hc].
      destruct (sa_texts _ _ _ _ _ _ F p c Hc) as [c' Hc'].
      destruct Hcase as [[_ H]|[_ H]]; congruence.
Qed.

Lemma process_yara_files_raises_only_on_master_or_unreadable_witness :
  exists s' st',
    process_yara_files Corpus.chat_without_master Corpus.similar Corpus.now
      default_config (Corpus.walk_of Corpus.ten) (Sample.start Corpus.ten)
    = Ok s' st'.
Proof.
  apply (proj2 (process_yara_files_raises_only_on_master_or_unreadable
                  Corpus.chat_without_master Corpus.similar Corpus.now
                  default_config (Corpus.walk_of Corpus.ten)
                  (Sample.start Corpus.ten) ltac:(vm_compute; lia))).
  - intros n content. unfold Corpus.chat_without_master.
    destruct (String.prefix _ _); discriminate.
  - intros p [<-|[]] _. eexists. reflexivity.
Defined.

(** ** What the extraction reads *)

Lemma span_spec (p : ascii -> bool) (s : string) :
  s = fst (Re.span p s) +:+ snd (Re.span p s)
  /\ forallb p (list_ascii_of_string (fst (Re.span p s))) = true
  /\ match snd (Re.span p s) with
     | String c _ => p c = false
     | EmptyString => True
     end.
Proof.
  induction s as [|c s (IH1 & IH2 & IH3)]; [cbn; auto|].
  cbn [Re.span]. destruct (p c) eqn:Hp.
  - destruct (Re.span p s) as [a b]. cbn [fst snd] in *.
    split; [rewrite append_cons; f_equal; exact IH1|].
    split; [cbn; rewrite Hp; exact IH2 | exact IH3].
  - cbn. auto.
Qed.

Lemma drop_prefix (p s : string) :
  String.prefix p s = true -> s = p +:+ Py.drop (Py.len p) s.
Proof.
  revert s. induction p as [|c p IH]; intros s H; [reflexivity|].
  destruct s as [|d s]; [discriminate|]. cbn in H.
  destruct (ascii_dec c d) as [<-|]; [|discriminate].
  rewrite append_cons. cbn [Py.len String.length Py.drop]. f_equal.
  apply IH. exact H.
Qed.

Lemma len_positive (s : string) : (0 <? Py.len s) = true -> s <> EmptyString.
Proof. intros H ->. discriminate H. Qed.

(** A line [$name = value] as [re] reads it: the name without blanks, the
    value up to the end of the line. *)
Definition assignment_at (suffix name value after : string) : Prop :=
  suffix = "$" +:+ name +:+ " = " +:+ value +:+ after
  /\ name <> EmptyString
  /\ forallb (fun c => negb (Py.isspace c)) (list_ascii_of_string name) = true
  /\ value <> EmptyString
  /\ forallb Py.not_newline (list_ascii_of_string value) = true
  /\ match after with
     | String c _ => c = Py.newline
     | EmptyString => True
     end.

Lemma string_assignment_sound (s value : string) (n : nat) :
  Re.string_assignment s = Some (value, n) ->
  exists name after, assignment_at s name value after.
Proof.
  unfold Re.string_assignment. destruct s as [|c s1]; [discriminate|].
  destruct (Ascii.eqb c "$") eqn:Hc; [|discriminate].
  apply Ascii.eqb_eq in Hc. subst c.
  destruct (span_spec (fun c => negb (Py.isspace c)) s1) as (E1 & N1 & _).
  destruct (Re.span (fun c => negb (Py.isspace c)) s1) as [name s2].
  cbn [fst snd] in *.
  destruct (0 <? Py.len name) eqn:Hname; [|discriminate]. cbn [andb].
  destruct (String.prefix " = " s2) eqn:Hsep; [|discriminate].
  apply drop_prefix in Hsep. cbn [Py.len String.length] in Hsep.
  destruct (span_spec Py.not_newline (Py.drop 3 s2)) as (E2 & N2 & R2).
  destruct (Re.span Py.not_newline (Py.drop 3 s2)) as [v after].
  cbn [fst snd] in *.
  destruct (0 <? Py.len v) eqn:Hv; [|discriminate].
  intros H. injection H as <- _.
  exists name, after. unfold assignment_at.
  split.
  { rewrite E1 at 1. rewrite Hsep at 1. rewrite E2 at 1. reflexivity. }
  split; [apply len_positive; exact Hname|].
  split; [exact N1|].
  split; [apply len_positive; exact Hv|].
  split; [exact N2|].
  destruct after as [|d after]; [exact I|].
  unfold Py.not_newline in R2. apply negb_false_iff in R2.
  apply Ascii.eqb_eq in R2. exact R2.
Qed.

Lemma scan_sound {A} (m : string -> option (A * nat)) (s : string)
    (skip : nat) (a : A) :
  In a (Re.scan m s skip) ->
  exists before suffix n, s = before +:+ suffix /\ m suffix = Some (a, n).
Proof.
  revert skip. induction s as [|c s IH]; intros skip H; [destruct H|].
  cbn [Re.scan] in H.
  assert (Hrest : forall k, In a (Re.scan m s k) ->
            exists before suffix n,
              String c s = before +:+ suffix /\ m suffix = Some (a, n)).
  { intros k Hk. destruct (IH k Hk) as (b & suf & n & -> & Hm).
    exists (String c b), suf, n. split; [reflexivity | exact Hm]. }
  destruct skip as [|k]; [|exact (Hrest k H)].
  destruct (m (String c s)) as [[a' n]|] eqn:Hm; [|exact (Hrest 0 H)].
  destruct H as [<-|H]; [|exact (Hrest _ H)].
  exists EmptyString, (String c s), n. split; [reflexivity | exact Hm].
Qed.

Lemma search_none {A} (m : string -> option A) (s : string) :
  Re.search m s = None <->
  forall k, k <= Py.len s -> m (Py.drop k s) = None.
Proof.
  induction s as [|c s IH].
  - cbn [Re.search]. split.
    + intros H k _. destruct (m EmptyString) eqn:Hm; [discriminate|].
      destruct k; exact Hm.
    + intros H. specialize (H 0 (Nat.le_0_l _)). cbn in H. rewrite H.
      reflexivity.
  - cbn [Re.search]. split.
    + intros H k Hk. destruct (m (String c s)) eqn:Hm; [discriminate|].
      destruct k as [|k]; [exact Hm|].
      cbn [Py.drop]. apply (proj1 IH H). cbn in Hk. unfold Py.len. lia.
    + intros H. pose proof (H 0 (Nat.le_0_l _)) as H0.
      cbn [Py.drop] in H0. rewrite H0. apply IH.
      intros k Hk. apply (H (S k)). cbn. unfold Py.len in Hk. lia.
Qed.

Lemma contains_false (sub s : string) :
  Py.contains sub s = false <->
  forall k, k <= Py.len s -> String.prefix sub (Py.drop k s) = false.
Proof.
  split.
  - intros H k _. destruct (String.prefix sub (Py.drop k s)) eqn:Hp;
      [|reflexivity].
    apply prefix_drop_contains in Hp. congruence.
  - apply no_prefix_no_contains.
Qed.

Lemma condition_clause_none (s : string) :
  Re.condition_clause s = None <-> String.prefix "condition:" s = false.
Proof.
  unfold Re.condition_clause.
  destruct (String.prefix "condition:" s).
  - destruct (Re.span Py.isspace (Py.drop 10 s)) as [a s1].
    destruct (Re.span Py.not_newline s1). split; discriminate.
  - split; reflexivity.
Qed.

(** X14: every string that the extraction gives is the value of a line
    [$name = value] of the rule, taken up to the end of its line: it is
    not empty and holds no newline.  The condition is missing exactly
    when the rule has no [condition:], and then the score is 0 whatever
    the strings are. *)
Theorem extract_strings_and_condition_sound (rule_content : string) :
  Forall (fun value =>
            exists before name after,
              rule_content
              = before +:+ "$" +:+ name +:+ " = " +:+ value +:+ after
              /\ assignment_at ("$" +:+ name +:+ " = " +:+ value +:+ after)
                   name value after)
         (extract_strings rule_content)
  /\ (extract_condition rule_content = None <->
      Py.contains "condition:" rule_content = false)
  /\ (Py.contains "condition:" rule_content = false ->
      calculate_complexity rule_content = 0%Q)
  /\ (Py.contains "$" rule_content = false ->
      extract_strings rule_content = []).
Proof.
  assert (Hcond : extract_condition rule_content = None <->
                  Py.contains "condition:" rule_content = false).
  { unfold extract_condition. rewrite contains_false.
    destruct (Re.search Re.condition_clause rule_content) eqn:Hs.
    - split; [discriminate|]. intros H. exfalso.
      assert (Hnone : Re.search Re.condition_clause rule_content = None).
      { apply search_none. intros k Hk. apply condition_clause_none.
        exact (H k Hk). }
      congruence.
    - split; [|reflexivity]. intros _ k Hk. apply condition_clause_none.
      exact (proj1 (search_none _ _) Hs k Hk). }
  assert (Hsound : Forall (fun value =>
            exists before name after,
              rule_content
              = before +:+ "$" +:+ name +:+ " = " +:+ value +:+ after
              /\ assignment_at ("$" +:+ name +:+ " = " +:+ value +:+ after)
                   name value after)
         (extract_strings rule_content)).
  { apply List.Forall_forall. intros value Hin.
    unfold extract_strings, Re.findall in Hin.
    destruct (scan_sound _ _ _ _ Hin) as (before & suffix & n & Htext & Hm).
    destruct (string_assignment_sound _ _ _ Hm) as (name & after & Hat).
    exists before, name, after.
    pose proof Hat as (Hsuffix & _). rewrite <- Hsuffix.
    split; [exact Htext | exact Hat]. }
  split; [exact Hsound|]. split; [exact Hcond|]. split.
  - intros H. unfold calculate_complexity.
    rewrite (proj2 Hcond H). reflexivity.
  - intros H. destruct (extract_strings rule_content) as [|v rest] eqn:He;
      [reflexivity|].
    exfalso. apply Forall_cons in Hsound.
    destruct Hsound as [(before & name & after & Htext & _) _].
    assert (Py.contains "$" rule_content = true); [|congruence].
    apply contains_spec. exists before, (name +:+ " = " +:+ v +:+ after).
    exact Htext.
Qed.

(** ** A draft master rule and the response screen *)

Lemma contains_append_r (sub a b : string) :
  Py.contains sub b = true -> Py.contains sub (a +:+ b) = true.
Proof.
  intros H. apply contains_spec in H. destruct H as (x & y & ->).
  apply contains_spec. exists (a +:+ x), y. symmetry. apply append_assoc.
Qed.

Lemma contains_append_l (sub a b : string) :
  Py.contains sub a = true -> Py.contains sub (a +:+ b) = true.
Proof.
  intros H. apply contains_spec in H. destruct H as (x & y & ->).
  apply contains_spec. exists x, (y +:+ b).
  rewrite !append_assoc. reflexivity.
Qed.

(** X15: the draft that the synthesis pass builds for a master rule names its
    strings [$regex0], [$regex1], ..., and [$regex] is one of the markers
    of [is_unacceptable_yara_rule_response]: a draft with at least one
    pattern is a text that the conversion and the repair would reject,
    and so is every text that holds it. *)
Theorem master_rule_draft_is_flagged (timestamp : string) (seq : nat)
    (batch : list string) (before after : string) :
  batch <> [] ->
  is_unacceptable_yara_rule_response
    (before +:+ initial_rule_content timestamp seq batch +:+ after) = true.
Proof.
  intros Hbatch. destruct batch as [|regex rest]; [contradiction|].
  apply any_in_spec.
  assert (H : Py.contains "$regex"
                (before +:+ initial_rule_content timestamp seq (regex :: rest)
                 +:+ after) = true).
  { apply contains_append_r, contains_append_l.
    unfold initial_rule_content.
    do 6 apply contains_append_r. apply contains_append_l.
    cbn [regex_lines]. apply contains_append_l. reflexivity. }
  apply contains_spec in H. destruct H as (a & b & H).
  exists "$regex", a, b. split; [|exact H].
  unfold error_conditions. cbn. tauto.
Qed.

Lemma master_rule_draft_is_flagged_witness :
  is_unacceptable_yara_rule_response
    (initial_rule_content "20240101_120000" 1 ["^[a-z]+$"]) = true.
Proof.
  apply (master_rule_draft_is_flagged "20240101_120000" 1 ["^[a-z]+$"]
           EmptyString EmptyString).
  discriminate.
Defined.

(** ** [validate_yara.main] *)

Section Main.

Variable yara : option file -> Z * string.
Variable chat : nat -> string -> chat_reply.
Variable cfg : config.

(** [os.listdir(YARA_FOLDER)], in the order the system gives. *)
Variable listdir : filesystem -> list string.

(** [main()], with the key that [OPENAI_API_KEY] or the environment
    gives. *)
Definition main (api_key : option string) (fuel : nat) : M unit :=
  if negb (Py.truthy api_key) then ret tt
  else
    initialize_folder (OUTPUT_NON_CVE_FOLDER cfg) ;;;
    initialize_folder (OUTPUT_WEAK_RULES_FOLDER cfg) ;;;
    initialize_folder (OUTPUT_BROKEN_RULES_FOLDER cfg) ;;;
    fs0 <- get_fs ;;
    process_files yara chat cfg fuel (COPY_MODE cfg) (SILENT_MODE cfg)
      (listdir fs0).

Definition output_folders : gset string :=
  {[ OUTPUT_NON_CVE_FOLDER cfg; OUTPUT_WEAK_RULES_FOLDER cfg;
     OUTPUT_BROKEN_RULES_FOLDER cfg ]}.

Lemma initialize_folder_run (folder : string) (st : state) :
  exists st',
    initialize_folder folder st = Ok tt st'
    /\ trace st' = trace st /\ asked st' = asked st
    /\ root (fs st') = root (fs st) /\ folders (fs st') = folders (fs st)
    /\ temp (fs st') = temp (fs st)
    /\ (forall x, x ∈ dirs (fs st')
                  <-> x ∈ dirs (fs st)
                      \/ (x = folder /\ root (fs st) !! folder = None)).
Proof.
  unfold initialize_folder, exists_in_root, bind, get_fs, ret, modify_fs.
  destruct (root (fs st) !! folder) as [g|] eqn:Hg.
  - exists st. do 6 (split; [reflexivity|]).
    intros x. split; [auto | intros [H|[_ H]]; [exact H | discriminate]].
  - destruct (decide (folder ∈ dirs (fs st))) as [Hin|Hout].
    + rewrite bool_decide_eq_true_2 by exact Hin.
      exists st. do 6 (split; [reflexivity|]).
      intros x. split; [auto | intros [H|[-> _]]; assumption].
    + rewrite bool_decide_eq_false_2 by exact Hout.
      eexists. split; [reflexivity|]. cbn [fs trace asked].
      do 5 (split; [reflexivity|]).
      intros x. cbn [fs_mkdir dirs].
      rewrite elem_of_union, elem_of_singleton. tauto.
Qed.

Lemma main_folders (st : state) :
  exists st1,
    (initialize_folder (OUTPUT_NON_CVE_FOLDER cfg) ;;;
     initialize_folder (OUTPUT_WEAK_RULES_FOLDER cfg) ;;;
     initialize_folder (OUTPUT_BROKEN_RULES_FOLDER cfg)) st = Ok tt st1
    /\ trace st1 = trace st /\ asked st1 = asked st
    /\ root (fs st1) = root (fs st) /\ folders (fs st1) = folders (fs st)
    /\ temp (fs st1) = temp (fs st)
    /\ (forall x, x ∈ dirs (fs st1)
                  <-> x ∈ dirs (fs st)
                      \/ (x ∈ output_folders /\ root (fs st) !! x = None)).
Proof.
  destruct (initialize_folder_run (OUTPUT_NON_CVE_FOLDER cfg) st)
    as (sa & Ra & Ta & Aa & Ro_a & Fa & Tm_a & Da).
  destruct (initialize_folder_run (OUTPUT_WEAK_RULES_FOLDER cfg) sa)
    as (sb & Rb & Tb & Ab & Ro_b & Fb & Tm_b & Db).
  destruct (initialize_folder_run (OUTPUT_BROKEN_RULES_FOLDER cfg) sb)
    as (sc & Rc & Tc & Ac & Ro_c & Fc & Tm_c & Dc).
  exists sc. unfold bind. rewrite Ra, Rb, Rc.
  split; [reflexivity|].
  do 5 (split; [congruence|]).
  intros x. rewrite Dc, Db, Da, Ro_b, Ro_a. unfold output_folders.
  rewrite !elem_of_union, !elem_of_singleton.
  split.
  - intros [[[H|[-> H]]|[-> H]]|[-> H]]; auto 6.
  - intros [H|[[[->| ->]| ->] H]]; auto 6.
Qed.

End Main.

(** X16: without a key [main] does nothing.  With one, before the routing
    pass and whatever the modes are, silent mode included, it creates
    each of the three fixed output folders whose name is not in use in
    the root; a name that is a file of the root gets no folder.  In
    silent mode these folders are all that it adds to the sub-folders,
    and with repair off as well they are the only change to the file
    system. *)
Theorem main_creates_output_folders_even_when_silent
    (yara : option file -> Z * string) (chat : nat -> string -> chat_reply)
    (cfg : config) (listdir : filesystem -> list string)
    (api_key : option string) (fuel : nat) (st : state) :
  2 <= fuel ->
  let st' := final (main yara chat cfg listdir api_key fuel st) in
  (Py.truthy api_key = false ->
   main yara chat cfg listdir api_key fuel st = Ok tt st)
  /\ (Py.truthy api_key = true ->
      (forall d, d ∈ output_folders cfg -> root (fs st) !! d = None ->
                 d ∈ dirs (fs st'))
      /\ dirs (fs st) ⊆ dirs (fs st')
      /\ (SILENT_MODE cfg = true ->
          (forall d, d ∈ dirs (fs st')
                     <-> d ∈ dirs (fs st)
                         \/ (d ∈ output_folders cfg
                             /\ root (fs st) !! d = None))
          /\ folders (fs st') = folders (fs st)
          /\ temp (fs st') = temp (fs st)
          /\ (FIX_BAD_RULES cfg = false -> root (fs st') = root (fs st)))).
Proof.
  intros Hfuel st'. unfold main in *.
  destruct (Py.truthy api_key) eqn:Hkey; cbn [negb] in *.
  2: { split; [reflexivity | discriminate]. }
  split; [discriminate|]. intros _.
  destruct (main_folders cfg st)
    as (st1 & Hrun & Ht & Ha & Hroot & Hfold & Htemp & Hdirs).
  assert (Hst' : st' = final (process_files yara chat cfg fuel (COPY_MODE cfg)
                                (SILENT_MODE cfg) (listdir (fs st1)) st1)).
  { unfold st'. unfold bind in *. unfold bind.
    destruct (initialize_folder (OUTPUT_NON_CVE_FOLDER cfg) st)
      as [[] sa|]; [|discriminate].
    destruct (initialize_folder (OUTPUT_WEAK_RULES_FOLDER cfg) sa)
      as [[] sb|]; [|discriminate].
    destruct (initialize_folder (OUTPUT_BROKEN_RULES_FOLDER cfg) sb)
      as [[] sc|]; [|discriminate].
    injection Hrun as ->. reflexivity. }
  destruct (process_files_effects yara chat cfg fuel (COPY_MODE cfg)
              (SILENT_MODE cfg) (listdir (fs st1)) st1 Hfuel)
    as (events & F).
  destruct (process_files_frame yara chat cfg fuel (COPY_MODE cfg)
              (SILENT_MODE cfg) (listdir (fs st1)) st1 Hfuel)
    as (events' & F').
  pose proof (pe_dirs _ _ _ _ _ _ F) as Hgrow.
  pose proof (pf_dirs _ _ _ _ _ _ F') as Hsame.
  pose proof (pf_folders _ _ _ _ _ _ F') as Hfolders.
  pose proof (pf_temp _ _ _ _ _ _ F') as Htemp'.
  pose proof (pe_read_only _ _ _ _ _ _ F) as Hro.
  rewrite <- Hst' in Hgrow, Hsame, Hfolders, Htemp', Hro.
  split; [intros d Hd Hfree; apply Hgrow, Hdirs; auto|].
  split; [intros x Hx; apply Hgrow, Hdirs; auto|].
  intros Hsilent.
  split. { intros d. rewrite (Hsame Hsilent). apply Hdirs. }
  split. { rewrite <- Hfold. apply map_eq. intros [d n].
           apply Hfolders. left. exact Hsilent. }
  split. { rewrite Htemp'. exact Htemp. }
  intros Hfix. rewrite (Hro Hsilent Hfix).
  exact Hroot.
Qed.

Lemma main_creates_output_folders_even_when_silent_witness :
  "weak-rules"
  ∈ dirs (fs (final (main Sample.yara Sample.chat_fixing default_config
                       (fun _ => ["a.yar"]) (Some "sk-key") py_fuel
                       (Sample.start [("a.yar", Text Sample.weak_rule)])))).
Proof.
  apply (proj1 (proj2 (main_creates_output_folders_even_when_silent
                         Sample.yara Sample.chat_fixing default_config
                         (fun _ => ["a.yar"]) (Some "sk-key") py_fuel
                         (Sample.start [("a.yar", Text Sample.weak_rule)])
                         ltac:(unfold py_fuel; lia))
                 eq_refl)).
  - unfold output_folders. cbn [OUTPUT_NON_CVE_FOLDER OUTPUT_WEAK_RULES_FOLDER
                                OUTPUT_BROKEN_RULES_FOLDER default_config].
    rewrite !elem_of_union, !elem_of_singleton. auto.
  - reflexivity.
Defined.

(** In a root where a file is named as the weak bucket, [main] makes
    the two other folders only. *)
Example main_makes_no_folder_over_a_file :
  dirs (fs (final (main Sample.yara Sample.chat_fixing default_config
                     (fun _ => ["a.yar"; "weak-rules"]) (Some "sk-key")
                     py_fuel bucket_name_taken)))
  = {["non-cve"; "broken"]}.
Proof. vm_compute. reflexivity. Qed.

(** * [convert_yara.py]: the conversion pass *)

Module ConvertYara.

(** The settings of [config.py] that only this script reads. *)
Record settings := {
  MAX_QUERIES_PER_RUN : Z;
  SKIP_FILES_LARGER_THAN_KB : Z
}.

Definition default_settings : settings :=
  {| MAX_QUERIES_PER_RUN := 15000; SKIP_FILES_LARGER_THAN_KB := 16 |}.

(** A file of [DOWNLOAD_FOLDER]: what [os.path.getsize] gives and what
    reading it gives, [None] when [open] raises [IOError]. *)
Record download := {
  size : nat;
  body : option file
}.

(** [FILE_PATTERN], a greedy group of one or more characters of a line,
    an underscore and a group of one or more digits.  [last_numbered]
    looks in a line for the last underscore that a digit follows, which
    is where the backtracking of the greedy group stops first. *)
Fixpoint last_numbered (line : string) : option (string * string) :=
  match line with
  | EmptyString => None
  | String c rest =>
      match last_numbered rest with
      | Some (p, n) => Some (String c p, n)
      | None =>
          if Ascii.eqb c "_" then
            let (digits, _) := Re.span Py.isdigit rest in
            if 0 <? Py.len digits then Some (EmptyString, digits) else None
          else None
      end
  end.

Definition file_pattern_at (s : string) : option (string * string) :=
  let (line, _) := Re.span Py.not_newline s in
  match line with
  | String c rest =>
      match last_numbered rest with
      | Some (p, n) => Some (String c p, n)
      | None => None
      end
  | EmptyString => None
  end.

(** [re.search(pattern, file_name)]: the groups 1 and 2. *)
Definition file_pattern (file_name : string) : option (string * string) :=
  Re.search file_pattern_at file_name.

(** [int] of a string of digits. *)
Definition int (digits : string) : Z :=
  fold_left (fun acc c => (10 * acc + (Z.of_nat (Py.ord c) - 48))%Z)
            (list_ascii_of_string digits) 0%Z.

(** [list.sort(key=..., reverse=True)]: by decreasing key, names with
    the same key in the order they had. *)
Fixpoint insert_by (key : string -> Z) (x : string) (l : list string)
    : list string :=
  match l with
  | [] => [x]
  | y :: rest =>
      if (key y <=? key x)%Z then x :: y :: rest
      else y :: insert_by key x rest
  end.

Definition sort_reverse (key : string -> Z) (l : list string)
    : list string :=
  fold_right (insert_by key) [] l.

Definition number_of (file_name : string) : Z :=
  match file_pattern file_name with
  | Some (_, number) => int number
  | None => 0%Z
  end.

Definition unmatched (file_name : string) : bool :=
  match file_pattern file_name with
  | Some _ => false
  | None => true
  end.

(** How [main] ends: as a computation of [M] does, or with the
    [AttributeError] that the key of the sort raises on a name that the
    pattern does not match. *)
Inductive main_result :=
  | Finished (r : result unit)
  | AttributeError (file_name : string) (st : state).

Definition output_name (identifier number : string) : string :=
  "yara_" +:+ identifier +:+ "_" +:+ number +:+ ".yar".

(** [os.path.exists] of a name directly under [YARA_FOLDER]. *)
Definition exists_in_root (fs0 : filesystem) (name : string) : bool :=
  match root fs0 !! name with
  | Some _ => true
  | None => bool_decide (name ∈ dirs fs0)
  end.

Section Conversion.

Variable chat : nat -> string -> chat_reply.

(** The text of the exception that the [n]-th request raises. *)
Variable error_message : nat -> string.

Variable conf : settings.

(** The files of [DOWNLOAD_FOLDER] by name. *)
Variable downloads : gmap string download.

Definition create_prompt (threat_identifier threat_number threat_text : string)
    : string :=
  let introduction := "I'm parsing threat investigations (e.g. exploits) and want to create YARA rules to detect them." in
  let instructions :=
    "Please suggest a solid YARA rule to detect re-usage of this threat in the wild "
    +:+ "by eg detecting the shellcode bytes, interesting strings, etc. It can be very specific, "
    +:+ "but be careful not to include server.com, your_ip or other placeholder in string detection rules." in
  let meta_section :=
    "Into the Meta section, please add a description, a reference URL and description containing "
    +:+ "the CVE number and notes about the threat. The only acceptable meta keys are description, "
    +:+ "reference and cve_id." in
  let rule_naming :=
    "Make sure to have the rule name be " +:+ threat_identifier +:+ "_"
    +:+ threat_number +:+ ". "
    +:+ "Do not use sub-rule syntax with a colon for the rule name, it has to be a clean rule name." in
  let additional_instructions :=
    "Please avoid using specific placeholders like 'your_IP', 'your_server', or 'your_IMPHASH' in the rule. "
    +:+ "Do not require a specific starting byte/offset in the rule or anything that talks about replacing a variable "
    +:+ "with something." in
  let final_request := "In your response, please do not include anything else except the final YARA rule." in
  introduction +:+ " " +:+ instructions +:+ " " +:+ meta_section +:+ " "
  +:+ rule_naming +:+ " " +:+ additional_instructions +:+ " "
  +:+ final_request +:+ nl +:+ nl +:+ threat_text.

(** What [create_yara_rule] makes of the reply to the [n]-th request. *)
Definition rule_of_reply (n : nat) (reply : chat_reply) : string :=
  match reply with
  | Choices message_content => extract_yara_rule message_content
  | NoChoices => "No suitable response received from the API."
  | ChatError => "Error generating YARA rule: " +:+ error_message n
  end.

Definition create_yara_rule
    (threat_identifier threat_number threat_text : string) : M string :=
  fun st =>
    match ask chat
            (create_prompt threat_identifier threat_number threat_text) st with
    | Ok reply st' => Ok (rule_of_reply (asked st) reply) st'
    | Raised e st' => Raised e st'
    end.

Definition write_yara_rule (file_name yara_rule : string) : M unit :=
  modify_fs (fs_write (InRoot file_name) (Text yara_rule)).

(** The loop of [main] over the sorted paths, with [query_count]. *)
Fixpoint convert_all (file_paths : list string) (query_count : nat)
    : M unit :=
  match file_paths with
  | [] => ret tt
  | file_name :: rest =>
      match file_pattern file_name with
      | None => convert_all rest query_count
      | Some (identifier, number) =>
          let output_file_name := output_name identifier number in
          fs0 <- get_fs ;;
          if exists_in_root fs0 output_file_name
          then convert_all rest query_count
          else
            match downloads !! file_name with
            | None => raise FileNotFoundError
            | Some d =>
                if (SKIP_FILES_LARGER_THAN_KB conf * 1048576
                    <=? Z.of_nat (size d))%Z
                then convert_all rest query_count
                else
                  match body d with
                  | Some (Text exploit_text) =>
                      if Py.len exploit_text <=? 0
                      then convert_all rest query_count
                      else
                        yara_rule <- create_yara_rule identifier number
                                       exploit_text ;;
                        (if is_unacceptable_yara_rule_response yara_rule
                         then ret tt
                         else write_yara_rule output_file_name yara_rule) ;;;
                        if (MAX_QUERIES_PER_RUN conf
                            <=? Z.of_nat (S query_count))%Z
                        then ret tt
                        else convert_all rest (S query_count)
                  | Some Undecodable => convert_all rest query_count
                  | None => convert_all rest query_count
                  end
            end
      end
  end.

(** [main()], with the key that the configuration or the environment
    gives and the paths that [glob] gives, by file name.  [YARA_FOLDER]
    is the root of the file system, which is there once [main] is past
    [os.makedirs]; on an empty list [main] prints and returns, which is
    what the loop over an empty list does. *)
Definition main (api_key : option string) (file_paths : list string)
    (st : state) : main_result :=
  if negb (Py.truthy api_key) then Finished (Ok tt st)
  else
    match List.find unmatched file_paths with
    | Some file_name => AttributeError file_name st
    | None => Finished (convert_all (sort_reverse number_of file_paths) 0 st)
    end.

End Conversion.

End ConvertYara.

(** ** What the conversion pass asks and writes *)

Definition final_state (r : ConvertYara.main_result) : state :=
  match r with
  | ConvertYara.Finished r => final r
  | ConvertYara.AttributeError _ st => st
  end.

Section ConversionFacts.

Variable chat : nat -> string -> chat_reply.
Variable error_message : nat -> string.
Variable conf : ConvertYara.settings.
Variable downloads : gmap string ConvertYara.download.

(** A request that the pass may make for the output [name]: over the
    text of a file of the work list that the pattern matches, that is
    below the size limit and reads as a non-empty text. *)
Definition request_of (file_paths : list string) (prompt name : string)
    : Prop :=
  exists file_name identifier number d exploit_text,
    In file_name file_paths
    /\ ConvertYara.file_pattern file_name = Some (identifier, number)
    /\ name = ConvertYara.output_name identifier number
    /\ downloads !! file_name = Some d
    /\ (Z.of_nat (ConvertYara.size d)
        < ConvertYara.SKIP_FILES_LARGER_THAN_KB conf * 1048576)%Z
    /\ ConvertYara.body d = Some (Text exploit_text)
    /\ exploit_text <> EmptyString
    /\ prompt = ConvertYara.create_prompt identifier number exploit_text.

(** A rule that the pass may write under [name]: what
    [create_yara_rule] makes of the reply to such a request. *)
Definition conversion_of (file_paths : list string) (name text : string)
    : Prop :=
  exists prompt k,
    request_of file_paths prompt name
    /\ text = ConvertYara.rule_of_reply error_message k (chat k prompt).

Definition absent (fs0 : filesystem) (name : string) : Prop :=
  root fs0 !! name = None /\ name ∉ dirs fs0.

Record convert_audit (file_paths : list string) (query_count : nat)
    (st st' : state) (events : list event) : Prop := {
  ca_trace : trace st' = events ++ trace st;
  ca_asked : asked st' = requests events + asked st;
  ca_events : Forall (fun e => exists prompt, e = Ask prompt) events;
  ca_budget :
    (Z.of_nat (requests events)
     <= Z.max 1 (ConvertYara.MAX_QUERIES_PER_RUN conf
                 - Z.of_nat query_count))%Z;
  ca_per_file : requests events <= length file_paths;
  ca_prompts :
    Forall (fun prompt => exists name,
              request_of file_paths prompt name /\ absent (fs st) name)
           (prompts events);
  ca_root : forall name,
    root (fs st') !! name = root (fs st) !! name
    \/ (absent (fs st) name
        /\ exists text,
             root (fs st') !! name = Some (Text text)
             /\ is_unacceptable_yara_rule_response text = false
             /\ conversion_of file_paths name text);
  ca_folders : folders (fs st') = folders (fs st);
  ca_dirs : dirs (fs st') = dirs (fs st);
  ca_temp : temp (fs st') = temp (fs st)
}.

Lemma convert_audit_refl file_paths q st : convert_audit file_paths q st st [].
Proof.
  split; cbn; try reflexivity; try constructor; try lia. auto.
Qed.

Lemma request_of_weaken file_name rest prompt name :
  request_of rest prompt name -> request_of (file_name :: rest) prompt name.
Proof.
  intros (f & i & n & d & t & Hin & H). exists f, i, n, d, t.
  split; [right; exact Hin | exact H].
Qed.

Lemma conversion_of_weaken file_name rest name text :
  conversion_of rest name text -> conversion_of (file_name :: rest) name text.
Proof.
  intros (p & k & H & E). exists p, k.
  split; [apply request_of_weaken; exact H | exact E].
Qed.

Lemma convert_audit_skip file_name rest q st st' events :
  convert_audit rest q st st' events ->
  convert_audit (file_name :: rest) q st st' events.
Proof.
  intros F. split.
  - exact (ca_trace _ _ _ _ _ F).
  - exact (ca_asked _ _ _ _ _ F).
  - exact (ca_events _ _ _ _ _ F).
  - exact (ca_budget _ _ _ _ _ F).
  - pose proof (ca_per_file _ _ _ _ _ F). cbn. lia.
  - eapply List.Forall_impl; [|exact (ca_prompts _ _ _ _ _ F)].
    intros p (n & H & A). exists n.
    split; [apply request_of_weaken; exact H | exact A].
  - intros name. destruct (ca_root _ _ _ _ _ F name)
      as [H|(A & text & H1 & H2 & H3)]; [left; exact H|].
    right. split; [exact A|]. exists text.
    split; [exact H1|]. split; [exact H2|].
    apply conversion_of_weaken. exact H3.
  - exact (ca_folders _ _ _ _ _ F).
  - exact (ca_dirs _ _ _ _ _ F).
  - exact (ca_temp _ _ _ _ _ F).
Qed.

(** One query, then the rest of the loop. *)
Lemma convert_audit_query file_name rest q st fs1 prompt name st' events :
  request_of [file_name] prompt name ->
  absent (fs st) name ->
  fs1 = fs st
  \/ (exists text,
        fs1 = fs_write (InRoot name) (Text text) (fs st)
        /\ is_unacceptable_yara_rule_response text = false
        /\ text = ConvertYara.rule_of_reply error_message (asked st)
                    (chat (asked st) prompt)) ->
  convert_audit rest (S q) (advance [Ask prompt] 1 fs1 st) st' events ->
  ((ConvertYara.MAX_QUERIES_PER_RUN conf <= Z.of_nat (S q))%Z ->
   events = []) ->
  convert_audit (file_name :: rest) q st st' (events ++ [Ask prompt]).
Proof.
  intros Hreq Habs Hfs F Hcap.
  assert (Hreq' : request_of (file_name :: rest) prompt name).
  { destruct Hreq as (f & i & n & d & t & [<-|[]] & H).
    exists file_name, i, n, d, t. split; [left; reflexivity | exact H]. }
  assert (Hdirs1 : dirs fs1 = dirs (fs st)).
  { destruct Hfs as [->|(text & -> & _)]; reflexivity. }
  assert (Hroot1 : forall n, n <> name -> root fs1 !! n = root (fs st) !! n).
  { intros n Hn. destruct Hfs as [->|(text & -> & _)]; [reflexivity|].
    cbn. apply lookup_insert_ne. congruence. }
  assert (Habs1 : forall n, absent fs1 n -> absent (fs st) n).
  { intros n [Hr Hd]. destruct (decide (n = name)) as [->|Hn];
      [exact Habs|].
    split; [rewrite <- (Hroot1 n Hn); exact Hr | rewrite <- Hdirs1; exact Hd]. }
  split.
  - rewrite (ca_trace _ _ _ _ _ F). cbn [advance trace].
    rewrite <- app_assoc. reflexivity.
  - rewrite (ca_asked _ _ _ _ _ F), requests_app. cbn [advance asked].
    cbn. lia.
  - apply Forall_app. split; [exact (ca_events _ _ _ _ _ F)|].
    constructor; [eauto | constructor].
  - rewrite requests_app. cbn [requests List.filter length].
    pose proof (ca_budget _ _ _ _ _ F) as Hb.
    destruct (Z_le_gt_dec (ConvertYara.MAX_QUERIES_PER_RUN conf)
                (Z.of_nat (S q))) as [Hle|Hgt].
    + rewrite (Hcap Hle). cbn. lia.
    + lia.
  - rewrite requests_app. pose proof (ca_per_file _ _ _ _ _ F). cbn. lia.
  - rewrite prompts_app. apply Forall_app. split.
    + eapply List.Forall_impl; [|exact (ca_prompts _ _ _ _ _ F)].
      intros p (n & H & A). exists n.
      split; [apply request_of_weaken; exact H|].
      apply Habs1. exact A.
    + constructor; [|constructor]. exists name. auto.
  - intros n. cbn [advance fs] in *.
    destruct (ca_root _ _ _ _ _ F n) as [H|(A & text & H1 & H2 & H3)].
    + cbn [advance fs] in H. destruct (decide (n = name)) as [->|Hn].
      * destruct Hfs as [->|(text & -> & Hflag & Htext)]; [left; exact H|].
        right. split; [exact Habs|]. exists text.
        split; [rewrite H; cbn; apply lookup_insert_eq|].
        split; [exact Hflag|]. exists prompt, (asked st).
        split; [exact Hreq' | exact Htext].
      * left. rewrite H. apply Hroot1. exact Hn.
    + right. cbn [advance fs] in A. split; [apply Habs1; exact A|].
      exists text. split; [exact H1|]. split; [exact H2|].
      apply conversion_of_weaken. exact H3.
  - rewrite (ca_folders _ _ _ _ _ F). cbn [advance fs].
    destruct Hfs as [->|(text & -> & _)]; reflexivity.
  - rewrite (ca_dirs _ _ _ _ _ F). exact Hdirs1.
  - rewrite (ca_temp _ _ _ _ _ F). cbn [advance fs].
    destruct Hfs as [->|(text & -> & _)]; reflexivity.
Qed.

Lemma exists_in_root_false (fs0 : filesystem) (name : string) :
  ConvertYara.exists_in_root fs0 name = false -> absent fs0 name.
Proof.
  unfold ConvertYara.exists_in_root, absent.
  destruct (root fs0 !! name); [discriminate|].
  intros H. apply bool_decide_eq_false in H. auto.
Qed.

(** The loop raises only at a file of the work list that is not there
    when its size is asked for. *)
Definition missing_download (file_paths : list string) (e : exn) : Prop :=
  e = FileNotFoundError
  /\ exists file_name, In file_name file_paths /\ downloads !! file_name = None.

Lemma convert_all_audit (file_paths : list string) (q : nat) (st : state) :
  exists events,
    convert_audit file_paths q st
      (final (ConvertYara.convert_all chat error_message conf downloads
                file_paths q st)) events
    /\ match ConvertYara.convert_all chat error_message conf downloads
               file_paths q st with
       | Ok _ _ => True
       | Raised e _ => missing_download file_paths e
       end.
Proof.
  revert q st. induction file_paths as [|file_name rest IH]; intros q st.
  - exists []. split; [apply convert_audit_refl | exact I].
  - assert (Hskip :
      exists events,
        convert_audit (file_name :: rest) q st
          (final (ConvertYara.convert_all chat error_message conf downloads
                    rest q st)) events
        /\ match ConvertYara.convert_all chat error_message conf downloads
                   rest q st with
           | Ok _ _ => True
           | Raised e _ => missing_download (file_name :: rest) e
           end).
    { destruct (IH q st) as (events & F & P). exists events.
      split; [apply convert_audit_skip; exact F|].
      destruct (ConvertYara.convert_all chat error_message conf downloads
                  rest q st); [exact I|].
      destruct P as (He & f & Hf & Hd). split; [exact He|].
      exists f. split; [right; exact Hf | exact Hd]. }
    cbn [ConvertYara.convert_all].
    destruct (ConvertYara.file_pattern file_name) as [[identifier number]|]
      eqn:Hpat; [|exact Hskip].
    unfold bind, get_fs.
    destruct (ConvertYara.exists_in_root (fs st)
                (ConvertYara.output_name identifier number)) eqn:Hex;
      [exact Hskip|].
    apply exists_in_root_false in Hex.
    destruct (downloads !! file_name) as [d|] eqn:Hd.
    2: { exists []. split; [apply convert_audit_refl|].
         split; [reflexivity|]. exists file_name.
         split; [left; reflexivity | exact Hd]. }
    destruct (ConvertYara.SKIP_FILES_LARGER_THAN_KB conf * 1048576
              <=? Z.of_nat (ConvertYara.size d))%Z eqn:Hsize;
      [exact Hskip|].
    apply Z.leb_gt in Hsize.
    destruct (ConvertYara.body d) as [[exploit_text|]|] eqn:Hbody;
      [|exact Hskip|exact Hskip].
    destruct (Py.len exploit_text <=? 0) eqn:Hlen; [exact Hskip|].
    assert (Hne : exploit_text <> EmptyString).
    { intros ->. discriminate Hlen. }
    set (prompt := ConvertYara.create_prompt identifier number exploit_text).
    set (name := ConvertYara.output_name identifier number) in *.
    assert (Hreq : request_of [file_name] prompt name).
    { exists file_name, identifier, number, d, exploit_text.
      split; [left; reflexivity|]. repeat split; auto. }
    unfold ConvertYara.create_yara_rule, ask. fold prompt.
    set (text := ConvertYara.rule_of_reply error_message (asked st)
                   (chat (asked st) prompt)).
    set (fs1 := if is_unacceptable_yara_rule_response text then fs st
                else fs_write (InRoot name) (Text text) (fs st)).
    assert (Hfs : fs1 = fs st
                  \/ (exists text0,
                        fs1 = fs_write (InRoot name) (Text text0) (fs st)
                        /\ is_unacceptable_yara_rule_response text0 = false
                        /\ text0 = ConvertYara.rule_of_reply error_message
                                     (asked st) (chat (asked st) prompt))).
    { unfold fs1.
      destruct (is_unacceptable_yara_rule_response text) eqn:Hflag;
        [left; reflexivity|].
      right. exists text. auto. }
    assert (Hstep :
      (if is_unacceptable_yara_rule_response text then ret tt
       else ConvertYara.write_yara_rule name text)
        {| fs := fs st; trace := Ask prompt :: trace st;
           asked := S (asked st) |}
      = Ok tt (advance [Ask prompt] 1 fs1 st)).
    { unfold fs1.
      destruct (is_unacceptable_yara_rule_response text); reflexivity. }
    rewrite Hstep.
    destruct (ConvertYara.MAX_QUERIES_PER_RUN conf <=? Z.of_nat (S q))%Z
      eqn:Hcap.
    + apply Z.leb_le in Hcap. exists ([] ++ [Ask prompt]).
      split; [|exact I]. cbn [final ret].
      apply (convert_audit_query file_name rest q st fs1 prompt name _ []
               Hreq Hex Hfs); [apply convert_audit_refl | auto].
    + apply Z.leb_gt in Hcap.
      destruct (IH (S q) (advance [Ask prompt] 1 fs1 st))
        as (events & F & P).
      exists (events ++ [Ask prompt]). split.
      * apply (convert_audit_query file_name rest q st fs1 prompt name _
                 events Hreq Hex Hfs F). lia.
      * destruct (ConvertYara.convert_all chat error_message conf downloads
                    rest (S q) (advance [Ask prompt] 1 fs1 st)); [exact I|].
        destruct P as (He & f & Hf & Hmiss). split; [exact He|].
        exists f. split; [right; exact Hf | exact Hmiss].
Qed.

(** *** The order of the work list *)

Lemma insert_by_In key x l y :
  In y (ConvertYara.insert_by key x l) <-> y = x \/ In y l.
Proof.
  induction l as [|z l IH]; cbn [ConvertYara.insert_by].
  - cbn. intuition.
  - destruct (key z <=? key x)%Z; cbn [In]; [intuition|].
    rewrite IH. intuition.
Qed.

Lemma sort_reverse_In key l y :
  In y (ConvertYara.sort_reverse key l) <-> In y l.
Proof.
  induction l as [|x l IH]; [reflexivity|].
  cbn [ConvertYara.sort_reverse fold_right].
  fold (ConvertYara.sort_reverse key l).
  rewrite insert_by_In, IH. cbn. intuition.
Qed.

Lemma insert_by_length key x l :
  length (ConvertYara.insert_by key x l) = S (length l).
Proof.
  induction l as [|z l IH]; [reflexivity|]. cbn [ConvertYara.insert_by].
  destruct (key z <=? key x)%Z; cbn; [reflexivity | rewrite IH; reflexivity].
Qed.

Lemma sort_reverse_length key l :
  length (ConvertYara.sort_reverse key l) = length l.
Proof.
  induction l as [|x l IH]; [reflexivity|].
  cbn [ConvertYara.sort_reverse fold_right].
  fold (ConvertYara.sort_reverse key l).
  rewrite insert_by_length, IH. reflexivity.
Qed.

Lemma request_of_sorted key l prompt name :
  request_of (ConvertYara.sort_reverse key l) prompt name ->
  request_of l prompt name.
Proof.
  intros (f & i & n & d & t & Hin & H). exists f, i, n, d, t.
  split; [apply (sort_reverse_In key); exact Hin | exact H].
Qed.

Lemma main_audit (api_key : option string) (file_paths : list string)
    (st : state) :
  exists events,
    convert_audit file_paths 0 st
      (final_state (ConvertYara.main chat error_message conf downloads
                      api_key file_paths st)) events.
Proof.
  unfold ConvertYara.main.
  destruct (negb (Py.truthy api_key));
    [exists []; apply convert_audit_refl|].
  destruct (List.find ConvertYara.unmatched file_paths);
    [exists []; apply convert_audit_refl|].
  cbn [final_state].
  destruct (convert_all_audit
              (ConvertYara.sort_reverse ConvertYara.number_of file_paths)
              0 st) as (events & F & _).
  exists events. split.
  - exact (ca_trace _ _ _ _ _ F).
  - exact (ca_asked _ _ _ _ _ F).
  - exact (ca_events _ _ _ _ _ F).
  - exact (ca_budget _ _ _ _ _ F).
  - rewrite <- (sort_reverse_length ConvertYara.number_of).
    exact (ca_per_file _ _ _ _ _ F).
  - eapply List.Forall_impl; [|exact (ca_prompts _ _ _ _ _ F)].
    intros p (n & H & A). exists n.
    split; [exact (request_of_sorted _ _ _ _ H) | exact A].
  - intros name. destruct (ca_root _ _ _ _ _ F name)
      as [H|(A & text & H1 & H2 & (p & k & H3 & H4))]; [left; exact H|].
    right. split; [exact A|]. exists text.
    split; [exact H1|]. split; [exact H2|]. exists p, k.
    split; [exact (request_of_sorted _ _ _ _ H3) | exact H4].
  - exact (ca_folders _ _ _ _ _ F).
  - exact (ca_dirs _ _ _ _ _ F).
  - exact (ca_temp _ _ _ _ _ F).
Qed.

End ConversionFacts.

(** A download folder with one small exploit, and an oracle that cannot
    be reached though its failure has a text. *)
Definition one_exploit : gmap string ConvertYara.download :=
  {[ "exploit_1.txt" :=
       {| ConvertYara.size := 100; ConvertYara.body := Some (Text "shellcode") |} ]}.

Definition timeout_message (n : nat) : string := "Request timed out.".

(** *** Nothing is overwritten, nothing unscreened is written *)

(** X17: however [main] ends, it leaves the sub-folders and the temporary
    directory alone and changes no file that was there: every file of
    the root is as before, or is new, under a name that was neither a
    file nor a folder, and holds a text that
    [is_unacceptable_yara_rule_response] lets through and that
    [create_yara_rule] made of the reply to the request for a file of
    the work list with that output name. *)
Theorem conversion_writes_only_new_screened_rules
    (chat : nat -> string -> chat_reply) (error_message : nat -> string)
    (conf : ConvertYara.settings)
    (downloads : gmap string ConvertYara.download)
    (api_key : option string) (file_paths : list string) (st : state) :
  let st' := final_state (ConvertYara.main chat error_message conf downloads
                            api_key file_paths st) in
  folders (fs st') = folders (fs st)
  /\ dirs (fs st') = dirs (fs st)
  /\ temp (fs st') = temp (fs st)
  /\ forall name,
       root (fs st') !! name = root (fs st) !! name
       \/ (root (fs st) !! name = None /\ (name ∉ dirs (fs st))
           /\ exists text,
                root (fs st') !! name = Some (Text text)
                /\ is_unacceptable_yara_rule_response text = false
                /\ conversion_of chat error_message conf downloads
                     file_paths name text).
Proof.
  intros st'.
  destruct (main_audit chat error_message conf downloads api_key file_paths
              st) as (events & F).
  fold st' in F.
  split; [exact (ca_folders _ _ _ _ _ _ _ _ _ F)|].
  split; [exact (ca_dirs _ _ _ _ _ _ _ _ _ F)|].
  split; [exact (ca_temp _ _ _ _ _ _ _ _ _ F)|].
  intros name.
  destruct (ca_root _ _ _ _ _ _ _ _ _ F name) as [H|([A1 A2] & H)];
    [left; exact H | right; auto].
Qed.

(** *** The cost of a conversion pass *)

(** X18: [main] asks the oracle at most once per path of the work list and at
    most [MAX_QUERIES_PER_RUN] times (once, when that limit is below 1);
    it does nothing but ask and write, so no rule it writes is ever
    validated; and each request is for a file that the pattern matches,
    that is below the size limit and reads as a non-empty text, and
    whose output name was neither a file nor a folder at the start. *)
Theorem conversion_cost
    (chat : nat -> string -> chat_reply) (error_message : nat -> string)
    (conf : ConvertYara.settings)
    (downloads : gmap string ConvertYara.download)
    (api_key : option string) (file_paths : list string) (st : state) :
  let st' := final_state (ConvertYara.main chat error_message conf downloads
                            api_key file_paths st) in
  exists events,
    trace st' = events ++ trace st
    /\ asked st' = requests events + asked st
    /\ requests events <= length file_paths
    /\ (Z.of_nat (requests events)
        <= Z.max 1 (ConvertYara.MAX_QUERIES_PER_RUN conf))%Z
    /\ Forall (fun e => exists prompt, e = Ask prompt) events
    /\ Forall (fun prompt =>
                 exists name,
                   request_of conf downloads file_paths prompt name
                   /\ root (fs st) !! name = None
                   /\ name ∉ dirs (fs st))
              (prompts events).
Proof.
  intros st'.
  destruct (main_audit chat error_message conf downloads api_key file_paths
              st) as (events & F).
  fold st' in F. exists events.
  split; [exact (ca_trace _ _ _ _ _ _ _ _ _ F)|].
  split; [exact (ca_asked _ _ _ _ _ _ _ _ _ F)|].
  split; [exact (ca_per_file _ _ _ _ _ _ _ _ _ F)|].
  split.
  { pose proof (ca_budget _ _ _ _ _ _ _ _ _ F) as H.
    rewrite Z.sub_0_r in H. exact H. }
  split; [exact (ca_events _ _ _ _ _ _ _ _ _ F)|].
  eapply List.Forall_impl; [|exact (ca_prompts _ _ _ _ _ _ _ _ _ F)].
  intros p (n & H & [A1 A2]). exists n. auto.
Qed.

(** *** How a conversion pass ends *)

(** X19: without a key [main] returns at once.  With one, it raises in two
    cases only: [AttributeError] from the key of the sort, before
    anything is done, when a path of the work list has a name that the
    pattern does not match; and [FileNotFoundError] when a file of the
    work list is gone when its size is asked for.  Files that cannot be
    read, replies without choices and failures of the oracle never leave
    it: when every name matches and every file is there, it returns. *)
Theorem conversion_raises_only_on_unmatched_or_missing
    (chat : nat -> string -> chat_reply) (error_message : nat -> string)
    (conf : ConvertYara.settings)
    (downloads : gmap string ConvertYara.download)
    (api_key : option string) (file_paths : list string) (st : state) :
  let run := ConvertYara.main chat error_message conf downloads api_key
               file_paths st in
  (Py.truthy api_key = false -> run = ConvertYara.Finished (Ok tt st))
  /\ (forall file_name st',
        run = ConvertYara.AttributeError file_name st' ->
        st' = st /\ In file_name file_paths
        /\ ConvertYara.file_pattern file_name = None)
  /\ (forall e st',
        run = ConvertYara.Finished (Raised e st') ->
        e = FileNotFoundError
        /\ exists file_name,
             In file_name file_paths /\ downloads !! file_name = None)
  /\ ((forall file_name, In file_name file_paths ->
         ConvertYara.file_pattern file_name <> None
         /\ downloads !! file_name <> None) ->
      exists st', run = ConvertYara.Finished (Ok tt st')).
Proof.
  intros run. unfold ConvertYara.main in run.
  destruct (Py.truthy api_key) eqn:Hkey; cbn [negb] in run.
  2: { subst run. split; [reflexivity|].
       split; [discriminate|]. split; [discriminate|]. eauto. }
  split; [discriminate|].
  destruct (List.find ConvertYara.unmatched file_paths) as [bad|] eqn:Hfind.
  - apply List.find_some in Hfind. destruct Hfind as [Hin Hbad].
    assert (Hnone : ConvertYara.file_pattern bad = None).
    { unfold ConvertYara.unmatched in Hbad.
      destruct (ConvertYara.file_pattern bad); [discriminate | reflexivity]. }
    subst run. split.
    { intros f st' H. injection H as <- <-. auto. }
    split; [discriminate|].
    intros Hall. destruct (Hall bad Hin) as [H _]. contradiction.
  - destruct (convert_all_audit chat error_message conf downloads
                (ConvertYara.sort_reverse ConvertYara.number_of file_paths)
                0 st) as (events & _ & P).
    subst run.
    destruct (ConvertYara.convert_all chat error_message conf downloads
                (ConvertYara.sort_reverse ConvertYara.number_of file_paths)
                0 st) as [[] st1|e st1].
    + split; [discriminate|]. split; [discriminate|]. eauto.
    + destruct P as (He & f & Hf & Hmiss).
      apply sort_reverse_In in Hf.
      split; [discriminate|]. split.
      * intros e' st' H. injection H as <- <-. eauto.
      * intros Hall. destruct (Hall f Hf) as [_ H]. contradiction.
Qed.

Lemma conversion_raises_only_on_unmatched_or_missing_witness :
  exists st',
    ConvertYara.main Sample.chat_fixing timeout_message
      ConvertYara.default_settings one_exploit (Some "sk-key")
      ["exploit_1.txt"] (Sample.start [])
    = ConvertYara.Finished (Ok tt st').
Proof.
  apply (proj2 (proj2 (proj2
           (conversion_raises_only_on_unmatched_or_missing
              Sample.chat_fixing timeout_message
              ConvertYara.default_settings one_exploit (Some "sk-key")
              ["exploit_1.txt"] (Sample.start []))))).
  intros file_name [<-|[]]. split; vm_compute; discriminate.
Defined.

(** *** A failure of the oracle is saved as a rule *)

(** X20: when the request for a file fails, [create_yara_rule] gives back the
    text of the failure behind [Error generating YARA rule: ], and unless
    that text happens to hold a marker of
    [is_unacceptable_yara_rule_response] the loop writes it as the rule
    of that file, where it stays to the end of the run; a reply without
    choices, on the other hand, is always screened out. *)
Theorem conversion_saves_oracle_failure_as_rule
    (chat : nat -> string -> chat_reply) (error_message : nat -> string)
    (conf : ConvertYara.settings)
    (downloads : gmap string ConvertYara.download)
    (file_name : string) (rest : list string) (query_count : nat)
    (st : state) (identifier number : string) (d : ConvertYara.download)
    (exploit_text : string) :
  let name := ConvertYara.output_name identifier number in
  let text := "Error generating YARA rule: " +:+ error_message (asked st) in
  ConvertYara.file_pattern file_name = Some (identifier, number) ->
  root (fs st) !! name = None ->
  name ∉ dirs (fs st) ->
  downloads !! file_name = Some d ->
  (Z.of_nat (ConvertYara.size d)
   < ConvertYara.SKIP_FILES_LARGER_THAN_KB conf * 1048576)%Z ->
  ConvertYara.body d = Some (Text exploit_text) ->
  exploit_text <> EmptyString ->
  chat (asked st) (ConvertYara.create_prompt identifier number exploit_text)
  = ChatError ->
  is_unacceptable_yara_rule_response text = false ->
  root (fs (final (ConvertYara.convert_all chat error_message conf downloads
                     (file_name :: rest) query_count st))) !! name
  = Some (Text text)
  /\ forall n,
       is_unacceptable_yara_rule_response
         (ConvertYara.rule_of_reply error_message n NoChoices) = true.
Proof.
  intros name text Hpat Hroot Hdirs Hd Hsize Hbody Hne Hreply Hflag.
  split; [|intros n; reflexivity].
  cbn [ConvertYara.convert_all]. rewrite Hpat. unfold bind, get_fs.
  fold name.
  assert (Hex : ConvertYara.exists_in_root (fs st) name = false).
  { unfold ConvertYara.exists_in_root. rewrite Hroot.
    apply bool_decide_eq_false. exact Hdirs. }
  rewrite Hex, Hd.
  apply Z.leb_gt in Hsize. rewrite Hsize, Hbody.
  destruct (Py.len exploit_text <=? 0) eqn:Hlen.
  { destruct exploit_text; [contradiction | discriminate Hlen]. }
  unfold ConvertYara.create_yara_rule, ask. rewrite Hreply.
  cbn [ConvertYara.rule_of_reply]. fold text. rewrite Hflag.
  unfold ConvertYara.write_yara_rule, modify_fs. cbn [fs trace asked].
  set (st1 := {| fs := fs_write (InRoot name) (Text text) (fs st);
                 trace := _; asked := _ |}).
  assert (H1 : root (fs st1) !! name = Some (Text text)).
  { cbn. apply lookup_insert_eq. }
  destruct (ConvertYara.MAX_QUERIES_PER_RUN conf
            <=? Z.of_nat (S query_count))%Z; [exact H1|].
  destruct (convert_all_audit chat error_message conf downloads rest
              (S query_count) st1) as (events & F & _).
  destruct (ca_root _ _ _ _ _ _ _ _ _ F name) as [H|([A _] & _)].
  - rewrite H. exact H1.
  - congruence.
Qed.

Lemma conversion_saves_oracle_failure_as_rule_witness :
  root (fs (final (ConvertYara.convert_all Sample.chat_down timeout_message
                     ConvertYara.default_settings one_exploit
                     ["exploit_1.txt"] 0 (Sample.start []))))
    !! "yara_exploit_1.yar"
  = Some (Text "Error generating YARA rule: Request timed out.").
Proof.
  apply (conversion_saves_oracle_failure_as_rule Sample.chat_down
           timeout_message ConvertYara.default_settings one_exploit
           "exploit_1.txt" [] 0 (Sample.start []) "exploit" "1"
           {| ConvertYara.size := 100;
              ConvertYara.body := Some (Text "shellcode") |} "shellcode").
  - vm_compute. reflexivity.
  - reflexivity.
  - apply not_elem_of_empty.
  - reflexivity.
  - vm_compute. reflexivity.
  - reflexivity.
  - discriminate.
  - reflexivity.
  - vm_compute. reflexivity.
Defined.

(** ** From the names of the downloader to the names of the rules *)

(** [download.py]: the name under which [download_data] stores the data
    of an id and under which [main] looks for it,
    [OUTPUT_FILE_PATTERN.format(data_id)] with the pattern of
    [config.py]; [str] of a natural number is [pretty]. *)
Definition download_file_name (data_id : nat) : string :=
  "exploit_" +:+ pretty data_id +:+ ".txt".

Definition all_chars (p : ascii -> bool) (s : string) : bool :=
  forallb p (list_ascii_of_string s).

Lemma all_chars_append p a b :
  all_chars p (a +:+ b) = all_chars p a && all_chars p b.
Proof.
  unfold all_chars. induction a as [|c a IH]; [reflexivity|].
  rewrite append_cons. cbn. rewrite IH. apply andb_assoc.
Qed.

Lemma pretty_N_go_append (x : N) (s : string) :
  pretty_N_go x s = pretty_N_go x EmptyString +:+ s.
Proof.
  revert s. induction (N.lt_wf_0 x) as [x _ IH]; intros s.
  destruct (N.eq_dec x 0%N) as [->|Hx]; [rewrite !pretty_N_go_0; reflexivity|].
  assert (Hpos : (0 < x)%N) by lia.
  rewrite (pretty_N_go_step x s), (pretty_N_go_step x EmptyString) by exact Hpos.
  assert (Hlt : (x `div` 10 < x)%N) by (apply N.div_lt; lia).
  rewrite (IH _ Hlt (String (pretty_N_char (x `mod` 10)) s)).
  rewrite (IH _ Hlt (String (pretty_N_char (x `mod` 10)) EmptyString)).
  rewrite append_assoc. reflexivity.
Qed.

Lemma pretty_N_char_digit (d : N) : Py.isdigit (pretty_N_char d) = true.
Proof.
  unfold pretty_N_char.
  destruct d as [|p]; [reflexivity|].
  do 4 (destruct p as [p|p|]; try reflexivity).
Qed.

Lemma pretty_N_char_value (d : N) :
  (d < 10)%N -> (Z.of_nat (Py.ord (pretty_N_char d)) - 48)%Z = Z.of_N d.
Proof.
  intros H.
  assert (d = 0 \/ d = 1 \/ d = 2 \/ d = 3 \/ d = 4 \/ d = 5 \/ d = 6
          \/ d = 7 \/ d = 8 \/ d = 9)%N as Hd by lia.
  repeat destruct Hd as [->|Hd]; try reflexivity. subst d. reflexivity.
Qed.

Lemma pretty_N_go_digits (x : N) :
  all_chars Py.isdigit (pretty_N_go x EmptyString) = true.
Proof.
  induction (N.lt_wf_0 x) as [x _ IH].
  destruct (N.eq_dec x 0%N) as [->|Hx]; [reflexivity|].
  rewrite pretty_N_go_step by lia. rewrite pretty_N_go_append.
  rewrite all_chars_append, IH by (apply N.div_lt; lia).
  unfold all_chars. cbn. rewrite pretty_N_char_digit. reflexivity.
Qed.

Lemma int_append (a b : string) :
  ConvertYara.int (a +:+ b)
  = fold_left (fun acc c => (10 * acc + (Z.of_nat (Py.ord c) - 48))%Z)
              (list_ascii_of_string b) (ConvertYara.int a).
Proof.
  unfold ConvertYara.int. generalize 0%Z.
  induction a as [|c a IH]; intros z; [reflexivity|].
  rewrite append_cons. cbn [list_ascii_of_string fold_left]. apply IH.
Qed.

Lemma pretty_N_go_value (x : N) :
  ConvertYara.int (pretty_N_go x EmptyString) = Z.of_N x.
Proof.
  induction (N.lt_wf_0 x) as [x _ IH].
  destruct (N.eq_dec x 0%N) as [->|Hx]; [reflexivity|].
  rewrite pretty_N_go_step by lia. rewrite pretty_N_go_append, int_append.
  rewrite IH by (apply N.div_lt; lia).
  cbn [list_ascii_of_string fold_left].
  rewrite pretty_N_char_value by (apply N.mod_lt; lia).
  rewrite (N.div_mod x 10) at 3 by lia. lia.
Qed.

Lemma pretty_N_go_not_empty (x : N) :
  (0 < x)%N -> pretty_N_go x EmptyString <> EmptyString.
Proof.
  intros Hx. rewrite pretty_N_go_step by exact Hx.
  rewrite pretty_N_go_append. intros H.
  apply (f_equal String.length) in H. rewrite length_append in H.
  cbn in H. lia.
Qed.

Lemma pretty_nat_digits (n : nat) :
  all_chars Py.isdigit (pretty n) = true
  /\ pretty n <> EmptyString
  /\ ConvertYara.int (pretty n) = Z.of_nat n.
Proof.
  unfold pretty, pretty_nat, pretty, pretty_N.
  destruct (decide (N.of_nat n = 0%N)) as [H0|Hn].
  - split; [reflexivity|]. split; [discriminate|].
    assert (n = 0) as -> by lia. reflexivity.
  - split; [apply pretty_N_go_digits|].
    split; [apply pretty_N_go_not_empty; lia|].
    rewrite pretty_N_go_value. lia.
Qed.

Lemma append_empty_r (s : string) : s +:+ EmptyString = s.
Proof.
  induction s as [|c s IH]; [reflexivity|].
  rewrite append_cons, IH. reflexivity.
Qed.

Lemma span_all (p : ascii -> bool) (a b : string) :
  all_chars p a = true ->
  match b with String c _ => p c = false | EmptyString => True end ->
  Re.span p (a +:+ b) = (a, b).
Proof.
  unfold all_chars. intros Ha Hb.
  induction a as [|c a IH].
  - change (EmptyString +:+ b) with b.
    destruct b as [|c b]; [reflexivity|]. cbn [Re.span]. rewrite Hb.
    reflexivity.
  - cbn in Ha. apply andb_prop in Ha. destruct Ha as [Hc Ha].
    rewrite append_cons. cbn [Re.span]. rewrite Hc, (IH Ha). reflexivity.
Qed.

Lemma last_numbered_none (s : string) :
  all_chars (fun c => negb (Ascii.eqb c "_")) s = true ->
  ConvertYara.last_numbered s = None.
Proof.
  unfold all_chars. induction s as [|c s IH]; [reflexivity|].
  cbn. intros H. apply andb_prop in H. destruct H as [Hc Hs].
  rewrite (IH Hs). apply negb_true_iff in Hc. rewrite Hc. reflexivity.
Qed.

Lemma all_chars_weaken (p q : ascii -> bool) (s : string) :
  (forall c, p c = true -> q c = true) ->
  all_chars p s = true -> all_chars q s = true.
Proof.
  unfold all_chars. intros Hpq.
  induction s as [|c s IH]; [reflexivity|].
  cbn. intros H. apply andb_prop in H. destruct H as [Hc Hs].
  rewrite (Hpq c Hc), (IH Hs). reflexivity.
Qed.

Lemma digit_facts (c : ascii) :
  Py.isdigit c = true ->
  negb (Ascii.eqb c "_") = true /\ Py.not_newline c = true.
Proof.
  unfold Py.isdigit, Py.not_newline, Py.ord. cbv zeta. intros H.
  apply andb_prop in H. destruct H as [H1 H2].
  apply Nat.leb_le in H1, H2.
  split; apply negb_true_iff, Ascii.eqb_neq; intros ->;
    vm_compute in H1, H2; lia.
Qed.

Lemma file_pattern_of_download (digits : string) :
  all_chars Py.isdigit digits = true ->
  digits <> EmptyString ->
  ConvertYara.file_pattern ("exploit_" +:+ digits +:+ ".txt")
  = Some ("exploit", digits).
Proof.
  intros Hd Hne.
  assert (Htail : ConvertYara.last_numbered (digits +:+ ".txt") = None).
  { apply last_numbered_none. rewrite all_chars_append.
    rewrite (all_chars_weaken Py.isdigit _ digits
               (fun c H => proj1 (digit_facts c H)) Hd).
    reflexivity. }
  assert (Hspan : Re.span Py.isdigit (digits +:+ ".txt") = (digits, ".txt")).
  { apply span_all; [exact Hd | reflexivity]. }
  assert (Hline : Re.span Py.not_newline ("exploit_" +:+ digits +:+ ".txt")
                  = ("exploit_" +:+ digits +:+ ".txt", EmptyString)).
  { rewrite <- (append_empty_r ("exploit_" +:+ digits +:+ ".txt")) at 1.
    apply span_all; [|exact I].
    rewrite !all_chars_append.
    rewrite (all_chars_weaken Py.isdigit _ digits
               (fun c H => proj2 (digit_facts c H)) Hd).
    reflexivity. }
  unfold ConvertYara.file_pattern.
  assert (Hat : ConvertYara.file_pattern_at
                  ("exploit_" +:+ digits +:+ ".txt")
                = Some ("exploit", digits)).
  { unfold ConvertYara.file_pattern_at. rewrite Hline.
    change ("exploit_" +:+ digits +:+ ".txt")
      with (String "e" (String "x" (String "p" (String "l" (String "o"
             (String "i" (String "t" (String "_"
                (digits +:+ ".txt"))))))))).
    cbn [ConvertYara.last_numbered]. rewrite Htail, Hspan.
    cbn [Ascii.eqb Bool.eqb].
    destruct digits as [|c digits]; [contradiction|]. reflexivity. }
  change ("exploit_" +:+ digits +:+ ".txt")
    with (String "e" ("xploit_" +:+ digits +:+ ".txt")) in *.
  cbn [Re.search]. rewrite Hat. reflexivity.
Qed.

(** X21: the names that the downloader gives to its files are names that the
    conversion reads back: the pattern matches each of them, with the
    identifier [exploit] and the decimal id as the number, so the key of
    the sort never raises on them and is the id itself; and the rules of
    two ids get two names. *)
Theorem downloaded_names_are_read_back (data_id : nat) :
  ConvertYara.file_pattern (download_file_name data_id)
  = Some ("exploit", pretty data_id)
  /\ ConvertYara.unmatched (download_file_name data_id) = false
  /\ ConvertYara.number_of (download_file_name data_id) = Z.of_nat data_id
  /\ forall other : nat,
       ConvertYara.output_name "exploit" (pretty data_id)
       = ConvertYara.output_name "exploit" (pretty other) ->
       data_id = other.
Proof.
  destruct (pretty_nat_digits data_id) as (Hd & Hne & Hint).
  pose proof (file_pattern_of_download _ Hd Hne) as Hpat.
  unfold download_file_name, ConvertYara.unmatched, ConvertYara.number_of.
  rewrite Hpat. split; [reflexivity|]. split; [reflexivity|].
  split; [exact Hint|].
  intros other H. unfold ConvertYara.output_name in H.
  apply String.app_inj in H. apply String.app_inj in H.
  apply String.app_inj in H. apply append_inv_tail in H.
  exact (pretty_nat_inj _ _ H).
Qed.

(** ** The screens come before the validator *)

(** X22: a readable rule that one of the three textual tests catches
    (the score, a weak indicator, an unknown or placeholder CVE) is routed
    as it is: the validator is not run on it and the oracle is not asked,
    so it is never repaired, even when its syntax is broken, and what
    lands in the sub-folder is its text; when the name of that sub-folder
    is a file of the root and the mode is not silent, nothing lands: the
    pass raises and the file system is as it was.  Every other rule is
    validated once or twice, with at most one request. *)
Theorem screened_rules_are_never_validated
    (yara : option file -> Z * string) (chat : nat -> string -> chat_reply)
    (cfg : config) (fuel : nat) (copy_mode silent_mode : bool)
    (name content : string) (st : state) :
  2 <= fuel ->
  Py.endswith name ".yar" = true ->
  root (fs st) !! name = Some (Text content) ->
  let run := process_file yara chat cfg fuel copy_mode silent_mode name st in
  let st' := final run in
  (forall folder,
     early_destination cfg content = Some folder ->
     trace st' = [Route name folder; Read (InRoot name)] ++ trace st
     /\ asked st' = asked st
     /\ (forall f, root (fs st') !! name = Some f -> f = Text content)
     /\ (silent_mode = false -> root (fs st) !! folder = None ->
         run = Ok tt st'
         /\ folders (fs st') !! (folder, name) = Some (Text content))
     /\ (silent_mode = false -> is_Some (root (fs st) !! folder) ->
         run = Raised NotADirectoryError st' /\ fs st' = fs st))
  /\ (early_destination cfg content = None ->
      exists events,
        trace st' = events ++ [Read (InRoot name)] ++ trace st
        /\ 1 <= validations events <= 2
        /\ requests events <= 1).
Proof.
  intros Hfuel Hyar Hf run st'. unfold st', run.
  rewrite (process_file_text yara chat cfg fuel copy_mode silent_mode name
             content st Hfuel Hyar Hf).
  unfold process_file_result.
  destruct (early_destination cfg content) as [folder|].
  - split; [|discriminate]. intros ? [= <-].
    rewrite final_route_result. unfold route_result, blocked.
    unfold route_to, routed_fs. cbn [advance trace asked fs].
    split; [reflexivity|]. split; [reflexivity|].
    destruct silent_mode; cbn [negb andb].
    + split; [|split; discriminate]. intros f H. rewrite Hf in H. congruence.
    + rewrite Hf.
      destruct (root (fs st) !! folder) as [g|] eqn:Hg.
      * rewrite (bool_decide_eq_true_2 (is_Some (Some g))) by eauto.
        split; [intros f H; rewrite Hf in H; congruence|].
        split; [discriminate|]. intros _ _. split; reflexivity.
      * rewrite (bool_decide_eq_false_2 (is_Some (@None file)))
          by apply is_Some_None.
        split.
        { intros f H. destruct copy_mode;
            destruct (bool_decide (folder ∈ dirs (fs st))); cbn in H;
            rewrite ?lookup_delete_eq in H; congruence. }
        split.
        { intros _ _. split; [reflexivity|]. destruct copy_mode;
            destruct (bool_decide (folder ∈ dirs (fs st))); cbn;
            apply lookup_insert_eq. }
        intros _ H. destruct (is_Some_None H).
  - split; [discriminate|]. intros _.
    destruct (syntax_outcome_cost yara chat cfg name content
                (advance [Read (InRoot name)] 0 (fs st) st))
      as (events & fs' & Hs & Hroutes & Hreq & Hval & _).
    rewrite Hs.
    destruct (late_destination cfg content _) as [folder|];
      rewrite final_route_result; unfold route_to; cbn [advance trace].
    + exists (Route name folder :: events).
      split; [reflexivity|].
      change (validations (Route name folder :: events))
        with (validations events).
      change (requests (Route name folder :: events))
        with (requests events).
      lia.
    + exists events. split; [reflexivity|]. lia.
Qed.

Lemma screened_rules_are_never_validated_witness :
  trace (final (process_file Sample.yara Sample.chat_fixing default_config
                  py_fuel false false "a.yar"
                  (Sample.start [("a.yar", Text Sample.weak_rule)])))
  = [Route "a.yar" "weak-rules"; Read (InRoot "a.yar")] ++ [].
Proof.
  apply (proj1 (screened_rules_are_never_validated Sample.yara
                  Sample.chat_fixing default_config py_fuel false false
                  "a.yar" Sample.weak_rule
                  (Sample.start [("a.yar", Text Sample.weak_rule)])
                  ltac:(unfold py_fuel; lia) eq_refl eq_refl)).
  vm_compute. reflexivity.
Defined.
